(** * Slidev API server: the lifecycle orchestration core

    A shallow embedding of the presentation service of
    [packages/api-server/src]: the port allocator ([port-manager.ts]), the
    project scaffolder ([project-generator.ts]), the instance registry
    ([presentation-manager.ts]), the request validation ([validation.ts])
    and the two routes that create and extend a presentation
    ([routes.ts]), together with the slide-file writer of the container
    variant ([docker-manager.ts]).

    Conventions of the embedding.
    - A JavaScript string is a [string], one [ascii] per UTF-16 code unit
      (the code units below 256).
    - A JavaScript number that holds a port, a time stamp or a duration is
      an integer of [Z]; a [Date] is its number of milliseconds.
    - The [Map] of instances is a [gmap] keyed by the instance id, the [Set]
      of allocated ports a [gset Z]; a plain object whose enumeration order
      is observable (the frontmatter) is an association list kept in the
      order [Object.entries] lists it.
    - An [async] method is a state transformer over the [World]; what the
      host decides (random ids, the clock, the file system, the port probe,
      the child process) is read from an [Env] record, so every statement
      quantifies over all behaviours of the host.
    - A thrown exception is the left injection of the result. *)

From Stdlib Require Import ZArith Ascii String List Lia.
From stdpp Require Import gmap strings list fin_maps pretty.

Set Warnings "-register-all".

(** ** JavaScript values *)

Module Js.

(** The values of JSON; of the numbers, the integers. *)
Inductive json : Type :=
  | JNull
  | JBool (b : bool)
  | JNum (z : Z)
  | JStr (s : string)
  | JArr (items : list json)
  | JObj (props : list (string * json)).

(** Own enumerable string-keyed properties, in enumeration order. *)
Definition object : Type := list (string * json).

Definition dquote : string := String "034"%char EmptyString.
Definition backslash : string := String "092"%char EmptyString.
Definition newline : string := String "010"%char EmptyString.

(** [typeof v === 'string'] *)
Definition is_string (v : json) : bool :=
  match v with JStr _ => true | _ => false end.

(** [Array.prototype.join] on strings. *)
Fixpoint join (sep : string) (l : list string) : string :=
  match l with
  | [] => EmptyString
  | [s] => s
  | s :: rest => s +:+ sep +:+ join sep rest
  end.

(** *** Property order

    An ordinary object lists the keys that are array indices first, in
    ascending numeric order, and then the other string keys in the order
    of their creation. *)

Definition is_digit (c : ascii) : bool :=
  let n := nat_of_ascii c in (48 <=? n)%nat && (n <=? 57)%nat.

Fixpoint digits_value (s : string) (acc : N) : option N :=
  match s with
  | EmptyString => Some acc
  | String c s' =>
      if is_digit c
      then digits_value s' (acc * 10 + N.of_nat (nat_of_ascii c - 48))%N
      else None
  end.

(** The canonical numeric strings below [2^32 - 1]. *)
Definition array_index (s : string) : option N :=
  match s with
  | EmptyString => None
  | String c s' =>
      if bool_decide (c = "0"%char) && negb (bool_decide (s' = EmptyString))
      then None
      else match digits_value s 0 with
           | Some n => if (n <? 4294967295)%N then Some n else None
           | None => None
           end
  end.

Fixpoint obj_get (k : string) (o : object) : option json :=
  match o with
  | [] => None
  | (k', v) :: o' => if decide (k' = k) then Some v else obj_get k o'
  end.

Definition obj_has (k : string) (o : object) : bool :=
  match obj_get k o with Some _ => true | None => false end.

(** Overwrite the value of an existing key; its position stays. *)
Fixpoint obj_replace (k : string) (v : json) (o : object) : object :=
  match o with
  | [] => []
  | (k', v') :: o' =>
      if decide (k' = k) then (k, v) :: o' else (k', v') :: obj_replace k v o'
  end.

(** Create an array-index key: before the first larger index, or before
    the first key that is no index. *)
Fixpoint obj_insert_index (n : N) (k : string) (v : json) (o : object) : object :=
  match o with
  | [] => [(k, v)]
  | (k', v') :: o' =>
      match array_index k' with
      | Some n' =>
          if (n <? n')%N then (k, v) :: o
          else (k', v') :: obj_insert_index n k v o'
      | None => (k, v) :: o
      end
  end.

(** [o[k] = v] on an ordinary object. *)
Definition obj_set (k : string) (v : json) (o : object) : object :=
  if obj_has k o then obj_replace k v o
  else match array_index k with
       | Some n => obj_insert_index n k v o
       | None => o ++ [(k, v)]
       end.

(** [{ ...target, ...source }]: the own properties of [source] are
    written over [target] one by one; spreading [undefined] adds
    nothing. *)
Definition spread (target : object) (source : option object) : object :=
  match source with
  | None => target
  | Some src => fold_left (fun o kv => obj_set kv.1 kv.2 o) src target
  end.

(** An object literal: its properties are created left to right. *)
Definition literal (props : list (string * json)) : object :=
  spread [] (Some props).

(** *** [JSON.stringify] (no indentation) *)

Definition hex_digit (n : nat) : ascii :=
  ascii_of_nat (if (n <? 10)%nat then 48 + n else 87 + n).

Definition quote_char (c : ascii) : string :=
  let n := nat_of_ascii c in
  if (n =? 34)%nat then backslash +:+ dquote
  else if (n =? 92)%nat then backslash +:+ backslash
  else if (n =? 8)%nat then backslash +:+ "b"
  else if (n =? 9)%nat then backslash +:+ "t"
  else if (n =? 10)%nat then backslash +:+ "n"
  else if (n =? 12)%nat then backslash +:+ "f"
  else if (n =? 13)%nat then backslash +:+ "r"
  else if (n <? 32)%nat
       then backslash +:+ "u00" +:+
            String (hex_digit (n / 16)) (String (hex_digit (n mod 16)) EmptyString)
  else String c EmptyString.

Fixpoint quote_chars (s : string) : string :=
  match s with
  | EmptyString => EmptyString
  | String c s' => quote_char c +:+ quote_chars s'
  end.

Definition quote (s : string) : string := dquote +:+ quote_chars s +:+ dquote.

Fixpoint stringify (v : json) : string :=
  match v with
  | JNull => "null"
  | JBool true => "true"
  | JBool false => "false"
  | JNum z => pretty z
  | JStr s => quote s
  | JArr items => "[" +:+ join "," (map stringify items) +:+ "]"
  | JObj props =>
      "{" +:+ join "," (map (fun '(k, x) => quote k +:+ ":" +:+ stringify x) props) +:+ "}"
  end.

(** *** [String.prototype.trim] *)

(** White space and line terminators among the code units below 256. *)
Definition is_space (c : ascii) : bool :=
  let n := nat_of_ascii c in
  ((9 <=? n)%nat && (n <=? 13)%nat) || (n =? 32)%nat || (n =? 160)%nat.

Fixpoint trim_start (s : string) : string :=
  match s with
  | EmptyString => EmptyString
  | String c s' => if is_space c then trim_start s' else s
  end.

Fixpoint trim_end (s : string) : string :=
  match s with
  | EmptyString => EmptyString
  | String c s' =>
      match trim_end s' with
      | EmptyString => if is_space c then EmptyString else String c EmptyString
      | t => String c t
      end
  end.

Definition trim (s : string) : string := trim_end (trim_start s).

End Js.

(** ** Types ([types.ts], [config.ts], [error-handler.ts]) *)

Record GeneratePPTRequest : Type := {
  content : string;
  title : option string;
  theme : option string;
  config : option Js.object;
  ttl : option Z;
  customCSS : option string;
  frontmatter : option Js.object
}.

Inductive Status : Type := StGenerating | StReady | StError | StExpired.

Global Instance Status_eq_dec : EqDecision Status.
Proof. solve_decision. Defined.

Record PresentationInstance : Type := {
  id : string;
  projectPath : string;
  server : nat;              (* handle of the child process, see [procs] *)
  port : Z;
  createdAt : Z;
  expiresAt : Z;
  status : Status;
  request : GeneratePPTRequest
}.

(** [instance.expiresAt = t] *)
Definition with_expiresAt (t : Z) (i : PresentationInstance) : PresentationInstance :=
  {| id := id i; projectPath := projectPath i; server := server i; port := port i;
     createdAt := createdAt i; expiresAt := t; status := status i;
     request := request i |}.

Record GeneratePPTResponse : Type := {
  res_id : string;
  res_url : string;
  res_status : Status;
  res_expiresAt : Z;
  res_createdAt : Z;
  res_presentation : string;
  res_presenter : string;
  res_overview : string;
  res_print : string
}.

Record ServerConfig : Type := {
  baseUrl : string;
  tempDir : string;
  maxConcurrentPresentations : Z;
  defaultTTL : Z;
  portRange_start : Z;
  portRange_end : Z
}.

(** [createDefaultConfig] with no environment variable set; the temporary
    directory of the host is taken to be [/tmp]. *)
Definition createDefaultConfig : ServerConfig := {|
  baseUrl := "http://localhost";
  tempDir := "/tmp/slidev-api";
  maxConcurrentPresentations := 10;
  defaultTTL := 3600000;
  portRange_start := 3002;
  portRange_end := 3100
|}.

(** What is thrown: a plain [Error], an error of the host that carries a
    [code] (such as [ENOSPC]), an [AppError] (by the name of its class)
    with its HTTP status, or a [SyntaxError] that carries a [body], as the
    parser of JSON bodies throws. *)
Inductive Error : Type :=
  | PlainError (message : string)
  | SystemError (code message : string)
  | AppError (name : string) (statusCode : nat) (code message : string)
  | BodySyntaxError (message : string).

Definition NotFoundError (message : string) : Error :=
  AppError "NotFoundError" 404 "NOT_FOUND" message.

Definition ServiceUnavailableError (message : string) : Error :=
  AppError "ServiceUnavailableError" 503 "SERVICE_UNAVAILABLE" message.

Definition InsufficientResourcesError (message : string) : Error :=
  AppError "InsufficientResourcesError" 507 "INSUFFICIENT_RESOURCES" message.

Inductive Level : Type := LError | LWarn | LInfo | LDebug.

Record LogEntry : Type := { log_level : Level; log_message : string }.

Inductive Signal : Type := SIGTERM | SIGKILL.

(** A [ChildProcess]: [killed] is set once a signal was delivered through
    [kill]; [exited] tells that the process is gone, so that [kill] fails. *)
Record ChildProcess : Type := {
  killed : bool;
  exited : bool;
  received : list Signal
}.

(** An entry of a project directory, by its path below the directory. *)
Inductive Entry : Type := File (data : string) | Folder.

(** ** The state of the service and of its host *)

Record World : Type := {
  instances : gmap string PresentationInstance;   (* PresentationManager.instances *)
  allocatedPorts : gset Z;                        (* PortManager.allocatedPorts *)
  disk : gmap string (gmap string Entry);         (* the directories below tempDir *)
  procs : list ChildProcess;                      (* every process ever spawned *)
  logs : list LogEntry                            (* what the logger received *)
}.

Definition initialWorld : World := {|
  instances := ∅; allocatedPorts := ∅; disk := ∅; procs := []; logs := []
|}.

Definition set_instances (f : gmap string PresentationInstance → gmap string PresentationInstance)
    (w : World) : World :=
  {| instances := f (instances w); allocatedPorts := allocatedPorts w;
     disk := disk w; procs := procs w; logs := logs w |}.

Definition set_allocatedPorts (f : gset Z → gset Z) (w : World) : World :=
  {| instances := instances w; allocatedPorts := f (allocatedPorts w);
     disk := disk w; procs := procs w; logs := logs w |}.

Definition set_disk (f : gmap string (gmap string Entry) → gmap string (gmap string Entry))
    (w : World) : World :=
  {| instances := instances w; allocatedPorts := allocatedPorts w;
     disk := f (disk w); procs := procs w; logs := logs w |}.

Definition set_procs (f : list ChildProcess → list ChildProcess) (w : World) : World :=
  {| instances := instances w; allocatedPorts := allocatedPorts w;
     disk := disk w; procs := f (procs w); logs := logs w |}.

Definition set_logs (f : list LogEntry → list LogEntry) (w : World) : World :=
  {| instances := instances w; allocatedPorts := allocatedPorts w;
     disk := disk w; procs := procs w; logs := f (logs w) |}.

(** Everything but the log: the registry and the three kinds of resource. *)
Definition same_resources (w w' : World) : Prop :=
  instances w' = instances w ∧ allocatedPorts w' = allocatedPorts w ∧
  disk w' = disk w ∧ procs w' = procs w.

(** *** Methods as state transformers that may throw *)

Definition M (A : Type) : Type := World → World * (Error + A).

Definition ret {A} (a : A) : M A := λ w, (w, inr a).

Definition throw {A} (e : Error) : M A := λ w, (w, inl e).

Definition bind {A B} (m : M A) (k : A → M B) : M B :=
  λ w, match m w with
       | (w', inl e) => (w', inl e)
       | (w', inr a) => k a w'
       end.

(** [try { m } catch (e) { h e }] *)
Definition try_catch {A} (m : M A) (h : Error → M A) : M A :=
  λ w, match m w with
       | (w', inl e) => h e w'
       | (w', inr a) => (w', inr a)
       end.

Definition get : M World := λ w, (w, inr w).

Definition modify (f : World → World) : M unit := λ w, (f w, inr tt).

Declare Scope js_scope.
Delimit Scope js_scope with js.
Notation "'let*' x ':=' m 'in' k" := (bind m (λ x, k))
  (at level 10, x name, m at level 100, k at level 200) : js_scope.
Notation "m ';;' k" := (bind m (λ _, k))
  (at level 100, k at level 200, right associativity) : js_scope.
Local Open Scope js_scope.

Definition logger (l : Level) (msg : string) : M unit :=
  modify (set_logs (λ ls, ls ++ [{| log_level := l; log_message := msg |}])).

(** [path.join dir name] for a directory without trailing separator. *)
Definition join_path (dir name : string) : string := dir +:+ "/" +:+ name.

(** *** The host

    One record gathers what the host answers during one call. *)

Inductive ScaffoldStep : Type :=
  | EnsureTempDir | EnsureProjectDir | WriteSlides | EnsureComponents
  | EnsurePublic | WriteCustomCSS | WriteViteConfig | CopyNodeModules.

Global Instance ScaffoldStep_eq_dec : EqDecision ScaffoldStep.
Proof. solve_decision. Defined.

(** How [startSlidevProcess] settles: the readiness line was printed; the
    process could not be spawned; it exited with a non-zero code before
    being ready; nothing happened for 180 s (it is then killed). *)
Inductive SpawnOutcome : Type :=
  | SpawnReady
  | SpawnErrorEvent (e : Error)
  | SpawnExit (code : Z)
  | SpawnTimeout.

(** What the probes of the health check find: they fail, or they give the
    percentages of memory and of disk in use (a percentage that is not a
    number compares as 0 does). *)
Inductive HealthProbe : Type :=
  | ProbeFailed (e : Error)
  | ProbeUsage (memoryPercentage diskPercentage : Z).

Record Env : Type := {
  nanoid : string;                              (* nanoid(12) *)
  fs_fault : option (ScaffoldStep * Error);     (* the scaffolding step that fails *)
  template_valid : bool;                        (* isTemplateValid() *)
  remove_fault : string → option Error;         (* fs.remove(path) fails *)
  getPort : Error + Z;                          (* get-port-please *)
  now : Z;                                      (* first reading of the clock *)
  now_later : Z;                                (* second reading of the clock *)
  spawn_outcome : SpawnOutcome;
  fetch_ok : nat → bool;                        (* the i-th readiness probe answers ok *)
  health_probe : HealthProbe                    (* getMemoryUsage(), getDiskUsage() *)
}.

(** ** The port allocator ([port-manager.ts]) *)

Module PortManager.

Definition startPort (cfg : ServerConfig) : Z := portRange_start cfg.
Definition endPort (cfg : ServerConfig) : Z := portRange_end cfg.

(** The decision is taken after [getPort] has answered, in one
    uninterrupted segment: range check, membership check and insertion.
    [excludePorts] only informs the probe, whose answer is arbitrary here. *)
Definition allocatePort (cfg : ServerConfig) (probe : Error + Z) : M Z :=
  try_catch
    (let* port := (match probe with inr p => ret p | inl e => throw e end) in
     if (port <? startPort cfg)%Z || (endPort cfg <? port)%Z
     then throw (PlainError ("No available ports in range " +:+ pretty (startPort cfg)
                               +:+ "-" +:+ pretty (endPort cfg)))
     else
       let* w := get in
       if bool_decide (port ∈ allocatedPorts w)
       then logger LError "Port allocation conflict detected" ;;
            throw (PlainError ("Port allocation conflict: " +:+ pretty port
                                 +:+ " is already allocated"))
       else modify (set_allocatedPorts (λ s, s ∪ {[port]})) ;;
            logger LInfo "Port allocated" ;;
            ret port)
    (λ _, logger LError "Failed to allocate port" ;;
          throw (PlainError "No available ports in the configured range")).

Definition releasePort (p : Z) : M unit :=
  let* w := get in
  if bool_decide (p ∈ allocatedPorts w)
  then modify (set_allocatedPorts (λ s, s ∖ {[p]})) ;;
       logger LInfo "Port released"
  else logger LWarn "Attempted to release unallocated port".

Definition getAllocatedPorts (w : World) : list Z := elements (allocatedPorts w).

Definition getAvailablePortCount (cfg : ServerConfig) (w : World) : Z :=
  (endPort cfg - startPort cfg + 1 - Z.of_nat (size (allocatedPorts w)))%Z.

Definition isPortAllocated (p : Z) (w : World) : bool :=
  bool_decide (p ∈ allocatedPorts w).

Definition clearAll : M unit :=
  modify (set_allocatedPorts (λ _, ∅)) ;; logger LInfo "All ports cleared".

End PortManager.

(** ** The file system of the host ([fs-extra]) *)

Module Fs.

(** A step of the scaffolding that the host may refuse. *)
Definition guarded {A} (env : Env) (step : ScaffoldStep) (action : M A) : M A :=
  match fs_fault env with
  | Some (s, e) => if decide (s = step) then throw e else action
  | None => action
  end.

(** [fs.ensureDir path] for a project directory. *)
Definition ensureDir (path : string) : M unit :=
  modify (set_disk (λ d, match d !! path with
                         | Some _ => d
                         | None => <[path := ∅]> d
                         end)).

(** [fs.ensureDir (join path name)] for a directory below a project
    directory: the missing levels are created. *)
Definition ensureSubdir (path name : string) : M unit :=
  modify (set_disk (λ d, <[path := <[name := Folder]> (default ∅ (d !! path))]> d)).

(** [fs.writeFile (join path name) data], and likewise a copy to that
    place: the entry [name] of the directory [path] is created or
    overwritten; the directory has to be there. *)
Definition put (path name : string) (e : Entry) : M unit :=
  let* w := get in
  match disk w !! path with
  | Some dir => modify (set_disk (<[path := <[name := e]> dir]>))
  | None => throw (SystemError "ENOENT" "no such file or directory")
  end.

(** [fs.remove path]: no error when the path is already gone. *)
Definition remove (env : Env) (path : string) : M unit :=
  match remove_fault env path with
  | Some e => throw e
  | None => modify (set_disk (delete path))
  end.

Definition pathExists (path : string) (w : World) : bool :=
  bool_decide (is_Some (disk w !! path)).

End Fs.

(** ** The project scaffolder ([project-generator.ts]) *)

Module ProjectGenerator.

(** [a || b] on an optional string: the empty string is falsy. *)
Definition or_else (a : option string) (b : string) : string :=
  match a with
  | Some s => if decide (s = EmptyString) then b else s
  | None => b
  end.

Definition generateProjectId (env : Env) : string := "slidev-" +:+ nanoid env.

(** The five properties written before the two spreads. *)
Definition defaults (request : GeneratePPTRequest) : Js.object :=
  Js.literal
    [ ("theme", Js.JStr (or_else (theme request) "default"));
      ("title", Js.JStr (or_else (title request) "Generated Presentation"));
      ("class", Js.JStr "text-center");
      ("transition", Js.JStr "slide-left");
      ("mdc", Js.JBool true) ].

Definition frontmatter_of (request : GeneratePPTRequest) : Js.object :=
  Js.spread (Js.spread (defaults request) (frontmatter request)) (config request).

Definition yaml_line (kv : string * Js.json) : string :=
  match kv.2 with
  | Js.JStr value => kv.1 +:+ ": " +:+ Js.dquote +:+ value +:+ Js.dquote
  | value => kv.1 +:+ ": " +:+ Js.stringify value
  end.

Definition frontmatterYaml (request : GeneratePPTRequest) : string :=
  Js.join Js.newline (map yaml_line (frontmatter_of request)).

Definition slidesContent (request : GeneratePPTRequest) : string :=
  "---" +:+ Js.newline +:+ frontmatterYaml request +:+ Js.newline +:+
  "---" +:+ Js.newline +:+ Js.newline +:+ content request +:+ Js.newline.

Definition createSlidesFile (projectPath : string) (request : GeneratePPTRequest) : M unit :=
  Fs.put projectPath "slides.md" (File (slidesContent request)).

Definition createCustomCSS (projectPath css : string) : M unit :=
  Fs.ensureSubdir projectPath "styles" ;;
  Fs.put projectPath "styles/custom.css" (File css).

Definition viteConfig : string :=
"import { defineConfig } from 'vite'

export default defineConfig({
  define: {
    __DEV__: JSON.stringify(process.env.NODE_ENV === 'development'),
    __PROD__: JSON.stringify(process.env.NODE_ENV === 'production'),
    __TEST__: JSON.stringify(process.env.NODE_ENV === 'test')
  },
  server: {
    fs: {
      strict: false
    }
  }
})
".

(** The later of the two methods of that name, the one that is called. *)
Definition createViteConfig (projectPath : string) : M unit :=
  Fs.put projectPath "vite.config.js" (File viteConfig).

Definition createProjectWithoutDeps (cfg : ServerConfig) (env : Env)
    (request : GeneratePPTRequest) : M (string * string) :=
  let id := generateProjectId env in
  let projectPath := join_path (tempDir cfg) id in
  try_catch
    (logger LInfo "Creating project without dependencies" ;;
     Fs.guarded env EnsureTempDir (ret tt) ;;
     Fs.guarded env EnsureProjectDir (Fs.ensureDir projectPath) ;;
     Fs.guarded env WriteSlides (createSlidesFile projectPath request) ;;
     Fs.guarded env EnsureComponents (Fs.ensureSubdir projectPath "components") ;;
     Fs.guarded env EnsurePublic (Fs.ensureSubdir projectPath "public") ;;
     (match customCSS request with
      | Some css =>
          if decide (css = EmptyString) then ret tt
          else Fs.guarded env WriteCustomCSS (createCustomCSS projectPath css)
      | None => ret tt
      end) ;;
     Fs.guarded env WriteViteConfig (createViteConfig projectPath) ;;
     (if template_valid env
      then logger LInfo "Copying node_modules from template" ;;
           Fs.guarded env CopyNodeModules (Fs.put projectPath "node_modules" Folder) ;;
           logger LInfo "node_modules copied successfully"
      else ret tt) ;;
     logger LInfo "Project created successfully (no deps)" ;;
     ret (id, projectPath))
    (λ error,
       logger LError "Failed to create project" ;;
       try_catch (Fs.remove env projectPath)
                 (λ _, logger LError "Failed to cleanup project after error") ;;
       throw error).

Definition cleanupProject (env : Env) (projectPath : string) : M unit :=
  try_catch
    (Fs.remove env projectPath ;; logger LInfo "Project cleaned up")
    (λ error, logger LError "Failed to cleanup project" ;; throw error).

(** [error.message] *)
Definition message_of (error : Error) : string :=
  match error with
  | PlainError message | SystemError _ message | AppError _ _ _ message
  | BodySyntaxError message => message
  end.

(** The command of the [attempt]-th installation. *)
Definition install_command (attempt : nat) : string :=
  if (attempt =? 1)%nat then "npm install --no-audit --no-fund --prefer-offline"
  else if (attempt =? 2)%nat then "npm install --no-audit --no-fund --force"
  else "npm install --no-audit --no-fund --legacy-peer-deps".

(** The loop of [installDependenciesWithRetry] from [attempt] on, when
    [remaining] iterations are left.  [exec attempt command] is what
    running the command of that attempt does on the host: it may change
    anything, and it returns or throws.  The pause before the next
    attempt is not part of the state. *)
Fixpoint install_loop (exec : nat → string → M unit)
    (maxRetries attempt remaining : nat) : M unit :=
  match remaining with
  | O => ret tt
  | S remaining' =>
      try_catch
        (logger LInfo ("Installing dependencies (attempt " +:+ pretty attempt +:+ "/"
                         +:+ pretty maxRetries +:+ ")") ;;
         exec attempt (install_command attempt) ;;
         logger LInfo "Dependencies installed successfully")
        (λ error,
           logger LError ("Dependency installation failed (attempt " +:+ pretty attempt
                            +:+ "/" +:+ pretty maxRetries +:+ ")") ;;
           if decide (attempt = maxRetries)
           then throw (PlainError ("Failed to install dependencies after "
                                     +:+ pretty maxRetries +:+ " attempts: "
                                     +:+ message_of error))
           else install_loop exec maxRetries (S attempt) remaining')
  end.

Definition installDependenciesWithRetry (exec : nat → string → M unit)
    (projectPath : string) (maxRetries : nat) : M unit :=
  install_loop exec maxRetries 1 maxRetries.

End ProjectGenerator.

(** ** The slide file of the container variant ([docker-manager.ts]) *)

Module DockerManager.

Definition defaults (request : GeneratePPTRequest) : Js.object :=
  Js.literal
    [ ("theme", Js.JStr (ProjectGenerator.or_else (theme request) "default"));
      ("title", Js.JStr (ProjectGenerator.or_else (title request) "Generated Presentation"));
      ("class", Js.JStr "text-center");
      ("transition", Js.JStr "slide-left");
      ("mdc", Js.JBool true) ].

Definition frontmatter_of (request : GeneratePPTRequest) : Js.object :=
  Js.spread (Js.spread (defaults request) (frontmatter request)) (config request).

Definition yaml_line (kv : string * Js.json) : string :=
  match kv.2 with
  | Js.JStr value => kv.1 +:+ ": " +:+ value
  | value => kv.1 +:+ ": " +:+ Js.stringify value
  end.

Definition frontmatterYaml (request : GeneratePPTRequest) : string :=
  Js.join Js.newline (map yaml_line (frontmatter_of request)).

Definition slidesContent (request : GeneratePPTRequest) : string :=
  "---" +:+ Js.newline +:+ frontmatterYaml request +:+ Js.newline +:+
  "---" +:+ Js.newline +:+ Js.newline +:+ content request +:+ Js.newline.

Definition createSlidesFile (projectPath : string) (request : GeneratePPTRequest) : M unit :=
  Fs.put projectPath "slides.md" (File (slidesContent request)).

Definition createCustomCSS (projectPath css : string) : M unit :=
  Fs.ensureSubdir projectPath "styles" ;;
  Fs.put projectPath "styles/custom.css" (File css).

(** *** The containers *)

Inductive ContainerStatus : Type := CStarting | CRunning | CStopped | CError.

Record DockerContainer : Type := {
  id : string;
  containerId : string;
  port : Z;
  projectPath : string;
  createdAt : Z;
  expiresAt : Z;
  status : ContainerStatus;
  request : GeneratePPTRequest
}.

(** [container.status = st] *)
Definition with_status (st : ContainerStatus) (c : DockerContainer) : DockerContainer :=
  {| id := id c; containerId := containerId c; port := port c;
     projectPath := projectPath c; createdAt := createdAt c; expiresAt := expiresAt c;
     status := st; request := request c |}.

(** The Docker side of the host: what [execAsync] makes of a command
    after the commands run so far (its standard output, or the error it
    rejects with), and the number of times the clock of a wait reads less
    than 60 s after its start. *)
Record DockerHost : Type := {
  docker : list string → string → Error + string;
  wait_ticks : nat
}.

(** The state of the manager: the world of the service, the map
    [containers], and the commands given to Docker so far. *)
Record State : Type := {
  world : World;
  containers : gmap string DockerContainer;
  commands : list string
}.

Definition initialState : State :=
  {| world := initialWorld; containers := ∅; commands := [] |}.

Definition D (A : Type) : Type := State → State * (Error + A).

Definition dret {A} (a : A) : D A := λ s, (s, inr a).

Definition dthrow {A} (e : Error) : D A := λ s, (s, inl e).

Definition dbind {A B} (m : D A) (k : A → D B) : D B :=
  λ s, match m s with
       | (s', inl e) => (s', inl e)
       | (s', inr a) => k a s'
       end.

Definition dtry {A} (m : D A) (h : Error → D A) : D A :=
  λ s, match m s with
       | (s', inl e) => h e s'
       | (s', inr a) => (s', inr a)
       end.

Definition dget : D State := λ s, (s, inr s).

(** A method of the service, run on the world of the manager. *)
Definition lift {A} (m : M A) : D A :=
  λ s, let r := m (world s) in
       ({| world := r.1; containers := containers s; commands := commands s |}, r.2).

Definition set_containers
    (f : gmap string DockerContainer → gmap string DockerContainer) : D unit :=
  λ s, ({| world := world s; containers := f (containers s); commands := commands s |},
        inr tt).

Declare Scope docker_scope.
Notation "'let*' x ':=' m 'in' k" := (dbind m (λ x, k))
  (at level 10, x name, m at level 100, k at level 200) : docker_scope.
Notation "m ';;' k" := (dbind m (λ _, k))
  (at level 100, k at level 200, right associativity) : docker_scope.
Local Open Scope docker_scope.

Definition execAsync (host : DockerHost) (command : string) : D string :=
  λ s, ({| world := world s; containers := containers s;
           commands := commands s ++ [command] |},
        docker host (commands s) command).

Definition imageName : string := "slidev-api:latest".

(** [String(error)]: the name of the error, which is [Error] unless the
    error is a [SyntaxError], and its message when it has one. *)
Definition error_string (error : Error) : string :=
  let name := match error with
              | BodySyntaxError _ => "SyntaxError"
              | _ => "Error"
              end in
  let message := ProjectGenerator.message_of error in
  if decide (message = EmptyString) then name else name +:+ ": " +:+ message.

Definition dockerCmd (id projectPath : string) (port : Z) : string :=
  Js.join " "
    [ "docker run"; "-d"; "--name slidev-" +:+ id; "-p " +:+ pretty port +:+ ":3000";
      "-v " +:+ Js.dquote +:+ projectPath +:+ ":/app/slides" +:+ Js.dquote;
      "--rm"; "--memory=512m"; "--cpus=0.5"; imageName ].

Definition startContainer (host : DockerHost) (id projectPath : string) (port : Z)
    : D string :=
  dtry
    (let* stdout := execAsync host (dockerCmd id projectPath port) in
     let containerId := Js.trim stdout in
     lift (logger LInfo "Docker container started") ;;
     dret containerId)
    (λ error,
       lift (logger LError "Failed to start Docker container") ;;
       dthrow (PlainError ("Failed to start container: " +:+ error_string error))).

Definition inspectCmd (containerId : string) : string :=
  "docker inspect --format='{{.State.Running}}' " +:+ containerId.

Definition checkContainerHealth (host : DockerHost) (containerId : string) : D bool :=
  dtry (execAsync host (inspectCmd containerId) ;; dret true) (λ _, dret false).

(** The loop of [waitForContainer] when the clock allows [remaining] more
    iterations: whether a check found the container healthy.  The pause
    between two checks is not part of the state. *)
Fixpoint wait_loop (host : DockerHost) (containerId : string) (remaining : nat) : D bool :=
  match remaining with
  | O => dret false
  | S remaining' =>
      let* isHealthy := checkContainerHealth host containerId in
      if isHealthy then dret true else wait_loop host containerId remaining'
  end.

(** [container] is the object stored under [id] in the map: setting its
    status changes the entry. *)
Definition waitForContainer (host : DockerHost) (id containerId : string) : D unit :=
  let* healthy := wait_loop host containerId (wait_ticks host) in
  if healthy
  then set_containers (alter (with_status CRunning) id) ;;
       lift (logger LInfo "Container is healthy and running")
  else set_containers (alter (with_status CError) id) ;;
       dthrow (PlainError "Container failed to start within 60000ms").

Definition createPresentation (cfg : ServerConfig) (env : Env) (host : DockerHost)
    (request : GeneratePPTRequest) : D DockerContainer :=
  let id := "slidev-" +:+ nanoid env in
  let projectPath := join_path (tempDir cfg) id in
  let* port := lift (PortManager.allocatePort cfg (getPort env)) in
  dtry
    (lift (logger LInfo "Creating Docker presentation") ;;
     lift (Fs.guarded env EnsureProjectDir (Fs.ensureDir projectPath)) ;;
     lift (Fs.guarded env WriteSlides (createSlidesFile projectPath request)) ;;
     (match customCSS request with
      | Some css =>
          if decide (css = EmptyString) then dret tt
          else lift (Fs.guarded env WriteCustomCSS (createCustomCSS projectPath css))
      | None => dret tt
      end) ;;
     let* containerId := startContainer host id projectPath port in
     let ttl := match ttl request with
                | Some t => if decide (t = 0%Z) then defaultTTL cfg else t
                | None => defaultTTL cfg
                end in
     let container :=
       {| id := id; containerId := containerId; port := port;
          projectPath := projectPath; createdAt := now env;
          expiresAt := (now_later env + ttl)%Z; status := CStarting;
          request := request |} in
     set_containers (<[id := container]>) ;;
     waitForContainer host id containerId ;;
     lift (logger LInfo "Docker presentation created successfully") ;;
     dret (with_status CRunning container))
    (λ error,
       lift (logger LError "Failed to create Docker presentation") ;;
       lift (PortManager.releasePort port) ;;
       dtry (lift (Fs.remove env projectPath))
            (λ _, lift (logger LError "Failed to cleanup project path")) ;;
       dthrow error).

Definition deletePresentation (env : Env) (host : DockerHost) (ident : string) : D bool :=
  let* s := dget in
  match containers s !! ident with
  | None => dret false
  | Some container =>
      dtry
        (lift (logger LInfo "Deleting Docker presentation") ;;
         dtry (execAsync host ("docker stop " +:+ containerId container) ;; dret tt)
              (λ _, lift (logger LWarn "Failed to stop container gracefully") ;;
                    execAsync host ("docker rm -f " +:+ containerId container) ;;
                    dret tt) ;;
         lift (PortManager.releasePort (port container)) ;;
         lift (Fs.remove env (projectPath container)) ;;
         set_containers (delete ident) ;;
         lift (logger LInfo "Docker presentation deleted successfully") ;;
         dret true)
        (λ error,
           lift (logger LError "Failed to delete Docker presentation") ;;
           dthrow error)
  end.

Definition getPresentation (ident : string) (s : State) : option DockerContainer :=
  containers s !! ident.

End DockerManager.

(** ** The instance registry ([presentation-manager.ts]) *)

Module PresentationManager.

(** [spawn]: a new entry of the process table; its index is the handle. *)
Definition spawn : M nat :=
  let* w := get in
  modify (set_procs (λ ps, ps ++ [{| killed := false; exited := false; received := [] |}])) ;;
  ret (length (procs w)).

(** [subprocess.kill(signal)]: delivered, and [killed] set, unless the
    process is gone. *)
Definition kill (pid : nat) (sig : Signal) : M bool :=
  let* w := get in
  match procs w !! pid with
  | Some p =>
      if exited p then ret false
      else modify (set_procs (<[pid := {| killed := true; exited := exited p;
                                          received := received p ++ [sig] |}]>)) ;;
           ret true
  | None => ret false
  end.

Definition mark_exited (pid : nat) : M unit :=
  modify (set_procs (λ ps, match ps !! pid with
                           | Some p => <[pid := {| killed := killed p; exited := true;
                                                   received := received p |}]> ps
                           | None => ps
                           end)).

Definition is_killed (pid : nat) (w : World) : bool :=
  match procs w !! pid with
  | Some p => killed p
  | None => true
  end.

Definition startSlidevProcess (env : Env) (projectPath : string) (port : Z)
    (theme : string) : M nat :=
  match spawn_outcome env with
  | SpawnReady =>
      let* pid := spawn in
      logger LInfo "Slidev stdout" ;;
      ret pid
  | SpawnErrorEvent e => throw e
  | SpawnExit code =>
      let* pid := spawn in
      mark_exited pid ;;
      if decide (code = 0%Z)
      then kill pid SIGKILL ;; throw (PlainError "Slidev startup timeout")
      else throw (PlainError ("Slidev process exited with code " +:+ pretty code))
  | SpawnTimeout =>
      let* pid := spawn in
      kill pid SIGKILL ;;
      throw (PlainError "Slidev startup timeout")
  end.

(** The loop of [waitForServerReady]: attempt [i] of the [remaining] ones. *)
Fixpoint probe (fetch : nat → bool) (i remaining : nat) : bool :=
  match remaining with
  | O => false
  | S r => if fetch i then true else probe fetch (S i) r
  end.

Definition waitForServerReady (env : Env) (port : Z) : M unit :=
  if probe (fetch_ok env) 0 60
  then logger LInfo "Slidev server is ready"
  else throw (PlainError ("Slidev server failed to start on port " +:+ pretty port)).

(** Run [m] and hand its outcome over, thrown or returned. *)
Definition attempt {A} (m : M A) : M (Error + A) :=
  try_catch (let* a := m in ret (inr a)) (λ e, ret (inl e)).

(** The [catch] block around the start of the server; [slidevProcess] is
    [None] as long as [startSlidevProcess] has not returned. *)
Definition rollback_start {A} (env : Env) (slidevProcess : option nat) (port : Z)
    (projectPath : string) (error : Error) : M A :=
  logger LError "Failed to start Slidev server, cleaning up" ;;
  (match slidevProcess with
   | Some pid =>
       let* w := get in
       if negb (is_killed pid w) then kill pid SIGKILL ;; ret tt else ret tt
   | None => ret tt
   end) ;;
  PortManager.releasePort port ;;
  ProjectGenerator.cleanupProject env projectPath ;;
  throw error.

(** The inner [try] block with its [catch]: start the process, wait for
    the server, and undo the allocation and the scaffold when either fails. *)
Definition startServer (env : Env) (projectPath : string) (port : Z)
    (theme : string) : M nat :=
  let* started := attempt (startSlidevProcess env projectPath port theme) in
  match started with
  | inl error => rollback_start env None port projectPath error
  | inr slidevProcess =>
      let* waited := attempt (waitForServerReady env port) in
      match waited with
      | inl error => rollback_start env (Some slidevProcess) port projectPath error
      | inr _ => ret slidevProcess
      end
  end.

Definition createPresentation (cfg : ServerConfig) (env : Env)
    (request : GeneratePPTRequest) : M GeneratePPTResponse :=
  let* w0 := get in
  if (maxConcurrentPresentations cfg <=? Z.of_nat (size (instances w0)))%Z
  then throw (PlainError "Maximum number of concurrent presentations reached")
  else
    try_catch
      (logger LInfo "Creating presentation" ;;
       let* project := ProjectGenerator.createProjectWithoutDeps cfg env request in
       let* port := PortManager.allocatePort cfg (getPort env) in
       let ttl := match ttl request with
                  | Some t => if decide (t = 0%Z) then defaultTTL cfg else t
                  | None => defaultTTL cfg
                  end in
       let expiresAt := (now env + ttl)%Z in
       logger LInfo "Starting Slidev server" ;;
       let* slidevProcess :=
         startServer env project.2 port
                     (ProjectGenerator.or_else (theme request) "default") in
       let instance :=
         {| id := project.1; projectPath := project.2; server := slidevProcess;
            port := port; createdAt := now_later env; expiresAt := expiresAt;
            status := StReady; request := request |} in
       modify (set_instances (<[project.1 := instance]>)) ;;
       logger LInfo "Presentation created successfully" ;;
       let base := baseUrl cfg +:+ ":" +:+ pretty port in
       ret {| res_id := project.1; res_url := base; res_status := StReady;
              res_expiresAt := expiresAt; res_createdAt := createdAt instance;
              res_presentation := base +:+ "/";
              res_presenter := base +:+ "/presenter/";
              res_overview := base +:+ "/overview/";
              res_print := base +:+ "/print" |})
      (λ error, logger LError "Failed to create presentation" ;; throw error).

Definition getPresentation (ident : string) (w : World) : option PresentationInstance :=
  instances w !! ident.

Definition getAllPresentations (w : World) : list PresentationInstance :=
  (map_to_list (instances w)).*2.

(** The block that stops the server of an instance: [SIGTERM], one second
    of grace, then [SIGKILL] unless a signal was delivered. *)
Definition stopServer (pid : nat) : M unit :=
  let* w := get in
  if negb (is_killed pid w)
  then kill pid SIGTERM ;;
       let* w1 := get in
       if negb (is_killed pid w1) then kill pid SIGKILL ;; ret tt else ret tt
  else ret tt.

Definition deletePresentation (env : Env) (ident : string) : M bool :=
  let* w := get in
  match instances w !! ident with
  | None => ret false
  | Some instance =>
      try_catch
        (logger LInfo "Deleting presentation" ;;
         stopServer (server instance) ;;
         PortManager.releasePort (port instance) ;;
         ProjectGenerator.cleanupProject env (projectPath instance) ;;
         modify (set_instances (delete ident)) ;;
         logger LInfo "Presentation deleted successfully" ;;
         ret true)
        (λ error, logger LError "Failed to delete presentation" ;; throw error)
  end.

(** The ids whose instance has expired at [t], as the first loop of
    [cleanupExpired] collects them. *)
Definition expiredIds (t : Z) (w : World) : list string :=
  (filter (λ kv, (expiresAt kv.2 ≤ t)%Z) (map_to_list (instances w))).*1.

(** The second loop: one guarded deletion per collected id. *)
Fixpoint sweep (env : Env) (ids : list string) (cleanedCount : nat) : M nat :=
  match ids with
  | [] => ret cleanedCount
  | ident :: rest =>
      let* count :=
        try_catch (deletePresentation env ident ;; ret (S cleanedCount))
                  (λ _, logger LError "Failed to cleanup expired presentation" ;;
                        ret cleanedCount) in
      sweep env rest count
  end.

Definition cleanupExpired (env : Env) : M nat :=
  let* w := get in
  let ids := expiredIds (now env) w in
  logger LInfo "Cleaning up expired presentations" ;;
  sweep env ids 0.

(** The loop of [shutdown]. *)
Fixpoint shutdown_loop (env : Env) (ids : list string) : M unit :=
  match ids with
  | [] => ret tt
  | ident :: rest =>
      try_catch (deletePresentation env ident ;; ret tt)
                (λ _, logger LError "Error during shutdown cleanup") ;;
      shutdown_loop env rest
  end.

Definition shutdown (env : Env) : M unit :=
  logger LInfo "Shutting down presentation manager" ;;
  logger LInfo "Cleanup timer stopped" ;;
  let* w := get in
  shutdown_loop env (map_to_list (instances w)).*1 ;;
  PortManager.clearAll ;;
  logger LInfo "Presentation manager shutdown complete".

(** What [getStats] reports; a time stamp that is [null] is [None]. *)
Record Stats : Type := {
  total : nat;
  active : nat;
  expired : nat;
  generating : nat;
  error : nat;
  oldestCreated : option Z;
  newestCreated : option Z
}.

(** [Math.min(...l)] and [Math.max(...l)] of a list that is not empty. *)
Definition least (l : list Z) : option Z :=
  match l with
  | [] => None
  | x :: rest => Some (foldr Z.min x rest)
  end.

Definition greatest (l : list Z) : option Z :=
  match l with
  | [] => None
  | x :: rest => Some (foldr Z.max x rest)
  end.

(** [getStats], at the time the host's clock shows. *)
Definition getStats (env : Env) (w : World) : Stats :=
  let instances := getAllPresentations w in
  {| total := length instances;
     active := length (filter (λ i, status i = StReady) instances);
     expired := length (filter (λ i, (expiresAt i ≤ now env)%Z) instances);
     generating := length (filter (λ i, status i = StGenerating) instances);
     error := length (filter (λ i, status i = StError) instances);
     oldestCreated := least (createdAt <$> instances);
     newestCreated := greatest (createdAt <$> instances) |}.

End PresentationManager.

(** ** Request validation ([validation.ts])

    A [Joi] schema is embedded by the checks it declares.  A report names
    the field and the rule that failed; Joi's conversion of a numeric string
    to a number happens before the checks, so a body is given here with its
    numbers already converted. *)

Module Validation.

Record Detail : Type := { field : string; rule : string }.

Inductive StringRule : Type :=
  | Min (n : Z)
  | Max (n : Z)
  | Pattern (test : string → bool).

Definition string_rule (fld : string) (s : string) (r : StringRule) : list Detail :=
  match r with
  | Min n => if (Z.of_nat (String.length s) <? n)%Z
             then [{| field := fld; rule := "string.min" |}] else []
  | Max n => if (n <? Z.of_nat (String.length s))%Z
             then [{| field := fld; rule := "string.max" |}] else []
  | Pattern test => if test s then []
                    else [{| field := fld; rule := "string.pattern.base" |}]
  end.

(** [Joi.string()] followed by [rules]: a string, and not the empty one. *)
Definition joi_string (fld : string) (rules : list StringRule) (v : Js.json) : list Detail :=
  match v with
  | Js.JStr s =>
      if decide (s = EmptyString) then [{| field := fld; rule := "string.empty" |}]
      else concat (map (string_rule fld s) rules)
  | _ => [{| field := fld; rule := "string.base" |}]
  end.

(** [Joi.number().min(lo).max(hi)] *)
Definition joi_number (fld : string) (lo hi : Z) (v : Js.json) : list Detail :=
  match v with
  | Js.JNum z =>
      (if (z <? lo)%Z then [{| field := fld; rule := "number.min" |}] else []) ++
      (if (hi <? z)%Z then [{| field := fld; rule := "number.max" |}] else [])
  | _ => [{| field := fld; rule := "number.base" |}]
  end.

(** [Joi.object().unknown(true)] *)
Definition joi_object (fld : string) (v : Js.json) : list Detail :=
  match v with
  | Js.JObj _ => []
  | _ => [{| field := fld; rule := "object.base" |}]
  end.

Definition required (fld : string) (check : Js.json → list Detail)
    (v : option Js.json) : list Detail :=
  match v with
  | Some x => check x
  | None => [{| field := fld; rule := "any.required" |}]
  end.

Definition optional (check : Js.json → list Detail) (v : option Js.json) : list Detail :=
  match v with
  | Some x => check x
  | None => []
  end.

Definition is_alnum (c : ascii) : bool :=
  let n := nat_of_ascii c in
  ((48 <=? n)%nat && (n <=? 57)%nat) || ((65 <=? n)%nat && (n <=? 90)%nat) ||
  ((97 <=? n)%nat && (n <=? 122)%nat).

(** The class [[a-zA-Z0-9_-]]. *)
Definition is_id_char (c : ascii) : bool :=
  is_alnum c || (nat_of_ascii c =? 45)%nat || (nat_of_ascii c =? 95)%nat.

(** [/^[a-zA-Z0-9-_]+$/] *)
Definition theme_pattern (s : string) : bool :=
  negb (bool_decide (s = EmptyString)) && forallb is_id_char (list_ascii_of_string s).

Fixpoint strip_prefix (p s : string) : option string :=
  match p with
  | EmptyString => Some s
  | String c p' =>
      match s with
      | String d s' => if decide (c = d) then strip_prefix p' s' else None
      | EmptyString => None
      end
  end.

(** [/^slidev-[a-zA-Z0-9_-]{12}$/] *)
Definition id_pattern (s : string) : bool :=
  match strip_prefix "slidev-" s with
  | Some rest => (String.length rest =? 12)%nat && forallb is_id_char (list_ascii_of_string rest)
  | None => false
  end.

Definition as_string (v : option Js.json) : option string :=
  match v with Some (Js.JStr s) => Some s | _ => None end.

Definition as_number (v : option Js.json) : option Z :=
  match v with Some (Js.JNum z) => Some z | _ => None end.

Definition as_object (v : option Js.json) : option Js.object :=
  match v with Some (Js.JObj o) => Some o | _ => None end.

(** [generatePPTSchema.validate(body, { abortEarly: false, stripUnknown:
    true })]: every failed check is reported; on success the known keys
    are kept. *)
Definition generatePPTSchema (body : Js.json) : list Detail + GeneratePPTRequest :=
  match body with
  | Js.JObj props =>
      let errors :=
        required "content" (joi_string "content" [Min 1; Max 1000000]) (Js.obj_get "content" props) ++
        optional (joi_string "title" [Max 200]) (Js.obj_get "title" props) ++
        optional (joi_string "theme" [Pattern theme_pattern; Max 50]) (Js.obj_get "theme" props) ++
        optional (joi_object "config") (Js.obj_get "config" props) ++
        optional (joi_number "ttl" 60000 86400000) (Js.obj_get "ttl" props) ++
        optional (joi_string "customCSS" [Max 100000]) (Js.obj_get "customCSS" props) ++
        optional (joi_object "frontmatter") (Js.obj_get "frontmatter" props) in
      match errors with
      | [] =>
          inr {| content := default EmptyString (as_string (Js.obj_get "content" props));
                 title := as_string (Js.obj_get "title" props);
                 theme := as_string (Js.obj_get "theme" props);
                 config := as_object (Js.obj_get "config" props);
                 ttl := as_number (Js.obj_get "ttl" props);
                 customCSS := as_string (Js.obj_get "customCSS" props);
                 frontmatter := as_object (Js.obj_get "frontmatter" props) |}
      | _ => inl errors
      end
  | _ => inl [{| field := EmptyString; rule := "object.base" |}]
  end.

(** The schema of the body of the extend route:
    [Joi.object({ ttl: Joi.number().min(60000).max(86400000).required() })]. *)
Definition extendSchema (body : Js.json) : list Detail + Z :=
  match body with
  | Js.JObj props =>
      match required "ttl" (joi_number "ttl" 60000 86400000) (Js.obj_get "ttl" props) with
      | [] => inr (default 0%Z (as_number (Js.obj_get "ttl" props)))
      | errors => inl errors
      end
  | _ => inl [{| field := EmptyString; rule := "object.base" |}]
  end.

(** [Joi.object({ id: presentationIdSchema })] on the route parameters. *)
Definition paramsSchema (ident : string) : list Detail + string :=
  match joi_string "id" [Pattern id_pattern] (Js.JStr ident) with
  | [] => inr ident
  | errors => inl errors
  end.

Inductive Payload : Type :=
  | ApiError (error message code : string) (details : list Detail)
  | Created (response : GeneratePPTResponse)
  | Extended (ident : string) (newExpiresAt : Z) (message : string).

Record Response : Type := { statusCode : nat; payload : Payload }.

Definition response_code (r : Response) : option string :=
  match payload r with
  | ApiError _ _ code _ => Some code
  | _ => None
  end.

(** The middleware made by [validateBody]: the validated value goes on to
    the next middleware, a failure is answered at once. *)
Definition validateBody {A} (schema : Js.json → list Detail + A) (body : Js.json)
    : M (Response + A) :=
  match schema body with
  | inl errors =>
      logger LWarn "Request validation failed" ;;
      ret (inl {| statusCode := 400;
                  payload := ApiError "Validation Error" "Request validation failed"
                                      "VALIDATION_ERROR" errors |})
  | inr value => ret (inr value)
  end.

Definition validateParams (ident : string) : M (Response + string) :=
  match paramsSchema ident with
  | inl errors =>
      logger LWarn "Parameter validation failed" ;;
      ret (inl {| statusCode := 400;
                  payload := ApiError "Validation Error" "Parameter validation failed"
                                      "VALIDATION_ERROR" errors |})
  | inr value => ret (inr value)
  end.

Section Sanitizer.

(** [sanitizeMarkdown] rewrites the content with three regular expressions
    and trims it; no property below depends on what it returns. *)
Variable sanitizeMarkdown : string → string.

Definition validatePresentationRequest (body : GeneratePPTRequest)
    : Response + GeneratePPTRequest :=
  if decide (content body = EmptyString) then inr body
  else
    let trimmedContent := Js.trim (content body) in
    if (String.length trimmedContent <? 10)%nat
    then inl {| statusCode := 400;
                payload := ApiError "Validation Error"
                                    "Content is too short (minimum 10 characters)"
                                    "CONTENT_TOO_SHORT" [] |}
    else inr {| content := sanitizeMarkdown (content body);
                title := title body; theme := theme body; config := config body;
                ttl := ttl body; customCSS := customCSS body;
                frontmatter := frontmatter body |}.

End Sanitizer.

(** *** [sanitizeMarkdown]

    Each of the three [replace] calls takes a global, case-insensitive
    regular expression and the empty replacement: the content is scanned
    from the left, a match is left out and the scan goes on behind it.
    Each of the expressions can match at a given position in one way only,
    so that a match is told by its length. *)

(** The case folding of the [i] flag (without [u]): among the code units
    below 256, only a letter of ASCII folds onto a character that a
    pattern of ASCII characters contains. *)
Definition fold_case (c : ascii) : ascii :=
  let n := nat_of_ascii c in
  if (97 <=? n)%nat && (n <=? 122)%nat then ascii_of_nat (n - 32) else c.

(** [s] starts with [p], up to case; what follows [p] in [s]. *)
Fixpoint strip_prefix_ci (p s : string) : option string :=
  match p with
  | EmptyString => Some s
  | String c p' =>
      match s with
      | String d s' => if decide (fold_case c = fold_case d) then strip_prefix_ci p' s' else None
      | EmptyString => None
      end
  end.

(** The number of characters before the first place where [p] starts. *)
Fixpoint find_ci (p s : string) : option nat :=
  match strip_prefix_ci p s with
  | Some _ => Some 0
  | None =>
      match s with
      | String _ s' => S <$> find_ci p s'
      | EmptyString => None
      end
  end.

(** The number of characters before the first [c]. *)
Fixpoint find_char (c : ascii) (s : string) : option nat :=
  match s with
  | String d s' => if decide (d = c) then Some 0 else S <$> find_char c s'
  | EmptyString => None
  end.

(** [s] without its first [n] characters. *)
Fixpoint skip (n : nat) (s : string) : string :=
  match n, s with
  | S n', String _ s' => skip n' s'
  | _, _ => s
  end.

(** The length of the longest prefix of [s] made of characters in [f]. *)
Fixpoint span (f : ascii → bool) (s : string) : nat :=
  match s with
  | String c s' => if f c then S (span f s') else 0
  | EmptyString => 0
  end.

(** The class [\w]. *)
Definition is_word (c : ascii) : bool :=
  is_alnum c || (nat_of_ascii c =? 95)%nat.

(** [/<script[^>]*>.*?<\/script>/gis] at the start of [s]: the opening
    tag runs to the first [>], the element to the first closing tag
    behind it; the dot matches line terminators too. *)
Definition match_script (s : string) : option nat :=
  rest ← strip_prefix_ci "<script" s;
  i ← find_char ">" rest;
  j ← find_ci "</script>" (skip (S i) rest);
  Some (7 + i + 1 + j + 9).

(** [/javascript:/gi] at the start of [s]. *)
Definition match_javascript (s : string) : option nat :=
  _ ← strip_prefix_ci "javascript:" s; Some 11.

(** [/on\w+\s*=/gi] at the start of [s]: all the word characters, all the
    white space behind them, and then the equals sign. *)
Definition match_handler (s : string) : option nat :=
  rest ← strip_prefix_ci "on" s;
  let word := span is_word rest in
  let space := span Js.is_space (skip word rest) in
  if (word =? 0)%nat then None
  else match skip space (skip word rest) with
       | String "="%char _ => Some (2 + word + space + 1)
       | _ => None
       end.

(** [s.replace(re, '')] for a global [re] given by [matcher]; [pending]
    counts the characters of the current match that are still to leave
    out. *)
Fixpoint replace_from (matcher : string → option nat) (pending : nat) (s : string) : string :=
  match s with
  | EmptyString => EmptyString
  | String c s' =>
      match pending with
      | S n => replace_from matcher n s'
      | O =>
          match matcher s with
          | Some (S n) => replace_from matcher n s'
          | _ => String c (replace_from matcher 0 s')
          end
      end
  end.

Definition remove_all (matcher : string → option nat) (s : string) : string :=
  replace_from matcher 0 s.

Definition sanitizeMarkdown (content : string) : string :=
  Js.trim (remove_all match_handler
             (remove_all match_javascript
                (remove_all match_script content))).

End Validation.

(** ** The health check ([health-monitor.ts]) *)

Module HealthMonitor.

(** [ports.utilizationPercentage > 90], where [getStats] of the port
    allocator gives [Math.round((allocatedCount / totalPorts) * 100)].
    For a range of at most 65536 ports the doubles decide this as the
    integers do: the rounded percentage is above 90 exactly when
    [allocatedCount / totalPorts] is at least 0.905.  A range without any
    port makes the division one by zero: infinite when a port is
    allocated, and otherwise not a number, which is not above 90. *)
Definition utilizationAbove90 (cfg : ServerConfig) (w : World) : bool :=
  let totalPorts := (PortManager.endPort cfg - PortManager.startPort cfg + 1)%Z in
  let allocatedCount := Z.of_nat (size (allocatedPorts w)) in
  if (0 <? totalPorts)%Z then (181 * totalPorts <=? 200 * allocatedCount)%Z
  else if (totalPorts =? 0)%Z then (0 <? allocatedCount)%Z
  else false.

Inductive HealthStatus : Type := Healthy | Unhealthy.

Global Instance HealthStatus_eq_dec : EqDecision HealthStatus.
Proof. solve_decision. Defined.

(** Of [HealthCheckResponse], the fields that the routes read. *)
Record HealthCheckResponse : Type := {
  status : HealthStatus;
  availablePorts : Z
}.

Definition determineOverallStatus (memoryPercentage diskPercentage : Z)
    (cfg : ServerConfig) : M HealthStatus :=
  if (90 <? memoryPercentage)%Z
  then logger LWarn "High memory usage detected" ;; ret Unhealthy
  else if (95 <? diskPercentage)%Z
  then logger LWarn "High disk usage detected" ;; ret Unhealthy
  else
    let* w := get in
    if utilizationAbove90 cfg w
    then logger LWarn "Low port availability detected" ;; ret Unhealthy
    else ret Healthy.

Definition getHealthStatus (cfg : ServerConfig) (env : Env) : M HealthCheckResponse :=
  match health_probe env with
  | ProbeUsage memoryPercentage diskPercentage =>
      let* w := get in
      let* overall := determineOverallStatus memoryPercentage diskPercentage cfg in
      logger LDebug "Health check completed" ;;
      ret {| status := overall;
             availablePorts := PortManager.getAvailablePortCount cfg w |}
  | ProbeFailed _ =>
      logger LError "Health check failed" ;;
      ret {| status := Unhealthy; availablePorts := 0 |}
  end.

End HealthMonitor.

(** ** The routes ([routes.ts]) and the error middleware *)

Module Routes.

Import Validation.

(** [errorHandler]: the answer to an error passed to [next].  When the
    response was sent already the error goes on to [next], the default
    handler of Express. *)
Definition errorHandler (headersSent : bool) (next : Error → M Response)
    (error : Error) : M Response :=
  if headersSent then next error
  else
  logger LError "Request error" ;;
  match error with
  | AppError name st code message =>
      ret {| statusCode := st; payload := ApiError name message code [] |}
  | BodySyntaxError _ =>
      ret {| statusCode := 400;
             payload := ApiError "Invalid JSON" "Request body contains invalid JSON"
                                 "INVALID_JSON" [] |}
  | SystemError code message =>
      if decide (code = "EADDRINUSE")
      then ret {| statusCode := 503;
                  payload := ApiError "Port In Use" "The requested port is already in use"
                                      "PORT_IN_USE" [] |}
      else if decide (code = "ENOENT")
      then ret {| statusCode := 500;
                  payload := ApiError "File Not Found" "Required file or directory not found"
                                      "FILE_NOT_FOUND" [] |}
      else if decide (code = "ENOSPC")
      then ret {| statusCode := 507;
                  payload := ApiError "Insufficient Storage" "No space left on device"
                                      "INSUFFICIENT_STORAGE" [] |}
      else ret {| statusCode := 500;
                  payload := ApiError "Internal Server Error" "An unexpected error occurred"
                                      "INTERNAL_ERROR" [] |}
  | PlainError _ =>
      ret {| statusCode := 500;
             payload := ApiError "Internal Server Error" "An unexpected error occurred"
                                 "INTERNAL_ERROR" [] |}
  end.

(** [asyncHandler fn]: a rejection of [fn] goes to the error middleware.
    A handler of [routes.ts] sends its response with its last statement,
    which is the value it returns here: when it throws, nothing has been
    sent. *)
Definition asyncHandler (fn : M Response) : M Response :=
  try_catch fn (errorHandler false throw).

(** The handler of [POST /presentations]. *)
Definition createHandler (cfg : ServerConfig) (env : Env)
    (request : GeneratePPTRequest) : M Response :=
  logger LInfo "Creating new presentation" ;;
  let* health := HealthMonitor.getHealthStatus cfg env in
  if decide (HealthMonitor.status health = HealthMonitor.Unhealthy)
  then throw (ServiceUnavailableError "Service is currently unhealthy")
  else if decide (HealthMonitor.availablePorts health = 0%Z)
  then throw (InsufficientResourcesError "No available ports for new presentations")
  else
    let* response := PresentationManager.createPresentation cfg env request in
    logger LInfo "Presentation created successfully" ;;
    ret {| statusCode := 201; payload := Created response |}.

Definition post_presentations (sanitizeMarkdown : string → string)
    (cfg : ServerConfig) (env : Env) (body : Js.json) : M Response :=
  let* validated := validateBody generatePPTSchema body in
  match validated with
  | inl answer => ret answer
  | inr value =>
      match validatePresentationRequest sanitizeMarkdown value with
      | inl answer => ret answer
      | inr request => asyncHandler (createHandler cfg env request)
      end
  end.

(** The handler of [POST /presentations/:id/extend]: the instance found in
    the map is the object that is updated. *)
Definition extendHandler (env : Env) (ident : string) (newTtl : Z) : M Response :=
  let* w := get in
  match PresentationManager.getPresentation ident w with
  | None => throw (NotFoundError ("Presentation with ID " +:+ ident +:+ " not found"))
  | Some presentation =>
      let updated := with_expiresAt (now env + newTtl)%Z presentation in
      modify (set_instances (<[ident := updated]>)) ;;
      logger LInfo "Presentation TTL extended" ;;
      ret {| statusCode := 200;
             payload := Extended (id updated) (expiresAt updated)
                                 "TTL extended successfully" |}
  end.

Definition post_extend (env : Env) (ident : string) (body : Js.json) : M Response :=
  let* params := validateParams ident in
  match params with
  | inl answer => ret answer
  | inr ident' =>
      let* validated := validateBody extendSchema body in
      match validated with
      | inl answer => ret answer
      | inr newTtl => asyncHandler (extendHandler env ident' newTtl)
      end
  end.

(** *** The routes that list, show and delete presentations, and the
    manual sweep *)

(** An element of the list of [GET /presentations]. *)
Record Summary : Type := {
  sum_id : string;
  sum_status : Status;
  sum_createdAt : Z;
  sum_expiresAt : Z;
  sum_url : string;
  sum_title : option string
}.

(** The body of [GET /presentations/:id]; the [error] of an instance is
    never set, and so never part of it. *)
Record Details : Type := {
  det_id : string;
  det_status : Status;
  det_createdAt : Z;
  det_expiresAt : Z;
  det_presentation : string;
  det_presenter : string;
  det_overview : string;
  det_print : string;
  det_title : option string;
  det_theme : option string;
  det_contentLength : nat
}.

(** What these routes answer: an error, by the validation or the error
    middleware; nothing, with status 204; or a body, with status 200. *)
Inductive Answer : Type :=
  | Refused (response : Response)
  | NoContent
  | Listed (presentations : list Summary) (total active : nat)
  | Detailed (details : Details)
  | CleanupCompleted (message : string) (cleanedCount : nat).

Definition answer_status (a : Answer) : nat :=
  match a with
  | Refused response => statusCode response
  | NoContent => 204
  | Listed _ _ _ | Detailed _ | CleanupCompleted _ _ => 200
  end.

(** [asyncHandler fn] for a handler of these routes. *)
Definition asyncAnswer (fn : M Answer) : M Answer :=
  try_catch fn (λ error, let* response := errorHandler false throw error in
                         ret (Refused response)).

(** The handler of [GET /presentations]; [protocol] and [host] are those
    of the request. *)
Definition listHandler (protocol host : string) : M Answer :=
  let* w := get in
  let presentations := PresentationManager.getAllPresentations w in
  let response :=
    Listed
      (map (λ p, {| sum_id := id p; sum_status := status p;
                    sum_createdAt := createdAt p; sum_expiresAt := expiresAt p;
                    sum_url := protocol +:+ "://" +:+ host +:+ "/api/presentations/" +:+ id p;
                    sum_title := title (request p) |}) presentations)
      (length presentations)
      (length (filter (λ p, status p = StReady) presentations)) in
  logger LInfo "Listed presentations" ;;
  ret response.

Definition get_presentations (protocol host : string) : M Answer :=
  asyncAnswer (listHandler protocol host).

(** The handler of [GET /presentations/:id]. *)
Definition detailsHandler (protocol host ident : string) : M Answer :=
  let* w := get in
  match PresentationManager.getPresentation ident w with
  | None => throw (NotFoundError ("Presentation with ID " +:+ ident +:+ " not found"))
  | Some presentation =>
      let baseUrl := protocol +:+ "://" +:+ host in
      let base := baseUrl +:+ ":" +:+ pretty (port presentation) in
      logger LInfo "Retrieved presentation details" ;;
      ret (Detailed
             {| det_id := id presentation; det_status := status presentation;
                det_createdAt := createdAt presentation;
                det_expiresAt := expiresAt presentation;
                det_presentation := base +:+ "/1";
                det_presenter := base +:+ "/presenter/1";
                det_overview := base +:+ "/overview";
                det_print := base +:+ "/print";
                det_title := title (request presentation);
                det_theme := theme (request presentation);
                det_contentLength := String.length (content (request presentation)) |})
  end.

Definition get_presentation (protocol host ident : string) : M Answer :=
  let* params := validateParams ident in
  match params with
  | inl answer => ret (Refused answer)
  | inr ident' => asyncAnswer (detailsHandler protocol host ident')
  end.

(** The handler of [DELETE /presentations/:id]. *)
Definition deleteHandler (env : Env) (ident : string) : M Answer :=
  let* deleted := PresentationManager.deletePresentation env ident in
  if deleted
  then logger LInfo "Presentation deleted" ;; ret NoContent
  else throw (NotFoundError ("Presentation with ID " +:+ ident +:+ " not found")).

Definition delete_presentation (env : Env) (ident : string) : M Answer :=
  let* params := validateParams ident in
  match params with
  | inl answer => ret (Refused answer)
  | inr ident' => asyncAnswer (deleteHandler env ident')
  end.

(** The handler of [POST /cleanup]. *)
Definition cleanupHandler (env : Env) : M Answer :=
  logger LInfo "Manual cleanup triggered" ;;
  let* cleanedCount := PresentationManager.cleanupExpired env in
  ret (CleanupCompleted "Cleanup completed" cleanedCount).

Definition post_cleanup (env : Env) : M Answer :=
  asyncAnswer (cleanupHandler env).

End Routes.

(** ** Executions

    Sequences of calls, as the properties below quantify over them.  In
    [perform] and [reachable] every call runs to its end before the next
    one begins: these are the executions in which no two calls overlap.
    The executions in which a call is suspended at an [await] while
    others run are those of [schedule], further down. *)

(** A call to the port allocator. *)
Inductive PortCall : Type :=
  | Allocate (probe : Error + Z)
  | Release (p : Z).

(** One call, on the world and the list of the ports that were handed out
    by a successful [allocatePort] and not released since. *)
Definition port_call (cfg : ServerConfig) (st : World * list Z) (c : PortCall)
    : World * list Z :=
  match c with
  | Allocate probe =>
      match PortManager.allocatePort cfg probe st.1 with
      | (w', inr p) => (w', p :: st.2)
      | (w', inl _) => (w', st.2)
      end
  | Release p => ((PortManager.releasePort p st.1).1, filter (λ q, q ≠ p) st.2)
  end.

Definition port_trace (cfg : ServerConfig) (calls : list PortCall) (w : World)
    : World * list Z :=
  fold_left (port_call cfg) calls (w, []).

(** A call that reaches the registry. *)
Inductive Operation : Type :=
  | CreatePresentation (env : Env) (request : GeneratePPTRequest)
  | DeletePresentation (env : Env) (ident : string)
  | CleanupExpired (env : Env)
  | Shutdown (env : Env)
  | PostPresentations (sanitizeMarkdown : string → string) (env : Env) (body : Js.json)
  | PostExtend (env : Env) (ident : string) (body : Js.json).

(** One call, from its beginning to its end, with nothing in between. *)
Definition perform (cfg : ServerConfig) (op : Operation) (w : World) : World :=
  match op with
  | CreatePresentation env request =>
      (PresentationManager.createPresentation cfg env request w).1
  | DeletePresentation env ident => (PresentationManager.deletePresentation env ident w).1
  | CleanupExpired env => (PresentationManager.cleanupExpired env w).1
  | Shutdown env => (PresentationManager.shutdown env w).1
  | PostPresentations sanitizeMarkdown env body =>
      (Routes.post_presentations sanitizeMarkdown cfg env body w).1
  | PostExtend env ident body => (Routes.post_extend env ident body w).1
  end.

(** The worlds the service can be in when its calls follow one another,
    each one completed before the next begins. *)
Inductive reachable (cfg : ServerConfig) : World → Prop :=
  | reachable_start : reachable cfg initialWorld
  | reachable_step w op : reachable cfg w → reachable cfg (perform cfg op w).

(** The host that answers during an operation. *)
Definition host_of (op : Operation) : Env :=
  match op with
  | CreatePresentation env _ | DeletePresentation env _ | CleanupExpired env
  | Shutdown env | PostPresentations _ env _ | PostExtend env _ _ => env
  end.

(** A host that never fails to remove a directory. *)
Definition removes_directories (env : Env) : Prop :=
  ∀ path, remove_fault env path = None.

(** The worlds the service can be in when its calls follow one another
    and the hosts it meets are all [good]. *)
Inductive reachable_when (good : Env → Prop) (cfg : ServerConfig) : World → Prop :=
  | reachable_when_start : reachable_when good cfg initialWorld
  | reachable_when_step w op :
      reachable_when good cfg w → good (host_of op) →
      reachable_when good cfg (perform cfg op w).

(** ** Calls that overlap

    An [async] method runs until it awaits the host, and is resumed when
    the host has answered; in between, other calls run.  The methods of
    the registry are written here once more, with the places at which
    they are suspended.  What the host does during an [await] takes
    effect when the method is resumed.  Each suspension is an [await] of
    the source; where the source awaits the host several times in a row
    (the requests of [waitForServerReady], the two writes of
    [createCustomCSS], the checks of the template) the method is
    suspended once.  Every schedule below is therefore an execution of
    the service; the executions in which a method is suspended more often
    are not among them. *)

(** How far a call has come: to its end, or to an [await]. *)
Inductive Task (A : Type) : Type :=
  | Finished (w : World) (r : Error + A)
  | Suspended (w : World) (resume : World → Task A).

Arguments Finished {A} w r.
Arguments Suspended {A} w resume.

(** An [async] method: from the world in which it is called to its first
    [await], or to its end. *)
Definition Async (A : Type) : Type := World → Task A.

Module Tasks.

(** A segment without [await]. *)
Definition sync {A} (m : M A) : Async A :=
  λ w, match m w with (w', r) => Finished w' r end.

Definition tret {A} (a : A) : Async A := λ w, Finished w (inr a).

(** The suspension of an [await]. *)
Definition pause : Async unit := λ w, Suspended w (λ w', Finished w' (inr tt)).

(** What is left of [t], and then [k] on its outcome. *)
Fixpoint continue {A B} (t : Task A) (k : Error + A → Async B) : Task B :=
  match t with
  | Finished w r => k r w
  | Suspended w resume => Suspended w (λ w', continue (resume w') k)
  end.

Definition tbind {A B} (a : Async A) (k : A → Async B) : Async B :=
  λ w, continue (a w) (λ r, match r with
                            | inl e => λ w', Finished w' (inl e)
                            | inr x => k x
                            end).

(** [try { a } catch (e) { h e }] around segments and suspensions. *)
Definition ttry {A} (a : Async A) (h : Error → Async A) : Async A :=
  λ w, continue (a w) (λ r, match r with
                            | inl e => h e
                            | inr x => λ w', Finished w' (inr x)
                            end).

(** [await] of one operation of the host: the method is suspended, and
    the operation has taken place when it is resumed. *)
Definition await {A} (m : M A) : Async A := tbind pause (λ _, sync m).

(** The call resumed at once at each of its suspensions. *)
Fixpoint finish {A} (t : Task A) : World * (Error + A) :=
  match t with
  | Finished w r => (w, r)
  | Suspended w resume => finish (resume w)
  end.

Definition run {A} (a : Async A) : M A := λ w, finish (a w).

Arguments sync {A} m%_js.
Arguments await {A} m%_js.

Declare Scope task_scope.
Delimit Scope task_scope with task.
Notation "'let*' x ':=' m 'in' k" := (tbind m (λ x, k))
  (at level 10, x name, m at level 100, k at level 200) : task_scope.
Notation "m ';;' k" := (tbind m (λ _, k))
  (at level 100, k at level 200, right associativity) : task_scope.
Local Open Scope task_scope.

(** [PortManager.allocatePort]: suspended while [getPort] probes; the
    checks and the insertion follow in one segment. *)
Definition allocatePort (cfg : ServerConfig) (probe : Error + Z) : Async Z :=
  await (PortManager.allocatePort cfg probe).

(** [ProjectGenerator.cleanupProject]: suspended while [fs.remove] runs. *)
Definition cleanupProject (env : Env) (projectPath : string) : Async unit :=
  await (ProjectGenerator.cleanupProject env projectPath).

(** [ProjectGenerator.createProjectWithoutDeps]: suspended at each
    operation on the file system. *)
Definition createProjectWithoutDeps (cfg : ServerConfig) (env : Env)
    (request : GeneratePPTRequest) : Async (string * string) :=
  let id := ProjectGenerator.generateProjectId env in
  let projectPath := join_path (tempDir cfg) id in
  ttry
    (sync (logger LInfo "Creating project without dependencies") ;;
     await (Fs.guarded env EnsureTempDir (ret tt)) ;;
     await (Fs.guarded env EnsureProjectDir (Fs.ensureDir projectPath)) ;;
     await (Fs.guarded env WriteSlides
              (ProjectGenerator.createSlidesFile projectPath request)) ;;
     await (Fs.guarded env EnsureComponents (Fs.ensureSubdir projectPath "components")) ;;
     await (Fs.guarded env EnsurePublic (Fs.ensureSubdir projectPath "public")) ;;
     (match customCSS request with
      | Some css =>
          if decide (css = EmptyString) then tret tt
          else await (Fs.guarded env WriteCustomCSS
                        (ProjectGenerator.createCustomCSS projectPath css))
      | None => tret tt
      end) ;;
     await (Fs.guarded env WriteViteConfig (ProjectGenerator.createViteConfig projectPath)) ;;
     (if template_valid env
      then pause ;;
           sync (logger LInfo "Copying node_modules from template") ;;
           await (Fs.guarded env CopyNodeModules (Fs.put projectPath "node_modules" Folder)) ;;
           sync (logger LInfo "node_modules copied successfully")
      else tret tt) ;;
     sync (logger LInfo "Project created successfully (no deps)" ;;
           ret (id, projectPath))%js)
    (λ error,
       sync (logger LError "Failed to create project") ;;
       ttry (await (Fs.remove env projectPath))
            (λ _, sync (logger LError "Failed to cleanup project after error")) ;;
       sync (throw error)).

(** [startSlidevProcess]: the process is spawned in the segment of the
    call; its events arrive while the method is suspended. *)
Definition startSlidevProcess (env : Env) (projectPath : string) (port : Z)
    (theme : string) : Async nat :=
  match spawn_outcome env with
  | SpawnReady =>
      let* pid := sync PresentationManager.spawn in
      pause ;;
      sync (logger LInfo "Slidev stdout" ;; ret pid)%js
  | SpawnErrorEvent e => pause ;; sync (throw e)
  | SpawnExit code =>
      let* pid := sync PresentationManager.spawn in
      pause ;;
      sync (PresentationManager.mark_exited pid) ;;
      if decide (code = 0%Z)
      then pause ;;
           sync (PresentationManager.kill pid SIGKILL ;;
                 throw (PlainError "Slidev startup timeout"))%js
      else sync (throw (PlainError ("Slidev process exited with code " +:+ pretty code)))
  | SpawnTimeout =>
      let* pid := sync PresentationManager.spawn in
      pause ;;
      sync (PresentationManager.kill pid SIGKILL ;;
            throw (PlainError "Slidev startup timeout"))%js
  end.

(** [waitForServerReady]: suspended at its first request. *)
Definition waitForServerReady (env : Env) (port : Z) : Async unit :=
  await (PresentationManager.waitForServerReady env port).

Definition attempt {A} (a : Async A) : Async (Error + A) :=
  ttry (let* x := a in tret (inr x)) (λ e, tret (inl e)).

Definition rollback_start {A} (env : Env) (slidevProcess : option nat) (port : Z)
    (projectPath : string) (error : Error) : Async A :=
  sync (logger LError "Failed to start Slidev server, cleaning up") ;;
  sync (match slidevProcess with
        | Some pid =>
            let* w := get in
            if negb (PresentationManager.is_killed pid w)
            then PresentationManager.kill pid SIGKILL ;; ret tt else ret tt
        | None => ret tt
        end)%js ;;
  sync (PortManager.releasePort port) ;;
  cleanupProject env projectPath ;;
  sync (throw error).

Definition startServer (env : Env) (projectPath : string) (port : Z)
    (theme : string) : Async nat :=
  let* started := attempt (startSlidevProcess env projectPath port theme) in
  match started with
  | inl error => rollback_start env None port projectPath error
  | inr slidevProcess =>
      let* waited := attempt (waitForServerReady env port) in
      match waited with
      | inl error => rollback_start env (Some slidevProcess) port projectPath error
      | inr _ => tret slidevProcess
      end
  end.

(** [createPresentation]: the ceiling is checked in the segment of the
    call, the instance is registered in the last segment. *)
Definition createPresentation (cfg : ServerConfig) (env : Env)
    (request : GeneratePPTRequest) : Async GeneratePPTResponse :=
  let* w0 := sync get in
  if (maxConcurrentPresentations cfg <=? Z.of_nat (size (instances w0)))%Z
  then sync (throw (PlainError "Maximum number of concurrent presentations reached"))
  else
    ttry
      (sync (logger LInfo "Creating presentation") ;;
       let* project := createProjectWithoutDeps cfg env request in
       let* port := allocatePort cfg (getPort env) in
       let ttl := match ttl request with
                  | Some t => if decide (t = 0%Z) then defaultTTL cfg else t
                  | None => defaultTTL cfg
                  end in
       let expiresAt := (now env + ttl)%Z in
       sync (logger LInfo "Starting Slidev server") ;;
       let* slidevProcess :=
         startServer env project.2 port
                     (ProjectGenerator.or_else (theme request) "default") in
       let instance :=
         {| id := project.1; projectPath := project.2; server := slidevProcess;
            port := port; createdAt := now_later env; expiresAt := expiresAt;
            status := StReady; request := request |} in
       sync (modify (set_instances (<[project.1 := instance]>)) ;;
             logger LInfo "Presentation created successfully" ;;
             let base := baseUrl cfg +:+ ":" +:+ pretty port in
             ret {| res_id := project.1; res_url := base; res_status := StReady;
                    res_expiresAt := expiresAt; res_createdAt := createdAt instance;
                    res_presentation := base +:+ "/";
                    res_presenter := base +:+ "/presenter/";
                    res_overview := base +:+ "/overview/";
                    res_print := base +:+ "/print" |})%js)
      (λ error, sync (logger LError "Failed to create presentation" ;; throw error)%js).

(** The block that stops the server: suspended for the second of grace
    when [SIGTERM] was sent. *)
Definition stopServer (pid : nat) : Async unit :=
  let* w := sync get in
  if negb (PresentationManager.is_killed pid w)
  then sync (PresentationManager.kill pid SIGTERM) ;;
       pause ;;
       sync (let* w1 := get in
             if negb (PresentationManager.is_killed pid w1)
             then PresentationManager.kill pid SIGKILL ;; ret tt else ret tt)%js
  else tret tt.

(** [deletePresentation]: the instance is read in the segment of the
    call; its port is released before the directory is removed, and its
    entry is deleted in the last segment. *)
Definition deletePresentation (env : Env) (ident : string) : Async bool :=
  let* w := sync get in
  match instances w !! ident with
  | None => tret false
  | Some instance =>
      ttry
        (sync (logger LInfo "Deleting presentation") ;;
         stopServer (server instance) ;;
         sync (PortManager.releasePort (port instance)) ;;
         cleanupProject env (projectPath instance) ;;
         sync (modify (set_instances (delete ident)) ;;
               logger LInfo "Presentation deleted successfully" ;;
               ret true)%js)
        (λ error, sync (logger LError "Failed to delete presentation" ;; throw error)%js)
  end.

Fixpoint sweep (env : Env) (ids : list string) (cleanedCount : nat) : Async nat :=
  match ids with
  | [] => tret cleanedCount
  | ident :: rest =>
      let* count :=
        ttry (deletePresentation env ident ;; tret (S cleanedCount))
             (λ _, sync (logger LError "Failed to cleanup expired presentation" ;;
                         ret cleanedCount)%js) in
      sweep env rest count
  end.

Definition cleanupExpired (env : Env) : Async nat :=
  let* w := sync get in
  let ids := PresentationManager.expiredIds (now env) w in
  sync (logger LInfo "Cleaning up expired presentations") ;;
  sweep env ids 0.

Fixpoint shutdown_loop (env : Env) (ids : list string) : Async unit :=
  match ids with
  | [] => tret tt
  | ident :: rest =>
      ttry (deletePresentation env ident ;; tret tt)
           (λ _, sync (logger LError "Error during shutdown cleanup")) ;;
      shutdown_loop env rest
  end.

Definition shutdown (env : Env) : Async unit :=
  sync (logger LInfo "Shutting down presentation manager") ;;
  sync (logger LInfo "Cleanup timer stopped") ;;
  let* w := sync get in
  shutdown_loop env (map_to_list (instances w)).*1 ;;
  sync (PortManager.clearAll ;;
        logger LInfo "Presentation manager shutdown complete")%js.

(** The outcome of a call is of no concern to the others. *)
Definition forget {A} (t : Task A) : Task unit :=
  continue t (λ _ w, Finished w (inr tt)).

(** The beginning of a call.  The two routes run as one segment. *)
Definition start (cfg : ServerConfig) (op : Operation) : Async unit :=
  λ w, match op with
       | CreatePresentation env request => forget (createPresentation cfg env request w)
       | DeletePresentation env ident => forget (deletePresentation env ident w)
       | CleanupExpired env => forget (cleanupExpired env w)
       | Shutdown env => forget (shutdown env w)
       | PostPresentations sanitizeMarkdown env body =>
           forget (sync (Routes.post_presentations sanitizeMarkdown cfg env body) w)
       | PostExtend env ident body => forget (sync (Routes.post_extend env ident body) w)
       end.

End Tasks.

(** What the event loop does next: it begins a call, or it resumes the
    [n]-th of the suspended ones. *)
Inductive Move : Type :=
  | Call (op : Operation)
  | Resume (n : nat).

(** The calls that are suspended, the oldest first. *)
Definition Pending : Type := list (World → Task unit).

(** A call that has reached its end leaves the list; one that is suspended
    once more keeps its place. *)
Definition settle (t : Task unit) (before after : Pending) : World * Pending :=
  match t with
  | Finished w _ => (w, before ++ after)
  | Suspended w resume => (w, before ++ resume :: after)
  end.

Definition move (cfg : ServerConfig) (st : World * Pending) (m : Move) : World * Pending :=
  match m with
  | Call op => settle (Tasks.start cfg op st.1) st.2 []
  | Resume n =>
      match st.2 !! n with
      | Some resume => settle (resume st.1) (take n st.2) (drop (S n) st.2)
      | None => st
      end
  end.

(** The world, and the calls still suspended, after the moves. *)
Definition schedule (cfg : ServerConfig) (moves : list Move) : World * Pending :=
  fold_left (move cfg) moves (initialWorld, []).

(** The hosts that the calls of a schedule meet. *)
Definition hosts_of (moves : list Move) : list Env :=
  omap (λ m, match m with Call op => Some (host_of op) | Resume _ => None end) moves.

(** A computation that leaves one component of the world as it found it. *)
Definition keeps {A X} (π : World → X) (m : M A) : Prop :=
  ∀ w, π (m w).1 = π w.

(** The sentence "the sweep removes exactly the instances expired at its
    start", as a property of one run. *)
Definition removes_exactly_expired (env : Env) (w : World) : Prop :=
  ∀ ident,
    instances (PresentationManager.cleanupExpired env w).1 !! ident =
    match instances w !! ident with
    | Some i => if decide (expiresAt i ≤ now env)%Z then None else Some i
    | None => None
    end.

(** No two instances share a port, a directory or a process. *)
Definition separate (w : World) : Prop :=
  map_Forall (λ id1 i1,
    map_Forall (λ id2 i2,
      id1 ≠ id2 →
      port i1 ≠ port i2 ∧ projectPath i1 ≠ projectPath i2 ∧ server i1 ≠ server i2)
      (instances w))
    (instances w).

Global Instance separate_dec (w : World) : Decision (separate w).
Proof. unfold separate. apply _. Defined.

(** ** Vocabulary of the properties *)

Definition port_allocated_entry : LogEntry :=
  {| log_level := LInfo; log_message := "Port allocated" |}.

(** The invariant of a trace of calls: the ports handed out and still held
    are pairwise distinct, in the range and recorded as allocated. *)
Definition held_ok (cfg : ServerConfig) (st : World * list Z) : Prop :=
  NoDup st.2 ∧
  ∀ p, p ∈ st.2 →
       (PortManager.startPort cfg ≤ p)%Z ∧ (p ≤ PortManager.endPort cfg)%Z ∧
       p ∈ allocatedPorts st.1.

Definition triple {A} (P : World → Prop) (m : M A) (Q : World → Error + A → Prop) : Prop :=
  ∀ w, P w → Q (m w).1 (m w).2.

(** [m] returns, with a value in [V], and keeps the invariant [I]. *)
Definition returns {A} (I : World → Prop) (m : M A) (V : A → Prop) : Prop :=
  triple I m (λ w r, I w ∧ ∃ a, r = inr a ∧ V a).

(** [m] keeps the invariant [I], and when it returns its value is in [V]. *)
Definition maintains {A} (I : World → Prop) (m : M A) (V : A → Prop) : Prop :=
  triple I m (λ w r, I w ∧ ∀ a, r = inr a → V a).

Definition other_dirs (path : string) (w : World) : gmap string (gmap string Entry) :=
  delete path (disk w).

Definition has_dir (path : string) (w : World) : Prop := is_Some (disk w !! path).

Definition logged (l : Level) (msg : string) (w : World) : World := (logger l msg w).1.

(** Every registered instance is in the state [ready]. *)
Definition all_ready (w : World) : Prop :=
  map_Forall (λ _ i, status i = StReady) (instances w).

(** The directory [path] holds the file [name] with the content [data]. *)
Definition has_file (path name data : string) (w : World) : Prop :=
  ∃ dir, disk w !! path = Some dir ∧ dir !! name = Some (File data).

(** A process that was spawned and has received no signal. *)
Definition running : ChildProcess :=
  {| killed := false; exited := false; received := [] |}.

(** A process to which [SIGTERM] was delivered. *)
Definition stopped (c : ChildProcess) : ChildProcess :=
  {| killed := true; exited := false; received := received c ++ [SIGTERM] |}.

(** Every instance is registered under its own id, works in the directory
    of that id below [tempDir], and has a process of the table. *)
Definition well_keyed (cfg : ServerConfig) (w : World) : Prop :=
  ∀ ident i, instances w !! ident = Some i →
    id i = ident ∧ projectPath i = join_path (tempDir cfg) ident ∧
    server i < length (procs w).

(** No two instances have the same process. *)
Definition own_processes (w : World) : Prop :=
  ∀ id1 id2 i1 i2, id1 ≠ id2 →
    instances w !! id1 = Some i1 → instances w !! id2 = Some i2 → server i1 ≠ server i2.

(** The port of every instance is allocated, and no two instances have
    the same port. *)
Definition own_ports (w : World) : Prop :=
  (∀ ident i, instances w !! ident = Some i → port i ∈ allocatedPorts w) ∧
  (∀ id1 id2 i1 i2, id1 ≠ id2 →
     instances w !! id1 = Some i1 → instances w !! id2 = Some i2 → port i1 ≠ port i2).

(** The health check finds the service unhealthy: its probes fail, more
    than 90 % of the memory or more than 95 % of the disk is in use, or
    the rounded share of allocated ports is above 90 %. *)
Definition unhealthy (cfg : ServerConfig) (env : Env) (w : World) : Prop :=
  match health_probe env with
  | ProbeFailed _ => True
  | ProbeUsage memoryPercentage diskPercentage =>
      (90 < memoryPercentage)%Z ∨ (95 < diskPercentage)%Z ∨
      HealthMonitor.utilizationAbove90 cfg w = true
  end.

(** Every allocated port lies in the configured range. *)
Definition ports_in_range (cfg : ServerConfig) (w : World) : Prop :=
  ∀ p, p ∈ allocatedPorts w →
       (PortManager.startPort cfg ≤ p)%Z ∧ (p ≤ PortManager.endPort cfg)%Z.

(** ** Concrete hosts, requests and worlds *)

(** A host on which everything works. *)
Definition calm_host : Env := {|
  nanoid := "V1StGXR8_Z5j";
  fs_fault := None;
  template_valid := true;
  remove_fault := λ _, None;
  getPort := inr 3002%Z;
  now := 1700000000000%Z;
  now_later := 1700000002500%Z;
  spawn_outcome := SpawnReady;
  fetch_ok := λ _, true;
  health_probe := ProbeUsage 12 40
|}.

(** The same host when the port probe finds no port to offer. *)
Definition no_port_host : Env := {|
  nanoid := "V1StGXR8_Z5j";
  fs_fault := None;
  template_valid := true;
  remove_fault := λ _, None;
  getPort := inl (PlainError "Unable to find an available port");
  now := 1700000000000%Z;
  now_later := 1700000002500%Z;
  spawn_outcome := SpawnReady;
  fetch_ok := λ _, true;
  health_probe := ProbeUsage 12 40
|}.

(** Two hours later, on a host that refuses to remove directories. *)
Definition busy_disk_host : Env := {|
  nanoid := "Uakgb_J5m9g-";
  fs_fault := None;
  template_valid := true;
  remove_fault := λ _, Some (SystemError "EBUSY" "resource busy or locked");
  getPort := inr 3003%Z;
  now := 1700007200000%Z;
  now_later := 1700007202500%Z;
  spawn_outcome := SpawnReady;
  fetch_ok := λ _, true;
  health_probe := ProbeUsage 12 40
|}.

(** Two hours later, on a host on which everything works. *)
Definition later_host : Env := {|
  nanoid := "Uakgb_J5m9g-";
  fs_fault := None;
  template_valid := true;
  remove_fault := λ _, None;
  getPort := inr 3003%Z;
  now := 1700007200000%Z;
  now_later := 1700007202500%Z;
  spawn_outcome := SpawnReady;
  fetch_ok := λ _, true;
  health_probe := ProbeUsage 12 40
|}.

(** Two hours later, on a host whose port probe proposes 3002 once more. *)
Definition reuse_host : Env := {|
  nanoid := "Uakgb_J5m9g-";
  fs_fault := None;
  template_valid := true;
  remove_fault := λ _, None;
  getPort := inr 3002%Z;
  now := 1700007200000%Z;
  now_later := 1700007202500%Z;
  spawn_outcome := SpawnReady;
  fetch_ok := λ _, true;
  health_probe := ProbeUsage 12 40
|}.

Definition hello_request : GeneratePPTRequest := {|
  content := "# Hello, world";
  title := Some "Q3: results";
  theme := None;
  config := None;
  ttl := None;
  customCSS := None;
  frontmatter := None
|}.

(** The world after one successful creation on the calm host. *)
Definition one_ready : World :=
  (PresentationManager.createPresentation createDefaultConfig calm_host hello_request
     initialWorld).1.

(** The instance that [one_ready] holds. *)
Definition hello_instance : PresentationInstance := {|
  id := "slidev-V1StGXR8_Z5j";
  projectPath := "/tmp/slidev-api/slidev-V1StGXR8_Z5j";
  server := 0;
  port := 3002%Z;
  createdAt := 1700000002500%Z;
  expiresAt := 1700003600000%Z;
  status := StReady;
  request := hello_request
|}.

(** The world after a second creation, two hours later. *)
Definition two_ready : World :=
  (PresentationManager.createPresentation createDefaultConfig later_host hello_request
     one_ready).1.

(** The instance that the second creation adds. *)
Definition later_instance : PresentationInstance := {|
  id := "slidev-Uakgb_J5m9g-";
  projectPath := "/tmp/slidev-api/slidev-Uakgb_J5m9g-";
  server := 1;
  port := 3003%Z;
  createdAt := 1700007202500%Z;
  expiresAt := 1700010800000%Z;
  status := StReady;
  request := hello_request
|}.

(** A configuration with room for one presentation only. *)
Definition one_slot_config : ServerConfig := {|
  baseUrl := "http://localhost";
  tempDir := "/tmp/slidev-api";
  maxConcurrentPresentations := 1;
  defaultTTL := 3600000;
  portRange_start := 3002;
  portRange_end := 3100
|}.

(** A range of three ports. *)
Definition three_ports_config : ServerConfig := {|
  baseUrl := "http://localhost";
  tempDir := "/tmp/slidev-api";
  maxConcurrentPresentations := 10;
  defaultTTL := 3600000;
  portRange_start := 3000;
  portRange_end := 3002
|}.

(** The world in which the three ports of that range are held. *)
Definition three_held : World :=
  (port_trace three_ports_config
     [Allocate (inr 3000%Z); Allocate (inr 3001%Z); Allocate (inr 3002%Z)]
     initialWorld).1.

(** A body of [POST /presentations] whose content has five characters. *)
Definition short_body : Js.json :=
  Js.JObj [("content", Js.JStr "# Hi!"); ("title", Js.JStr "Too short")].

(** Bodies of the extend route: two hours, and one second. *)
Definition two_hours_body : Js.json := Js.JObj [("ttl", Js.JNum 7200000)].

Definition one_second_body : Js.json := Js.JObj [("ttl", Js.JNum 1000)].

(** A Docker daemon that starts containers and answers every command. *)
Definition ready_docker : DockerManager.DockerHost := {|
  DockerManager.docker := λ _ _, inr ("4f2a9c0b1d3e" +:+ Js.newline);
  DockerManager.wait_ticks := 30
|}.

(** A Docker daemon that starts containers and then fails every other
    command. *)
Definition stuck_docker : DockerManager.DockerHost := {|
  DockerManager.docker := λ _ command,
    match Validation.strip_prefix "docker run" command with
    | Some _ => inr ("4f2a9c0b1d3e" +:+ Js.newline)
    | None => inl (PlainError ("Command failed: " +:+ command))
    end;
  DockerManager.wait_ticks := 30
|}.

(** The state after a creation on the stuck daemon. *)
Definition one_stuck : DockerManager.State :=
  (DockerManager.createPresentation createDefaultConfig calm_host stuck_docker
     hello_request DockerManager.initialState).1.

(** * Properties *)

Set Warnings "-clear-no-such-hyp".

(** ** Frame rules *)

Section Keeps.
Context {X : Type} (π : World → X).

Lemma keeps_ret {A} (a : A) : keeps π (ret a).
Proof. by intros w. Qed.

Lemma keeps_throw {A} (e : Error) : keeps π (@throw A e).
Proof. by intros w. Qed.

Lemma keeps_get : keeps π get.
Proof. by intros w. Qed.

Lemma keeps_bind {A B} (m : M A) (k : A → M B) :
  keeps π m → (∀ a, keeps π (k a)) → keeps π (bind m k).
Proof.
  intros Hm Hk w. unfold bind. specialize (Hm w).
  destruct (m w) as [w' [e|a]]; simpl in *; [done|]. by rewrite Hk.
Qed.

Lemma keeps_try_catch {A} (m : M A) (h : Error → M A) :
  keeps π m → (∀ e, keeps π (h e)) → keeps π (try_catch m h).
Proof.
  intros Hm Hh w. unfold try_catch. specialize (Hm w).
  destruct (m w) as [w' [e|a]]; simpl in *; [|done]. by rewrite Hh.
Qed.

Lemma keeps_modify (f : World → World) :
  (∀ w, π (f w) = π w) → keeps π (modify f).
Proof. intros Hf w. apply Hf. Qed.

End Keeps.

(** The head constant of an application. *)
Ltac head_of t :=
  lazymatch t with
  | ?f _ => head_of f
  | _ => t
  end.

(** One step through a method, by the shape of the computation; [leaf]
    is tried on a call before the method is unfolded. *)
Ltac frame_step leaf :=
  lazymatch goal with
  | |- keeps _ (ret _) => apply keeps_ret
  | |- keeps _ (throw _) => apply keeps_throw
  | |- keeps _ get => apply keeps_get
  | |- keeps _ (bind _ _) => apply keeps_bind; [|intros ?]
  | |- keeps _ (try_catch _ _) => apply keeps_try_catch; [|intros ?]
  | |- keeps _ (match _ with _ => _ end) => case_match
  | |- keeps _ (logger _ _) => by intros ?
  | |- keeps _ ?m => first [ leaf | let h := head_of m in progress unfold h ]
  end.

(** For a component that the method under study never writes. *)
Ltac frame := repeat frame_step ltac:(by intros [] || by intros ?).

(** ** The port allocator *)

Lemma allocatePort_returns cfg probe w w' p :
  PortManager.allocatePort cfg probe w = (w', inr p) →
  probe = inr p ∧
  (PortManager.startPort cfg ≤ p)%Z ∧ (p ≤ PortManager.endPort cfg)%Z ∧
  (p ∉ allocatedPorts w) ∧
  w' = set_logs (λ ls, ls ++ [port_allocated_entry])
         (set_allocatedPorts (λ s, s ∪ {[p]}) w).
Proof.
  unfold PortManager.allocatePort, try_catch, bind, throw, ret, get, logger, modify.
  destruct probe as [e|q]; simpl; [congruence|].
  destruct (_ || _) eqn:Hr; simpl; [congruence|].
  case_bool_decide; simpl; [congruence|].
  intros [= <- <-]. apply orb_false_iff in Hr as [H1 H2].
  repeat split; try done; lia.
Qed.

Lemma allocatePort_free cfg w p :
  (PortManager.startPort cfg ≤ p)%Z → (p ≤ PortManager.endPort cfg)%Z →
  p ∉ allocatedPorts w →
  PortManager.allocatePort cfg (inr p) w =
    (set_logs (λ ls, ls ++ [port_allocated_entry])
       (set_allocatedPorts (λ s, s ∪ {[p]}) w), inr p).
Proof.
  intros H1 H2 H3.
  unfold PortManager.allocatePort, try_catch, bind, throw, ret, get, logger, modify.
  simpl. replace (_ || _) with false
    by (symmetry; apply orb_false_iff; split; lia).
  simpl. by rewrite bool_decide_eq_false_2.
Qed.

Lemma allocatePort_throws cfg probe w w' e :
  PortManager.allocatePort cfg probe w = (w', inl e) →
  e = PlainError "No available ports in the configured range" ∧
  instances w' = instances w ∧ allocatedPorts w' = allocatedPorts w ∧
  disk w' = disk w ∧ procs w' = procs w.
Proof.
  unfold PortManager.allocatePort, try_catch, bind, throw, ret, get, logger, modify.
  destruct probe as [e'|q]; simpl.
  { by intros [= <- <-]. }
  destruct (_ || _); simpl.
  { by intros [= <- <-]. }
  case_bool_decide; simpl; [|congruence].
  by intros [= <- <-].
Qed.

Lemma allocatePort_exhausted cfg probe w :
  (∀ p, (PortManager.startPort cfg ≤ p)%Z → (p ≤ PortManager.endPort cfg)%Z →
        p ∈ allocatedPorts w) →
  ∃ w', PortManager.allocatePort cfg probe w =
          (w', inl (PlainError "No available ports in the configured range")).
Proof.
  intros Hfull.
  destruct (PortManager.allocatePort cfg probe w) as [w' [e|p]] eqn:Hrun.
  - apply allocatePort_throws in Hrun as [-> _]. eauto.
  - apply allocatePort_returns in Hrun as (_ & H1 & H2 & H3 & _).
    destruct H3. auto.
Qed.

Lemma releasePort_ports p w :
  allocatedPorts (PortManager.releasePort p w).1 = allocatedPorts w ∖ {[p]}.
Proof.
  unfold PortManager.releasePort, bind, get, logger, modify.
  case_bool_decide; simpl; [done|]. set_solver.
Qed.

Lemma releasePort_returns p w : (PortManager.releasePort p w).2 = inr tt.
Proof.
  unfold PortManager.releasePort, bind, get, logger, modify.
  by case_bool_decide.
Qed.

Lemma port_call_held_ok cfg st c : held_ok cfg st → held_ok cfg (port_call cfg st c).
Proof.
  destruct st as [w held]. intros [Hnd Hin]. destruct c as [probe|q]; simpl.
  - destruct (PortManager.allocatePort cfg probe w) as [w' [e|p]] eqn:Hrun.
    + apply allocatePort_throws in Hrun as (_ & _ & Heq & _).
      split; [done|]. simpl in *. intros p Hp. rewrite Heq. auto.
    + apply allocatePort_returns in Hrun as (_ & H1 & H2 & H3 & ->).
      split; simpl in *.
      * constructor; [|done]. intros Hp. apply Hin in Hp. tauto.
      * intros p' [->|Hp]%elem_of_cons; [set_solver|].
        destruct (Hin p' Hp) as (? & ? & ?). set_solver.
  - split; simpl in *.
    + by apply NoDup_filter.
    + intros p [Hne Hp]%list_elem_of_filter. rewrite releasePort_ports.
      destruct (Hin p Hp) as (? & ? & ?). set_solver.
Qed.

Lemma port_trace_held_ok cfg calls st :
  held_ok cfg st → held_ok cfg (fold_left (port_call cfg) calls st).
Proof.
  revert st. induction calls as [|c calls IH]; intros st Hst; simpl; [done|].
  apply IH. by apply port_call_held_ok.
Qed.

(** ** Reasoning about methods *)

Lemma triple_bind {A B} P R Q (m : M A) (k : A → M B) :
  triple P m R →
  (∀ w e, R w (inl e) → Q w (inl e)) →
  (∀ a, triple (λ w, R w (inr a)) (k a) Q) →
  triple P (bind m k) Q.
Proof.
  intros Hm He Hk w Hw. specialize (Hm w Hw). unfold bind.
  destruct (m w) as [w' [e|a]]; simpl in *; [by apply He|]. by apply Hk.
Qed.

Lemma triple_try_catch {A} P R Q (m : M A) (h : Error → M A) :
  triple P m R →
  (∀ w a, R w (inr a) → Q w (inr a)) →
  (∀ e, triple (λ w, R w (inl e)) (h e) Q) →
  triple P (try_catch m h) Q.
Proof.
  intros Hm Ha Hh w Hw. specialize (Hm w Hw). unfold try_catch.
  destruct (m w) as [w' [e|a]]; simpl in *; [by apply Hh|]. by apply Ha.
Qed.

Lemma triple_weaken {A} (P P' : World → Prop) (Q Q' : World → Error + A → Prop) (m : M A) :
  triple P' m Q' → (∀ w, P w → P' w) → (∀ w r, Q' w r → Q w r) → triple P m Q.
Proof. intros Hm HP HQ w Hw. apply HQ, Hm, HP, Hw. Qed.

Lemma triple_keeps {A X} (π : World → X) (x : X) (m : M A) :
  keeps π m → triple (λ w, π w = x) m (λ w _, π w = x).
Proof. intros Hk w Hw. by rewrite Hk. Qed.

Lemma triple_and {A} P (Q1 Q2 : World → Error + A → Prop) (m : M A) :
  triple P m Q1 → triple P m Q2 → triple P m (λ w r, Q1 w r ∧ Q2 w r).
Proof. intros H1 H2 w Hw. split; [by apply H1|by apply H2]. Qed.

Lemma returns_bind {A B} I (m : M A) (k : A → M B) U V :
  returns I m U → (∀ a, U a → returns I (k a) V) → returns I (bind m k) V.
Proof.
  intros Hm Hk w Hw. destruct (Hm w Hw) as (HI & a & Ha & HU). unfold bind.
  destruct (m w) as [w' r]; simpl in *; subst r. by apply Hk.
Qed.

Lemma returns_ret {A} I (a : A) (V : A → Prop) : V a → returns I (ret a) V.
Proof. intros HV w Hw. simpl. eauto. Qed.

Lemma returns_ret_true {A} I (a : A) : returns I (ret a) (λ _, True).
Proof. by apply returns_ret. Qed.

Lemma returns_get I (V : World → Prop) : (∀ w, I w → V w) → returns I get V.
Proof. intros HV w Hw. simpl. eauto. Qed.

Lemma returns_modify (I : World → Prop) f :
  (∀ w, I w → I (f w)) → returns I (modify f) (λ _, True).
Proof. intros Hf w Hw. simpl. eauto. Qed.

Lemma returns_logger (I : World → Prop) l s :
  (∀ w f, I w → I (set_logs f w)) → returns I (logger l s) (λ _, True).
Proof. intros Hf. apply returns_modify. eauto. Qed.

Lemma returns_weaken {A} I (m : M A) (U V : A → Prop) :
  returns I m U → (∀ a, U a → V a) → returns I m V.
Proof. intros Hm HV w Hw. destruct (Hm w Hw) as (? & a & ? & ?). eauto. Qed.

Lemma maintains_bind {A B} I (m : M A) (k : A → M B) U V :
  maintains I m U → (∀ a, U a → maintains I (k a) V) → maintains I (bind m k) V.
Proof.
  intros Hm Hk w Hw. destruct (Hm w Hw) as (HI & Ha). unfold bind.
  destruct (m w) as [w' [e|a]]; simpl in *; [by split|]. apply Hk; auto.
Qed.

Lemma maintains_try_catch {A} I (m : M A) (h : Error → M A) V :
  maintains I m V → (∀ e, maintains I (h e) V) → maintains I (try_catch m h) V.
Proof.
  intros Hm Hh w Hw. destruct (Hm w Hw) as (HI & Ha). unfold try_catch.
  destruct (m w) as [w' [e|a]]; simpl in *; [by apply Hh|]. auto.
Qed.

Lemma maintains_ret {A} I (a : A) (V : A → Prop) : V a → maintains I (ret a) V.
Proof. intros HV w Hw. simpl. split; [done|]. by intros ? [= <-]. Qed.

Lemma maintains_ret_true {A} I (a : A) : maintains I (ret a) (λ _, True).
Proof. by apply maintains_ret. Qed.

Lemma maintains_throw {A} I e (V : A → Prop) : maintains I (throw e) V.
Proof. intros w Hw. simpl. by split. Qed.

Lemma maintains_get I (V : World → Prop) : (∀ w, I w → V w) → maintains I get V.
Proof. intros HV w Hw. simpl. split; [done|]. intros ? [= <-]. auto. Qed.

Lemma maintains_modify (I : World → Prop) f :
  (∀ w, I w → I (f w)) → maintains I (modify f) (λ _, True).
Proof. intros Hf w Hw. simpl. eauto. Qed.

Lemma maintains_logger (I : World → Prop) l s :
  (∀ w f, I w → I (set_logs f w)) → maintains I (logger l s) (λ _, True).
Proof. intros Hf. apply maintains_modify. eauto. Qed.

Lemma maintains_weaken {A} I (m : M A) (U V : A → Prop) :
  maintains I m U → (∀ a, U a → V a) → maintains I m V.
Proof. intros Hm HV w Hw. destruct (Hm w Hw) as (? & ?). eauto. Qed.

Lemma maintains_keeps {A X} (π : World → X) (P : X → Prop) (m : M A) :
  keeps π m → maintains (λ w, P (π w)) m (λ _, True).
Proof. intros Hk w Hw. by rewrite Hk. Qed.

(** One step through a method that keeps an invariant. *)
Ltac maintains_step leaf :=
  lazymatch goal with
  | |- maintains _ (ret _) _ => first [ apply maintains_ret_true | apply maintains_ret; done ]
  | |- maintains _ (throw _) _ => apply maintains_throw
  | |- maintains _ (logger _ _) _ => apply maintains_logger; by intros ? ? ?
  | |- maintains _ get _ => apply maintains_get; intros; exact I
  | |- maintains _ (bind _ _) _ => eapply maintains_bind; [|intros ? _]
  | |- maintains _ (try_catch _ _) _ => apply maintains_try_catch; [|intros ?]
  | |- maintains _ (match _ with _ => _ end) _ => case_match
  | |- maintains _ ?m _ => first [ leaf | let h := head_of m in progress unfold h ]
  end.

(** One step through a method that cannot throw. *)
Ltac returns_step leaf :=
  lazymatch goal with
  | |- returns _ (ret _) _ => first [ apply returns_ret_true | apply returns_ret; done ]
  | |- returns _ (logger _ _) _ => apply returns_logger; by intros ? ? ?
  | |- returns _ (bind _ _) _ => eapply returns_bind; [|intros ? _]
  | |- returns _ (match _ with _ => _ end) _ => case_match
  | |- returns _ ?m _ => first [ leaf | let h := head_of m in progress unfold h ]
  end.

(** ** The scaffolder *)

Lemma scaffold_keeps_instances cfg env req :
  keeps instances (ProjectGenerator.createProjectWithoutDeps cfg env req).
Proof. frame. Qed.

Lemma scaffold_keeps_ports cfg env req :
  keeps allocatedPorts (ProjectGenerator.createProjectWithoutDeps cfg env req).
Proof. frame. Qed.

Lemma scaffold_keeps_procs cfg env req :
  keeps procs (ProjectGenerator.createProjectWithoutDeps cfg env req).
Proof. frame. Qed.

Lemma returns_maintains {A} I (m : M A) V : returns I m V → maintains I m V.
Proof.
  intros Hm w Hw. destruct (Hm w Hw) as (HI & a & Ha & HV).
  split; [done|]. intros a' Ha'. rewrite Ha in Ha'. by injection Ha' as <-.
Qed.

Lemma has_dir_set_logs path f w : has_dir path w → has_dir path (set_logs f w).
Proof. done. Qed.

Lemma ensureDir_has_dir path w : has_dir path (Fs.ensureDir path w).1.
Proof.
  unfold Fs.ensureDir, has_dir. simpl. destruct (disk w !! path) eqn:E.
  - by rewrite E.
  - by rewrite lookup_insert_eq.
Qed.

Lemma put_returns path name e :
  returns (has_dir path) (Fs.put path name e) (λ _, True).
Proof.
  intros w [dir Hdir]. unfold Fs.put, bind, get, has_dir. simpl. rewrite Hdir. simpl.
  rewrite lookup_insert_eq. eauto.
Qed.

Lemma ensureSubdir_returns path name :
  returns (has_dir path) (Fs.ensureSubdir path name) (λ _, True).
Proof.
  intros w Hdir. unfold Fs.ensureSubdir, has_dir. simpl. rewrite lookup_insert_eq. eauto.
Qed.

Lemma ensureSubdir_other path name : keeps (other_dirs path) (Fs.ensureSubdir path name).
Proof.
  intros w. unfold other_dirs, Fs.ensureSubdir. simpl. by rewrite delete_insert_eq.
Qed.

Lemma ensureDir_other path : keeps (other_dirs path) (Fs.ensureDir path).
Proof.
  intros w. unfold other_dirs, Fs.ensureDir. simpl.
  case_match; [done|]. by rewrite delete_insert_eq.
Qed.

Lemma put_other path name e : keeps (other_dirs path) (Fs.put path name e).
Proof.
  intros w. unfold other_dirs, Fs.put, bind, get. simpl.
  case_match; [|done]. simpl. by rewrite delete_insert_eq.
Qed.

Lemma remove_other env path : keeps (other_dirs path) (Fs.remove env path).
Proof.
  intros w. unfold other_dirs, Fs.remove. case_match; [done|]. simpl.
  by rewrite delete_delete_eq.
Qed.

(** For the directories other than the one the method works in. *)
Ltac frame_other :=
  repeat frame_step
    ltac:(first [ apply ensureDir_other | apply ensureSubdir_other
                | apply put_other | apply remove_other ]).

Lemma scaffold_other cfg env req :
  keeps (other_dirs (join_path (tempDir cfg) (ProjectGenerator.generateProjectId env)))
        (ProjectGenerator.createProjectWithoutDeps cfg env req).
Proof. frame_other. Qed.

Lemma cleanupProject_other env path :
  keeps (other_dirs path) (ProjectGenerator.cleanupProject env path).
Proof. frame_other. Qed.

Lemma scaffold_result cfg env req w x :
  (ProjectGenerator.createProjectWithoutDeps cfg env req w).2 = inr x →
  x = (ProjectGenerator.generateProjectId env,
       join_path (tempDir cfg) (ProjectGenerator.generateProjectId env)) ∧
  has_dir (join_path (tempDir cfg) (ProjectGenerator.generateProjectId env))
          (ProjectGenerator.createProjectWithoutDeps cfg env req w).1.
Proof.
  set (ident := ProjectGenerator.generateProjectId env).
  set (path := join_path (tempDir cfg) ident).
  assert (triple (λ _, True) (ProjectGenerator.createProjectWithoutDeps cfg env req)
            (λ w' r, ∀ x, r = inr x → x = (ident, path) ∧ has_dir path w')) as Htriple.
  { unfold ProjectGenerator.createProjectWithoutDeps. fold ident. fold path.
    eapply triple_try_catch with (R := λ w' r, ∀ x, r = inr x → x = (ident, path) ∧ has_dir path w').
    2:{ auto. }
    2:{ intros e w' _. unfold bind, try_catch, logger, modify, throw. simpl.
        destruct (Fs.remove env path _) as [? [?|?]]; simpl; congruence. }
    eapply triple_bind with (R := λ _ _, True); [done|by intros|intros _].
    eapply triple_bind with (R := λ _ _, True); [done|by intros|intros _].
    eapply triple_bind with (R := λ w' r, ∀ a, r = inr a → has_dir path w').
    { intros w' _. unfold Fs.guarded. repeat case_match; simpl; try congruence.
      all: intros _ _; apply ensureDir_has_dir. }
    { intros; congruence. }
    intros [].
    eapply triple_weaken with (P' := has_dir path)
      (Q' := λ w' r, has_dir path w' ∧ ∀ a, r = inr a → a = (ident, path)).
    - match goal with |- triple _ ?m _ =>
        change (maintains (has_dir path) m (λ a, a = (ident, path))) end.
      repeat maintains_step
        ltac:(first [ apply returns_maintains, put_returns
                    | apply returns_maintains, ensureSubdir_returns ]).
    - eauto.
    - intros w' r [? Hr] x' ->. split; [by apply Hr|done]. }
  intros Hx. apply (Htriple w I x Hx).
Qed.

Lemma scaffold_succeeds cfg env req w :
  fs_fault env = None →
  (ProjectGenerator.createProjectWithoutDeps cfg env req w).2 =
    inr (ProjectGenerator.generateProjectId env,
         join_path (tempDir cfg) (ProjectGenerator.generateProjectId env)).
Proof.
  intros Hnofault.
  set (ident := ProjectGenerator.generateProjectId env).
  set (path := join_path (tempDir cfg) ident).
  unfold ProjectGenerator.createProjectWithoutDeps. fold ident. fold path.
  unfold Fs.guarded. rewrite Hnofault.
  unfold try_catch.
  match goal with |- context [bind ?a (λ _, bind ?b (λ _, bind ?c (λ _, ?rest)))] =>
    set (m1 := a); set (m3 := c); set (body := rest) end.
  assert (returns (has_dir path) body (λ x, x = (ident, path))) as Hbody.
  { unfold body.
    repeat returns_step ltac:(first [ apply put_returns | apply ensureSubdir_returns ]). }
  unfold bind at 1 2 3. simpl.
  pose proof (ensureDir_has_dir path (m1 w).1) as Hdir.
  destruct (Hbody _ Hdir) as (_ & x & Hx & ->).
  unfold m1, m3 in *. simpl in *.
  destruct (body _) as [w' r]. simpl in *. by subst r.
Qed.

Lemma try_catch_cases {A} (m : M A) (h : Error → M A) w :
  (∃ w' a, m w = (w', inr a) ∧ try_catch m h w = (w', inr a)) ∨
  (∃ w' e, m w = (w', inl e) ∧ try_catch m h w = h e w').
Proof. unfold try_catch. destruct (m w) as [w' [e|a]]; eauto. Qed.

Lemma bind_cases {A B} (m : M A) (k : A → M B) w :
  (∃ w' a, m w = (w', inr a) ∧ bind m k w = k a w') ∨
  (∃ w' e, m w = (w', inl e) ∧ bind m k w = (w', inl e)).
Proof. unfold bind. destruct (m w) as [w' [e|a]]; eauto. Qed.

Lemma scaffold_failure_cleans cfg env req w e :
  (ProjectGenerator.createProjectWithoutDeps cfg env req w).2 = inl e →
  remove_fault env (join_path (tempDir cfg) (ProjectGenerator.generateProjectId env)) = None →
  disk (ProjectGenerator.createProjectWithoutDeps cfg env req w).1
    !! join_path (tempDir cfg) (ProjectGenerator.generateProjectId env) = None.
Proof.
  set (path := join_path (tempDir cfg) (ProjectGenerator.generateProjectId env)).
  unfold ProjectGenerator.createProjectWithoutDeps. fold path.
  match goal with |- context [try_catch ?b ?h w] =>
    destruct (try_catch_cases b h w) as [(w' & x & _ & ->)|(w' & e' & _ & ->)] end;
    simpl; [congruence|].
  intros _ Hrm. unfold bind, try_catch, logger, modify, throw, Fs.remove. rewrite Hrm.
  simpl. apply lookup_delete_eq.
Qed.

(** ** The registry: creation *)

Lemma releasePort_keeps_instances p : keeps instances (PortManager.releasePort p).
Proof. frame. Qed.
Lemma releasePort_keeps_disk p : keeps disk (PortManager.releasePort p).
Proof. frame. Qed.
Lemma releasePort_keeps_procs p : keeps procs (PortManager.releasePort p).
Proof. frame. Qed.

Lemma cleanupProject_keeps_instances env path :
  keeps instances (ProjectGenerator.cleanupProject env path).
Proof. frame. Qed.
Lemma cleanupProject_keeps_ports env path :
  keeps allocatedPorts (ProjectGenerator.cleanupProject env path).
Proof. frame. Qed.
Lemma cleanupProject_keeps_procs env path :
  keeps procs (ProjectGenerator.cleanupProject env path).
Proof. frame. Qed.

Lemma startServer_keeps_instances env path p th :
  keeps instances (PresentationManager.startServer env path p th).
Proof. frame. Qed.

Lemma startServer_other env path p th :
  keeps (other_dirs path) (PresentationManager.startServer env path p th).
Proof.
  unfold PresentationManager.startServer, PresentationManager.attempt,
    PresentationManager.rollback_start.
  assert (∀ A (m : M A), keeps disk m → keeps (other_dirs path) m) as Hd.
  { intros A m Hm w. unfold other_dirs. by rewrite Hm. }
  repeat frame_step ltac:(first [ apply cleanupProject_other | apply Hd; frame; fail ]).
Qed.

Lemma create_at_capacity cfg env req w :
  (maxConcurrentPresentations cfg ≤ Z.of_nat (size (instances w)))%Z →
  PresentationManager.createPresentation cfg env req w =
    (w, inl (PlainError "Maximum number of concurrent presentations reached")).
Proof.
  intros Hfull. unfold PresentationManager.createPresentation, bind, get.
  by rewrite (proj2 (Z.leb_le _ _) Hfull).
Qed.

Lemma create_run cfg env req w :
  (Z.of_nat (size (instances w)) < maxConcurrentPresentations cfg)%Z →
  PresentationManager.createPresentation cfg env req w =
    match ProjectGenerator.createProjectWithoutDeps cfg env req
            (logged LInfo "Creating presentation" w) with
    | (w2, inl e) => (logged LError "Failed to create presentation" w2, inl e)
    | (w2, inr project) =>
        match PortManager.allocatePort cfg (getPort env) w2 with
        | (w3, inl e) => (logged LError "Failed to create presentation" w3, inl e)
        | (w3, inr p) =>
            let expiry :=
              (now env + match ttl req with
                         | Some t => if decide (t = 0%Z) then defaultTTL cfg else t
                         | None => defaultTTL cfg
                         end)%Z in
            match PresentationManager.startServer env project.2 p
                    (ProjectGenerator.or_else (theme req) "default")
                    (logged LInfo "Starting Slidev server" w3) with
            | (w4, inl e) => (logged LError "Failed to create presentation" w4, inl e)
            | (w4, inr pid) =>
                (logged LInfo "Presentation created successfully"
                   (set_instances
                      (<[project.1 :=
                           {| id := project.1; projectPath := project.2; server := pid;
                              port := p; createdAt := now_later env; expiresAt := expiry;
                              status := StReady; request := req |}]>) w4),
                 inr {| res_id := project.1;
                        res_url := baseUrl cfg +:+ ":" +:+ pretty p;
                        res_status := StReady;
                        res_expiresAt := expiry; res_createdAt := now_later env;
                        res_presentation := (baseUrl cfg +:+ ":" +:+ pretty p) +:+ "/";
                        res_presenter := (baseUrl cfg +:+ ":" +:+ pretty p) +:+ "/presenter/";
                        res_overview := (baseUrl cfg +:+ ":" +:+ pretty p) +:+ "/overview/";
                        res_print := (baseUrl cfg +:+ ":" +:+ pretty p) +:+ "/print" |})
            end
        end
    end.
Proof.
  intros Hroom. unfold PresentationManager.createPresentation.
  unfold bind at 1. unfold get at 1.
  rewrite (proj2 (Z.leb_gt _ _) Hroom).
  unfold try_catch, bind, logged. 
  change ((logger LInfo "Creating presentation" w).1) with
    (set_logs (λ ls, ls ++ [{| log_level := LInfo; log_message := "Creating presentation" |}]) w).
  change (logger LInfo "Creating presentation" w) with
    (set_logs (λ ls, ls ++ [{| log_level := LInfo; log_message := "Creating presentation" |}]) w, inr tt : Error + unit).
  cbv beta iota.
  destruct (ProjectGenerator.createProjectWithoutDeps _ _ _ _) as [w2 [e|project]]; [done|].
  destruct (PortManager.allocatePort _ _ _) as [w3 [e|p]]; [done|].
  cbv zeta.
  change (logger LInfo "Starting Slidev server" w3) with
    (set_logs (λ ls, ls ++ [{| log_level := LInfo; log_message := "Starting Slidev server" |}]) w3, inr tt : Error + unit).
  cbv beta iota. change ((?a, ?b).1) with a.
  destruct (PresentationManager.startServer _ _ _ _ _) as [w4 [e|pid]]; done.
Qed.

Ltac run_all :=
  unfold PresentationManager.rollback_start, ProjectGenerator.cleanupProject,
    PortManager.releasePort, Fs.remove, PresentationManager.kill,
    PresentationManager.is_killed, logger, bind, try_catch, get, modify, throw, ret.

Lemma rollback_start_run {A} env sp p path err w :
  let r := @PresentationManager.rollback_start A env sp p path err w in
  allocatedPorts r.1 = allocatedPorts w ∖ {[p]} ∧
  instances r.1 = instances w ∧
  (∃ e, r.2 = inl e) ∧
  (remove_fault env path = None → disk r.1 !! path = None ∧ r.2 = inl err).
Proof.
  run_all. simpl.
  destruct sp as [pid|]; simpl;
    repeat (case_match; simpl in *; simplify_eq).
  all: repeat split; eauto; try congruence; try apply lookup_delete_eq.
  all: try (case_bool_decide; simplify_eq); try set_solver.
Qed.

Lemma attempt_run {A} (m : M A) w :
  PresentationManager.attempt m w = ((m w).1, inr (m w).2).
Proof.
  unfold PresentationManager.attempt, try_catch, bind, ret.
  by destruct (m w) as [w' [e|a]].
Qed.

Lemma startSlidevProcess_keeps_ports env path p th :
  keeps allocatedPorts (PresentationManager.startSlidevProcess env path p th).
Proof. frame. Qed.
Lemma startSlidevProcess_keeps_disk env path p th :
  keeps disk (PresentationManager.startSlidevProcess env path p th).
Proof. frame. Qed.
Lemma startSlidevProcess_keeps_instances env path p th :
  keeps instances (PresentationManager.startSlidevProcess env path p th).
Proof. frame. Qed.
Lemma waitForServerReady_keeps_ports env p :
  keeps allocatedPorts (PresentationManager.waitForServerReady env p).
Proof. frame. Qed.
Lemma waitForServerReady_keeps_disk env p :
  keeps disk (PresentationManager.waitForServerReady env p).
Proof. frame. Qed.
Lemma waitForServerReady_keeps_instances env p :
  keeps instances (PresentationManager.waitForServerReady env p).
Proof. frame. Qed.

Lemma startServer_eq env path p th w :
  PresentationManager.startServer env path p th w =
    let s := PresentationManager.startSlidevProcess env path p th w in
    match s.2 with
    | inl error => PresentationManager.rollback_start env None p path error s.1
    | inr pid =>
        let t := PresentationManager.waitForServerReady env p s.1 in
        match t.2 with
        | inl error => PresentationManager.rollback_start env (Some pid) p path error t.1
        | inr _ => (t.1, inr pid)
        end
    end.
Proof.
  unfold PresentationManager.startServer, bind. rewrite attempt_run. simpl.
  destruct (PresentationManager.startSlidevProcess env path p th w) as [w1 [e|pid]];
    simpl; [done|].
  rewrite attempt_run. simpl.
  by destruct (PresentationManager.waitForServerReady env p w1) as [w2 [e|[]]].
Qed.

Lemma startServer_run env path p th w :
  let r := PresentationManager.startServer env path p th w in
  match r.2 with
  | inr _ => allocatedPorts r.1 = allocatedPorts w ∧ disk r.1 = disk w
  | inl e => allocatedPorts r.1 = allocatedPorts w ∖ {[p]} ∧
             (remove_fault env path = None → disk r.1 !! path = None)
  end.
Proof.
  cbv zeta. rewrite startServer_eq.
  pose proof (startSlidevProcess_keeps_ports env path p th w) as Hp1.
  pose proof (startSlidevProcess_keeps_disk env path p th w) as Hd1.
  destruct (PresentationManager.startSlidevProcess env path p th w) as [w1 [e|pid]];
    simpl in *.
  - destruct (rollback_start_run (A:=nat) env None p path e w1) as (Hp & _ & [e' He] & Hd).
    simpl in *. rewrite He, Hp, Hp1. split; [done|]. intros Hrm. by apply Hd.
  - pose proof (waitForServerReady_keeps_ports env p w1) as Hp2.
    pose proof (waitForServerReady_keeps_disk env p w1) as Hd2.
    destruct (PresentationManager.waitForServerReady env p w1) as [w2 [e|[]]]; simpl in *.
    + destruct (rollback_start_run (A:=nat) env (Some pid) p path e w2)
        as (Hp & _ & [e' He] & Hd).
      simpl in *. rewrite He, Hp, Hp2, Hp1. split; [done|]. intros Hrm. by apply Hd.
    + by rewrite Hp2, Hd2.
Qed.

(** *** What a failed creation leaves behind *)

Lemma logged_instances l s w : instances (logged l s w) = instances w.
Proof. done. Qed.
Lemma logged_ports l s w : allocatedPorts (logged l s w) = allocatedPorts w.
Proof. done. Qed.
Lemma logged_disk l s w : disk (logged l s w) = disk w.
Proof. done. Qed.
Lemma logged_procs l s w : procs (logged l s w) = procs w.
Proof. done. Qed.

Lemma allocatePort_keeps_instances cfg probe : keeps instances (PortManager.allocatePort cfg probe).
Proof. frame. Qed.
Lemma allocatePort_keeps_disk cfg probe : keeps disk (PortManager.allocatePort cfg probe).
Proof. frame. Qed.
Lemma allocatePort_keeps_procs cfg probe : keeps procs (PortManager.allocatePort cfg probe).
Proof. frame. Qed.

(** A failed creation registers nothing; a successful one registers one
    instance, in the state [ready]. *)
Lemma create_registry cfg env req w :
  let r := PresentationManager.createPresentation cfg env req w in
  match r.2 with
  | inl _ => instances r.1 = instances w
  | inr response =>
      ∃ instance,
        instances r.1 = <[ProjectGenerator.generateProjectId env := instance]> (instances w) ∧
        status instance = StReady ∧ res_status response = StReady ∧
        id instance = ProjectGenerator.generateProjectId env ∧
        res_id response = ProjectGenerator.generateProjectId env
  end.
Proof.
  destruct (decide (Z.of_nat (size (instances w)) < maxConcurrentPresentations cfg)%Z)
    as [Hroom|Hfull].
  2:{ rewrite create_at_capacity by lia. done. }
  rewrite create_run by done.
  pose proof (scaffold_keeps_instances cfg env req (logged LInfo "Creating presentation" w)) as H1.
  pose proof (scaffold_result cfg env req (logged LInfo "Creating presentation" w)) as Hres.
  destruct (ProjectGenerator.createProjectWithoutDeps _ _ _ _) as [w2 [e|project]]; simpl in *.
  { by rewrite H1. }
  destruct (Hres _ eq_refl) as [-> _]. simpl.
  pose proof (allocatePort_keeps_instances cfg (getPort env) w2) as H2.
  destruct (PortManager.allocatePort _ _ _) as [w3 [e|p]]; simpl in *.
  { by rewrite H2, H1. }
  match goal with |- context [PresentationManager.startServer ?e ?pa ?po ?th ?ww] =>
    pose proof (startServer_keeps_instances e pa po th ww) as H3;
    destruct (PresentationManager.startServer e pa po th ww) as [w4 [e'|pid]] end; simpl in *.
  { by rewrite H3, H2, H1. }
  eexists. rewrite H3, H2, H1. repeat split; done.
Qed.

Lemma allocatePort_unusable cfg probe w :
  match probe with
  | inl _ => True
  | inr p => (p < PortManager.startPort cfg)%Z ∨ (PortManager.endPort cfg < p)%Z ∨
             p ∈ allocatedPorts w
  end →
  (PortManager.allocatePort cfg probe w).2 =
    inl (PlainError "No available ports in the configured range").
Proof.
  intros Hbad.
  destruct (PortManager.allocatePort cfg probe w) as [w' [e|p]] eqn:Hrun; simpl.
  - by apply allocatePort_throws in Hrun as [-> _].
  - apply allocatePort_returns in Hrun as (-> & H1 & H2 & H3 & _).
    destruct Hbad as [?|[?|?]]; [lia|lia|done].
Qed.

(** When the scaffold succeeds and no port can be had, the error leaves
    [createPresentation] through the outer [catch], which only logs: the
    project directory stays on disk. *)
Lemma create_allocation_failure_keeps_directory cfg env req w :
  (Z.of_nat (size (instances w)) < maxConcurrentPresentations cfg)%Z →
  fs_fault env = None →
  match getPort env with
  | inl _ => True
  | inr p => (p < PortManager.startPort cfg)%Z ∨ (PortManager.endPort cfg < p)%Z ∨
             p ∈ allocatedPorts w
  end →
  let r := PresentationManager.createPresentation cfg env req w in
  r.2 = inl (PlainError "No available ports in the configured range") ∧
  has_dir (join_path (tempDir cfg) (ProjectGenerator.generateProjectId env)) r.1 ∧
  instances r.1 = instances w ∧ allocatedPorts r.1 = allocatedPorts w.
Proof.
  intros Hroom Hfs Hprobe. cbv zeta. rewrite create_run by done.
  set (w1 := logged LInfo "Creating presentation" w).
  pose proof (scaffold_succeeds cfg env req w1 Hfs) as Hok.
  pose proof (scaffold_result cfg env req w1) as Hres.
  pose proof (scaffold_keeps_instances cfg env req w1) as Hi.
  pose proof (scaffold_keeps_ports cfg env req w1) as Hp.
  destruct (ProjectGenerator.createProjectWithoutDeps cfg env req w1) as [w2 r];
    simpl in *; subst r.
  destruct (Hres _ eq_refl) as [_ Hdir].
  assert (match getPort env with
          | inl _ => True
          | inr p => (p < PortManager.startPort cfg)%Z ∨ (PortManager.endPort cfg < p)%Z ∨
                     p ∈ allocatedPorts w2
          end) as Hprobe2.
  { destruct (getPort env); [done|]. by rewrite Hp. }
  pose proof (allocatePort_unusable cfg (getPort env) w2 Hprobe2) as Hfail.
  destruct (PortManager.allocatePort cfg (getPort env) w2) as [w3 r] eqn:Halloc;
    simpl in *; subst r.
  apply allocatePort_throws in Halloc as (_ & Hi3 & Hp3 & Hd3 & _). simpl.
  repeat split.
  - unfold has_dir in *. by rewrite logged_disk, Hd3.
  - by rewrite Hi3, Hi.
  - by rewrite Hp3, Hp.
Qed.

(** At the other stages the rollback is complete, as long as the host
    removes the directory. *)
Lemma create_rollback_other_stages cfg env req w e p :
  (PresentationManager.createPresentation cfg env req w).2 = inl e →
  getPort env = inr p →
  (PortManager.startPort cfg ≤ p)%Z → (p ≤ PortManager.endPort cfg)%Z →
  p ∉ allocatedPorts w →
  disk w !! join_path (tempDir cfg) (ProjectGenerator.generateProjectId env) = None →
  remove_fault env (join_path (tempDir cfg) (ProjectGenerator.generateProjectId env)) = None →
  let r := PresentationManager.createPresentation cfg env req w in
  allocatedPorts r.1 = allocatedPorts w ∧ instances r.1 = instances w ∧
  disk r.1 !! join_path (tempDir cfg) (ProjectGenerator.generateProjectId env) = None.
Proof.
  intros Hfail Hprobe Hlo Hhi Hfree Hfresh Hrm. cbv zeta.
  pose proof (create_registry cfg env req w) as Hreg. simpl in Hreg. rewrite Hfail in Hreg.
  split; [|split; [done|]]; revert Hfail.
  all: destruct (decide (Z.of_nat (size (instances w)) < maxConcurrentPresentations cfg)%Z)
    as [Hroom|Hfull]; [|rewrite create_at_capacity by lia; done].
  all: rewrite create_run by done.
  all: set (w1 := logged LInfo "Creating presentation" w).
  all: pose proof (scaffold_failure_cleans cfg env req w1) as Hclean.
  all: pose proof (scaffold_result cfg env req w1) as Hres.
  all: pose proof (scaffold_keeps_ports cfg env req w1) as Hp.
  all: destruct (ProjectGenerator.createProjectWithoutDeps cfg env req w1)
         as [w2 [e2|project]]; simpl in *; [intros _; eauto|].
  all: destruct (Hres _ eq_refl) as [-> Hdir]; simpl; rewrite Hprobe.
  all: rewrite allocatePort_free by (try rewrite Hp; done).
  all: match goal with |- context [PresentationManager.startServer ?e ?pa ?po ?th ?ww] =>
         pose proof (startServer_run e pa po th ww) as Hst; simpl in Hst;
         destruct (PresentationManager.startServer e pa po th ww) as [w4 [e'|pid]] end;
       simpl in *; [intros _|done].
  - destruct Hst as [-> _]. rewrite Hp. unfold w1. simpl. set_solver.
  - destruct Hst as [_ Hd]. by apply Hd.
Qed.

(** ** The registry: deletion and the sweep *)

Lemma delete_unknown env ident w :
  instances w !! ident = None →
  PresentationManager.deletePresentation env ident w = (w, inr false).
Proof.
  intros Hnone. unfold PresentationManager.deletePresentation, bind, get.
  by rewrite Hnone.
Qed.

Lemma stopServer_run pid w :
  ∃ w', PresentationManager.stopServer pid w = (w', inr tt) ∧
        instances w' = instances w ∧ allocatedPorts w' = allocatedPorts w ∧
        disk w' = disk w ∧
        (∀ pid', pid' ≠ pid → procs w' !! pid' = procs w !! pid') ∧
        (∀ c, procs w !! pid = Some c → killed c = false → exited c = false →
              procs w' !! pid =
                Some {| killed := true; exited := false;
                        received := received c ++ [SIGTERM] |}).
Proof.
  unfold PresentationManager.stopServer, PresentationManager.kill,
    PresentationManager.is_killed, logger, bind, get, modify, ret.
  destruct (procs w !! pid) as [c|] eqn:Hc; cbn [negb];
    [|exists w; repeat split; eauto; done].
  destruct (killed c) eqn:Hk, (exited c) eqn:He; cbn [negb].
  1,2: exists w; repeat split; eauto; intros ? [= <-]; congruence.
  { repeat (cbv beta iota zeta; rewrite ?Hc, ?Hk, ?He; cbn [negb]).
    exists w. repeat split; eauto. intros ? [= <-]. congruence. }
  assert (pid < length (procs w)) as Hlt by (by eapply lookup_lt_Some).
  set (c' := {| killed := true; exited := false; received := received c ++ [SIGTERM] |}).
  repeat (cbv beta iota zeta; rewrite ?Hc, ?Hk, ?He; cbn [negb]).
  cbn [procs set_procs]. fold c'.
  rewrite (list_lookup_insert_eq (procs w) pid c' Hlt). cbn [killed c' negb].
  exists (set_procs (<[pid := c']>) w). repeat split; eauto.
  - intros pid' Hne. cbn [procs set_procs]. by rewrite list_lookup_insert_ne.
  - intros c0 [= <-] _ _. cbn [procs set_procs]. by rewrite list_lookup_insert_eq.
Qed.

Lemma releasePort_run p w :
  ∃ w', PortManager.releasePort p w = (w', inr tt) ∧
        allocatedPorts w' = allocatedPorts w ∖ {[p]} ∧
        instances w' = instances w ∧ disk w' = disk w ∧ procs w' = procs w.
Proof.
  unfold PortManager.releasePort, bind, get, logger, modify.
  case_bool_decide; simpl; eexists; repeat split; eauto. set_solver.
Qed.

Lemma cleanupProject_run env path w :
  match remove_fault env path with
  | Some e => ∃ w', ProjectGenerator.cleanupProject env path w = (w', inl e) ∧
                    instances w' = instances w ∧ allocatedPorts w' = allocatedPorts w ∧
                    disk w' = disk w ∧ procs w' = procs w
  | None => ∃ w', ProjectGenerator.cleanupProject env path w = (w', inr tt) ∧
                  instances w' = instances w ∧ allocatedPorts w' = allocatedPorts w ∧
                  disk w' = delete path (disk w) ∧ procs w' = procs w
  end.
Proof.
  unfold ProjectGenerator.cleanupProject, Fs.remove, try_catch, bind, logger, modify, throw.
  destruct (remove_fault env path); simpl; eexists; repeat split; eauto.
Qed.

Lemma delete_eq env ident w i :
  instances w !! ident = Some i →
  PresentationManager.deletePresentation env ident w =
    let w1 := (PresentationManager.stopServer (server i)
                 (logged LInfo "Deleting presentation" w)).1 in
    let w2 := (PortManager.releasePort (port i) w1).1 in
    let c := ProjectGenerator.cleanupProject env (projectPath i) w2 in
    match c.2 with
    | inl e => (logged LError "Failed to delete presentation" c.1, inl e)
    | inr _ => (logged LInfo "Presentation deleted successfully"
                  (set_instances (delete ident) c.1), inr true)
    end.
Proof.
  intros Hi. unfold PresentationManager.deletePresentation.
  unfold bind at 1. unfold get at 1. rewrite Hi.
  unfold try_catch, bind.
  change (logger LInfo "Deleting presentation" w) with
    (logged LInfo "Deleting presentation" w, inr tt : Error + unit).
  cbv beta iota zeta.
  destruct (stopServer_run (server i) (logged LInfo "Deleting presentation" w))
    as (w1 & -> & _).
  cbn [fst snd].
  destruct (releasePort_run (port i) w1) as (w2 & -> & _).
  cbn [fst snd].
  by destruct (ProjectGenerator.cleanupProject env (projectPath i) w2) as [w3 [e|[]]].
Qed.

Lemma delete_known env ident w i :
  instances w !! ident = Some i →
  let r := PresentationManager.deletePresentation env ident w in
  allocatedPorts r.1 = allocatedPorts w ∖ {[port i]} ∧
  (∀ pid, pid ≠ server i → procs r.1 !! pid = procs w !! pid) ∧
  (∀ c, procs w !! server i = Some c → killed c = false → exited c = false →
        procs r.1 !! server i =
          Some {| killed := true; exited := false; received := received c ++ [SIGTERM] |}) ∧
  match remove_fault env (projectPath i) with
  | Some e => r.2 = inl e ∧ instances r.1 = instances w ∧ disk r.1 = disk w
  | None => r.2 = inr true ∧ instances r.1 = delete ident (instances w) ∧
            disk r.1 = delete (projectPath i) (disk w)
  end.
Proof.
  intros Hi. cbv zeta. rewrite (delete_eq env ident w i Hi).
  destruct (stopServer_run (server i) (logged LInfo "Deleting presentation" w))
    as (w1 & -> & Hi1 & Hp1 & Hd1 & Hother & Hsig).
  cbn [fst snd].
  destruct (releasePort_run (port i) w1) as (w2 & -> & Hp2 & Hi2 & Hd2 & Hpr2).
  pose proof (cleanupProject_run env (projectPath i) w2) as Hclean.
  cbn [fst snd].
  destruct (remove_fault env (projectPath i)) as [e|];
    destruct Hclean as (w3 & -> & Hi3 & Hp3 & Hd3 & Hpr3); simpl in *;
    rewrite ?Hp3, ?Hp2, ?Hp1, ?Hpr3, ?Hpr2, ?Hi3, ?Hi2, ?Hi1, ?Hd3, ?Hd2, ?Hd1;
    repeat split; auto.
Qed.

Lemma elem_of_expiredIds t w ident :
  ident ∈ PresentationManager.expiredIds t w ↔
  ∃ i, instances w !! ident = Some i ∧ (expiresAt i ≤ t)%Z.
Proof.
  unfold PresentationManager.expiredIds. rewrite list_elem_of_fmap. split.
  - intros ([k i] & -> & [Hexp Hin]%list_elem_of_filter). simpl in *.
    apply elem_of_map_to_list in Hin. eauto.
  - intros (i & Hi & Hexp). exists (ident, i). split; [done|].
    apply list_elem_of_filter. split; [done|]. by apply elem_of_map_to_list.
Qed.

Lemma NoDup_expiredIds t w : NoDup (PresentationManager.expiredIds t w).
Proof.
  unfold PresentationManager.expiredIds.
  eapply sublist_NoDup; [apply (NoDup_fst_map_to_list (instances w))|].
  apply fmap_sublist, sublist_filter.
Qed.

(** One turn of the loop of the sweep. *)
Lemma sweep_step env ident n w :
  ∃ w1 n1,
    try_catch (PresentationManager.deletePresentation env ident ;; ret (S n))
              (λ _, logger LError "Failed to cleanup expired presentation" ;; ret n) w
      = (w1, inr n1) ∧
    instances w1 =
      match instances w !! ident with
      | Some i => if decide (remove_fault env (projectPath i) = None)
                  then delete ident (instances w) else instances w
      | None => instances w
      end ∧
    allocatedPorts w1 =
      match instances w !! ident with
      | Some i => allocatedPorts w ∖ {[port i]}
      | None => allocatedPorts w
      end ∧
    disk w1 =
      match instances w !! ident with
      | Some i => if decide (remove_fault env (projectPath i) = None)
                  then delete (projectPath i) (disk w) else disk w
      | None => disk w
      end ∧
    (∀ pid, (∀ i, instances w !! ident = Some i → server i ≠ pid) →
            procs w1 !! pid = procs w !! pid) ∧
    ((∀ path, remove_fault env path = None) → n1 = S n).
Proof.
  unfold try_catch, bind.
  destruct (instances w !! ident) as [i|] eqn:Hi.
  - destruct (delete_known env ident w i Hi) as (Hp & Hother & _ & Hcase).
    assert (∀ pid, (∀ i0, Some i = Some i0 → server i0 ≠ pid) →
                   procs (PresentationManager.deletePresentation env ident w).1 !! pid =
                   procs w !! pid) as Hprocs.
    { intros pid Hpid. apply Hother. intros ->. by eapply Hpid. }
    destruct (PresentationManager.deletePresentation env ident w) as [w1 r]. simpl in *.
    destruct (remove_fault env (projectPath i)) as [e|] eqn:Hrm.
    + destruct Hcase as (-> & Hinst & Hdisk). simpl.
      eexists _, _. split; [done|]. simpl.
      split; [done|]. split; [done|]. split; [done|]. split; [done|].
      intros Hall. specialize (Hall (projectPath i)). congruence.
    + destruct Hcase as (-> & Hinst & Hdisk). simpl.
      eexists _, _. split; [done|]. simpl. done.
  - rewrite delete_unknown by done. simpl. eexists _, _. repeat split; auto.
Qed.

(** ** Objects: reading after writing *)

Lemma obj_get_None k (o : Js.object) : k ∉ o.*1 → Js.obj_get k o = None.
Proof.
  induction o as [|[k' v] o IH]; simpl; [done|].
  intros Hnot. apply not_elem_of_cons in Hnot as [Hne Hnot].
  rewrite decide_False by done. by apply IH.
Qed.

Lemma obj_get_replace k v o k' :
  Js.obj_has k o = true →
  Js.obj_get k' (Js.obj_replace k v o) = if decide (k = k') then Some v else Js.obj_get k' o.
Proof.
  unfold Js.obj_has. induction o as [|[k0 v0] o IH]; simpl; [done|].
  destruct (decide (k0 = k)) as [->|Hne]; simpl.
  - intros _. by destruct (decide (k = k')).
  - intros Hhas. rewrite IH by done.
    destruct (decide (k0 = k')) as [->|?]; [|done]. by rewrite decide_False.
Qed.

Lemma obj_get_insert_index n k v o k' :
  Js.obj_get k o = None →
  Js.obj_get k' (Js.obj_insert_index n k v o) =
    if decide (k = k') then Some v else Js.obj_get k' o.
Proof.
  induction o as [|[k0 v0] o IH]; simpl.
  { intros _. by destruct (decide (k = k')). }
  destruct (decide (k0 = k)) as [->|Hne]; [done|]. intros Hnone.
  destruct (Js.array_index k0) as [n0|]; [destruct (n <? n0)%N|]; simpl;
    try (destruct (decide (k = k')); [done|]; done).
  destruct (decide (k0 = k')) as [->|?].
  - by rewrite decide_False.
  - by apply IH.
Qed.

Lemma obj_get_app k v o k' :
  Js.obj_get k o = None →
  Js.obj_get k' (o ++ [(k, v)]) = if decide (k = k') then Some v else Js.obj_get k' o.
Proof.
  induction o as [|[k0 v0] o IH]; simpl.
  { intros _. by destruct (decide (k = k')). }
  destruct (decide (k0 = k)) as [->|Hne]; [done|]. intros Hnone.
  destruct (decide (k0 = k')) as [->|?].
  - by rewrite decide_False.
  - by apply IH.
Qed.

(** Reading [k'] after [o[k] = v]. *)
Lemma obj_get_set k v o k' :
  Js.obj_get k' (Js.obj_set k v o) = if decide (k = k') then Some v else Js.obj_get k' o.
Proof.
  unfold Js.obj_set. destruct (Js.obj_has k o) eqn:Hhas.
  - by apply obj_get_replace.
  - assert (Js.obj_get k o = None) as Hnone.
    { unfold Js.obj_has in Hhas. by destruct (Js.obj_get k o). }
    destruct (Js.array_index k); [by apply obj_get_insert_index|by apply obj_get_app].
Qed.

(** Reading after a spread: the source wins over the target. *)
Lemma obj_get_spread k target src :
  NoDup src.*1 →
  Js.obj_get k (Js.spread target (Some src)) =
    match Js.obj_get k src with
    | Some v => Some v
    | None => Js.obj_get k target
    end.
Proof.
  simpl. revert target. induction src as [|[k0 v0] src IH]; intros target Hnd; simpl.
  { done. }
  apply NoDup_cons in Hnd as [Hnot Hnd]. rewrite IH by done. rewrite obj_get_set.
  destruct (decide (k0 = k)) as [->|Hne]; [|done].
  by rewrite obj_get_None.
Qed.

Lemma obj_get_spread_undefined k target :
  Js.obj_get k (Js.spread target None) = Js.obj_get k target.
Proof. done. Qed.

(** ** Strings: trimming never lengthens *)

Lemma trim_start_length s : String.length (Js.trim_start s) ≤ String.length s.
Proof. induction s as [|c s IH]; simpl; [done|]. destruct (Js.is_space c); simpl; lia. Qed.

Lemma trim_end_length s : String.length (Js.trim_end s) ≤ String.length s.
Proof.
  induction s as [|c s IH]; simpl; [done|].
  destruct (Js.trim_end s); [destruct (Js.is_space c)|]; simpl in *; lia.
Qed.

Lemma trim_length s : String.length (Js.trim s) ≤ String.length s.
Proof.
  unfold Js.trim. pose proof (trim_end_length (Js.trim_start s)).
  pose proof (trim_start_length s). lia.
Qed.

(** ** The schemas *)

Lemma generatePPTSchema_content props request :
  Validation.generatePPTSchema (Js.JObj props) = inr request →
  content request = default EmptyString (Validation.as_string (Js.obj_get "content" props)).
Proof.
  unfold Validation.generatePPTSchema. case_match; [|done]. by intros [= <-].
Qed.

Lemma id_pattern_nonempty ident : Validation.id_pattern ident = true → ident ≠ EmptyString.
Proof. by intros H ->. Qed.

Lemma paramsSchema_accepts ident :
  Validation.id_pattern ident = true → Validation.paramsSchema ident = inr ident.
Proof.
  intros Hpat. unfold Validation.paramsSchema, Validation.joi_string.
  rewrite decide_False by (by apply id_pattern_nonempty). simpl. by rewrite Hpat.
Qed.

Lemma extendSchema_number props t :
  Js.obj_get "ttl" props = Some (Js.JNum t) →
  Validation.extendSchema (Js.JObj props) =
    if decide (60000 ≤ t ∧ t ≤ 86400000)%Z
    then inr t
    else inl ((if (t <? 60000)%Z
               then [{| Validation.field := "ttl"; Validation.rule := "number.min" |}]
               else []) ++
              (if (86400000 <? t)%Z
               then [{| Validation.field := "ttl"; Validation.rule := "number.max" |}]
               else [])).
Proof.
  intros Hget. unfold Validation.extendSchema, Validation.required, Validation.joi_number.
  rewrite Hget. simpl.
  destruct (decide (60000 ≤ t ∧ t ≤ 86400000)%Z) as [[H1 H2]|Hout].
  - rewrite (proj2 (Z.ltb_ge _ _) H1), (proj2 (Z.ltb_ge _ _) H2). done.
  - destruct (t <? 60000)%Z eqn:E1; [done|].
    destruct (86400000 <? t)%Z eqn:E2; [done|]. lia.
Qed.

(** The loop of the sweep over distinct ids. *)
Lemma sweep_run env ids :
  NoDup ids → ∀ n w,
  ∃ w' n',
    PresentationManager.sweep env ids n w = (w', inr n') ∧
    (∀ ident,
       instances w' !! ident =
       match instances w !! ident with
       | Some i => if decide (ident ∈ ids ∧ remove_fault env (projectPath i) = None)
                   then None else Some i
       | None => None
       end) ∧
    (∀ p, p ∈ allocatedPorts w' ↔
          p ∈ allocatedPorts w ∧
          ∀ ident i, ident ∈ ids → instances w !! ident = Some i → port i ≠ p) ∧
    (∀ path, (∀ ident i, ident ∈ ids → instances w !! ident = Some i →
                         projectPath i ≠ path) →
             disk w' !! path = disk w !! path) ∧
    (∀ path, disk w !! path = None → disk w' !! path = None) ∧
    (∀ path ident i, ident ∈ ids → instances w !! ident = Some i →
                     projectPath i = path → remove_fault env path = None →
                     disk w' !! path = None) ∧
    (∀ pid, (∀ ident i, ident ∈ ids → instances w !! ident = Some i → server i ≠ pid) →
            procs w' !! pid = procs w !! pid) ∧
    ((∀ path, remove_fault env path = None) → n' = n + length ids).
Proof.
  induction 1 as [|a rest Hnotin Hnd IH]; intros n w.
  { exists w, n. split; [done|].
    split.
    { intros ident. destruct (instances w !! ident); [|done].
      rewrite decide_False; [done|]. intros [H%elem_of_nil _]. done. }
    split.
    { intros p. split; [|by intros [? ?]].
      intros Hp. split; [done|]. by intros ? ? ?%elem_of_nil. }
    split; [done|]. split; [done|].
    split; [by intros ? ? ? ?%elem_of_nil|].
    split; [done|]. intros _. simpl. lia. }
  simpl. unfold bind at 1.
  destruct (sweep_step env a n w) as (w1 & n1 & -> & Hi1 & Hp1 & Hd1 & Hpr1 & Hn1).
  destruct (IH n1 w1) as (w' & n' & -> & Hi & Hp & Hd & Hmono & Hgone & Hpr & Hn).
  assert (∀ ident, ident ≠ a → instances w1 !! ident = instances w !! ident) as Hother.
  { intros ident Hne. rewrite Hi1. repeat case_match; try done.
    by rewrite lookup_delete_ne. }
  assert (instances w1 !! a =
          match instances w !! a with
          | Some i => if decide (remove_fault env (projectPath i) = None)
                      then None else Some i
          | None => None
          end) as Hsame.
  { rewrite Hi1. destruct (instances w !! a) as [i|] eqn:Ha; [|done].
    case_decide; [by rewrite lookup_delete_eq|done]. }
  assert (∀ ident, ident ∈ rest → instances w1 !! ident = instances w !! ident) as Hrest.
  { intros ident Hin. apply Hother. by intros ->. }
  exists w', n'. split; [done|].
  split.
  { (* the registry *)
    intros ident. rewrite Hi. destruct (decide (ident = a)) as [->|Hne].
    + rewrite Hsame. destruct (instances w !! a) as [i|]; [|done].
      destruct (decide (remove_fault env (projectPath i) = None)) as [Hrm|Hrm].
      * rewrite decide_True; [done|]. split; [apply elem_of_cons; by left|done].
      * rewrite decide_False by (by intros [? ?]).
        rewrite decide_False by (by intros [? ?]). done.
    + rewrite Hother by done. destruct (instances w !! ident) as [i|]; [|done].
      destruct (decide (ident ∈ rest ∧ remove_fault env (projectPath i) = None))
        as [[Hin Hrm]|Hno].
      * rewrite decide_True; [done|]. split; [apply elem_of_cons; by right|done].
      * rewrite decide_False; [done|]. intros [[->|Hin]%elem_of_cons Hrm]; tauto. }
  split.
  { (* the ports *)
    intros p. split.
    - intros [Hin1 Hk]%Hp. rewrite Hp1 in Hin1. split.
      + destruct (instances w !! a); set_solver.
      + intros ident i [->|Hin]%elem_of_cons Hlook.
        * rewrite Hlook in Hin1. set_solver.
        * apply (Hk ident i Hin). by rewrite Hrest.
    - intros [Hin0 Hk]. apply Hp. split.
      + rewrite Hp1. destruct (instances w !! a) as [i|] eqn:Ha; [|done].
        assert (port i ≠ p) by (apply (Hk a i); [apply elem_of_cons; by left|done]).
        set_solver.
      + intros ident i Hin Hlook. apply (Hk ident i); [apply elem_of_cons; by right|].
        by rewrite <- Hrest. }
  split.
  { (* the other directories *)
    intros path Hpath. rewrite Hd.
    + rewrite Hd1. destruct (instances w !! a) as [i|] eqn:Ha; [|done].
      case_decide; [|done]. apply lookup_delete_ne.
      apply (Hpath a i); [apply elem_of_cons; by left|done].
    + intros ident i Hin Hlook. apply (Hpath ident i); [apply elem_of_cons; by right|].
      by rewrite <- Hrest. }
  split.
  { (* nothing is created *)
    intros path Hnone. apply Hmono. rewrite Hd1.
    destruct (instances w !! a); [|done]. case_decide; [|done].
    apply lookup_delete_None. by right. }
  split.
  { (* the removed directories *)
    intros path ident i [->|Hin]%elem_of_cons Hlook <- Hrm.
    + apply Hmono. rewrite Hd1, Hlook. rewrite decide_True by done.
      apply lookup_delete_eq.
    + apply (Hgone _ ident i Hin); [by rewrite Hrest|done|done]. }
  split.
  { (* the processes *)
    intros pid Hpid. rewrite Hpr.
    + apply Hpr1. intros i Hlook. apply (Hpid a i); [apply elem_of_cons; by left|done].
    + intros ident i Hin Hlook. apply (Hpid ident i); [apply elem_of_cons; by right|].
      by rewrite <- Hrest. }
  intros Hall. rewrite (Hn Hall), (Hn1 Hall). simpl. lia.
Qed.

(** ** Only ready instances are registered *)

Lemma all_ready_set_logs f w : all_ready w → all_ready (set_logs f w).
Proof. done. Qed.

Lemma maintains_ready_keeps {A} (m : M A) :
  keeps instances m → maintains all_ready m (λ _, True).
Proof. intros Hk w Hw. unfold all_ready in *. by rewrite Hk. Qed.

Lemma create_maintains_ready cfg env req :
  maintains all_ready (PresentationManager.createPresentation cfg env req) (λ _, True).
Proof.
  intros w Hw. split; [|done].
  pose proof (create_registry cfg env req w) as Hreg. simpl in Hreg.
  unfold all_ready in *.
  destruct ((PresentationManager.createPresentation cfg env req w).2) as [e|response].
  - by rewrite Hreg.
  - destruct Hreg as (instance & -> & Hst & _). by apply map_Forall_insert_2.
Qed.

Lemma delete_maintains_ready env ident :
  maintains all_ready (PresentationManager.deletePresentation env ident) (λ _, True).
Proof.
  intros w Hw. split; [|done]. unfold all_ready in *.
  destruct (instances w !! ident) as [i|] eqn:Hlook.
  - destruct (delete_known env ident w i Hlook) as (_ & _ & _ & Hcase).
    destruct (remove_fault env (projectPath i)).
    + destruct Hcase as (_ & -> & _). done.
    + destruct Hcase as (_ & -> & _). by apply map_Forall_delete.
  - by rewrite delete_unknown.
Qed.

Ltac ready_steps :=
  repeat maintains_step
    ltac:(first [ apply create_maintains_ready
                | apply delete_maintains_ready
                | apply maintains_ready_keeps; frame; fail ]).

Lemma sweep_maintains_ready env ids n :
  maintains all_ready (PresentationManager.sweep env ids n) (λ _, True).
Proof.
  revert n. induction ids as [|ident rest IH]; intros n; simpl.
  - apply maintains_ret_true.
  - eapply maintains_bind; [|intros c _; apply IH]. ready_steps.
Qed.

Lemma cleanupExpired_maintains_ready env :
  maintains all_ready (PresentationManager.cleanupExpired env) (λ _, True).
Proof.
  unfold PresentationManager.cleanupExpired.
  eapply maintains_bind; [apply maintains_get; intros; exact I|intros w _].
  eapply maintains_bind; [ready_steps|intros _ _]. apply sweep_maintains_ready.
Qed.

Lemma shutdown_loop_maintains_ready env ids :
  maintains all_ready (PresentationManager.shutdown_loop env ids) (λ _, True).
Proof.
  induction ids as [|ident rest IH]; simpl.
  - apply maintains_ret_true.
  - eapply maintains_bind; [|intros c _; apply IH]. ready_steps.
Qed.

Lemma shutdown_maintains_ready env :
  maintains all_ready (PresentationManager.shutdown env) (λ _, True).
Proof.
  unfold PresentationManager.shutdown.
  eapply maintains_bind; [ready_steps|intros _ _].
  eapply maintains_bind; [ready_steps|intros _ _].
  eapply maintains_bind; [apply maintains_get; intros; exact I|intros w _].
  eapply maintains_bind; [apply shutdown_loop_maintains_ready|intros _ _].
  ready_steps.
Qed.

Lemma errorHandler_maintains_ready e :
  maintains all_ready (Routes.errorHandler false throw e) (λ _, True).
Proof. unfold Routes.errorHandler. cbv beta iota. destruct e; ready_steps. Qed.

Lemma post_presentations_maintains_ready sanitize cfg env body :
  maintains all_ready (Routes.post_presentations sanitize cfg env body) (λ _, True).
Proof.
  unfold Routes.post_presentations, Validation.validateBody, Routes.asyncHandler,
    Routes.createHandler, HealthMonitor.getHealthStatus,
    HealthMonitor.determineOverallStatus.
  repeat maintains_step
    ltac:(first [ apply create_maintains_ready | apply errorHandler_maintains_ready ]).
Qed.

Lemma extendHandler_maintains_ready env ident newTtl :
  maintains all_ready (Routes.extendHandler env ident newTtl) (λ _, True).
Proof.
  unfold Routes.extendHandler, PresentationManager.getPresentation.
  eapply maintains_bind; [apply (maintains_get all_ready all_ready); auto|].
  intros w0 Hw0. destruct (instances w0 !! ident) as [presentation|] eqn:Hlook.
  - eapply maintains_bind; [|intros _ _; ready_steps].
    apply maintains_modify. intros w Hw. unfold all_ready in *. simpl.
    apply map_Forall_insert_2; [|done]. simpl.
    by apply (map_Forall_lookup_1 _ _ _ _ Hw0 Hlook).
  - apply maintains_throw.
Qed.

Lemma post_extend_maintains_ready env ident body :
  maintains all_ready (Routes.post_extend env ident body) (λ _, True).
Proof.
  unfold Routes.post_extend, Validation.validateParams, Validation.validateBody,
    Routes.asyncHandler.
  repeat maintains_step
    ltac:(first [ apply extendHandler_maintains_ready
                | apply errorHandler_maintains_ready ]).
Qed.

Lemma perform_all_ready cfg op w : all_ready w → all_ready (perform cfg op w).
Proof.
  intros Hw. destruct op; simpl.
  - by apply create_maintains_ready.
  - by apply delete_maintains_ready.
  - by apply cleanupExpired_maintains_ready.
  - by apply shutdown_maintains_ready.
  - by apply post_presentations_maintains_ready.
  - by apply post_extend_maintains_ready.
Qed.

Lemma reachable_all_ready cfg w : reachable cfg w → all_ready w.
Proof.
  induction 1 as [|w op _ IH].
  - unfold all_ready, initialWorld. simpl. apply map_Forall_empty.
  - by apply perform_all_ready.
Qed.

(** ** The sweep of expired instances *)

Lemma cleanupExpired_eq env w :
  PresentationManager.cleanupExpired env w =
    PresentationManager.sweep env (PresentationManager.expiredIds (now env) w) 0
      (logged LInfo "Cleaning up expired presentations" w).
Proof. done. Qed.

Lemma separate_lookup w id1 id2 i1 i2 :
  separate w → id1 ≠ id2 →
  instances w !! id1 = Some i1 → instances w !! id2 = Some i2 →
  port i1 ≠ port i2 ∧ projectPath i1 ≠ projectPath i2 ∧ server i1 ≠ server i2.
Proof.
  intros Hsep Hne H1 H2.
  exact (map_Forall_lookup_1 _ _ _ _ (map_Forall_lookup_1 _ _ _ _ Hsep H1) H2 Hne).
Qed.

(** What one sweep does to each instance. *)
Lemma cleanupExpired_run env w :
  let r := PresentationManager.cleanupExpired env w in
  (∃ n, r.2 = inr n ∧
        ((∀ path, remove_fault env path = None) →
         n = length (PresentationManager.expiredIds (now env) w))) ∧
  (∀ ident, instances w !! ident = None → instances r.1 !! ident = None) ∧
  (∀ ident i, instances w !! ident = Some i →
     if decide (expiresAt i ≤ now env)%Z
     then instances r.1 !! ident =
            (if decide (remove_fault env (projectPath i) = None) then None else Some i) ∧
          (port i ∉ allocatedPorts r.1) ∧
          (remove_fault env (projectPath i) = None → disk r.1 !! projectPath i = None)
     else instances r.1 !! ident = Some i ∧
          (separate w →
           (port i ∈ allocatedPorts w → port i ∈ allocatedPorts r.1) ∧
           disk r.1 !! projectPath i = disk w !! projectPath i ∧
           procs r.1 !! server i = procs w !! server i)).
Proof.
  cbv zeta. rewrite cleanupExpired_eq.
  set (w0 := logged LInfo "Cleaning up expired presentations" w).
  set (ids := PresentationManager.expiredIds (now env) w).
  destruct (sweep_run env ids (NoDup_expiredIds _ _) 0 w0)
    as (w' & n' & -> & Hi & Hp & Hd & Hmono & Hgone & Hpr & Hn).
  change (instances w0) with (instances w) in *.
  change (allocatedPorts w0) with (allocatedPorts w) in *.
  change (disk w0) with (disk w) in *.
  change (procs w0) with (procs w) in *.
  simpl. split; [|split].
  - exists n'. split; [done|]. intros Hall. by rewrite (Hn Hall).
  - intros ident Hnone. by rewrite Hi, Hnone.
  - intros ident i Hlook.
    assert (∀ ident' i', ident' ∈ ids → instances w !! ident' = Some i' →
                         (expiresAt i' ≤ now env)%Z) as Hexp.
    { intros ident' i' [i'' [Hl He]]%elem_of_expiredIds Hl'. congruence. }
    destruct (decide (expiresAt i ≤ now env)%Z) as [Hold|Hfresh].
    + assert (ident ∈ ids) as Hin by (apply elem_of_expiredIds; eauto).
      split; [|split].
      * rewrite Hi, Hlook. destruct (decide (remove_fault env (projectPath i) = None)).
        -- by rewrite decide_True.
        -- rewrite decide_False; [done|]. by intros [? ?].
      * intros [_ Hk]%Hp. by apply (Hk ident i).
      * intros Hrm. by apply (Hgone _ ident i).
    + assert (ident ∉ ids) as Hout.
      { intros Hin. apply Hfresh. by apply (Hexp ident i). }
      split; [|intros Hsep; split; [|split]].
      * rewrite Hi, Hlook. rewrite decide_False; [done|]. by intros [? ?].
      * intros Hport. apply Hp. split; [done|].
        intros ident' i' Hin' Hlook'.
        assert (ident' ≠ ident) as Hne by (by intros ->).
        by destruct (separate_lookup w ident' ident i' i Hsep Hne Hlook' Hlook) as (? & ? & ?).
      * apply Hd. intros ident' i' Hin' Hlook'.
        assert (ident' ≠ ident) as Hne by (by intros ->).
        by destruct (separate_lookup w ident' ident i' i Hsep Hne Hlook' Hlook) as (? & ? & ?).
      * apply Hpr. intros ident' i' Hin' Hlook'.
        assert (ident' ≠ ident) as Hne by (by intros ->).
        by destruct (separate_lookup w ident' ident i' i Hsep Hne Hlook' Hlook) as (? & ? & ?).
Qed.

(** What one sweep does to the ports, the directories and the processes:
    it touches those of the instances that have expired, and no other. *)
Lemma cleanupExpired_resources env w :
  let r := PresentationManager.cleanupExpired env w in
  (∀ p, p ∈ allocatedPorts r.1 ↔
        p ∈ allocatedPorts w ∧
        ∀ ident i, instances w !! ident = Some i → (expiresAt i ≤ now env)%Z → port i ≠ p) ∧
  (∀ path,
     (∀ ident i, instances w !! ident = Some i → (expiresAt i ≤ now env)%Z →
                 projectPath i ≠ path) →
     disk r.1 !! path = disk w !! path) ∧
  (∀ pid,
     (∀ ident i, instances w !! ident = Some i → (expiresAt i ≤ now env)%Z →
                 server i ≠ pid) →
     procs r.1 !! pid = procs w !! pid).
Proof.
  cbv zeta. rewrite cleanupExpired_eq.
  set (w0 := logged LInfo "Cleaning up expired presentations" w).
  set (ids := PresentationManager.expiredIds (now env) w).
  destruct (sweep_run env ids (NoDup_expiredIds _ _) 0 w0)
    as (w' & n' & -> & Hi & Hp & Hd & Hmono & Hgone & Hpr & Hn).
  change (instances w0) with (instances w) in *.
  change (allocatedPorts w0) with (allocatedPorts w) in *.
  change (disk w0) with (disk w) in *.
  change (procs w0) with (procs w) in *.
  cbn [fst].
  assert (∀ ident i, instances w !! ident = Some i →
                     (ident ∈ ids ↔ (expiresAt i ≤ now env)%Z)) as Hids.
  { intros ident i Hlook. unfold ids. rewrite elem_of_expiredIds. split.
    - intros (i' & Hl & He). congruence.
    - eauto. }
  split; [|split].
  - intros p. rewrite Hp. split; intros [Hin Hne]; (split; [done|]).
    + intros ident i Hlook Hexp. apply (Hne ident i); [|done]. by apply (Hids ident i).
    + intros ident i Hin' Hlook. apply (Hne ident i); [done|]. by apply (Hids ident i).
  - intros path Hne. apply Hd. intros ident i Hin Hlook.
    apply (Hne ident i); [done|]. by apply (Hids ident i).
  - intros pid Hne. apply Hpr. intros ident i Hin Hlook.
    apply (Hne ident i); [done|]. by apply (Hids ident i).
Qed.

(** After a sweep without failure nothing is left to sweep. *)
Lemma cleanupExpired_leaves_none env w :
  (∀ path, remove_fault env path = None) →
  PresentationManager.expiredIds (now env) (PresentationManager.cleanupExpired env w).1 = [].
Proof.
  intros Hall. rewrite cleanupExpired_eq.
  destruct (sweep_run env (PresentationManager.expiredIds (now env) w)
              (NoDup_expiredIds _ _) 0 (logged LInfo "Cleaning up expired presentations" w))
    as (w' & n' & -> & Hi & _).
  change (instances (logged LInfo "Cleaning up expired presentations" w))
    with (instances w) in *.
  simpl. apply elem_of_nil_inv. intros ident [i [Hlook Hexp]]%elem_of_expiredIds.
  rewrite Hi in Hlook. destruct (instances w !! ident) as [i0|] eqn:H0; [|done].
  case_decide as Hdec; [done|]. injection Hlook as ->.
  apply Hdec. split; [|done]. apply elem_of_expiredIds. eauto.
Qed.

(** C4, the sentence as the specification has it, fails: the directory of
    the only, expired, instance cannot be removed, so the instance is still
    in the map after the sweep, and a second sweep at the same time, on a
    host that removes the directory, does remove it. *)
Lemma cleanupExpired_keeps_undeletable_instance :
  instances one_ready !! "slidev-V1StGXR8_Z5j" = Some hello_instance ∧
  (expiresAt hello_instance ≤ now busy_disk_host)%Z ∧
  instances (PresentationManager.cleanupExpired busy_disk_host one_ready).1
    !! "slidev-V1StGXR8_Z5j" = Some hello_instance ∧
  ¬ removes_exactly_expired busy_disk_host one_ready ∧
  now later_host = now busy_disk_host ∧
  PresentationManager.cleanupExpired later_host
    (PresentationManager.cleanupExpired busy_disk_host one_ready).1
  ≠ (PresentationManager.cleanupExpired later_host
       (PresentationManager.cleanupExpired later_host one_ready).1) ∧
  (PresentationManager.cleanupExpired later_host
     (PresentationManager.cleanupExpired busy_disk_host one_ready).1).2 = inr 1.
Proof.
  split; [reflexivity|]. split; [by vm_compute|]. split; [reflexivity|].
  split.
  { intros Hexact. specialize (Hexact "slidev-V1StGXR8_Z5j").
    vm_compute in Hexact. discriminate Hexact. }
  split; [reflexivity|]. split; [|reflexivity].
  intros Heq. apply (f_equal snd) in Heq. vm_compute in Heq. discriminate Heq.
Qed.

(** ** Deletion is not atomic *)

(** C10.  When the directory of a registered instance cannot be removed,
    [deletePresentation] throws that error and the instance is still in the
    map, although its port has left the allocated set and its process, if it
    was running and not yet signalled, has received [SIGTERM]. *)
Theorem deletePresentation_not_atomic env ident w i e :
  instances w !! ident = Some i →
  remove_fault env (projectPath i) = Some e →
  let r := PresentationManager.deletePresentation env ident w in
  r.2 = inl e ∧
  instances r.1 !! ident = Some i ∧
  (port i ∉ allocatedPorts r.1) ∧
  disk r.1 = disk w ∧
  (∀ c, procs w !! server i = Some c → killed c = false → exited c = false →
        procs r.1 !! server i =
          Some {| killed := true; exited := false; received := received c ++ [SIGTERM] |}).
Proof.
  intros Hlook Hrm. destruct (delete_known env ident w i Hlook) as (Hp & _ & Hsig & Hcase).
  rewrite Hrm in Hcase. destruct Hcase as (Hres & Hinst & Hdisk). cbv zeta.
  split; [done|]. split; [by rewrite Hinst|]. split; [rewrite Hp; set_solver|].
  split; [done|]. exact Hsig.
Qed.

Lemma deletePresentation_not_atomic_witness :
  instances one_ready !! "slidev-V1StGXR8_Z5j" = Some hello_instance ∧
  port hello_instance ∈ allocatedPorts one_ready ∧
  instances (PresentationManager.deletePresentation busy_disk_host
               "slidev-V1StGXR8_Z5j" one_ready).1 !! "slidev-V1StGXR8_Z5j"
    = Some hello_instance ∧
  port hello_instance ∉
    allocatedPorts (PresentationManager.deletePresentation busy_disk_host
                      "slidev-V1StGXR8_Z5j" one_ready).1.
Proof.
  split; [reflexivity|].
  split; [apply (bool_decide_unpack _); vm_compute; exact I|].
  destruct (deletePresentation_not_atomic busy_disk_host "slidev-V1StGXR8_Z5j" one_ready
              hello_instance (SystemError "EBUSY" "resource busy or locked")
              eq_refl eq_refl) as (_ & Hkept & Hport & _).
  split; [exact Hkept|exact Hport].
Defined.

(** ** Creation *)

(** C1, at the stage of the port allocation.  The scaffold has succeeded
    and the port probe finds nothing: [allocatePort] throws outside the
    inner [try], the outer [catch] only logs, and the directory of the new
    id is still on disk when the error reaches the caller. *)
Theorem createPresentation_port_failure_leaves_directory :
  let r := PresentationManager.createPresentation createDefaultConfig no_port_host
             hello_request initialWorld in
  r.2 = inl (PlainError "No available ports in the configured range") ∧
  has_dir "/tmp/slidev-api/slidev-V1StGXR8_Z5j" r.1 ∧
  instances r.1 = ∅ ∧ allocatedPorts r.1 = ∅.
Proof.
  apply (create_allocation_failure_keeps_directory createDefaultConfig no_port_host
           hello_request initialWorld); [by vm_compute|reflexivity|exact I].
Qed.

(** C8.  At or above the ceiling [createPresentation] throws before it does
    anything else: the world, log included, is the one it was called in. *)
Theorem createPresentation_capacity_exceeded cfg env req w :
  (maxConcurrentPresentations cfg ≤ Z.of_nat (size (instances w)))%Z →
  PresentationManager.createPresentation cfg env req w =
    (w, inl (PlainError "Maximum number of concurrent presentations reached")).
Proof. apply create_at_capacity. Qed.

Lemma createPresentation_capacity_exceeded_witness :
  (maxConcurrentPresentations one_slot_config ≤ Z.of_nat (size (instances one_ready)))%Z ∧
  PresentationManager.createPresentation one_slot_config later_host hello_request one_ready =
    (one_ready, inl (PlainError "Maximum number of concurrent presentations reached")).
Proof.
  split; [by vm_compute|].
  apply (createPresentation_capacity_exceeded one_slot_config later_host hello_request
           one_ready).
  by vm_compute.
Defined.

(** ** The port allocator *)

(** C2.  Along every sequence of [allocatePort] and [releasePort] calls on
    a fresh allocator, the ports handed out and not yet released are
    pairwise distinct, lie in [[start, end]] and are recorded as allocated;
    a call that returns gives a port of the range that was not held, and
    records it; and when every port of the range is held the call throws,
    whatever the probe answers, and records nothing. *)
Theorem allocatePort_exclusive_in_range cfg :
  (∀ calls, held_ok cfg (port_trace cfg calls initialWorld)) ∧
  (∀ probe w w' p,
     PortManager.allocatePort cfg probe w = (w', inr p) →
     (PortManager.startPort cfg ≤ p)%Z ∧ (p ≤ PortManager.endPort cfg)%Z ∧
     (p ∉ allocatedPorts w) ∧ allocatedPorts w' = allocatedPorts w ∪ {[p]}) ∧
  (∀ probe w,
     (∀ p, (PortManager.startPort cfg ≤ p)%Z → (p ≤ PortManager.endPort cfg)%Z →
           p ∈ allocatedPorts w) →
     (PortManager.allocatePort cfg probe w).2 =
       inl (PlainError "No available ports in the configured range") ∧
     allocatedPorts (PortManager.allocatePort cfg probe w).1 = allocatedPorts w).
Proof.
  split; [|split].
  - intros calls. apply port_trace_held_ok. split; [constructor|].
    by intros p ?%elem_of_nil.
  - intros probe w w' p Hrun.
    apply allocatePort_returns in Hrun as (_ & H1 & H2 & H3 & ->). done.
  - intros probe w Hfull.
    destruct (allocatePort_exhausted cfg probe w Hfull) as [w' Hrun].
    rewrite Hrun. simpl. split; [done|].
    by apply allocatePort_throws in Hrun as (_ & _ & -> & _).
Qed.

Lemma allocatePort_exclusive_in_range_witness :
  (∀ p, (3000 ≤ p)%Z → (p ≤ 3002)%Z → p ∈ allocatedPorts three_held) ∧
  (PortManager.allocatePort three_ports_config (inr 3001%Z) three_held).2 =
    inl (PlainError "No available ports in the configured range").
Proof.
  assert (∀ p, (3000 ≤ p)%Z → (p ≤ 3002)%Z → p ∈ allocatedPorts three_held) as Hfull.
  { intros p H1 H2.
    assert (p = 3000 ∨ p = 3001 ∨ p = 3002)%Z as [->|[->| ->]] by lia;
      apply (bool_decide_unpack _); vm_compute; exact I. }
  split; [exact Hfull|].
  exact (proj1 (proj2 (proj2 (allocatePort_exclusive_in_range three_ports_config))
                  (inr 3001%Z) three_held Hfull)).
Defined.

(** C6.  [releasePort] never throws and touches nothing but the allocated
    set and the log: an allocated port is removed, and only it, with an
    [info] entry; for a port that is not allocated the set is unchanged and
    the entry is a warning; releasing again changes nothing more; and the
    released port, when it lies in the range, is handed out again by an
    [allocatePort] whose probe proposes it. *)
Theorem releasePort_idempotent p w :
  let r := PortManager.releasePort p w in
  r.2 = inr tt ∧
  instances r.1 = instances w ∧ disk r.1 = disk w ∧ procs r.1 = procs w ∧
  (p ∈ allocatedPorts w →
     allocatedPorts r.1 = allocatedPorts w ∖ {[p]} ∧
     logs r.1 = logs w ++ [{| log_level := LInfo; log_message := "Port released" |}]) ∧
  (p ∉ allocatedPorts w →
     allocatedPorts r.1 = allocatedPorts w ∧
     logs r.1 = logs w ++ [{| log_level := LWarn;
                              log_message := "Attempted to release unallocated port" |}]) ∧
  (∀ q, q ≠ p → q ∈ allocatedPorts r.1 ↔ q ∈ allocatedPorts w) ∧
  allocatedPorts (PortManager.releasePort p r.1).1 = allocatedPorts r.1 ∧
  (∀ cfg, (PortManager.startPort cfg ≤ p)%Z → (p ≤ PortManager.endPort cfg)%Z →
          (PortManager.allocatePort cfg (inr p) r.1).2 = inr p).
Proof.
  cbv zeta.
  assert (p ∉ allocatedPorts (PortManager.releasePort p w).1) as Hgone
    by (rewrite releasePort_ports; set_solver).
  split; [apply releasePort_returns|].
  split; [apply releasePort_keeps_instances|].
  split; [apply releasePort_keeps_disk|].
  split; [apply releasePort_keeps_procs|].
  split; [|split; [|split; [|split]]].
  - intros Hin. unfold PortManager.releasePort, bind, get, logger, modify.
    by rewrite bool_decide_eq_true_2.
  - intros Hout. unfold PortManager.releasePort, bind, get, logger, modify.
    by rewrite bool_decide_eq_false_2.
  - intros q Hne. rewrite releasePort_ports. set_solver.
  - rewrite !releasePort_ports. set_solver.
  - intros cfg Hlo Hhi. by rewrite allocatePort_free.
Qed.

Lemma releasePort_idempotent_witness :
  (3001%Z ∈ allocatedPorts three_held) ∧
  allocatedPorts (PortManager.releasePort 3001 three_held).1 =
    allocatedPorts three_held ∖ {[3001%Z]} ∧
  (PortManager.allocatePort three_ports_config (inr 3001%Z)
     (PortManager.releasePort 3001 three_held).1).2 = inr 3001%Z.
Proof.
  assert (3001%Z ∈ allocatedPorts three_held) as Hin
    by (apply (bool_decide_unpack _); vm_compute; exact I).
  destruct (releasePort_idempotent 3001 three_held)
    as (_ & _ & _ & _ & Hheld & _ & _ & _ & Hagain).
  split; [exact Hin|]. split; [exact (proj1 (Hheld Hin))|].
  apply (Hagain three_ports_config); by vm_compute.
Defined.

(** ** The routes *)

(** C3 (as amended).  A body whose [content] is a string of five
    characters is answered with status 400 before the handler runs: the
    registry, the ports, the directories and the processes are those of
    before.  When the rest of the body satisfies the schema the answer
    carries the code [CONTENT_TOO_SHORT] and the world is untouched, log
    included; when another field breaks the schema the answer is the
    [VALIDATION_ERROR] of the schema. *)
Theorem post_presentations_content_too_short sanitize cfg env props s w :
  Js.obj_get "content" props = Some (Js.JStr s) →
  String.length s = 5 →
  let r := Routes.post_presentations sanitize cfg env (Js.JObj props) w in
  same_resources w r.1 ∧
  (∃ answer, r.2 = inr answer ∧ Validation.statusCode answer = 400) ∧
  (∀ request,
     Validation.generatePPTSchema (Js.JObj props) = inr request →
     r = (w, inr {| Validation.statusCode := 400;
                    Validation.payload :=
                      Validation.ApiError "Validation Error"
                        "Content is too short (minimum 10 characters)"
                        "CONTENT_TOO_SHORT" [] |})) ∧
  (∀ errors,
     Validation.generatePPTSchema (Js.JObj props) = inl errors →
     r.2 = inr {| Validation.statusCode := 400;
                  Validation.payload :=
                    Validation.ApiError "Validation Error" "Request validation failed"
                                        "VALIDATION_ERROR" errors |}).
Proof.
  intros Hget Hlen. cbv zeta.
  assert (match Validation.generatePPTSchema (Js.JObj props) with
          | inl errors =>
              Routes.post_presentations sanitize cfg env (Js.JObj props) w =
                (logged LWarn "Request validation failed" w,
                 inr {| Validation.statusCode := 400;
                        Validation.payload :=
                          Validation.ApiError "Validation Error" "Request validation failed"
                                              "VALIDATION_ERROR" errors |})
          | inr _ =>
              Routes.post_presentations sanitize cfg env (Js.JObj props) w =
                (w, inr {| Validation.statusCode := 400;
                           Validation.payload :=
                             Validation.ApiError "Validation Error"
                               "Content is too short (minimum 10 characters)"
                               "CONTENT_TOO_SHORT" [] |})
          end) as Hrun.
  { unfold Routes.post_presentations, Validation.validateBody.
    destruct (Validation.generatePPTSchema (Js.JObj props)) as [errors|request] eqn:Hschema.
    - done.
    - apply generatePPTSchema_content in Hschema. rewrite Hget in Hschema.
      simpl in Hschema.
      unfold bind, ret, Validation.validatePresentationRequest. rewrite Hschema.
      rewrite decide_False by (intros ->; discriminate Hlen).
      pose proof (trim_length s) as Htrim.
      replace (String.length (Js.trim s) <? 10) with true
        by (symmetry; apply Nat.ltb_lt; lia).
      done. }
  destruct (Validation.generatePPTSchema (Js.JObj props)) as [errors|request];
    rewrite Hrun; simpl.
  - split; [by repeat split|].
    split; [eexists; split; reflexivity|].
    split; [by intros ? [=]|by intros ? [= <-]].
  - split; [by repeat split|].
    split; [eexists; split; reflexivity|].
    split; [by intros ? _|by intros ? [=]].
Qed.

Lemma post_presentations_content_too_short_witness :
  (∃ request, Validation.generatePPTSchema short_body = inr request) ∧
  Routes.post_presentations (λ s, s) createDefaultConfig calm_host short_body initialWorld =
    (initialWorld,
     inr {| Validation.statusCode := 400;
            Validation.payload :=
              Validation.ApiError "Validation Error"
                "Content is too short (minimum 10 characters)"
                "CONTENT_TOO_SHORT" [] |}).
Proof.
  split; [eexists; reflexivity|].
  eapply (proj1 (proj2 (proj2 (post_presentations_content_too_short (λ s, s)
            createDefaultConfig calm_host
            [("content", Js.JStr "# Hi!"); ("title", Js.JStr "Too short")] "# Hi!"
            initialWorld eq_refl eq_refl)))).
  reflexivity.
Defined.

(** C3, the sentence as the specification has it, fails: a body whose
    [content] has five characters and whose [theme] holds a space is
    answered with status 400 by the schema, with the code
    [VALIDATION_ERROR] and the [theme] as the only detail; no code of the
    answer says that the content is too short. *)
Lemma short_content_with_invalid_theme_is_schema_error :
  let props := [("content", Js.JStr "# Hi!"); ("theme", Js.JStr "a b")] in
  let r := Routes.post_presentations (λ s, s) createDefaultConfig calm_host
             (Js.JObj props) initialWorld in
  Js.obj_get "content" props = Some (Js.JStr "# Hi!") ∧
  String.length "# Hi!" = 5 ∧
  r.2 = inr {| Validation.statusCode := 400;
               Validation.payload :=
                 Validation.ApiError "Validation Error" "Request validation failed"
                   "VALIDATION_ERROR"
                   [{| Validation.field := "theme";
                       Validation.rule := "string.pattern.base" |}] |} ∧
  (∀ answer, r.2 = inr answer →
             Validation.response_code answer ≠ Some "CONTENT_TOO_SHORT").
Proof.
  cbv zeta. split; [reflexivity|]. split; [reflexivity|]. split; [reflexivity|].
  intros answer Hanswer. vm_compute in Hanswer. injection Hanswer as <-. discriminate.
Qed.

(** C5.  For an id of the registry and a [ttl] within
    [[60000, 86400000]], the extend route answers 200 and the instance has
    [expiresAt] equal to the time read plus [ttl], later than before
    whenever that sum is, every other field, [createdAt] among them, being
    as before; nothing else changes.  A [ttl] outside the interval is
    answered with 400 and the code [VALIDATION_ERROR], and nothing changes
    but the log. *)
Theorem post_extend_moves_expiry env ident props t w instance :
  instances w !! ident = Some instance →
  Validation.id_pattern ident = true →
  Js.obj_get "ttl" props = Some (Js.JNum t) →
  let r := Routes.post_extend env ident (Js.JObj props) w in
  ((60000 ≤ t)%Z ∧ (t ≤ 86400000)%Z →
     r.2 = inr {| Validation.statusCode := 200;
                  Validation.payload :=
                    Validation.Extended (id instance) (now env + t)
                                        "TTL extended successfully" |} ∧
     instances r.1 = <[ident := with_expiresAt (now env + t) instance]> (instances w) ∧
     expiresAt (with_expiresAt (now env + t) instance) = (now env + t)%Z ∧
     createdAt (with_expiresAt (now env + t) instance) = createdAt instance ∧
     ((expiresAt instance < now env + t)%Z →
      (expiresAt instance < expiresAt (with_expiresAt (now env + t) instance))%Z) ∧
     allocatedPorts r.1 = allocatedPorts w ∧ disk r.1 = disk w ∧ procs r.1 = procs w) ∧
  ((t < 60000)%Z ∨ (86400000 < t)%Z →
     (∃ answer, r.2 = inr answer ∧ Validation.statusCode answer = 400 ∧
                Validation.response_code answer = Some "VALIDATION_ERROR") ∧
     same_resources w r.1).
Proof.
  intros Hlook Hpat Hget. cbv zeta.
  unfold Routes.post_extend, Validation.validateParams, Validation.validateBody.
  rewrite (paramsSchema_accepts ident Hpat), (extendSchema_number props t Hget).
  split.
  - intros Hin. rewrite decide_True by done.
    unfold Routes.asyncHandler, Routes.extendHandler, PresentationManager.getPresentation,
      try_catch, bind, get, ret, modify, logger.
    simpl. rewrite Hlook. simpl. by repeat split.
  - intros Hout. rewrite decide_False by lia.
    unfold bind, ret, logger, modify. simpl. split; [eauto|]. by repeat split.
Qed.

Lemma post_extend_moves_expiry_witness :
  instances one_ready !! "slidev-V1StGXR8_Z5j" = Some hello_instance ∧
  instances (Routes.post_extend later_host "slidev-V1StGXR8_Z5j" two_hours_body one_ready).1
    !! "slidev-V1StGXR8_Z5j" = Some (with_expiresAt 1700014400000 hello_instance) ∧
  same_resources one_ready
    (Routes.post_extend later_host "slidev-V1StGXR8_Z5j" one_second_body one_ready).1.
Proof.
  split; [reflexivity|]. split.
  - destruct (post_extend_moves_expiry later_host "slidev-V1StGXR8_Z5j"
                [("ttl", Js.JNum 7200000)] 7200000 one_ready hello_instance
                eq_refl eq_refl eq_refl) as [Hin _].
    destruct Hin as (_ & Hinst & _); [by vm_compute|].
    unfold two_hours_body. rewrite Hinst. apply lookup_insert_eq.
  - destruct (post_extend_moves_expiry later_host "slidev-V1StGXR8_Z5j"
                [("ttl", Js.JNum 1000)] 1000 one_ready hello_instance
                eq_refl eq_refl eq_refl) as [_ Hout].
    destruct Hout as [_ Hsame]; [left; by vm_compute|]. exact Hsame.
Defined.

(** ** The frontmatter *)

(** In the scaffolder the frontmatter is the defaults overwritten by
    [request.frontmatter] and then by [request.config]: the last write of a
    key wins. *)
Lemma frontmatter_last_write_wins request k :
  (∀ o, frontmatter request = Some o → NoDup o.*1) →
  (∀ o, config request = Some o → NoDup o.*1) →
  Js.obj_get k (ProjectGenerator.frontmatter_of request) =
    match config request ≫= Js.obj_get k with
    | Some v => Some v
    | None =>
        match frontmatter request ≫= Js.obj_get k with
        | Some v => Some v
        | None => Js.obj_get k (ProjectGenerator.defaults request)
        end
    end.
Proof.
  intros Hfm Hcfg. unfold ProjectGenerator.frontmatter_of.
  destruct (config request) as [c|], (frontmatter request) as [f|];
    unfold mbind, option_bind.
  - rewrite (obj_get_spread k _ c) by auto. destruct (Js.obj_get k c); [done|].
    by rewrite (obj_get_spread k _ f) by auto.
  - rewrite (obj_get_spread k _ c) by auto. by destruct (Js.obj_get k c).
  - rewrite obj_get_spread_undefined. by rewrite (obj_get_spread k _ f) by auto.
  - by rewrite !obj_get_spread_undefined.
Qed.

(** The five defaults, by key. *)
Lemma defaults_lookup request :
  Js.obj_get "theme" (ProjectGenerator.defaults request) =
    Some (Js.JStr (ProjectGenerator.or_else (theme request) "default")) ∧
  Js.obj_get "title" (ProjectGenerator.defaults request) =
    Some (Js.JStr (ProjectGenerator.or_else (title request) "Generated Presentation")) ∧
  Js.obj_get "class" (ProjectGenerator.defaults request) = Some (Js.JStr "text-center") ∧
  Js.obj_get "transition" (ProjectGenerator.defaults request) = Some (Js.JStr "slide-left") ∧
  Js.obj_get "mdc" (ProjectGenerator.defaults request) = Some (Js.JBool true).
Proof. by repeat split. Qed.

(** The scaffolder writes one line per property: a string between double
    quotes, anything else as [JSON.stringify] prints it. *)
Lemma scaffolder_quotes_strings request :
  ProjectGenerator.frontmatterYaml request =
    Js.join Js.newline
      (map ProjectGenerator.yaml_line (ProjectGenerator.frontmatter_of request)) ∧
  (∀ k s, ProjectGenerator.yaml_line (k, Js.JStr s) =
            k +:+ ": " +:+ Js.dquote +:+ s +:+ Js.dquote) ∧
  (∀ k v, Js.is_string v = false →
          ProjectGenerator.yaml_line (k, v) = k +:+ ": " +:+ Js.stringify v).
Proof.
  split; [done|]. split; [done|]. intros k v Hv. by destruct v.
Qed.

(** C7, on the container variant.  [DockerManager.createSlidesFile] merges
    the same way but writes a string value bare: for the title
    [Q3: results] the line is [title: Q3: results], where the scaffolder
    writes it between double quotes. *)
Theorem DockerManager_writes_strings_bare :
  DockerManager.frontmatter_of hello_request =
    ProjectGenerator.frontmatter_of hello_request ∧
  DockerManager.frontmatterYaml hello_request =
    Js.join Js.newline
      [ "theme: default"; "title: Q3: results"; "class: text-center";
        "transition: slide-left"; "mdc: true" ] ∧
  ProjectGenerator.frontmatterYaml hello_request =
    Js.join Js.newline
      [ "theme: " +:+ Js.dquote +:+ "default" +:+ Js.dquote;
        "title: " +:+ Js.dquote +:+ "Q3: results" +:+ Js.dquote;
        "class: " +:+ Js.dquote +:+ "text-center" +:+ Js.dquote;
        "transition: " +:+ Js.dquote +:+ "slide-left" +:+ Js.dquote;
        "mdc: true" ].
Proof. split; [reflexivity|]. split; reflexivity. Qed.

(** ** The model at work *)

Example slides_of_hello_request :
  disk one_ready !! "/tmp/slidev-api/slidev-V1StGXR8_Z5j" ≫= (.!! "slides.md") =
    Some (File (ProjectGenerator.slidesContent hello_request)).
Proof. reflexivity. Qed.

Example array_index_keys_come_first :
  map fst (Js.spread [("theme", Js.JStr "default")]
             (Some [("10", Js.JNull); ("b", Js.JNull); ("2", Js.JNull); ("01", Js.JNull)]))
  = ["2"; "10"; "theme"; "b"; "01"].
Proof. reflexivity. Qed.

Example stringify_nested :
  Js.stringify (Js.JObj [("a", Js.JArr [Js.JNum 1; Js.JNum (-2); Js.JNull]);
                         ("b", Js.JStr ("x" +:+ Js.newline))])
  = "{" +:+ Js.dquote +:+ "a" +:+ Js.dquote +:+ ":[1,-2,null],"
        +:+ Js.dquote +:+ "b" +:+ Js.dquote +:+ ":" +:+ Js.dquote +:+ "x"
        +:+ Js.backslash +:+ "n" +:+ Js.dquote +:+ "}".
Proof. reflexivity. Qed.

Example trim_both_ends : Js.trim ("  a b " +:+ Js.newline) = "a b".
Proof. reflexivity. Qed.

Example three_ports_then_none :
  (port_trace three_ports_config
     [Allocate (inr 3000%Z); Allocate (inr 3001%Z); Allocate (inr 3002%Z);
      Allocate (inr 3001%Z); Release 3001%Z; Allocate (inr 3001%Z)]
     initialWorld).2 = [3001%Z; 3002%Z; 3000%Z].
Proof. reflexivity. Qed.

Example expired_instance_is_swept :
  let r := PresentationManager.cleanupExpired later_host one_ready in
  r.2 = inr 1 ∧ instances r.1 = ∅ ∧ allocatedPorts r.1 = ∅ ∧ disk r.1 = ∅.
Proof. by repeat split. Qed.

(** ** Invariants of the service

    An invariant that the log does not touch and that creation, deletion,
    the clearing of the ports and the extension of a lifetime keep is kept
    by every operation, and so holds in every reachable world. *)

Ltac invariant_step logs leaf :=
  lazymatch goal with
  | |- maintains _ (ret _) _ => first [ apply maintains_ret_true | apply maintains_ret; done ]
  | |- maintains _ (throw _) _ => apply maintains_throw
  | |- maintains _ (logger _ _) _ => apply maintains_logger; logs
  | |- maintains _ get _ => apply maintains_get; intros; exact I
  | |- maintains _ (bind _ _) _ => eapply maintains_bind; [|intros ? _]
  | |- maintains _ (try_catch _ _) _ => apply maintains_try_catch; [|intros ?]
  | |- maintains _ (match _ with _ => _ end) _ => case_match
  | |- maintains _ ?m _ => first [ leaf | let h := head_of m in progress unfold h ]
  end.

Section ServiceInvariant.

Variable cfg : ServerConfig.
Variable good : Env → Prop.
Variable J : World → Prop.

Hypothesis J_logs : ∀ w f, J w → J (set_logs f w).
Hypothesis J_create : ∀ env req, good env →
  maintains J (PresentationManager.createPresentation cfg env req) (λ _, True).
Hypothesis J_delete : ∀ env ident, good env →
  maintains J (PresentationManager.deletePresentation env ident) (λ _, True).
Hypothesis J_shutdown : ∀ env, good env →
  maintains J (PresentationManager.shutdown env) (λ _, True).
Hypothesis J_extend : ∀ env ident newTtl,
  maintains J (Routes.extendHandler env ident newTtl) (λ _, True).

Local Ltac steps :=
  repeat invariant_step
    ltac:(apply J_logs)
    ltac:(first [ by apply J_create | by apply J_delete | apply J_extend ]).

Lemma invariant_sweep env ids n :
  good env → maintains J (PresentationManager.sweep env ids n) (λ _, True).
Proof.
  intros Hgood. revert n. induction ids as [|ident rest IH]; intros n; simpl.
  - apply maintains_ret_true.
  - eapply maintains_bind; [|intros c _; apply IH]. steps.
Qed.

Lemma invariant_cleanupExpired env :
  good env → maintains J (PresentationManager.cleanupExpired env) (λ _, True).
Proof.
  intros Hgood. unfold PresentationManager.cleanupExpired.
  eapply maintains_bind; [apply maintains_get; intros; exact I|intros w _].
  eapply maintains_bind; [steps|intros _ _]. by apply invariant_sweep.
Qed.

Lemma invariant_errorHandler e :
  maintains J (Routes.errorHandler false throw e) (λ _, True).
Proof. unfold Routes.errorHandler. cbv beta iota. destruct e; steps. Qed.

Lemma invariant_post_presentations sanitize env body :
  good env → maintains J (Routes.post_presentations sanitize cfg env body) (λ _, True).
Proof.
  intros Hgood.
  unfold Routes.post_presentations, Validation.validateBody, Routes.asyncHandler,
    Routes.createHandler, HealthMonitor.getHealthStatus,
    HealthMonitor.determineOverallStatus.
  repeat invariant_step
    ltac:(apply J_logs)
    ltac:(first [ by apply J_create | apply invariant_errorHandler ]).
Qed.

Lemma invariant_post_extend env ident body :
  maintains J (Routes.post_extend env ident body) (λ _, True).
Proof.
  unfold Routes.post_extend, Validation.validateParams, Validation.validateBody,
    Routes.asyncHandler.
  repeat invariant_step
    ltac:(apply J_logs)
    ltac:(first [ apply J_extend | apply invariant_errorHandler ]).
Qed.

Lemma invariant_perform op w : good (host_of op) → J w → J (perform cfg op w).
Proof.
  intros Hgood Hw. destruct op; simpl in *.
  - by apply J_create.
  - by apply J_delete.
  - by apply invariant_cleanupExpired.
  - by apply J_shutdown.
  - by apply invariant_post_presentations.
  - by apply invariant_post_extend.
Qed.

Lemma invariant_reachable_when w : J initialWorld → reachable_when good cfg w → J w.
Proof.
  intros Hstart. induction 1 as [|w op _ IH Hgood]; [done|]. by apply invariant_perform.
Qed.

End ServiceInvariant.

(** [shutdown] keeps what deletion and the clearing of the ports keep. *)
Lemma invariant_shutdown (J : World → Prop) env :
  (∀ w f, J w → J (set_logs f w)) →
  (∀ ident, maintains J (PresentationManager.deletePresentation env ident) (λ _, True)) →
  maintains J PortManager.clearAll (λ _, True) →
  maintains J (PresentationManager.shutdown env) (λ _, True).
Proof.
  intros J_logs J_delete J_clearAll.
  assert (∀ ids, maintains J (PresentationManager.shutdown_loop env ids) (λ _, True))
    as Hloop.
  { induction ids as [|ident rest IH]; simpl.
    - apply maintains_ret_true.
    - eapply maintains_bind; [|intros c _; apply IH].
      repeat invariant_step ltac:(apply J_logs) ltac:(apply J_delete). }
  unfold PresentationManager.shutdown.
  repeat invariant_step ltac:(apply J_logs)
    ltac:(first [ apply Hloop | apply J_clearAll ]).
Qed.

Lemma reachable_when_true cfg w : reachable cfg w → reachable_when (λ _, True) cfg w.
Proof.
  induction 1 as [|w op _ IH]; [apply reachable_when_start|].
  by apply reachable_when_step.
Qed.

Lemma reachable_when_reachable good cfg w : reachable_when good cfg w → reachable cfg w.
Proof.
  induction 1 as [|w op _ IH _]; [apply reachable_start|]. by apply reachable_step.
Qed.

(** An invariant that every operation keeps whatever the host does. *)
Lemma invariant_reachable cfg (J : World → Prop) w :
  (∀ w f, J w → J (set_logs f w)) →
  (∀ env req, maintains J (PresentationManager.createPresentation cfg env req) (λ _, True)) →
  (∀ env ident, maintains J (PresentationManager.deletePresentation env ident) (λ _, True)) →
  maintains J PortManager.clearAll (λ _, True) →
  (∀ env ident newTtl, maintains J (Routes.extendHandler env ident newTtl) (λ _, True)) →
  J initialWorld → reachable cfg w → J w.
Proof.
  intros J_logs J_create J_delete J_clearAll J_extend Hstart Hreach.
  apply (invariant_reachable_when cfg (λ _, True) J); auto using reachable_when_true.
  intros env _. by apply invariant_shutdown.
Qed.

(** ** The allocated ports stay in the range *)

Lemma maintains_range_keeps {A} cfg (m : M A) :
  keeps allocatedPorts m → maintains (ports_in_range cfg) m (λ _, True).
Proof. intros Hk w Hw. unfold ports_in_range in *. by rewrite Hk. Qed.

Lemma allocatePort_maintains_range cfg probe :
  maintains (ports_in_range cfg) (PortManager.allocatePort cfg probe) (λ _, True).
Proof.
  intros w Hw. split; [|done]. unfold ports_in_range in *.
  destruct (PortManager.allocatePort cfg probe w) as [w' [e|p]] eqn:Hrun; simpl.
  - destruct (allocatePort_throws _ _ _ _ _ Hrun) as (_ & _ & -> & _). done.
  - destruct (allocatePort_returns _ _ _ _ _ Hrun) as (_ & Hlo & Hhi & _ & ->).
    simpl. intros q [Hq| ->%elem_of_singleton]%elem_of_union; auto.
Qed.

Lemma releasePort_maintains_range cfg p :
  maintains (ports_in_range cfg) (PortManager.releasePort p) (λ _, True).
Proof.
  intros w Hw. split; [|done]. unfold ports_in_range in *.
  rewrite releasePort_ports. intros q [Hq _]%elem_of_difference. auto.
Qed.

Lemma clearAll_maintains_range cfg :
  maintains (ports_in_range cfg) PortManager.clearAll (λ _, True).
Proof. intros w Hw. split; [|done]. intros q. simpl. set_solver. Qed.

Ltac range_steps :=
  repeat invariant_step
    ltac:(by intros ? ? ?)
    ltac:(first [ apply allocatePort_maintains_range
                | apply releasePort_maintains_range
                | apply clearAll_maintains_range
                | apply maintains_range_keeps; frame; fail ]).

Lemma create_maintains_range cfg env req :
  maintains (ports_in_range cfg) (PresentationManager.createPresentation cfg env req)
            (λ _, True).
Proof. range_steps. Qed.

Lemma delete_maintains_range cfg env ident :
  maintains (ports_in_range cfg) (PresentationManager.deletePresentation env ident)
            (λ _, True).
Proof. range_steps. Qed.

Lemma extendHandler_maintains_range cfg env ident newTtl :
  maintains (ports_in_range cfg) (Routes.extendHandler env ident newTtl) (λ _, True).
Proof. range_steps. Qed.

Lemma reachable_ports_in_range cfg w : reachable cfg w → ports_in_range cfg w.
Proof.
  apply (invariant_reachable cfg (ports_in_range cfg)).
  - by intros ? ? ?.
  - apply create_maintains_range.
  - apply delete_maintains_range.
  - apply clearAll_maintains_range.
  - apply extendHandler_maintains_range.
  - intros p. simpl. set_solver.
Qed.

(** The ports of the range, as a set. *)
Lemma range_count cfg (X : gset Z) :
  (PortManager.startPort cfg ≤ PortManager.endPort cfg)%Z →
  (∀ p, p ∈ X → (PortManager.startPort cfg ≤ p)%Z ∧ (p ≤ PortManager.endPort cfg)%Z) →
  (Z.of_nat (size X) ≤ PortManager.endPort cfg - PortManager.startPort cfg + 1)%Z ∧
  ((Z.of_nat (size X) = PortManager.endPort cfg - PortManager.startPort cfg + 1)%Z ↔
   ∀ p, (PortManager.startPort cfg ≤ p)%Z → (p ≤ PortManager.endPort cfg)%Z → p ∈ X).
Proof.
  intros Hle Hin.
  set (a := PortManager.startPort cfg) in *. set (b := PortManager.endPort cfg) in *.
  set (R := list_to_set (seqZ a (b - a + 1)) : gset Z).
  assert (size R = Z.to_nat (b - a + 1)) as HR.
  { unfold R. rewrite size_list_to_set by apply NoDup_seqZ. apply length_seqZ. }
  assert (X ⊆ R) as Hsub.
  { intros p Hp. apply elem_of_list_to_set, elem_of_seqZ. destruct (Hin p Hp). lia. }
  pose proof (subseteq_size _ _ Hsub) as Hsize.
  split; [lia|]. split.
  - intros Hfull p Hlo Hhi.
    assert (X = R) as ->.
    { apply set_subseteq_size_eq; [done|lia]. }
    apply elem_of_list_to_set, elem_of_seqZ. lia.
  - intros Hall.
    assert (R ⊆ X) as Hsup.
    { intros p [Hlo Hhi]%elem_of_list_to_set%elem_of_seqZ. apply Hall; lia. }
    pose proof (subseteq_size _ _ Hsup). lia.
Qed.

(** X1.  In every world the service can reach, the allocated ports lie in
    the configured range; the number of available ports that
    [getAvailablePortCount] reports is therefore never negative, and it is
    zero exactly when every port of the range is allocated, in which case
    [allocatePort] fails whatever the probe proposes. *)
Theorem available_port_count_is_exact cfg w :
  reachable cfg w →
  (PortManager.startPort cfg ≤ PortManager.endPort cfg)%Z →
  ports_in_range cfg w ∧
  (0 ≤ PortManager.getAvailablePortCount cfg w)%Z ∧
  (PortManager.getAvailablePortCount cfg w ≤
     PortManager.endPort cfg - PortManager.startPort cfg + 1)%Z ∧
  (PortManager.getAvailablePortCount cfg w = 0%Z ↔
   ∀ p, (PortManager.startPort cfg ≤ p)%Z → (p ≤ PortManager.endPort cfg)%Z →
        PortManager.isPortAllocated p w = true) ∧
  (PortManager.getAvailablePortCount cfg w = 0%Z →
   ∀ probe, (PortManager.allocatePort cfg probe w).2 =
              inl (PlainError "No available ports in the configured range")).
Proof.
  intros Hreach Hle.
  pose proof (reachable_ports_in_range cfg w Hreach) as Hrange.
  destruct (range_count cfg (allocatedPorts w) Hle Hrange) as [Hsize Hfull].
  unfold PortManager.getAvailablePortCount, PortManager.isPortAllocated.
  split; [done|]. split; [lia|]. split; [lia|].
  assert ((PortManager.endPort cfg - PortManager.startPort cfg + 1
             - Z.of_nat (size (allocatedPorts w)) = 0)%Z ↔
          ∀ p, (PortManager.startPort cfg ≤ p)%Z → (p ≤ PortManager.endPort cfg)%Z →
               p ∈ allocatedPorts w) as Hzero.
  { rewrite <- Hfull. lia. }
  split.
  - rewrite Hzero. split; intros Hall p Hlo Hhi.
    + apply bool_decide_eq_true_2. by apply Hall.
    + by eapply bool_decide_eq_true_1, Hall.
  - intros Hnone probe.
    destruct (allocatePort_exhausted cfg probe w) as [w' Hrun]; [by apply Hzero|].
    by rewrite Hrun.
Qed.

Lemma available_port_count_is_exact_witness :
  reachable createDefaultConfig one_ready ∧
  ports_in_range createDefaultConfig one_ready ∧
  PortManager.getAvailablePortCount createDefaultConfig one_ready = 98%Z.
Proof.
  assert (reachable createDefaultConfig one_ready) as Hreach.
  { apply (reachable_step _ _ (CreatePresentation calm_host hello_request)),
      reachable_start. }
  split; [exact Hreach|].
  split; [|reflexivity].
  apply (available_port_count_is_exact createDefaultConfig one_ready Hreach).
  vm_compute. discriminate.
Defined.

(** X2.  A successful [allocatePort] lowers the number of available ports
    by exactly one and marks the port as allocated; releasing that port
    gives back the set of allocated ports, and the count, of before. *)
Theorem allocatePort_then_releasePort cfg probe w w' p :
  PortManager.allocatePort cfg probe w = (w', inr p) →
  PortManager.isPortAllocated p w = false ∧
  PortManager.isPortAllocated p w' = true ∧
  PortManager.getAvailablePortCount cfg w' =
    (PortManager.getAvailablePortCount cfg w - 1)%Z ∧
  allocatedPorts (PortManager.releasePort p w').1 = allocatedPorts w ∧
  PortManager.getAvailablePortCount cfg (PortManager.releasePort p w').1 =
    PortManager.getAvailablePortCount cfg w.
Proof.
  intros Hrun.
  destruct (allocatePort_returns _ _ _ _ _ Hrun) as (_ & _ & _ & Hfree & ->).
  assert (allocatedPorts (PortManager.releasePort p
            (set_logs (λ ls, ls ++ [port_allocated_entry])
               (set_allocatedPorts (λ s, s ∪ {[p]}) w))).1 = allocatedPorts w) as Hback.
  { rewrite releasePort_ports. simpl. set_solver. }
  unfold PortManager.isPortAllocated, PortManager.getAvailablePortCount.
  rewrite Hback. simpl.
  split; [by apply bool_decide_eq_false_2|].
  split; [apply bool_decide_eq_true_2; set_solver|].
  split; [|done].
  rewrite size_union by set_solver. rewrite size_singleton. lia.
Qed.

Lemma allocatePort_then_releasePort_witness :
  PortManager.allocatePort createDefaultConfig (inr 3003%Z) one_ready =
    ((PortManager.allocatePort createDefaultConfig (inr 3003%Z) one_ready).1, inr 3003%Z) ∧
  allocatedPorts
    (PortManager.releasePort 3003
       (PortManager.allocatePort createDefaultConfig (inr 3003%Z) one_ready).1).1 =
  allocatedPorts one_ready.
Proof.
  assert (PortManager.allocatePort createDefaultConfig (inr 3003%Z) one_ready =
          ((PortManager.allocatePort createDefaultConfig (inr 3003%Z) one_ready).1,
           inr 3003%Z)) as Hrun by reflexivity.
  split; [exact Hrun|].
  exact (proj1 (proj2 (proj2 (proj2
    (allocatePort_then_releasePort createDefaultConfig (inr 3003%Z) one_ready _ 3003%Z
       Hrun))))).
Defined.

(** ** Signals *)

Lemma stopServer_procs pid w :
  procs (PresentationManager.stopServer pid w).1 =
    match procs w !! pid with
    | Some c => if killed c || exited c then procs w else <[pid := stopped c]> (procs w)
    | None => procs w
    end.
Proof.
  unfold PresentationManager.stopServer, PresentationManager.kill,
    PresentationManager.is_killed, logger, bind, get, modify, ret.
  destruct (procs w !! pid) as [c|] eqn:Hc; cbn [negb]; [|done].
  destruct (killed c) eqn:Hk, (exited c) eqn:He; cbn [negb orb]; try done.
  { repeat (cbv beta iota zeta; rewrite ?Hc, ?Hk, ?He; cbn [negb]). done. }
  assert (pid < length (procs w)) as Hlt by (by eapply lookup_lt_Some).
  repeat (cbv beta iota zeta; rewrite ?Hc, ?Hk, ?He; cbn [negb]).
  cbn [procs set_procs]. fold (stopped c).
  rewrite (list_lookup_insert_eq (procs w) pid (stopped c) Hlt). done.
Qed.

Lemma delete_procs env ident w i :
  instances w !! ident = Some i →
  procs (PresentationManager.deletePresentation env ident w).1 =
    procs (PresentationManager.stopServer (server i) w).1.
Proof.
  intros Hi. rewrite (delete_eq env ident w i Hi). cbv zeta.
  set (w1 := (PresentationManager.stopServer (server i)
                (logged LInfo "Deleting presentation" w)).1).
  destruct (releasePort_run (port i) w1) as (w2 & Hrel & _ & _ & _ & Hp2).
  rewrite Hrel. cbn [fst].
  pose proof (cleanupProject_run env (projectPath i) w2) as Hclean.
  assert (procs w1 = procs (PresentationManager.stopServer (server i) w).1) as <-.
  { unfold w1. by rewrite !stopServer_procs. }
  destruct (remove_fault env (projectPath i)).
  - destruct Hclean as (w3 & -> & _ & _ & _ & Hp3). simpl. congruence.
  - destruct Hclean as (w3 & -> & _ & _ & _ & Hp3). simpl. congruence.
Qed.

Lemma delete_procs_cases env ident w :
  procs (PresentationManager.deletePresentation env ident w).1 =
    match instances w !! ident with
    | Some i =>
        match procs w !! server i with
        | Some c => if killed c || exited c then procs w
                    else <[server i := stopped c]> (procs w)
        | None => procs w
        end
    | None => procs w
    end.
Proof.
  destruct (instances w !! ident) as [i|] eqn:Hi.
  - rewrite (delete_procs env ident w i Hi). apply stopServer_procs.
  - by rewrite delete_unknown.
Qed.

(** X3.  [deletePresentation] delivers [SIGTERM] to the process of
    the instance when that process runs and was not signalled before, and
    does nothing else to any process: once [SIGTERM] is delivered the
    handle counts as killed, so the [SIGKILL] of the "force kill" branch
    is never sent, and a process that has exited receives no signal at
    all. *)
Theorem deletePresentation_only_sends_SIGTERM env ident w :
  procs (PresentationManager.deletePresentation env ident w).1 =
    match instances w !! ident with
    | Some i =>
        match procs w !! server i with
        | Some c => if killed c || exited c then procs w
                    else <[server i := stopped c]> (procs w)
        | None => procs w
        end
    | None => procs w
    end.
Proof. apply delete_procs_cases. Qed.

(** ** A successful creation *)

Lemma put_keeps_file path name e other data :
  name ≠ other →
  returns (has_file path other data) (Fs.put path name e) (λ _, True).
Proof.
  intros Hne w (dir & Hdir & Hfile). unfold Fs.put, bind, get. rewrite Hdir.
  cbv beta iota. unfold modify. cbn [fst snd].
  split; [|by eexists]. exists (<[name := e]> dir). cbn [disk set_disk].
  rewrite lookup_insert_eq. split; [done|]. by rewrite lookup_insert_ne.
Qed.

Lemma ensureSubdir_keeps_file path name other data :
  name ≠ other →
  returns (has_file path other data) (Fs.ensureSubdir path name) (λ _, True).
Proof.
  intros Hne w (dir & Hdir & Hfile). unfold Fs.ensureSubdir, modify. cbn [fst snd].
  split; [|by eexists]. exists (<[name := Folder]> dir). cbn [disk set_disk].
  rewrite lookup_insert_eq, Hdir. cbn [default]. split; [done|]. by rewrite lookup_insert_ne.
Qed.

Lemma put_writes_file path name data w :
  has_dir path w →
  (Fs.put path name (File data) w).2 = inr tt ∧
  has_file path name data (Fs.put path name (File data) w).1.
Proof.
  intros [dir Hdir]. unfold Fs.put, bind, get. rewrite Hdir.
  cbv beta iota. unfold modify. cbn [fst snd].
  split; [done|]. exists (<[name := File data]> dir). cbn [disk set_disk].
  by rewrite !lookup_insert_eq.
Qed.

Lemma has_file_set_logs path name data f w :
  has_file path name data w → has_file path name data (set_logs f w).
Proof. done. Qed.

Lemma scaffold_slides cfg env req w x :
  (ProjectGenerator.createProjectWithoutDeps cfg env req w).2 = inr x →
  has_file (join_path (tempDir cfg) (ProjectGenerator.generateProjectId env)) "slides.md"
           (ProjectGenerator.slidesContent req)
           (ProjectGenerator.createProjectWithoutDeps cfg env req w).1.
Proof.
  set (ident := ProjectGenerator.generateProjectId env).
  set (path := join_path (tempDir cfg) ident).
  set (F := has_file path "slides.md" (ProjectGenerator.slidesContent req)).
  assert (triple (λ _, True) (ProjectGenerator.createProjectWithoutDeps cfg env req)
            (λ w' r, ∀ x, r = inr x → F w')) as Htriple.
  { unfold ProjectGenerator.createProjectWithoutDeps. fold ident. fold path.
    eapply triple_try_catch with (R := λ w' r, ∀ x, r = inr x → F w').
    2:{ auto. }
    2:{ intros e w' _. unfold bind, try_catch, logger, modify, throw. simpl.
        destruct (Fs.remove env path _) as [? [?|?]]; simpl; congruence. }
    eapply triple_bind with (R := λ _ _, True); [done|by intros|intros _].
    eapply triple_bind with (R := λ _ _, True); [done|by intros|intros _].
    eapply triple_bind with (R := λ w' r, ∀ a, r = inr a → has_dir path w').
    { intros w' _. unfold Fs.guarded. repeat case_match; simpl; try congruence.
      all: intros _ _; apply ensureDir_has_dir. }
    { intros; congruence. }
    intros [].
    eapply triple_bind with (R := λ w' r, ∀ a, r = inr a → F w').
    { intros w' Hdir. specialize (Hdir tt eq_refl).
      unfold Fs.guarded, ProjectGenerator.createSlidesFile.
      repeat case_match; simpl; try congruence.
      all: intros _ _; by apply put_writes_file. }
    { intros; congruence. }
    intros [].
    eapply triple_weaken with (P' := F) (Q' := λ w' r, F w' ∧ ∀ a, r = inr a → True).
    - match goal with |- triple _ ?m _ =>
        change (maintains F m (λ _, True)) end.
      repeat maintains_step
        ltac:(first [ apply returns_maintains, put_keeps_file; done
                    | apply returns_maintains, ensureSubdir_keeps_file; done ]).
    - eauto.
    - by intros w' r [? _] x' _. }
  intros Hx. apply (Htriple w I x Hx).
Qed.

Lemma startSlidevProcess_returns env path p th w pid :
  (PresentationManager.startSlidevProcess env path p th w).2 = inr pid →
  spawn_outcome env = SpawnReady ∧ pid = length (procs w) ∧
  procs (PresentationManager.startSlidevProcess env path p th w).1 = procs w ++ [running].
Proof.
  unfold PresentationManager.startSlidevProcess.
  destruct (spawn_outcome env) as [|e|code|] eqn:Hspawn.
  - unfold PresentationManager.spawn, bind, get, modify, logger, ret. simpl.
    intros [= <-]. done.
  - done.
  - unfold PresentationManager.spawn, PresentationManager.mark_exited,
      PresentationManager.kill, bind, get, modify, logger, ret, throw.
    cbv beta iota zeta. cbn [fst snd].
    destruct (decide (code = 0%Z)); cbv beta iota zeta;
      repeat (case_match; cbv beta iota zeta; cbn [fst snd]); done.
  - unfold PresentationManager.spawn, PresentationManager.kill, bind, get, modify,
      logger, ret, throw.
    cbv beta iota zeta. cbn [fst snd].
    repeat (case_match; cbv beta iota zeta; cbn [fst snd]); done.
Qed.

Lemma startServer_returns env path p th w pid :
  (PresentationManager.startServer env path p th w).2 = inr pid →
  spawn_outcome env = SpawnReady ∧
  PresentationManager.probe (fetch_ok env) 0 60 = true ∧
  pid = length (procs w) ∧
  procs (PresentationManager.startServer env path p th w).1 = procs w ++ [running] ∧
  instances (PresentationManager.startServer env path p th w).1 = instances w ∧
  allocatedPorts (PresentationManager.startServer env path p th w).1 = allocatedPorts w ∧
  disk (PresentationManager.startServer env path p th w).1 = disk w.
Proof.
  rewrite startServer_eq. cbv zeta.
  pose proof (startSlidevProcess_returns env path p th w) as Hstart.
  pose proof (startSlidevProcess_keeps_instances env path p th w) as Hi.
  pose proof (startSlidevProcess_keeps_ports env path p th w) as Hp.
  pose proof (startSlidevProcess_keeps_disk env path p th w) as Hd.
  destruct (PresentationManager.startSlidevProcess env path p th w) as [w1 [e|pid1]].
  { cbn [fst snd].
    destruct (rollback_start_run (A:=nat) env None p path e w1) as (_ & _ & [e' He'] & _).
    rewrite He'. done. }
  cbn [fst snd] in *.
  destruct (Hstart pid1 eq_refl) as (Hready & -> & Hprocs).
  unfold PresentationManager.waitForServerReady.
  destruct (PresentationManager.probe (fetch_ok env) 0 60) eqn:Hprobe.
  - unfold logger, modify. cbn [fst snd]. intros [= <-]. simpl. done.
  - unfold throw. cbn [fst snd].
    destruct (rollback_start_run (A:=nat) env (Some (length (procs w))) p path
                (PlainError ("Slidev server failed to start on port " +:+ pretty p)) w1)
      as (_ & _ & [e' He'] & _).
    rewrite He'. done.
Qed.

Lemma create_success cfg env req w response :
  (PresentationManager.createPresentation cfg env req w).2 = inr response →
  ∃ p,
    getPort env = inr p ∧
    (PortManager.startPort cfg ≤ p)%Z ∧ (p ≤ PortManager.endPort cfg)%Z ∧
    (p ∉ allocatedPorts w) ∧
    (Z.of_nat (size (instances w)) < maxConcurrentPresentations cfg)%Z ∧
    spawn_outcome env = SpawnReady ∧
    PresentationManager.probe (fetch_ok env) 0 60 = true ∧
    instances (PresentationManager.createPresentation cfg env req w).1 =
      <[ProjectGenerator.generateProjectId env :=
          {| id := ProjectGenerator.generateProjectId env;
             projectPath := join_path (tempDir cfg) (ProjectGenerator.generateProjectId env);
             server := length (procs w); port := p; createdAt := now_later env;
             expiresAt := (now env + match ttl req with
                                     | Some t => if decide (t = 0%Z) then defaultTTL cfg else t
                                     | None => defaultTTL cfg
                                     end)%Z;
             status := StReady; request := req |}]> (instances w) ∧
    allocatedPorts (PresentationManager.createPresentation cfg env req w).1 =
      allocatedPorts w ∪ {[p]} ∧
    procs (PresentationManager.createPresentation cfg env req w).1 = procs w ++ [running] ∧
    other_dirs (join_path (tempDir cfg) (ProjectGenerator.generateProjectId env))
               (PresentationManager.createPresentation cfg env req w).1 =
      other_dirs (join_path (tempDir cfg) (ProjectGenerator.generateProjectId env)) w ∧
    has_file (join_path (tempDir cfg) (ProjectGenerator.generateProjectId env)) "slides.md"
             (ProjectGenerator.slidesContent req)
             (PresentationManager.createPresentation cfg env req w).1 ∧
    response =
      {| res_id := ProjectGenerator.generateProjectId env;
         res_url := baseUrl cfg +:+ ":" +:+ pretty p;
         res_status := StReady;
         res_expiresAt := (now env + match ttl req with
                                     | Some t => if decide (t = 0%Z) then defaultTTL cfg else t
                                     | None => defaultTTL cfg
                                     end)%Z;
         res_createdAt := now_later env;
         res_presentation := (baseUrl cfg +:+ ":" +:+ pretty p) +:+ "/";
         res_presenter := (baseUrl cfg +:+ ":" +:+ pretty p) +:+ "/presenter/";
         res_overview := (baseUrl cfg +:+ ":" +:+ pretty p) +:+ "/overview/";
         res_print := (baseUrl cfg +:+ ":" +:+ pretty p) +:+ "/print" |}.
Proof.
  intros Hok.
  destruct (Z_lt_le_dec (Z.of_nat (size (instances w))) (maxConcurrentPresentations cfg))
    as [Hroom|Hfull]; [|by rewrite create_at_capacity in Hok].
  rewrite (create_run cfg env req w Hroom) in Hok |- *.
  set (ident := ProjectGenerator.generateProjectId env) in *.
  set (path := join_path (tempDir cfg) ident) in *.
  set (w1 := logged LInfo "Creating presentation" w) in *.
  pose proof (scaffold_result cfg env req w1) as Hres.
  pose proof (scaffold_slides cfg env req w1) as Hslides.
  pose proof (scaffold_keeps_instances cfg env req w1) as Hi2.
  pose proof (scaffold_keeps_ports cfg env req w1) as Hp2.
  pose proof (scaffold_keeps_procs cfg env req w1) as Hpr2.
  pose proof (scaffold_other cfg env req w1) as Ho2.
  fold ident in Hres, Hslides, Ho2. fold path in Hres, Hslides, Ho2.
  destruct (ProjectGenerator.createProjectWithoutDeps cfg env req w1)
    as [w2 [e|project]]; [done|].
  cbn [fst snd] in *.
  destruct (Hres project eq_refl) as [-> _]. specialize (Hslides _ eq_refl).
  cbn [fst snd] in *.
  destruct (PortManager.allocatePort cfg (getPort env) w2) as [w3 [e|p]] eqn:Halloc;
    [done|].
  destruct (allocatePort_returns _ _ _ _ _ Halloc) as (Hprobe & Hlo & Hhi & Hfree & ->).
  cbv zeta in Hok |- *.
  match type of Hok with
  | context [PresentationManager.startServer ?e ?pa ?po ?th ?ww] =>
      pose proof (startServer_returns e pa po th ww) as Hst;
      destruct (PresentationManager.startServer e pa po th ww) as [w4 [e'|pid]]
  end; [done|].
  cbn [fst snd] in *.
  destruct (Hst pid eq_refl) as (Hready & Hprobed & -> & Hpr4 & Hi4 & Hp4 & Hd4).
  injection Hok as <-.
  exists p. unfold w1 in *. simpl in *.
  rewrite Hp2 in Hfree.
  split; [done|]. split; [done|]. split; [done|]. split; [done|]. split; [done|].
  split; [done|]. split; [done|].
  split; [by rewrite Hi4, Hi2, Hpr2|].
  split; [by rewrite Hp4, Hp2|].
  split; [by rewrite Hpr4, Hpr2|].
  split; [unfold other_dirs in *; simpl in *; by rewrite Hd4|].
  split; [|done].
  destruct Hslides as (dir & Hdir & Hfile). exists dir. simpl. by rewrite Hd4.
Qed.

Lemma probe_spec fetch i n :
  PresentationManager.probe fetch i n = true ↔ ∃ j, i ≤ j < i + n ∧ fetch j = true.
Proof.
  revert i. induction n as [|n IH]; intros i; simpl.
  - split; [done|]. intros (j & ? & _). lia.
  - destruct (fetch i) eqn:Hi.
    + split; [|done]. intros _. exists i. split; [lia|done].
    + rewrite IH. split.
      * intros (j & ? & ?). exists j. split; [lia|done].
      * intros (j & ? & Hj). exists j. split; [|done].
        destruct (decide (j = i)) as [->|]; [congruence|lia].
Qed.

Lemma startServer_succeeds env path p th w :
  spawn_outcome env = SpawnReady →
  PresentationManager.probe (fetch_ok env) 0 60 = true →
  (PresentationManager.startServer env path p th w).2 = inr (length (procs w)).
Proof.
  intros Hready Hprobe. rewrite startServer_eq. cbv zeta.
  unfold PresentationManager.startSlidevProcess. rewrite Hready.
  unfold PresentationManager.spawn, bind, get, modify, logger, ret. cbn [fst snd].
  unfold PresentationManager.waitForServerReady. rewrite Hprobe.
  unfold logger, modify. done.
Qed.

Lemma create_succeeds cfg env req w p :
  (Z.of_nat (size (instances w)) < maxConcurrentPresentations cfg)%Z →
  fs_fault env = None →
  getPort env = inr p →
  (PortManager.startPort cfg ≤ p)%Z → (p ≤ PortManager.endPort cfg)%Z →
  p ∉ allocatedPorts w →
  spawn_outcome env = SpawnReady →
  PresentationManager.probe (fetch_ok env) 0 60 = true →
  ∃ response, (PresentationManager.createPresentation cfg env req w).2 = inr response.
Proof.
  intros Hroom Hfs Hport Hlo Hhi Hfree Hready Hprobe.
  rewrite (create_run cfg env req w Hroom).
  set (w1 := logged LInfo "Creating presentation" w).
  pose proof (scaffold_succeeds cfg env req w1 Hfs) as Hres.
  pose proof (scaffold_keeps_ports cfg env req w1) as Hp2.
  destruct (ProjectGenerator.createProjectWithoutDeps cfg env req w1)
    as [w2 [e|project]]; [done|].
  cbn [fst snd] in *. injection Hres as ->. rewrite Hport.
  rewrite allocatePort_free; [|done|done|by rewrite Hp2].
  cbv zeta. cbn [fst snd].
  match goal with
  | |- context [PresentationManager.startServer ?e ?pa ?po ?th ?ww] =>
      pose proof (startServer_succeeds e pa po th ww Hready Hprobe) as Hst;
      destruct (PresentationManager.startServer e pa po th ww) as [w4 [e'|pid]]
  end; [done|].
  by eexists.
Qed.

(** X4.  [createPresentation] returns only when there is room,
    the probe proposes a free port of the range, the process prints its
    readiness line and one of the sixty probes of the server answers; it
    does return when these hold and no step of the scaffold fails.  When
    it returns it has registered, under the generated id,
    a [ready] instance that holds that port, the directory
    [tempDir/id], the new process and the expiry [now + ttl] (the default
    lifetime when the request gives none, or 0); the port is allocated,
    the directory holds [slides.md], and the response carries the id and
    the four URLs on that port. *)
Theorem createPresentation_registers_instance cfg env req w :
  (∀ response,
     (PresentationManager.createPresentation cfg env req w).2 = inr response →
     ∃ p,
       getPort env = inr p ∧
       (PortManager.startPort cfg ≤ p)%Z ∧ (p ≤ PortManager.endPort cfg)%Z ∧
       (p ∉ allocatedPorts w) ∧
       (Z.of_nat (size (instances w)) < maxConcurrentPresentations cfg)%Z ∧
       spawn_outcome env = SpawnReady ∧
       PresentationManager.probe (fetch_ok env) 0 60 = true ∧
       instances (PresentationManager.createPresentation cfg env req w).1 =
         <[ProjectGenerator.generateProjectId env :=
             {| id := ProjectGenerator.generateProjectId env;
                projectPath :=
                  join_path (tempDir cfg) (ProjectGenerator.generateProjectId env);
                server := length (procs w); port := p; createdAt := now_later env;
                expiresAt :=
                  (now env + match ttl req with
                             | Some t => if decide (t = 0%Z) then defaultTTL cfg else t
                             | None => defaultTTL cfg
                             end)%Z;
                status := StReady; request := req |}]> (instances w) ∧
       allocatedPorts (PresentationManager.createPresentation cfg env req w).1 =
         allocatedPorts w ∪ {[p]} ∧
       procs (PresentationManager.createPresentation cfg env req w).1 =
         procs w ++ [running] ∧
       other_dirs (join_path (tempDir cfg) (ProjectGenerator.generateProjectId env))
                  (PresentationManager.createPresentation cfg env req w).1 =
         other_dirs (join_path (tempDir cfg) (ProjectGenerator.generateProjectId env)) w ∧
       has_file (join_path (tempDir cfg) (ProjectGenerator.generateProjectId env))
                "slides.md" (ProjectGenerator.slidesContent req)
                (PresentationManager.createPresentation cfg env req w).1 ∧
       response =
         {| res_id := ProjectGenerator.generateProjectId env;
            res_url := baseUrl cfg +:+ ":" +:+ pretty p;
            res_status := StReady;
            res_expiresAt :=
              (now env + match ttl req with
                         | Some t => if decide (t = 0%Z) then defaultTTL cfg else t
                         | None => defaultTTL cfg
                         end)%Z;
            res_createdAt := now_later env;
            res_presentation := (baseUrl cfg +:+ ":" +:+ pretty p) +:+ "/";
            res_presenter := (baseUrl cfg +:+ ":" +:+ pretty p) +:+ "/presenter/";
            res_overview := (baseUrl cfg +:+ ":" +:+ pretty p) +:+ "/overview/";
            res_print := (baseUrl cfg +:+ ":" +:+ pretty p) +:+ "/print" |}) ∧
  (∀ p,
     (Z.of_nat (size (instances w)) < maxConcurrentPresentations cfg)%Z →
     fs_fault env = None →
     getPort env = inr p →
     (PortManager.startPort cfg ≤ p)%Z → (p ≤ PortManager.endPort cfg)%Z →
     p ∉ allocatedPorts w →
     spawn_outcome env = SpawnReady →
     (∃ i, i < 60 ∧ fetch_ok env i = true) →
     ∃ response, (PresentationManager.createPresentation cfg env req w).2 = inr response).
Proof.
  split.
  - apply create_success.
  - intros p Hroom Hfs Hport Hlo Hhi Hfree Hready (i & Hi & Hfetch).
    apply (create_succeeds cfg env req w p); try done.
    apply probe_spec. exists i. split; [lia|done].
Qed.

Lemma createPresentation_registers_instance_witness :
  ∃ response,
    (PresentationManager.createPresentation createDefaultConfig calm_host hello_request
       initialWorld).2 = inr response ∧
    res_url response = "http://localhost:3002" ∧
    instances one_ready = {["slidev-V1StGXR8_Z5j" := hello_instance]}.
Proof.
  destruct (createPresentation_registers_instance createDefaultConfig calm_host
              hello_request initialWorld) as [Hpost Hpre].
  destruct (Hpre 3002%Z) as [response Hok].
  { vm_compute. reflexivity. }
  { reflexivity. }
  { reflexivity. }
  { vm_compute. discriminate. }
  { vm_compute. discriminate. }
  { simpl. set_solver. }
  { reflexivity. }
  { exists 0. split; [lia|reflexivity]. }
  exists response. split; [exact Hok|].
  destruct (Hpost response Hok)
    as (p & Hp & _ & _ & _ & _ & _ & _ & Hinst & _ & _ & _ & _ & ->).
  injection Hp as <-. split; [reflexivity|]. exact Hinst.
Defined.

(** X5.  Creating a presentation and then deleting it by the
    returned id gives back the registry, the set of allocated ports and
    the disk of before, when the generated id and its directory were not
    in use and the host removes the directory; of the attempt only the
    process remains, stopped by [SIGTERM]. *)
Theorem createPresentation_then_deletePresentation cfg env env' req w response :
  (PresentationManager.createPresentation cfg env req w).2 = inr response →
  instances w !! res_id response = None →
  disk w !! join_path (tempDir cfg) (res_id response) = None →
  remove_fault env' (join_path (tempDir cfg) (res_id response)) = None →
  let created := (PresentationManager.createPresentation cfg env req w).1 in
  let r := PresentationManager.deletePresentation env' (res_id response) created in
  r.2 = inr true ∧
  instances r.1 = instances w ∧
  allocatedPorts r.1 = allocatedPorts w ∧
  disk r.1 = disk w ∧
  procs r.1 = procs w ++ [stopped running].
Proof.
  intros Hok Hfresh Hnodir Hrm.
  destruct (create_success cfg env req w response Hok)
    as (p & _ & _ & _ & Hfree & _ & _ & _ & Hinst & Hports & Hprocs & Hother & _ & ->).
  cbn [res_id] in *. cbv zeta.
  set (ident := ProjectGenerator.generateProjectId env) in *.
  set (path := join_path (tempDir cfg) ident) in *.
  set (w1 := (PresentationManager.createPresentation cfg env req w).1) in *.
  match type of Hinst with _ = <[_ := ?x]> _ => set (i := x) in * end.
  assert (instances w1 !! ident = Some i) as Hi by (by rewrite Hinst, lookup_insert_eq).
  destruct (delete_known env' ident w1 i Hi) as (Hp' & _ & _ & Hcase).
  pose proof (delete_procs env' ident w1 i Hi) as Hpr'.
  cbn [projectPath i] in Hcase. rewrite Hrm in Hcase.
  destruct Hcase as (Hres & Hinst' & Hdisk').
  split; [done|].
  split; [by rewrite Hinst', Hinst, delete_insert_id|].
  split; [rewrite Hp', Hports; cbn [port i]; set_solver|].
  split.
  { rewrite Hdisk'. unfold other_dirs in Hother. rewrite Hother. by apply delete_id. }
  rewrite Hpr', stopServer_procs, Hprocs. cbn [server i].
  rewrite lookup_app_r, Nat.sub_diag by done. cbn [lookup list_lookup running killed exited orb].
  by rewrite insert_app_r_alt, Nat.sub_diag by done.
Qed.

Lemma createPresentation_then_deletePresentation_witness :
  let r := PresentationManager.deletePresentation later_host "slidev-V1StGXR8_Z5j"
             one_ready in
  r.2 = inr true ∧ instances r.1 = ∅ ∧ allocatedPorts r.1 = ∅ ∧ disk r.1 = ∅.
Proof.
  assert ((PresentationManager.createPresentation createDefaultConfig calm_host
             hello_request initialWorld).2 =
          inr {| res_id := "slidev-V1StGXR8_Z5j";
                 res_url := "http://localhost:3002";
                 res_status := StReady;
                 res_expiresAt := 1700003600000;
                 res_createdAt := 1700000002500;
                 res_presentation := "http://localhost:3002/";
                 res_presenter := "http://localhost:3002/presenter/";
                 res_overview := "http://localhost:3002/overview/";
                 res_print := "http://localhost:3002/print" |}) as Hok by reflexivity.
  destruct (createPresentation_then_deletePresentation createDefaultConfig calm_host
              later_host hello_request initialWorld _ Hok eq_refl eq_refl eq_refl)
    as (Hres & Hinst & Hports & Hdisk & _).
  cbv zeta. split; [exact Hres|]. split; [exact Hinst|]. split; [exact Hports|exact Hdisk].
Defined.

(** ** Deletion *)

(** X6.  [deletePresentation] of an id that is not registered
    returns [false] and changes nothing, the log included.  For a
    registered instance whose directory the host removes it returns
    [true]: the instance has left the registry, its port the allocated set
    and its directory the disk, every other instance, port and directory
    is as before, and a second deletion of the same id returns [false]. *)
Theorem deletePresentation_removes_instance env ident w :
  let r := PresentationManager.deletePresentation env ident w in
  (instances w !! ident = None → r = (w, inr false)) ∧
  (∀ i, instances w !! ident = Some i →
        remove_fault env (projectPath i) = None →
        r.2 = inr true ∧
        PresentationManager.getPresentation ident r.1 = None ∧
        (∀ other, other ≠ ident →
           PresentationManager.getPresentation other r.1 =
           PresentationManager.getPresentation other w) ∧
        allocatedPorts r.1 = allocatedPorts w ∖ {[port i]} ∧
        disk r.1 = delete (projectPath i) (disk w) ∧
        ∀ env', PresentationManager.deletePresentation env' ident r.1 = (r.1, inr false)).
Proof.
  cbv zeta. split; [apply delete_unknown|].
  intros i Hi Hrm.
  destruct (delete_known env ident w i Hi) as (Hports & _ & _ & Hcase).
  rewrite Hrm in Hcase. destruct Hcase as (Hres & Hinst & Hdisk).
  unfold PresentationManager.getPresentation.
  split; [done|].
  split; [by rewrite Hinst, lookup_delete_eq|].
  split; [by intros other Hne; rewrite Hinst, lookup_delete_ne|].
  split; [done|]. split; [done|].
  intros env'. apply delete_unknown. by rewrite Hinst, lookup_delete_eq.
Qed.

Lemma deletePresentation_removes_instance_witness :
  instances two_ready !! "slidev-V1StGXR8_Z5j" = Some hello_instance ∧
  (let r := PresentationManager.deletePresentation later_host "slidev-V1StGXR8_Z5j"
              two_ready in
   r.2 = inr true ∧
   PresentationManager.getPresentation "slidev-V1StGXR8_Z5j" r.1 = None ∧
   PresentationManager.getPresentation "slidev-Uakgb_J5m9g-" r.1 = Some later_instance ∧
   PresentationManager.deletePresentation later_host "slidev-V1StGXR8_Z5j" r.1 =
     (r.1, inr false)).
Proof.
  split; [reflexivity|].
  destruct (proj2 (deletePresentation_removes_instance later_host "slidev-V1StGXR8_Z5j"
                     two_ready) hello_instance eq_refl eq_refl)
    as (Hres & Hgone & Hothers & _ & _ & Hagain).
  cbv zeta. split; [exact Hres|]. split; [exact Hgone|].
  split; [|exact (Hagain later_host)].
  rewrite (Hothers "slidev-Uakgb_J5m9g-"); [reflexivity|discriminate].
Defined.

(** ** The ceiling on the number of instances *)

Lemma create_size cfg env req w :
  let r := PresentationManager.createPresentation cfg env req w in
  size (instances r.1) ≤ S (size (instances w)) ∧
  ((maxConcurrentPresentations cfg ≤ Z.of_nat (size (instances w)))%Z →
   instances r.1 = instances w).
Proof.
  cbv zeta. split.
  - pose proof (create_registry cfg env req w) as Hreg. cbv zeta in Hreg.
    destruct ((PresentationManager.createPresentation cfg env req w).2).
    + rewrite Hreg. lia.
    + destruct Hreg as (instance & -> & _). rewrite map_size_insert.
      destruct (instances w !! _); simpl; lia.
  - intros Hfull. by rewrite create_at_capacity.
Qed.

Lemma delete_size env ident w :
  size (instances (PresentationManager.deletePresentation env ident w).1) ≤
  size (instances w).
Proof.
  destruct (instances w !! ident) as [i|] eqn:Hi.
  - destruct (delete_known env ident w i Hi) as (_ & _ & _ & Hcase).
    destruct (remove_fault env (projectPath i)).
    + destruct Hcase as (_ & -> & _). done.
    + destruct Hcase as (_ & -> & _). rewrite map_size_delete, Hi. simpl. lia.
  - by rewrite delete_unknown.
Qed.

(** When the calls follow one another, the registry holds at most
    [maxConcurrentPresentations] instances (none when that number is not
    positive). *)
Lemma sequential_within_capacity cfg w :
  reachable cfg w →
  (Z.of_nat (size (instances w)) ≤ Z.max 0 (maxConcurrentPresentations cfg))%Z.
Proof.
  apply (invariant_reachable cfg
           (λ w, (Z.of_nat (size (instances w)) ≤ Z.max 0 (maxConcurrentPresentations cfg))%Z)).
  - by intros ? ? ?.
  - intros env req w0 Hw0. split; [|done].
    destruct (create_size cfg env req w0) as [Hstep Hfull].
    destruct (Z_lt_le_dec (Z.of_nat (size (instances w0))) (maxConcurrentPresentations cfg)).
    + lia.
    + by rewrite Hfull.
  - intros env ident w0 Hw0. split; [|done].
    pose proof (delete_size env ident w0). lia.
  - by intros w0 Hw0.
  - intros env ident newTtl w0 Hw0. split; [|done].
    unfold Routes.extendHandler, PresentationManager.getPresentation, bind, get.
    cbn [fst snd]. destruct (instances w0 !! ident) as [i|] eqn:Hi; [|done].
    simpl. rewrite map_size_insert_Some by done. done.
  - simpl. rewrite map_size_empty. lia.
Qed.

(** ** The loops over the registry *)

(** One deletion under a [try] whose [catch] only logs. *)
Lemma guarded_delete_run {A} env ident (a b : A) (h : Error → M A) w :
  (∀ e w0, ∃ f, h e w0 = (set_logs f w0, inr b)) →
  ∃ w1,
    try_catch (PresentationManager.deletePresentation env ident ;; ret a) h w
      = (w1, inr (match instances w !! ident with
                  | Some i => if decide (remove_fault env (projectPath i) = None)
                              then a else b
                  | None => a
                  end)) ∧
    instances w1 =
      match instances w !! ident with
      | Some i => if decide (remove_fault env (projectPath i) = None)
                  then delete ident (instances w) else instances w
      | None => instances w
      end ∧
    allocatedPorts w1 =
      match instances w !! ident with
      | Some i => allocatedPorts w ∖ {[port i]}
      | None => allocatedPorts w
      end ∧
    disk w1 =
      match instances w !! ident with
      | Some i => if decide (remove_fault env (projectPath i) = None)
                  then delete (projectPath i) (disk w) else disk w
      | None => disk w
      end.
Proof.
  intros Hh. unfold try_catch, bind.
  destruct (instances w !! ident) as [i|] eqn:Hi.
  - destruct (delete_known env ident w i Hi) as (Hp & _ & _ & Hcase).
    destruct (PresentationManager.deletePresentation env ident w) as [w1 r]. simpl in *.
    destruct (remove_fault env (projectPath i)) as [e|] eqn:Hrm.
    + destruct Hcase as (-> & Hinst & Hdisk). simpl.
      destruct (Hh e w1) as [f ->].
      eexists. split; [done|]. simpl. done.
    + destruct Hcase as (-> & Hinst & Hdisk). simpl.
      eexists. split; [done|]. simpl. done.
  - rewrite delete_unknown by done. simpl. eexists. repeat split; auto.
Qed.

Lemma sweep_count env ids :
  NoDup ids → ∀ n w,
  (∀ ident, ident ∈ ids → is_Some (instances w !! ident)) →
  ∃ w' n',
    PresentationManager.sweep env ids n w = (w', inr n') ∧
    size (instances w') + n' = size (instances w) + n ∧
    n' ≤ n + length ids.
Proof.
  induction 1 as [|a rest Hnotin Hnd IH]; intros n w Hall.
  { exists w, n. simpl. split; [done|]. lia. }
  simpl. unfold bind at 1.
  destruct (guarded_delete_run env a (S n) n
              (λ _, logger LError "Failed to cleanup expired presentation" ;; ret n) w)
    as (w1 & -> & Hi1 & _); [by eexists|].
  destruct (Hall a) as [i Ha]; [apply elem_of_cons; by left|].
  rewrite Ha in Hi1 |- *.
  assert (∀ ident, ident ∈ rest → is_Some (instances w1 !! ident)) as Hall1.
  { intros ident Hin. rewrite Hi1.
    assert (ident ≠ a) by (by intros ->).
    case_decide; [rewrite lookup_delete_ne by done|]; apply Hall, elem_of_cons; by right. }
  destruct (IH (if decide (remove_fault env (projectPath i) = None) then S n else n)
              w1 Hall1) as (w' & n' & -> & Hsize & Hle).
  exists w', n'. split; [done|].
  assert (size (instances w) ≠ 0) by (by eapply map_size_ne_0_lookup_2).
  rewrite Hi1 in Hsize. case_decide.
  - rewrite map_size_delete, Ha in Hsize. simpl in *. lia.
  - simpl. lia.
Qed.

Lemma cleanupExpired_count env w :
  let r := PresentationManager.cleanupExpired env w in
  ∃ n, r.2 = inr n ∧
       size (instances r.1) + n = size (instances w) ∧
       n ≤ PresentationManager.expired (PresentationManager.getStats env w) ∧
       ((∀ path, remove_fault env path = None) →
        n = PresentationManager.expired (PresentationManager.getStats env w)).
Proof.
  cbv zeta. rewrite cleanupExpired_eq.
  assert (PresentationManager.expired (PresentationManager.getStats env w) =
          length (PresentationManager.expiredIds (now env) w)) as ->.
  { unfold PresentationManager.getStats, PresentationManager.expiredIds,
      PresentationManager.getAllPresentations. cbn [PresentationManager.expired].
    rewrite !length_fmap. generalize (map_to_list (instances w)).
    induction l as [|[k i] l IH]; [done|].
    rewrite fmap_cons. cbn [snd].
    rewrite !filter_cons. cbn [snd].
    destruct (decide (expiresAt i ≤ now env)%Z); simpl; by rewrite IH. }
  destruct (sweep_count env (PresentationManager.expiredIds (now env) w)
              (NoDup_expiredIds _ _) 0
              (logged LInfo "Cleaning up expired presentations" w))
    as (w' & n' & Hrun & Hsize & Hle).
  { intros ident (i & Hi & _)%elem_of_expiredIds. by exists i. }
  destruct (sweep_run env (PresentationManager.expiredIds (now env) w)
              (NoDup_expiredIds _ _) 0
              (logged LInfo "Cleaning up expired presentations" w))
    as (w'' & n'' & Hrun' & _ & _ & _ & _ & _ & _ & Hn).
  rewrite Hrun in Hrun' |- *. injection Hrun' as <- <-.
  exists n'. simpl in *. split; [done|]. split; [lia|]. split; [lia|].
  intros Hfree. rewrite (Hn Hfree). lia.
Qed.

(** X8.  [cleanupExpired] never throws, and the number it returns
    is the number of instances that have left the registry: the size of
    the registry has gone down by it.  It is at most the number of
    instances that had expired, and equal to it when no removal fails. *)
Theorem cleanupExpired_returns_number_removed env w :
  let r := PresentationManager.cleanupExpired env w in
  ∃ n, r.2 = inr n ∧
       size (instances r.1) + n = size (instances w) ∧
       n ≤ PresentationManager.expired (PresentationManager.getStats env w) ∧
       ((∀ path, remove_fault env path = None) →
        n = PresentationManager.expired (PresentationManager.getStats env w)).
Proof. apply cleanupExpired_count. Qed.

Lemma cleanupExpired_returns_number_removed_witness :
  (∀ path, remove_fault later_host path = None) ∧
  PresentationManager.expired (PresentationManager.getStats later_host two_ready) = 1 ∧
  (PresentationManager.cleanupExpired later_host two_ready).2 = inr 1.
Proof.
  split; [reflexivity|]. split; [reflexivity|].
  destruct (cleanupExpired_returns_number_removed later_host two_ready)
    as (n & Hres & _ & _ & Hall).
  rewrite Hres. f_equal. exact (Hall (λ _, eq_refl)).
Defined.

Lemma shutdown_loop_run env ids :
  NoDup ids → ∀ w,
  ∃ w',
    PresentationManager.shutdown_loop env ids w = (w', inr tt) ∧
    (∀ ident,
       instances w' !! ident =
       match instances w !! ident with
       | Some i => if decide (ident ∈ ids ∧ remove_fault env (projectPath i) = None)
                   then None else Some i
       | None => None
       end) ∧
    (∀ path, disk w !! path = None → disk w' !! path = None) ∧
    (∀ ident i, ident ∈ ids → instances w !! ident = Some i →
                remove_fault env (projectPath i) = None →
                disk w' !! projectPath i = None).
Proof.
  induction 1 as [|a rest Hnotin Hnd IH]; intros w.
  { exists w. split; [done|]. split.
    { intros ident. destruct (instances w !! ident); [|done].
      rewrite decide_False; [done|]. intros [H%elem_of_nil _]. done. }
    split; [done|]. by intros ? ? ?%elem_of_nil. }
  simpl. unfold bind at 1.
  destruct (guarded_delete_run env a tt tt
              (λ _, logger LError "Error during shutdown cleanup") w)
    as (w1 & Hrun & Hi1 & _ & Hd1); [by eexists|].
  rewrite Hrun. replace (match instances w !! a with
                         | Some i => if decide (remove_fault env (projectPath i) = None)
                                     then () else ()
                         | None => ()
                         end) with () by (by repeat case_match).
  cbv beta iota.
  destruct (IH w1) as (w' & -> & Hi & Hmono & Hgone).
  assert (∀ ident, ident ≠ a → instances w1 !! ident = instances w !! ident) as Hother.
  { intros ident Hne. rewrite Hi1. repeat case_match; try done.
    by rewrite lookup_delete_ne. }
  assert (instances w1 !! a =
          match instances w !! a with
          | Some i => if decide (remove_fault env (projectPath i) = None)
                      then None else Some i
          | None => None
          end) as Hsame.
  { rewrite Hi1. destruct (instances w !! a) as [i|] eqn:Ha; [|done].
    case_decide; [by rewrite lookup_delete_eq|done]. }
  assert (∀ ident, ident ∈ rest → instances w1 !! ident = instances w !! ident) as Hrest.
  { intros ident Hin. apply Hother. by intros ->. }
  exists w'. split; [done|].
  split.
  { intros ident. rewrite Hi. destruct (decide (ident = a)) as [->|Hne].
    + rewrite Hsame. destruct (instances w !! a) as [i|]; [|done].
      destruct (decide (remove_fault env (projectPath i) = None)) as [Hrm|Hrm].
      * rewrite decide_True; [done|]. split; [apply elem_of_cons; by left|done].
      * rewrite decide_False by (by intros [? ?]).
        rewrite decide_False by (by intros [? ?]). done.
    + rewrite Hother by done. destruct (instances w !! ident) as [i|]; [|done].
      destruct (decide (ident ∈ rest ∧ remove_fault env (projectPath i) = None))
        as [[Hin Hrm]|Hno].
      * rewrite decide_True; [done|]. split; [apply elem_of_cons; by right|done].
      * rewrite decide_False; [done|]. intros [[->|Hin]%elem_of_cons Hrm]; tauto. }
  split.
  { intros path Hnone. apply Hmono. rewrite Hd1.
    destruct (instances w !! a); [|done]. case_decide; [|done].
    apply lookup_delete_None. by right. }
  intros ident i [->|Hin]%elem_of_cons Hlook Hrm.
  + apply Hmono. rewrite Hd1, Hlook. rewrite decide_True by done.
    apply lookup_delete_eq.
  + apply (Hgone ident i Hin); [by rewrite Hrest|done].
Qed.

Lemma shutdown_run env w :
  let r := PresentationManager.shutdown env w in
  r.2 = inr tt ∧
  allocatedPorts r.1 = ∅ ∧
  (∀ ident,
     PresentationManager.getPresentation ident r.1 =
     match PresentationManager.getPresentation ident w with
     | Some i => if decide (remove_fault env (projectPath i) = None) then None else Some i
     | None => None
     end) ∧
  ((∀ path, remove_fault env path = None) →
   instances r.1 = ∅ ∧
   ∀ ident i, PresentationManager.getPresentation ident w = Some i →
              disk r.1 !! projectPath i = None).
Proof.
  cbv zeta. unfold PresentationManager.shutdown, PresentationManager.getPresentation.
  unfold PortManager.clearAll, bind, get, logger, modify. cbv beta iota zeta.
  match goal with
  | |- context [PresentationManager.shutdown_loop env ?ids ?ww] => set (w0 := ww)
  end.
  destruct (shutdown_loop_run env (map_to_list (instances w0)).*1
              (NoDup_fst_map_to_list _) w0) as (w' & -> & Hi & _ & Hgone).
  cbv beta iota. cbn [fst snd].
  cbn [instances allocatedPorts disk set_logs set_allocatedPorts].
  assert (∀ ident i, instances w !! ident = Some i →
                     ident ∈ (map_to_list (instances w0)).*1) as Hkeys.
  { intros ident i Hlook. apply list_elem_of_fmap. exists (ident, i).
    split; [done|]. by apply elem_of_map_to_list. }
  assert (∀ ident,
            instances w' !! ident =
            match instances w !! ident with
            | Some i => if decide (remove_fault env (projectPath i) = None)
                        then None else Some i
            | None => None
            end) as Hreg.
  { intros ident. rewrite Hi. change (instances w0) with (instances w).
    destruct (instances w !! ident) as [i|] eqn:Hlook; [|done].
    destruct (decide (remove_fault env (projectPath i) = None)) as [Hrm|Hrm].
    - rewrite decide_True; [done|]. split; [by eapply Hkeys|done].
    - rewrite decide_False; [done|]. by intros [_ ?]. }
  split; [done|]. split; [done|]. split; [done|].
  intros Hfree. split.
  - apply map_eq. intros ident. rewrite Hreg, lookup_empty.
    destruct (instances w !! ident); [|done]. by rewrite decide_True.
  - intros ident i Hlook. apply (Hgone ident i); [by eapply Hkeys|done|done].
Qed.

(** X9.  [shutdown] never throws, and afterwards no port is
    allocated.  An instance stays registered exactly when the host failed
    to remove its directory; when no removal fails the registry is empty
    and the directory of every instance is gone. *)
Theorem shutdown_clears_ports_and_registry env w :
  let r := PresentationManager.shutdown env w in
  r.2 = inr tt ∧
  allocatedPorts r.1 = ∅ ∧
  (∀ ident,
     PresentationManager.getPresentation ident r.1 =
     match PresentationManager.getPresentation ident w with
     | Some i => if decide (remove_fault env (projectPath i) = None) then None else Some i
     | None => None
     end) ∧
  ((∀ path, remove_fault env path = None) →
   instances r.1 = ∅ ∧
   ∀ ident i, PresentationManager.getPresentation ident w = Some i →
              disk r.1 !! projectPath i = None).
Proof. apply shutdown_run. Qed.

Lemma shutdown_clears_ports_and_registry_witness :
  (∀ path, remove_fault later_host path = None) ∧
  PresentationManager.getPresentation "slidev-V1StGXR8_Z5j" two_ready = Some hello_instance ∧
  (let r := PresentationManager.shutdown later_host two_ready in
   instances r.1 = ∅ ∧ allocatedPorts r.1 = ∅ ∧
   disk r.1 !! "/tmp/slidev-api/slidev-V1StGXR8_Z5j" = None).
Proof.
  split; [reflexivity|]. split; [reflexivity|].
  destruct (shutdown_clears_ports_and_registry later_host two_ready)
    as (_ & Hports & _ & Hall).
  destruct (Hall (λ _, eq_refl)) as [Hinst Hdisk].
  cbv zeta. split; [exact Hinst|]. split; [exact Hports|].
  exact (Hdisk "slidev-V1StGXR8_Z5j" hello_instance eq_refl).
Defined.

(** ** Statistics *)

Lemma least_spec l a :
  PresentationManager.least l = Some a → a ∈ l ∧ ∀ x, x ∈ l → (a ≤ x)%Z.
Proof.
  destruct l as [|x rest]; [done|]. simpl. intros [= <-].
  induction rest as [|y rest [IHin IHle]]; simpl.
  - split; [set_solver|]. intros z ->%list_elem_of_singleton. lia.
  - split.
    + destruct (Z.min_spec y (foldr Z.min x rest)) as [[_ ->]|[_ ->]]; [set_solver|].
      apply elem_of_cons in IHin as [Heq|Hin]; [rewrite Heq|]; set_solver.
    + intros z Hz.
      assert (z = y ∨ z ∈ x :: rest) as [->|Hz'] by set_solver; [lia|].
      specialize (IHle z Hz'). lia.
Qed.

Lemma greatest_spec l b :
  PresentationManager.greatest l = Some b → b ∈ l ∧ ∀ x, x ∈ l → (x ≤ b)%Z.
Proof.
  destruct l as [|x rest]; [done|]. simpl. intros [= <-].
  induction rest as [|y rest [IHin IHle]]; simpl.
  - split; [set_solver|]. intros z ->%list_elem_of_singleton. lia.
  - split.
    + destruct (Z.max_spec y (foldr Z.max x rest)) as [[_ ->]|[_ ->]]; [|set_solver].
      apply elem_of_cons in IHin as [Heq|Hin]; [rewrite Heq|]; set_solver.
    + intros z Hz.
      assert (z = y ∨ z ∈ x :: rest) as [->|Hz'] by set_solver; [lia|].
      specialize (IHle z Hz'). lia.
Qed.

Lemma elem_of_getAllPresentations i w :
  i ∈ PresentationManager.getAllPresentations w ↔ ∃ ident, instances w !! ident = Some i.
Proof.
  unfold PresentationManager.getAllPresentations. rewrite list_elem_of_fmap. split.
  - intros ([ident i'] & -> & Hin%elem_of_map_to_list). by exists ident.
  - intros [ident Hi]. exists (ident, i). split; [done|]. by apply elem_of_map_to_list.
Qed.

Lemma status_counts (l : list PresentationInstance) :
  length (filter (λ i, status i = StReady) l) +
  length (filter (λ i, status i = StGenerating) l) +
  length (filter (λ i, status i = StError) l) ≤ length l.
Proof.
  induction l as [|i l IH]; [done|].
  rewrite !filter_cons. destruct (status i); simpl; repeat case_decide; simpl; try done; lia.
Qed.

Lemma ready_counts (l : list PresentationInstance) :
  Forall (λ i, status i = StReady) l →
  length (filter (λ i, status i = StReady) l) = length l ∧
  length (filter (λ i, status i = StGenerating) l) = 0 ∧
  length (filter (λ i, status i = StError) l) = 0.
Proof.
  induction 1 as [|i l Hi _ (IH1 & IH2 & IH3)]; [done|].
  rewrite !filter_cons, Hi. repeat case_decide; simpl; try done. lia.
Qed.

(** X10.  [getStats] counts the registry: [total] is its size; the
    instances counted as active, generating and in error are disjoint
    parts of it; [oldestCreated] and [newestCreated] are [null] exactly
    when the registry is empty and otherwise the least and the greatest
    creation time of a registered instance.  In every world the service
    can reach all instances are active. *)
Theorem getStats_counts_registry cfg env w :
  let s := PresentationManager.getStats env w in
  PresentationManager.total s = size (instances w) ∧
  PresentationManager.active s + PresentationManager.generating s +
    PresentationManager.error s ≤ PresentationManager.total s ∧
  PresentationManager.expired s ≤ PresentationManager.total s ∧
  (PresentationManager.oldestCreated s = None ↔ instances w = ∅) ∧
  (PresentationManager.newestCreated s = None ↔ instances w = ∅) ∧
  (∀ a, PresentationManager.oldestCreated s = Some a →
        (∃ ident i, instances w !! ident = Some i ∧ createdAt i = a) ∧
        ∀ ident i, instances w !! ident = Some i → (a ≤ createdAt i)%Z) ∧
  (∀ b, PresentationManager.newestCreated s = Some b →
        (∃ ident i, instances w !! ident = Some i ∧ createdAt i = b) ∧
        ∀ ident i, instances w !! ident = Some i → (createdAt i ≤ b)%Z) ∧
  (reachable cfg w →
   PresentationManager.active s = PresentationManager.total s ∧
   PresentationManager.generating s = 0 ∧ PresentationManager.error s = 0).
Proof.
  cbv zeta. unfold PresentationManager.getStats.
  cbn [PresentationManager.total PresentationManager.active PresentationManager.generating
       PresentationManager.error PresentationManager.expired
       PresentationManager.oldestCreated PresentationManager.newestCreated].
  set (l := PresentationManager.getAllPresentations w).
  assert (length l = size (instances w)) as Hlen.
  { unfold l, PresentationManager.getAllPresentations.
    by rewrite length_fmap, length_map_to_list. }
  assert (createdAt <$> l = [] ↔ instances w = ∅) as Hempty.
  { rewrite <- map_size_empty_iff, <- Hlen. destruct l; simpl; split; done. }
  assert (∀ z, z ∈ createdAt <$> l ↔ ∃ ident i, instances w !! ident = Some i ∧ createdAt i = z)
    as Hmem.
  { intros z. rewrite list_elem_of_fmap. split.
    - intros (i & -> & [ident Hi]%elem_of_getAllPresentations). by exists ident, i.
    - intros (ident & i & Hi & <-). exists i. split; [done|].
      apply elem_of_getAllPresentations. by exists ident. }
  split; [done|]. split; [apply status_counts|]. split; [apply length_filter|].
  split.
  { rewrite <- Hempty. unfold PresentationManager.least. by destruct (createdAt <$> l). }
  split.
  { rewrite <- Hempty. unfold PresentationManager.greatest. by destruct (createdAt <$> l). }
  split.
  { intros a [Hin Hle]%least_spec. split; [by apply Hmem|].
    intros ident i Hi. apply Hle, Hmem. by exists ident, i. }
  split.
  { intros b [Hin Hle]%greatest_spec. split; [by apply Hmem|].
    intros ident i Hi. apply Hle, Hmem. by exists ident, i. }
  intros Hreach. apply ready_counts, Forall_forall.
  intros i [ident Hi]%elem_of_getAllPresentations.
  by apply (reachable_all_ready cfg w Hreach ident i).
Qed.

Lemma getStats_counts_registry_witness :
  reachable createDefaultConfig two_ready ∧
  PresentationManager.getStats later_host two_ready =
    {| PresentationManager.total := 2; PresentationManager.active := 2;
       PresentationManager.expired := 1; PresentationManager.generating := 0;
       PresentationManager.error := 0;
       PresentationManager.oldestCreated := Some 1700000002500%Z;
       PresentationManager.newestCreated := Some 1700007202500%Z |} ∧
  PresentationManager.active (PresentationManager.getStats later_host two_ready) =
    PresentationManager.total (PresentationManager.getStats later_host two_ready).
Proof.
  assert (reachable createDefaultConfig two_ready) as Hreach.
  { apply (reachable_step createDefaultConfig one_ready
             (CreatePresentation later_host hello_request)).
    apply (reachable_step createDefaultConfig initialWorld
             (CreatePresentation calm_host hello_request)).
    apply reachable_start. }
  split; [exact Hreach|]. split; [reflexivity|].
  destruct (getStats_counts_registry createDefaultConfig later_host two_ready)
    as (_ & _ & _ & _ & _ & _ & _ & Hall).
  exact (proj1 (Hall Hreach)).
Defined.

(** ** The wait for the server *)

(** X11.  [waitForServerReady] returns when one of the first sixty
    requests to the server is answered with success, and otherwise throws
    the error that names the port; requests beyond the sixtieth are never
    made, and nothing but the log changes. *)
Theorem waitForServerReady_probes_sixty_times env p w :
  let r := PresentationManager.waitForServerReady env p w in
  same_resources w r.1 ∧
  ((∃ i, i < 60 ∧ fetch_ok env i = true) → r.2 = inr tt) ∧
  ((∀ i, i < 60 → fetch_ok env i = false) →
   r = (w, inl (PlainError ("Slidev server failed to start on port " +:+ pretty p)))).
Proof.
  cbv zeta. unfold PresentationManager.waitForServerReady.
  destruct (PresentationManager.probe (fetch_ok env) 0 60) eqn:Hprobe.
  - split; [done|]. split; [done|]. intros Hnone.
    apply probe_spec in Hprobe as (j & Hj & Hfetch).
    rewrite Hnone in Hfetch by lia. done.
  - split; [done|]. split; [|done]. intros (i & Hi & Hfetch).
    assert (PresentationManager.probe (fetch_ok env) 0 60 = true) as Hyes.
    { apply probe_spec. exists i. split; [lia|done]. }
    congruence.
Qed.

Lemma waitForServerReady_probes_sixty_times_witness :
  (∃ i, i < 60 ∧ fetch_ok calm_host i = true) ∧
  (PresentationManager.waitForServerReady calm_host 3002 initialWorld).2 = inr tt.
Proof.
  assert (∃ i, i < 60 ∧ fetch_ok calm_host i = true) as Hone.
  { exists 0. split; [lia|reflexivity]. }
  split; [exact Hone|].
  exact (proj1 (proj2 (waitForServerReady_probes_sixty_times calm_host 3002 initialWorld))
           Hone).
Defined.

(** ** What the instances of the registry own *)

(** The table of processes never shrinks. *)
Lemma maintains_length_keeps {A} n (m : M A) :
  keeps procs m → maintains (λ w, n ≤ length (procs w)) m (λ _, True).
Proof. intros Hk w Hw. by rewrite Hk. Qed.

Lemma spawn_maintains_length n :
  maintains (λ w, n ≤ length (procs w)) PresentationManager.spawn (λ _, True).
Proof.
  intros w Hw. unfold PresentationManager.spawn, bind, get, modify, ret. simpl.
  split; [|done]. rewrite length_app. lia.
Qed.

Lemma kill_maintains_length n pid sig :
  maintains (λ w, n ≤ length (procs w)) (PresentationManager.kill pid sig) (λ _, True).
Proof.
  intros w Hw. unfold PresentationManager.kill, bind, get, modify, ret.
  cbn [fst snd]. repeat case_match; simpl; try done. by rewrite length_insert.
Qed.

Lemma mark_exited_maintains_length n pid :
  maintains (λ w, n ≤ length (procs w)) (PresentationManager.mark_exited pid) (λ _, True).
Proof.
  intros w Hw. unfold PresentationManager.mark_exited, modify. simpl.
  split; [|done]. case_match; [|done]. by rewrite length_insert.
Qed.

Lemma create_maintains_length cfg env req n :
  maintains (λ w, n ≤ length (procs w))
            (PresentationManager.createPresentation cfg env req) (λ _, True).
Proof.
  repeat invariant_step
    ltac:(by intros ? ? ?)
    ltac:(first [ apply spawn_maintains_length
                | apply kill_maintains_length
                | apply mark_exited_maintains_length
                | apply maintains_length_keeps; frame; fail ]).
Qed.

Lemma delete_procs_length env ident w :
  length (procs (PresentationManager.deletePresentation env ident w).1) = length (procs w).
Proof.
  rewrite delete_procs_cases.
  repeat case_match; try done. by rewrite length_insert.
Qed.

Lemma delete_instances_cases env ident w :
  instances (PresentationManager.deletePresentation env ident w).1 = instances w ∨
  instances (PresentationManager.deletePresentation env ident w).1 =
    delete ident (instances w).
Proof.
  destruct (instances w !! ident) as [i|] eqn:Hi.
  - destruct (delete_known env ident w i Hi) as (_ & _ & _ & Hcase).
    destruct (remove_fault env (projectPath i)); destruct Hcase as (_ & -> & _); auto.
  - rewrite delete_unknown by done. auto.
Qed.

Lemma extendHandler_instances env ident newTtl w :
  instances (Routes.extendHandler env ident newTtl w).1 =
    match instances w !! ident with
    | Some i => <[ident := with_expiresAt (now env + newTtl) i]> (instances w)
    | None => instances w
    end ∧
  allocatedPorts (Routes.extendHandler env ident newTtl w).1 = allocatedPorts w ∧
  procs (Routes.extendHandler env ident newTtl w).1 = procs w.
Proof.
  unfold Routes.extendHandler, PresentationManager.getPresentation, bind, get.
  cbn [fst snd]. by destruct (instances w !! ident).
Qed.

(** The invariant of the next property. *)
Lemma create_maintains_keyed cfg env req :
  maintains (λ w, well_keyed cfg w ∧ own_processes w)
            (PresentationManager.createPresentation cfg env req) (λ _, True).
Proof.
  intros w [Hkeyed Hown]. split; [|done]. unfold well_keyed, own_processes in *.
  pose proof (create_maintains_length cfg env req (length (procs w)) w (le_n _))
    as [Hlen _].
  pose proof (create_registry cfg env req w) as Hreg. cbv zeta in Hreg.
  pose proof (create_success cfg env req w) as Hok.
  destruct ((PresentationManager.createPresentation cfg env req w).2) as [e|response].
  { rewrite Hreg. split; [|done].
    intros ident i Hi. destruct (Hkeyed ident i Hi) as (? & ? & ?). repeat split; auto. lia. }
  destruct (Hok response eq_refl)
    as (p & _ & _ & _ & _ & _ & _ & _ & Hinst & _ & Hprocs & _).
  rewrite Hinst, Hprocs. split.
  - intros ident i. rewrite length_app. simpl.
    destruct (decide (ident = ProjectGenerator.generateProjectId env)) as [->|Hne].
    + rewrite lookup_insert_eq. intros [= <-]. simpl. repeat split; auto. lia.
    + rewrite lookup_insert_ne by done. intros Hi.
      destruct (Hkeyed ident i Hi) as (? & ? & ?). repeat split; auto. lia.
  - intros id1 id2 i1 i2 Hne.
    destruct (decide (id1 = ProjectGenerator.generateProjectId env)) as [->|Hne1];
      destruct (decide (id2 = ProjectGenerator.generateProjectId env)) as [->|Hne2];
      try done.
    + rewrite lookup_insert_eq, lookup_insert_ne by done. intros [= <-] Hi2. simpl.
      destruct (Hkeyed id2 i2 Hi2) as (_ & _ & ?). lia.
    + rewrite lookup_insert_eq, lookup_insert_ne by done. intros Hi1 [= <-]. simpl.
      destruct (Hkeyed id1 i1 Hi1) as (_ & _ & ?). lia.
    + rewrite !lookup_insert_ne by done. by apply Hown.
Qed.

Lemma delete_maintains_keyed cfg env ident :
  maintains (λ w, well_keyed cfg w ∧ own_processes w)
            (PresentationManager.deletePresentation env ident) (λ _, True).
Proof.
  intros w [Hkeyed Hown]. split; [|done]. unfold well_keyed, own_processes in *.
  pose proof (delete_procs_length env ident w) as Hlen.
  destruct (delete_instances_cases env ident w) as [Hinst|Hinst].
  - split.
    + intros k i. rewrite Hinst, Hlen. apply Hkeyed.
    + intros id1 id2 i1 i2 Hne. rewrite Hinst. by apply Hown.
  - split.
    + intros k i. rewrite Hinst, Hlen. intros [_ Hi]%lookup_delete_Some. by apply Hkeyed.
    + intros id1 id2 i1 i2 Hne. rewrite Hinst.
      intros [_ Hi1]%lookup_delete_Some [_ Hi2]%lookup_delete_Some. by eapply Hown.
Qed.

Lemma extendHandler_maintains_keyed cfg env ident newTtl :
  maintains (λ w, well_keyed cfg w ∧ own_processes w)
            (Routes.extendHandler env ident newTtl) (λ _, True).
Proof.
  intros w [Hkeyed Hown]. split; [|done]. unfold well_keyed, own_processes in *.
  destruct (extendHandler_instances env ident newTtl w) as (Hinst & _ & Hprocs).
  destruct (instances w !! ident) as [i0|] eqn:Hi0.
  - split.
    + intros k i. rewrite Hinst, Hprocs.
      destruct (decide (k = ident)) as [->|Hne].
      * rewrite lookup_insert_eq. intros [= <-]. simpl. by apply Hkeyed.
      * rewrite lookup_insert_ne by done. apply Hkeyed.
    + intros id1 id2 i1 i2 Hne. rewrite Hinst.
      destruct (decide (id1 = ident)) as [->|Hne1];
        destruct (decide (id2 = ident)) as [->|Hne2]; try done.
      * rewrite lookup_insert_eq, lookup_insert_ne by done. intros [= <-] Hi2. simpl.
        by apply (Hown ident id2 i0 i2).
      * rewrite lookup_insert_eq, lookup_insert_ne by done. intros Hi1 [= <-]. simpl.
        by apply (Hown id1 ident i1 i0).
      * rewrite !lookup_insert_ne by done. by apply Hown.
  - split.
    + intros k i. rewrite Hinst, Hprocs. apply Hkeyed.
    + intros id1 id2 i1 i2 Hne. rewrite Hinst. by apply Hown.
Qed.

Lemma reachable_keyed cfg w : reachable cfg w → well_keyed cfg w ∧ own_processes w.
Proof.
  apply (invariant_reachable cfg (λ w, well_keyed cfg w ∧ own_processes w)).
  - by intros ? ? ?.
  - apply create_maintains_keyed.
  - apply delete_maintains_keyed.
  - by intros w0 Hw0.
  - apply extendHandler_maintains_keyed.
  - split; [intros ident i|intros id1 id2 i1 i2 _]; simpl; by rewrite lookup_empty.
Qed.

Lemma join_path_inj dir a b : join_path dir a = join_path dir b → a = b.
Proof.
  unfold join_path. intros Heq.
  assert (∀ s x y : string, s +:+ x = s +:+ y → x = y) as Hinj.
  { induction s as [|c s IH]; simpl; intros x y; [done|]. intros [= ?]. auto. }
  by apply Hinj, Hinj in Heq.
Qed.

(** X12.  In every world the service can reach, an instance is
    registered under its own id, works in the directory [tempDir/id] and
    has a process of the table; so no two instances share a directory,
    and no two share a process. *)
Theorem instances_own_directory_and_process cfg w :
  reachable cfg w →
  (∀ ident i,
     PresentationManager.getPresentation ident w = Some i →
     id i = ident ∧ projectPath i = join_path (tempDir cfg) ident ∧
     is_Some (procs w !! server i)) ∧
  (∀ id1 id2 i1 i2,
     id1 ≠ id2 →
     PresentationManager.getPresentation id1 w = Some i1 →
     PresentationManager.getPresentation id2 w = Some i2 →
     projectPath i1 ≠ projectPath i2 ∧ server i1 ≠ server i2).
Proof.
  intros [Hkeyed Hown]%reachable_keyed. unfold PresentationManager.getPresentation.
  split.
  - intros ident i Hi. destruct (Hkeyed ident i Hi) as (? & ? & ?).
    repeat split; auto. by apply lookup_lt_is_Some.
  - intros id1 id2 i1 i2 Hne Hi1 Hi2. split; [|by eapply Hown].
    destruct (Hkeyed id1 i1 Hi1) as (_ & -> & _).
    destruct (Hkeyed id2 i2 Hi2) as (_ & -> & _).
    by intros ?%join_path_inj.
Qed.

Lemma instances_own_directory_and_process_witness :
  reachable createDefaultConfig two_ready ∧
  projectPath hello_instance ≠ projectPath later_instance ∧
  server hello_instance ≠ server later_instance.
Proof.
  assert (reachable createDefaultConfig two_ready) as Hreach.
  { apply (reachable_step createDefaultConfig one_ready
             (CreatePresentation later_host hello_request)).
    apply (reachable_step createDefaultConfig initialWorld
             (CreatePresentation calm_host hello_request)).
    apply reachable_start. }
  split; [exact Hreach|].
  apply (proj2 (instances_own_directory_and_process createDefaultConfig two_ready Hreach)
           "slidev-V1StGXR8_Z5j" "slidev-Uakgb_J5m9g-"); [discriminate|reflexivity..].
Defined.

(** ** The ports of the instances *)

Lemma create_failure_ports cfg env req w e :
  (PresentationManager.createPresentation cfg env req w).2 = inl e →
  allocatedPorts (PresentationManager.createPresentation cfg env req w).1 =
    allocatedPorts w.
Proof.
  destruct (Z_lt_le_dec (Z.of_nat (size (instances w))) (maxConcurrentPresentations cfg))
    as [Hroom|Hfull]; [|by rewrite create_at_capacity].
  rewrite (create_run cfg env req w Hroom).
  set (w1 := logged LInfo "Creating presentation" w).
  pose proof (scaffold_keeps_ports cfg env req w1) as Hp2.
  destruct (ProjectGenerator.createProjectWithoutDeps cfg env req w1)
    as [w2 [e2|project]]; [done|].
  cbn [fst snd] in *.
  destruct (PortManager.allocatePort cfg (getPort env) w2) as [w3 [e3|p]] eqn:Halloc.
  { destruct (allocatePort_throws _ _ _ _ _ Halloc) as (_ & _ & Hp3 & _).
    intros _. simpl. by rewrite Hp3, Hp2. }
  destruct (allocatePort_returns _ _ _ _ _ Halloc) as (_ & _ & _ & Hfree & ->).
  cbv zeta.
  match goal with
  | |- context [PresentationManager.startServer ?e ?pa ?po ?th ?ww] =>
      pose proof (startServer_run e pa po th ww) as Hst; cbv zeta in Hst;
      destruct (PresentationManager.startServer e pa po th ww) as [w4 [e4|pid]]
  end; [|done].
  cbn [fst snd] in *. destruct Hst as [Hp4 _]. intros _. simpl in *.
  rewrite Hp4, Hp2. rewrite Hp2 in Hfree. unfold w1 in *. simpl in *. set_solver.
Qed.

Lemma create_maintains_own_ports cfg env req :
  maintains own_ports (PresentationManager.createPresentation cfg env req) (λ _, True).
Proof.
  intros w [Hheld Hdistinct]. split; [|done]. unfold own_ports.
  pose proof (create_registry cfg env req w) as Hreg. cbv zeta in Hreg.
  pose proof (create_success cfg env req w) as Hok.
  pose proof (create_failure_ports cfg env req w) as Hfail.
  destruct ((PresentationManager.createPresentation cfg env req w).2) as [e|response].
  { rewrite Hreg, (Hfail e eq_refl). done. }
  destruct (Hok response eq_refl)
    as (p & _ & _ & _ & Hfree & _ & _ & _ & Hinst & Hports & _).
  rewrite Hinst, Hports. split.
  - intros ident i.
    destruct (decide (ident = ProjectGenerator.generateProjectId env)) as [->|Hne].
    + rewrite lookup_insert_eq. intros [= <-]. simpl. set_solver.
    + rewrite lookup_insert_ne by done. intros Hi. specialize (Hheld ident i Hi). set_solver.
  - intros id1 id2 i1 i2 Hne.
    destruct (decide (id1 = ProjectGenerator.generateProjectId env)) as [->|Hne1];
      destruct (decide (id2 = ProjectGenerator.generateProjectId env)) as [->|Hne2];
      try done.
    + rewrite lookup_insert_eq, lookup_insert_ne by done. intros [= <-] Hi2. simpl.
      specialize (Hheld id2 i2 Hi2). by intros ->.
    + rewrite lookup_insert_eq, lookup_insert_ne by done. intros Hi1 [= <-]. simpl.
      specialize (Hheld id1 i1 Hi1). by intros <-.
    + rewrite !lookup_insert_ne by done. by apply Hdistinct.
Qed.

Lemma delete_maintains_own_ports env ident :
  removes_directories env →
  maintains own_ports (PresentationManager.deletePresentation env ident) (λ _, True).
Proof.
  intros Hgood w [Hheld Hdistinct]. split; [|done]. unfold own_ports.
  destruct (instances w !! ident) as [i|] eqn:Hi; [|by rewrite delete_unknown].
  destruct (delete_known env ident w i Hi) as (Hports & _ & _ & Hcase).
  rewrite (Hgood (projectPath i)) in Hcase. destruct Hcase as (_ & Hinst & _).
  rewrite Hinst, Hports. split.
  - intros k i' [Hne Hi']%lookup_delete_Some.
    specialize (Hheld k i' Hi').
    assert (port i ≠ port i') by (by eapply Hdistinct). set_solver.
  - intros id1 id2 i1 i2 Hne [_ Hi1]%lookup_delete_Some [_ Hi2]%lookup_delete_Some.
    by eapply Hdistinct.
Qed.

Lemma shutdown_maintains_own_ports env :
  removes_directories env →
  maintains own_ports (PresentationManager.shutdown env) (λ _, True).
Proof.
  intros Hgood w _. split; [|done].
  destruct (shutdown_run env w) as (_ & _ & _ & Hall).
  destruct (Hall Hgood) as [Hempty _]. unfold own_ports. rewrite Hempty.
  split; [intros ident i|intros id1 id2 i1 i2 _]; by rewrite lookup_empty.
Qed.

Lemma extendHandler_maintains_own_ports env ident newTtl :
  maintains own_ports (Routes.extendHandler env ident newTtl) (λ _, True).
Proof.
  intros w [Hheld Hdistinct]. split; [|done]. unfold own_ports.
  destruct (extendHandler_instances env ident newTtl w) as (Hinst & Hports & _).
  rewrite Hinst, Hports.
  destruct (instances w !! ident) as [i0|] eqn:Hi0; [|done].
  split.
  - intros k i. destruct (decide (k = ident)) as [->|Hne].
    + rewrite lookup_insert_eq. intros [= <-]. simpl. by eapply Hheld.
    + rewrite lookup_insert_ne by done. apply Hheld.
  - intros id1 id2 i1 i2 Hne.
    destruct (decide (id1 = ident)) as [->|Hne1];
      destruct (decide (id2 = ident)) as [->|Hne2]; try done.
    + rewrite lookup_insert_eq, lookup_insert_ne by done. intros [= <-] Hi2. simpl.
      by apply (Hdistinct ident id2 i0 i2).
    + rewrite lookup_insert_eq, lookup_insert_ne by done. intros Hi1 [= <-]. simpl.
      by apply (Hdistinct id1 ident i1 i0).
    + rewrite !lookup_insert_ne by done. by apply Hdistinct.
Qed.

Lemma reachable_own_ports cfg w : reachable_when removes_directories cfg w → own_ports w.
Proof.
  apply (invariant_reachable_when cfg removes_directories own_ports).
  - by intros ? ? ?.
  - intros env req _. apply create_maintains_own_ports.
  - intros env ident. apply delete_maintains_own_ports.
  - apply shutdown_maintains_own_ports.
  - apply extendHandler_maintains_own_ports.
  - split; [intros ident i|intros id1 id2 i1 i2 _]; simpl; by rewrite lookup_empty.
Qed.

(** When the calls follow one another and no removal fails, every
    instance holds its port, inside the range, and shares nothing. *)
Lemma sequential_own_ports cfg w :
  reachable_when removes_directories cfg w →
  (∀ ident i,
     PresentationManager.getPresentation ident w = Some i →
     PortManager.isPortAllocated (port i) w = true ∧
     (PortManager.startPort cfg ≤ port i)%Z ∧ (port i ≤ PortManager.endPort cfg)%Z) ∧
  separate w.
Proof.
  intros Hreach.
  destruct (reachable_own_ports cfg w Hreach) as [Hheld Hdistinct].
  pose proof (reachable_when_reachable _ _ _ Hreach) as Hany.
  destruct (reachable_keyed cfg w Hany) as [Hkeyed Hown].
  pose proof (reachable_ports_in_range cfg w Hany) as Hrange.
  unfold PresentationManager.getPresentation, PortManager.isPortAllocated. split.
  - intros ident i Hi. specialize (Hheld ident i Hi).
    split; [by apply bool_decide_eq_true_2|]. by apply Hrange.
  - intros id1 i1 Hi1 id2 i2 Hi2 Hne.
    split; [by eapply Hdistinct|]. split; [|by eapply Hown].
    destruct (Hkeyed id1 i1 Hi1) as (_ & -> & _).
    destruct (Hkeyed id2 i2 Hi2) as (_ & -> & _).
    by intros ?%join_path_inj.
Qed.

(** ** What the schema of a request lets through *)

Lemma joi_string_passes fld rules v :
  Validation.joi_string fld rules v = [] →
  ∃ s, v = Js.JStr s ∧ s ≠ EmptyString ∧ Forall (λ r, Validation.string_rule fld s r = []) rules.
Proof.
  destruct v as [| | |s| |]; try done. simpl.
  destruct (decide (s = EmptyString)) as [|Hne]; [done|]. intros Hnil.
  exists s. split; [done|]. split; [done|].
  induction rules as [|r rules IH]; [done|]. simpl in Hnil.
  apply app_eq_nil in Hnil as [Hr Hrest]. constructor; auto.
Qed.

Lemma joi_number_passes fld lo hi v :
  Validation.joi_number fld lo hi v = [] →
  ∃ z, v = Js.JNum z ∧ (lo ≤ z)%Z ∧ (z ≤ hi)%Z.
Proof.
  destruct v as [| |z| | |]; try done. simpl. intros [Hlo Hhi]%app_eq_nil.
  exists z. split; [done|].
  destruct (z <? lo)%Z eqn:H1; [done|]. destruct (hi <? z)%Z eqn:H2; [done|]. lia.
Qed.

Lemma joi_object_passes fld v :
  Validation.joi_object fld v = [] → ∃ o, v = Js.JObj o.
Proof. destruct v; try done. by eexists. Qed.

Lemma optional_passes check v :
  Validation.optional check v = [] → ∀ x, v = Some x → check x = [].
Proof. by intros H x ->. Qed.

Lemma string_rule_max fld s n :
  Validation.string_rule fld s (Validation.Max n) = [] → (Z.of_nat (String.length s) ≤ n)%Z.
Proof. simpl. destruct (n <? Z.of_nat (String.length s))%Z eqn:H; [done|]. lia. Qed.

Lemma string_rule_min fld s n :
  Validation.string_rule fld s (Validation.Min n) = [] → (n ≤ Z.of_nat (String.length s))%Z.
Proof. simpl. destruct (Z.of_nat (String.length s) <? n)%Z eqn:H; [done|]. lia. Qed.

Lemma string_rule_pattern fld s test :
  Validation.string_rule fld s (Validation.Pattern test) = [] → test s = true.
Proof. simpl. by destruct (test s). Qed.

Lemma optional_string_field fld rules v :
  (∀ x, v = Some x → Validation.joi_string fld rules x = []) →
  (∀ s, Validation.as_string v = Some s →
        v = Some (Js.JStr s) ∧ s ≠ EmptyString ∧
        Forall (λ r, Validation.string_rule fld s r = []) rules) ∧
  (Validation.as_string v = None ↔ v = None).
Proof.
  intros Hv. destruct v as [x|]; [|done].
  destruct (joi_string_passes _ _ _ (Hv x eq_refl)) as (s & -> & Hne & Hrules).
  simpl. split; [|done]. by intros ? [= <-].
Qed.

Lemma optional_number_field fld lo hi v :
  (∀ x, v = Some x → Validation.joi_number fld lo hi x = []) →
  (∀ z, Validation.as_number v = Some z → v = Some (Js.JNum z) ∧ (lo ≤ z)%Z ∧ (z ≤ hi)%Z) ∧
  (Validation.as_number v = None ↔ v = None).
Proof.
  intros Hv. destruct v as [x|]; [|done].
  destruct (joi_number_passes _ _ _ _ (Hv x eq_refl)) as (z & -> & Hlo & Hhi).
  simpl. split; [|done]. by intros ? [= <-].
Qed.

Lemma optional_object_field fld v :
  (∀ x, v = Some x → Validation.joi_object fld x = []) →
  (∀ o, Validation.as_object v = Some o → v = Some (Js.JObj o)) ∧
  (Validation.as_object v = None ↔ v = None).
Proof.
  intros Hv. destruct v as [x|]; [|done].
  destruct (joi_object_passes _ _ (Hv x eq_refl)) as (o & ->).
  simpl. split; [|done]. by intros ? [= <-].
Qed.

Lemma generatePPTSchema_sound body request :
  Validation.generatePPTSchema body = inr request →
  ∃ props,
    body = Js.JObj props ∧
    Js.obj_get "content" props = Some (Js.JStr (content request)) ∧
    (1 ≤ Z.of_nat (String.length (content request)))%Z ∧
    (Z.of_nat (String.length (content request)) ≤ 1000000)%Z ∧
    (∀ s, title request = Some s →
          Js.obj_get "title" props = Some (Js.JStr s) ∧ s ≠ EmptyString ∧
          (Z.of_nat (String.length s) ≤ 200)%Z) ∧
    (∀ s, theme request = Some s →
          Js.obj_get "theme" props = Some (Js.JStr s) ∧ s ≠ EmptyString ∧
          forallb Validation.is_id_char (list_ascii_of_string s) = true ∧
          (Z.of_nat (String.length s) ≤ 50)%Z) ∧
    (∀ t, ttl request = Some t →
          Js.obj_get "ttl" props = Some (Js.JNum t) ∧ (60000 ≤ t)%Z ∧ (t ≤ 86400000)%Z) ∧
    (∀ s, customCSS request = Some s →
          Js.obj_get "customCSS" props = Some (Js.JStr s) ∧ s ≠ EmptyString ∧
          (Z.of_nat (String.length s) ≤ 100000)%Z) ∧
    (∀ o, config request = Some o → Js.obj_get "config" props = Some (Js.JObj o)) ∧
    (∀ o, frontmatter request = Some o → Js.obj_get "frontmatter" props = Some (Js.JObj o)) ∧
    (title request = None ↔ Js.obj_get "title" props = None) ∧
    (theme request = None ↔ Js.obj_get "theme" props = None) ∧
    (ttl request = None ↔ Js.obj_get "ttl" props = None) ∧
    (customCSS request = None ↔ Js.obj_get "customCSS" props = None) ∧
    (config request = None ↔ Js.obj_get "config" props = None) ∧
    (frontmatter request = None ↔ Js.obj_get "frontmatter" props = None).
Proof.
  destruct body as [| | | | |props]; try done. intros Hok. exists props.
  split; [done|]. unfold Validation.generatePPTSchema in Hok.
  match type of Hok with
  | match ?errs with _ => _ end = _ => destruct errs eqn:Herr; [|done]
  end.
  injection Hok as <-. cbn [content title theme ttl customCSS config frontmatter].
  apply app_eq_nil in Herr as [Hcontent Herr].
  apply app_eq_nil in Herr as [Htitle Herr].
  apply app_eq_nil in Herr as [Htheme Herr].
  apply app_eq_nil in Herr as [Hconfig Herr].
  apply app_eq_nil in Herr as [Httl Herr].
  apply app_eq_nil in Herr as [Hcss Hfront].
  destruct (optional_string_field _ _ _ (optional_passes _ _ Htitle)) as [Ht Ht'].
  destruct (optional_string_field _ _ _ (optional_passes _ _ Htheme)) as [Hth Hth'].
  destruct (optional_object_field _ _ (optional_passes _ _ Hconfig)) as [Hc Hc'].
  destruct (optional_number_field _ _ _ _ (optional_passes _ _ Httl)) as [Hl Hl'].
  destruct (optional_string_field _ _ _ (optional_passes _ _ Hcss)) as [Hs Hs'].
  destruct (optional_object_field _ _ (optional_passes _ _ Hfront)) as [Hf Hf'].
  clear Htitle Htheme Hconfig Httl Hcss Hfront.
  destruct (Js.obj_get "content" props) as [vc|] eqn:Hgc; [|done].
  apply joi_string_passes in Hcontent as (s & -> & Hne & Hrules).
  inversion Hrules as [|? ? Hmin Hrules']; subst.
  inversion Hrules' as [|? ? Hmax _]; subst.
  apply string_rule_min in Hmin. apply string_rule_max in Hmax.
  cbn [Validation.as_string default].
  split; [done|]. split; [done|]. split; [done|].
  split.
  { intros t Heq. destruct (Ht t Heq) as (? & ? & Hr).
    inversion Hr as [|? ? Hmax' _]; subst. apply string_rule_max in Hmax'. done. }
  split.
  { intros t Heq. destruct (Hth t Heq) as (? & ? & Hr).
    inversion Hr as [|? ? Hpat Hr']; subst. inversion Hr' as [|? ? Hmax' _]; subst.
    apply string_rule_max in Hmax'. apply string_rule_pattern in Hpat.
    unfold Validation.theme_pattern in Hpat. apply andb_true_iff in Hpat as [_ Hall].
    done. }
  split; [done|].
  split.
  { intros t Heq. destruct (Hs t Heq) as (? & ? & Hr).
    inversion Hr as [|? ? Hmax' _]; subst. apply string_rule_max in Hmax'. done. }
  done.
Qed.

(** X14.  A body that [generatePPTSchema] accepts is an object whose
    [content] is a string of 1 to 1000000 characters; a [title], [theme]
    or [customCSS], when given, is a string that is not empty and has at
    most 200, 50 or 100000 characters, the theme made of letters, digits,
    hyphens and underscores only; a [ttl] lies between 60000 and
    86400000; [config] and [frontmatter] are objects.  The accepted value
    carries these seven fields and nothing else: a body that has a valid
    content and none of the six optional keys is accepted whatever other
    keys it has. *)
Theorem generatePPTSchema_accepts_valid_requests body :
  (∀ request,
     Validation.generatePPTSchema body = inr request →
     ∃ props,
       body = Js.JObj props ∧
       Js.obj_get "content" props = Some (Js.JStr (content request)) ∧
       (1 ≤ Z.of_nat (String.length (content request)))%Z ∧
       (Z.of_nat (String.length (content request)) ≤ 1000000)%Z ∧
       (∀ s, title request = Some s →
             Js.obj_get "title" props = Some (Js.JStr s) ∧ s ≠ EmptyString ∧
             (Z.of_nat (String.length s) ≤ 200)%Z) ∧
       (∀ s, theme request = Some s →
             Js.obj_get "theme" props = Some (Js.JStr s) ∧ s ≠ EmptyString ∧
             forallb Validation.is_id_char (list_ascii_of_string s) = true ∧
             (Z.of_nat (String.length s) ≤ 50)%Z) ∧
       (∀ t, ttl request = Some t →
             Js.obj_get "ttl" props = Some (Js.JNum t) ∧ (60000 ≤ t)%Z ∧ (t ≤ 86400000)%Z) ∧
       (∀ s, customCSS request = Some s →
             Js.obj_get "customCSS" props = Some (Js.JStr s) ∧ s ≠ EmptyString ∧
             (Z.of_nat (String.length s) ≤ 100000)%Z) ∧
       (∀ o, config request = Some o → Js.obj_get "config" props = Some (Js.JObj o)) ∧
       (∀ o, frontmatter request = Some o →
             Js.obj_get "frontmatter" props = Some (Js.JObj o)) ∧
       (title request = None ↔ Js.obj_get "title" props = None) ∧
       (theme request = None ↔ Js.obj_get "theme" props = None) ∧
       (ttl request = None ↔ Js.obj_get "ttl" props = None) ∧
       (customCSS request = None ↔ Js.obj_get "customCSS" props = None) ∧
       (config request = None ↔ Js.obj_get "config" props = None) ∧
       (frontmatter request = None ↔ Js.obj_get "frontmatter" props = None)) ∧
  (∀ props s,
     body = Js.JObj props →
     Js.obj_get "content" props = Some (Js.JStr s) →
     (1 ≤ Z.of_nat (String.length s))%Z → (Z.of_nat (String.length s) ≤ 1000000)%Z →
     Js.obj_get "title" props = None → Js.obj_get "theme" props = None →
     Js.obj_get "config" props = None → Js.obj_get "ttl" props = None →
     Js.obj_get "customCSS" props = None → Js.obj_get "frontmatter" props = None →
     Validation.generatePPTSchema body =
       inr {| content := s; title := None; theme := None; config := None; ttl := None;
              customCSS := None; frontmatter := None |}).
Proof.
  split; [apply generatePPTSchema_sound|].
  intros props s -> Hc Hlo Hhi Ht Hth Hcf Hl Hcss Hf.
  unfold Validation.generatePPTSchema. rewrite Hc, Ht, Hth, Hcf, Hl, Hcss, Hf.
  cbn [Validation.required Validation.optional Validation.joi_string app
       Validation.as_string Validation.as_object Validation.as_number default].
  destruct (decide (s = EmptyString)) as [->|_]; [simpl in Hlo; lia|].
  cbn [map concat Validation.string_rule app].
  destruct (Z.of_nat (String.length s) <? 1)%Z eqn:H1; [lia|].
  destruct (1000000 <? Z.of_nat (String.length s))%Z eqn:H2; [lia|]. done.
Qed.

Lemma generatePPTSchema_accepts_valid_requests_witness :
  Validation.generatePPTSchema
    (Js.JObj [("content", Js.JStr "# Hello, world"); ("colour", Js.JStr "red")]) =
    inr {| content := "# Hello, world"; title := None; theme := None; config := None;
           ttl := None; customCSS := None; frontmatter := None |} ∧
  (∃ request, Validation.generatePPTSchema short_body = inr request ∧
              ttl request = None).
Proof.
  split.
  - apply (proj2 (generatePPTSchema_accepts_valid_requests _)
             [("content", Js.JStr "# Hello, world"); ("colour", Js.JStr "red")]
             "# Hello, world"); try reflexivity.
    + vm_compute. discriminate.
    + vm_compute. discriminate.
  - assert (Validation.generatePPTSchema short_body =
            inr {| content := "# Hi!"; title := Some "Too short"; theme := None;
                   config := None; ttl := None; customCSS := None; frontmatter := None |})
      as Hok by reflexivity.
    eexists. split; [exact Hok|].
    destruct (proj1 (generatePPTSchema_accepts_valid_requests short_body) _ Hok)
      as (props & Hbody & _).
    injection Hbody as <-. reflexivity.
Defined.

(** ** The ids of the generator and the pattern of the routes *)

Lemma strip_prefix_append p s : Validation.strip_prefix p (p +:+ s) = Some s.
Proof. induction p as [|c p IH]; simpl; [done|]. by rewrite decide_True. Qed.

Lemma strip_prefix_Some p s rest : Validation.strip_prefix p s = Some rest → s = p +:+ rest.
Proof.
  revert s. induction p as [|c p IH]; simpl; intros s; [by intros [= ->]|].
  destruct s as [|d s]; [done|]. destruct (decide (c = d)) as [->|]; [|done].
  intros H. by rewrite (IH s H).
Qed.

(** X15.  The pattern that the routes demand of an id is the shape the
    generator gives it: an id passes [presentationIdSchema] exactly when
    it is [slidev-] followed by twelve characters among letters, digits,
    hyphen and underscore; so the id of every project, made of the twelve
    characters of [nanoid], passes the validation of the routes. *)
Theorem generated_ids_match_the_route_pattern :
  (∀ ident,
     Validation.id_pattern ident = true ↔
     ∃ suffix, ident = "slidev-" +:+ suffix ∧ String.length suffix = 12 ∧
               forallb Validation.is_id_char (list_ascii_of_string suffix) = true) ∧
  (∀ env w,
     String.length (nanoid env) = 12 →
     forallb Validation.is_id_char (list_ascii_of_string (nanoid env)) = true →
     Validation.validateParams (ProjectGenerator.generateProjectId env) w =
       (w, inr (inr (ProjectGenerator.generateProjectId env)))).
Proof.
  assert (∀ ident,
     Validation.id_pattern ident = true ↔
     ∃ suffix, ident = "slidev-" +:+ suffix ∧ String.length suffix = 12 ∧
               forallb Validation.is_id_char (list_ascii_of_string suffix) = true) as Hpat.
  { intros ident. unfold Validation.id_pattern. split.
    - destruct (Validation.strip_prefix "slidev-" ident) as [rest|] eqn:Hstrip; [|done].
      intros [Hlen Hall]%andb_true_iff. exists rest.
      split; [by apply strip_prefix_Some|]. split; [by apply Nat.eqb_eq|done].
    - intros (suffix & -> & Hlen & Hall). rewrite strip_prefix_append.
      apply andb_true_iff. split; [by apply Nat.eqb_eq|done]. }
  split; [done|].
  intros env w Hlen Hall. unfold Validation.validateParams.
  rewrite paramsSchema_accepts; [done|].
  apply Hpat. by exists (nanoid env).
Qed.

Lemma generated_ids_match_the_route_pattern_witness :
  String.length (nanoid calm_host) = 12 ∧
  Validation.validateParams "slidev-V1StGXR8_Z5j" one_ready =
    (one_ready, inr (inr "slidev-V1StGXR8_Z5j")).
Proof.
  split; [reflexivity|].
  exact (proj2 generated_ids_match_the_route_pattern calm_host one_ready eq_refl eq_refl).
Defined.

(** ** [sanitizeMarkdown] *)

Lemma replace_from_length matcher pending s :
  String.length (Validation.replace_from matcher pending s) ≤ String.length s.
Proof.
  revert pending. induction s as [|c s IH]; intros pending; simpl; [done|].
  destruct pending as [|n].
  - destruct (matcher (String c s)) as [[|n]|]; simpl.
    + specialize (IH 0). lia.
    + specialize (IH n). lia.
    + specialize (IH 0). lia.
  - specialize (IH n). lia.
Qed.

Lemma replace_from_pending matcher pending s :
  String.length s ≤ pending → Validation.replace_from matcher pending s = EmptyString.
Proof.
  revert pending. induction s as [|c s IH]; intros pending; simpl; [done|].
  destruct pending as [|n]; [lia|]. intros Hle. apply IH. lia.
Qed.

(** A matcher that finds nothing in [s] leaves it as it is. *)
Lemma replace_from_nothing matcher s :
  (∀ n, matcher (Validation.skip n s) = None) → Validation.replace_from matcher 0 s = s.
Proof.
  induction s as [|c s IH]; intros Hnone; simpl; [done|].
  pose proof (Hnone 0) as H0. simpl in H0. rewrite H0.
  f_equal. apply IH. intros n. apply (Hnone (S n)).
Qed.

Lemma skip_chars n s c :
  c ∈ list_ascii_of_string (Validation.skip n s) → c ∈ list_ascii_of_string s.
Proof.
  revert s. induction n as [|n IH]; intros s; [by destruct s|].
  destruct s as [|d s]; simpl; [done|]. intros Hin. apply elem_of_cons. right. by apply IH.
Qed.

Lemma strip_prefix_ci_chars p s rest c :
  Validation.strip_prefix_ci p s = Some rest →
  c ∈ list_ascii_of_string rest → c ∈ list_ascii_of_string s.
Proof.
  revert s. induction p as [|a p IH]; intros s; simpl; [by intros [= ->]|].
  destruct s as [|d s]; [done|]. case_decide; [|done].
  intros Hstrip Hin. simpl. apply elem_of_cons. right. by eapply IH.
Qed.

(** A character that is no letter is matched by itself only. *)
Lemma fold_case_symbol c d :
  Validation.fold_case c = c → (nat_of_ascii c < 65 ∨ 90 < nat_of_ascii c) →
  Validation.fold_case c = Validation.fold_case d → d = c.
Proof.
  intros Hc Hsym Heq. rewrite Hc in Heq. unfold Validation.fold_case in Heq.
  destruct ((97 <=? nat_of_ascii d) && (nat_of_ascii d <=? 122)) eqn:Hlow; [|done].
  apply andb_true_iff in Hlow as [Hlo%Nat.leb_le Hhi%Nat.leb_le].
  assert (nat_of_ascii c = nat_of_ascii d - 32) as Hn.
  { rewrite Heq. rewrite nat_ascii_embedding; [done|lia]. }
  lia.
Qed.

Lemma strip_prefix_ci_has p s rest c :
  Validation.strip_prefix_ci p s = Some rest →
  c ∈ list_ascii_of_string p →
  Validation.fold_case c = c → (nat_of_ascii c < 65 ∨ 90 < nat_of_ascii c) →
  c ∈ list_ascii_of_string s.
Proof.
  intros Hstrip Hin Hfix Hsym. revert s Hstrip Hin.
  induction p as [|a p IH]; intros s; simpl; [by intros _ ?%elem_of_nil|].
  destruct s as [|d s]; [done|]. case_decide as Hfold; [|done].
  intros Hstrip [->|Hin]%elem_of_cons; simpl.
  - apply elem_of_cons. left. symmetry. by apply fold_case_symbol.
  - apply elem_of_cons. right. by apply IH.
Qed.

Lemma match_script_needs s n :
  Validation.match_script s = Some n → "<"%char ∈ list_ascii_of_string s.
Proof.
  unfold Validation.match_script.
  destruct (Validation.strip_prefix_ci "<script" s) as [rest|] eqn:Hstrip; [|done].
  intros _. apply (strip_prefix_ci_has _ _ _ _ Hstrip).
  - simpl. set_solver.
  - done.
  - vm_compute. lia.
Qed.

Lemma match_javascript_needs s n :
  Validation.match_javascript s = Some n → ":"%char ∈ list_ascii_of_string s.
Proof.
  unfold Validation.match_javascript.
  destruct (Validation.strip_prefix_ci "javascript:" s) as [rest|] eqn:Hstrip; [|done].
  intros _. apply (strip_prefix_ci_has _ _ _ _ Hstrip).
  - simpl. set_solver.
  - done.
  - vm_compute. lia.
Qed.

Lemma match_handler_needs s n :
  Validation.match_handler s = Some n → "="%char ∈ list_ascii_of_string s.
Proof.
  unfold Validation.match_handler.
  destruct (Validation.strip_prefix_ci "on" s) as [rest|] eqn:Hstrip; [|done]. simpl.
  destruct (Validation.span Validation.is_word rest =? 0); [done|].
  destruct (Validation.skip _ (Validation.skip _ rest)) as [|c tail] eqn:Hskip; [done|].
  destruct (decide (c = "="%char)) as [->|Hne].
  - intros _. apply (strip_prefix_ci_chars _ _ _ _ Hstrip).
    eapply skip_chars, skip_chars. rewrite Hskip. simpl. set_solver.
  - destruct c as [[] [] [] [] [] [] [] []]; try done.
Qed.

Lemma remove_all_nothing matcher c s :
  (∀ t n, matcher t = Some n → c ∈ list_ascii_of_string t) →
  c ∉ list_ascii_of_string s →
  Validation.remove_all matcher s = s.
Proof.
  intros Hneeds Hfree. apply replace_from_nothing. intros n.
  destruct (matcher (Validation.skip n s)) as [k|] eqn:Hm; [|done].
  exfalso. apply Hfree. eapply skip_chars, Hneeds. done.
Qed.

Lemma sanitizeMarkdown_shortens content :
  String.length (Validation.sanitizeMarkdown content) ≤ String.length content.
Proof.
  unfold Validation.sanitizeMarkdown, Validation.remove_all.
  etrans; [apply trim_length|].
  etrans; [apply replace_from_length|].
  etrans; [apply replace_from_length|]. apply replace_from_length.
Qed.

Lemma sanitizeMarkdown_plain content :
  "<"%char ∉ list_ascii_of_string content →
  ":"%char ∉ list_ascii_of_string content →
  "="%char ∉ list_ascii_of_string content →
  Validation.sanitizeMarkdown content = Js.trim content.
Proof.
  intros Hlt Hcolon Heq. unfold Validation.sanitizeMarkdown.
  rewrite (remove_all_nothing Validation.match_script "<" content)
    by (done || apply match_script_needs).
  rewrite (remove_all_nothing Validation.match_javascript ":" content)
    by (done || apply match_javascript_needs).
  rewrite (remove_all_nothing Validation.match_handler "=" content)
    by (done || apply match_handler_needs).
  done.
Qed.

Lemma trim_start_sublist s :
  list_ascii_of_string (Js.trim_start s) `sublist_of` list_ascii_of_string s.
Proof.
  induction s as [|c s IH]; simpl; [done|].
  destruct (Js.is_space c); [by apply sublist_cons|done].
Qed.

Lemma trim_end_sublist s :
  list_ascii_of_string (Js.trim_end s) `sublist_of` list_ascii_of_string s.
Proof.
  induction s as [|c s IH]; simpl; [done|].
  destruct (Js.trim_end s) as [|d t] eqn:Ht.
  - destruct (Js.is_space c); simpl.
    + apply sublist_nil_l.
    + by apply sublist_skip.
  - simpl. by apply sublist_skip.
Qed.

Lemma replace_from_sublist matcher pending s :
  list_ascii_of_string (Validation.replace_from matcher pending s)
    `sublist_of` list_ascii_of_string s.
Proof.
  revert pending. induction s as [|c s IH]; intros pending; simpl; [done|].
  destruct pending as [|n]; [|by apply sublist_cons].
  destruct (matcher (String c s)) as [[|n]|]; simpl;
    [by apply sublist_skip|by apply sublist_cons|by apply sublist_skip].
Qed.

Lemma sanitizeMarkdown_sublist content :
  list_ascii_of_string (Validation.sanitizeMarkdown content)
    `sublist_of` list_ascii_of_string content.
Proof.
  unfold Validation.sanitizeMarkdown, Validation.remove_all, Js.trim.
  etrans; [apply trim_end_sublist|].
  etrans; [apply trim_start_sublist|].
  etrans; [apply replace_from_sublist|].
  etrans; [apply replace_from_sublist|]. apply replace_from_sublist.
Qed.

(** X16.  [sanitizeMarkdown] only takes characters away: what it
    returns is the content with some of its characters left out, in the
    same order, and so never longer.  A content without [<], [:] and [=]
    has nothing that the three expressions match, and is only trimmed. *)
Theorem sanitizeMarkdown_only_removes content :
  list_ascii_of_string (Validation.sanitizeMarkdown content)
    `sublist_of` list_ascii_of_string content ∧
  String.length (Validation.sanitizeMarkdown content) ≤ String.length content ∧
  ("<"%char ∉ list_ascii_of_string content →
   ":"%char ∉ list_ascii_of_string content →
   "="%char ∉ list_ascii_of_string content →
   Validation.sanitizeMarkdown content = Js.trim content).
Proof.
  split; [apply sanitizeMarkdown_sublist|].
  split; [apply sanitizeMarkdown_shortens|]. apply sanitizeMarkdown_plain.
Qed.

Lemma sanitizeMarkdown_only_removes_witness :
  ("<"%char ∉ list_ascii_of_string "  # Hello, world  ") ∧
  Validation.sanitizeMarkdown "  # Hello, world  " = "# Hello, world".
Proof.
  assert (∀ c : ascii, bool_decide (c ∉ list_ascii_of_string "  # Hello, world  ") = true →
                       c ∉ list_ascii_of_string "  # Hello, world  ") as Hfree.
  { intros c. apply bool_decide_eq_true_1. }
  split; [apply Hfree; reflexivity|].
  rewrite (proj2 (proj2 (sanitizeMarkdown_only_removes "  # Hello, world  ")));
    [reflexivity|apply Hfree; reflexivity..].
Defined.

Lemma string_length_append s t : String.length (s +:+ t) = String.length s + String.length t.
Proof. induction s as [|c s IH]; simpl; [done|]. by rewrite IH. Qed.

Lemma trim_end_append s t :
  Js.trim_end t = t → t ≠ EmptyString → Js.trim_end (s +:+ t) = s +:+ t.
Proof.
  intros Ht Hne. induction s as [|c s IH]; [done|].
  change (String c s +:+ t) with (String c (s +:+ t)).
  cbn [Js.trim_end]. rewrite IH.
  destruct (s +:+ t) eqn:Hst; [|done].
  destruct s; simpl in Hst; [done|discriminate].
Qed.

Lemma find_closing_tag x :
  "<"%char ∉ list_ascii_of_string x →
  Validation.find_ci "</script>" (x +:+ "</script>") = Some (String.length x).
Proof.
  induction x as [|c x IH]; intros Hfree; [reflexivity|].
  assert (c ≠ "<"%char) as Hc by (intros ->; apply Hfree; simpl; set_solver).
  assert ("<"%char ∉ list_ascii_of_string x) as Hx
    by (intros Hin; apply Hfree; simpl; set_solver).
  change (String c x +:+ "</script>") with (String c (x +:+ "</script>")).
  cbn [Validation.find_ci Validation.strip_prefix_ci].
  rewrite decide_False.
  - rewrite (IH Hx). done.
  - intros Heq. apply Hc. apply (fold_case_symbol "<" c); try done. vm_compute. lia.
Qed.

Lemma match_script_element x :
  "<"%char ∉ list_ascii_of_string x →
  Validation.match_script ("<script>" +:+ x +:+ "</script>") =
    Some (S (16 + String.length x)).
Proof.
  intros Hfree. unfold Validation.match_script.
  change ("<script>" +:+ x +:+ "</script>")
    with (String "<" (String "s" (String "c" (String "r" (String "i" (String "p"
           (String "t" (String ">" (x +:+ "</script>"))))))))).
  cbn [Validation.strip_prefix_ci]. rewrite !decide_True by reflexivity.
  cbn [mbind option_bind Validation.find_char]. rewrite decide_True by reflexivity.
  cbn [mbind option_bind Validation.skip]. rewrite (find_closing_tag x Hfree).
  cbn [mbind option_bind]. f_equal. lia.
Qed.

Lemma sanitizeMarkdown_script_element x :
  "<"%char ∉ list_ascii_of_string x →
  Validation.sanitizeMarkdown ("<script>" +:+ x +:+ "</script>") = EmptyString.
Proof.
  intros Hfree. unfold Validation.sanitizeMarkdown.
  assert (Validation.remove_all Validation.match_script
            ("<script>" +:+ x +:+ "</script>") = EmptyString) as ->; [|reflexivity].
  unfold Validation.remove_all.
  pose proof (match_script_element x Hfree) as Hm.
  change ("<script>" +:+ x +:+ "</script>")
    with (String "<" ("script>" +:+ x +:+ "</script>")) in *.
  cbn [Validation.replace_from]. rewrite Hm.
  apply replace_from_pending. rewrite !string_length_append. simpl. lia.
Qed.

(** X17.  [validatePresentationRequest] checks the minimum of ten
    characters on the content as it arrives and sanitises afterwards: a
    content that is one [script] element, of whatever length, passes the
    check, is emptied by [sanitizeMarkdown], and goes on to the handler as
    the empty string. *)
Theorem script_element_is_forwarded_empty body x :
  content body = "<script>" +:+ x +:+ "</script>" →
  "<"%char ∉ list_ascii_of_string x →
  Validation.sanitizeMarkdown (content body) = EmptyString ∧
  Validation.validatePresentationRequest Validation.sanitizeMarkdown body =
    inr {| content := EmptyString; title := title body; theme := theme body;
           config := config body; ttl := ttl body; customCSS := customCSS body;
           frontmatter := frontmatter body |}.
Proof.
  intros Hcontent Hfree.
  pose proof (sanitizeMarkdown_script_element x Hfree) as Hempty.
  rewrite <- Hcontent in Hempty. split; [done|].
  unfold Validation.validatePresentationRequest. rewrite Hempty.
  rewrite decide_False by (by rewrite Hcontent).
  assert (Js.trim (content body) = content body) as ->.
  { rewrite Hcontent. unfold Js.trim.
    change (Js.trim_start ("<script>" +:+ x +:+ "</script>"))
      with ("<script>" +:+ x +:+ "</script>").
    apply trim_end_append; [by apply trim_end_append|].
    destruct x; done. }
  rewrite Hcontent, !string_length_append. simpl.
  destruct (String.length x + 9) as [|[|n]] eqn:Hlen; [lia|lia|done].
Qed.

Lemma script_element_is_forwarded_empty_witness :
  ("<"%char ∉ list_ascii_of_string "alert(1)") ∧
  Validation.validatePresentationRequest Validation.sanitizeMarkdown
    {| content := "<script>alert(1)</script>"; title := None; theme := None;
       config := None; ttl := None; customCSS := None; frontmatter := None |} =
    inr {| content := EmptyString; title := None; theme := None;
           config := None; ttl := None; customCSS := None; frontmatter := None |}.
Proof.
  assert ("<"%char ∉ list_ascii_of_string "alert(1)") as Hfree.
  { apply (bool_decide_eq_true_1 _). reflexivity. }
  split; [exact Hfree|].
  exact (proj2 (script_element_is_forwarded_empty
                  {| content := "<script>alert(1)</script>"; title := None; theme := None;
                     config := None; ttl := None; customCSS := None; frontmatter := None |}
                  "alert(1)" eq_refl Hfree)).
Defined.

(** ** The error middleware *)

Lemma errorHandler_run next e w :
  ∃ answer,
    Routes.errorHandler false next e w = (logged LError "Request error" w, inr answer) ∧
    match e with
    | AppError name st code message =>
        answer = {| Validation.statusCode := st;
                    Validation.payload := Validation.ApiError name message code [] |}
    | BodySyntaxError _ =>
        answer = {| Validation.statusCode := 400;
                    Validation.payload :=
                      Validation.ApiError "Invalid JSON" "Request body contains invalid JSON"
                                          "INVALID_JSON" [] |}
    | SystemError code _ =>
        answer =
          (if decide (code = "EADDRINUSE")
           then {| Validation.statusCode := 503;
                   Validation.payload :=
                     Validation.ApiError "Port In Use" "The requested port is already in use"
                                         "PORT_IN_USE" [] |}
           else if decide (code = "ENOENT")
           then {| Validation.statusCode := 500;
                   Validation.payload :=
                     Validation.ApiError "File Not Found"
                                         "Required file or directory not found"
                                         "FILE_NOT_FOUND" [] |}
           else if decide (code = "ENOSPC")
           then {| Validation.statusCode := 507;
                   Validation.payload :=
                     Validation.ApiError "Insufficient Storage" "No space left on device"
                                         "INSUFFICIENT_STORAGE" [] |}
           else {| Validation.statusCode := 500;
                   Validation.payload :=
                     Validation.ApiError "Internal Server Error"
                                         "An unexpected error occurred"
                                         "INTERNAL_ERROR" [] |})
    | PlainError _ =>
        answer = {| Validation.statusCode := 500;
                    Validation.payload :=
                      Validation.ApiError "Internal Server Error"
                                          "An unexpected error occurred"
                                          "INTERNAL_ERROR" [] |}
    end.
Proof.
  unfold Routes.errorHandler, bind, logger, modify, ret. cbn [fst snd].
  destruct e as [m|code m|name st code m|m]; [by eexists| |by eexists|by eexists].
  repeat case_decide; by eexists.
Qed.

(** X18.  A handler wrapped by [asyncHandler] that sends its
    response with its last statement always answers: what it returns is
    passed on, and what it throws is answered by [errorHandler], which
    logs and changes nothing else.  An [AppError] is answered with its
    own status, code and message; a [SyntaxError] that carries a [body]
    with 400 and the code [INVALID_JSON]; any other error with a status
    of 500, 503 or 507 and a text fixed by its [code], so that its message
    never reaches the client.  When the response was sent already,
    [errorHandler] answers and logs nothing and hands the error on to
    [next]. *)
Theorem asyncHandler_always_answers fn w :
  let r := Routes.asyncHandler fn w in
  (∃ answer, r.2 = inr answer) ∧
  (∀ w' answer, fn w = (w', inr answer) → r = (w', inr answer)) ∧
  (∀ w' e, fn w = (w', inl e) →
     r.1 = logged LError "Request error" w' ∧
     match e with
     | AppError name st code message =>
         r.2 = inr {| Validation.statusCode := st;
                      Validation.payload := Validation.ApiError name message code [] |}
     | BodySyntaxError _ =>
         r.2 = inr {| Validation.statusCode := 400;
                      Validation.payload :=
                        Validation.ApiError "Invalid JSON"
                          "Request body contains invalid JSON" "INVALID_JSON" [] |}
     | PlainError _ | SystemError _ _ =>
         ∃ answer,
           r.2 = inr answer ∧
           (Validation.statusCode answer = 500 ∨ Validation.statusCode answer = 503 ∨
            Validation.statusCode answer = 507) ∧
           ∀ e', match e, e' with
                 | PlainError _, PlainError _ => True
                 | SystemError code _, SystemError code' _ => code = code'
                 | _, _ => False
                 end →
                 (Routes.errorHandler false throw e' w').2 = inr answer
     end) ∧
  (∀ next e w', Routes.errorHandler true next e w' = next e w').
Proof.
  cbv zeta. unfold Routes.asyncHandler, try_catch.
  destruct (fn w) as [w1 [e|answer]] eqn:Hfn.
  - destruct (errorHandler_run throw e w1) as (answer & Hrun & Hanswer). rewrite Hrun.
    split; [by eexists|]. split; [by intros ? ? [=]|].
    split; [|done].
    intros w' e' [= <- <-]. split; [done|].
    destruct e as [m|code m|name st code m|m].
    + exists answer. subst answer. split; [done|]. split; [by left|].
      by intros [m'| | |].
    + exists answer. split; [done|]. split.
      * subst answer. repeat case_decide; simpl; auto.
      * intros [|code' m'| |]; try done. intros <-.
        destruct (errorHandler_run throw (SystemError code m') w1) as (? & -> & ->).
        by subst answer.
    + by subst answer.
    + by subst answer.
  - split; [by eexists|]. split; [by intros ? ? [= <- <-]|].
    split; [by intros ? ? [=]|done].
Qed.

Lemma asyncHandler_always_answers_witness :
  (∃ answer,
     (Routes.asyncHandler (throw (SystemError "EBUSY" "resource busy or locked"))
        initialWorld).2 = inr answer ∧
     (Validation.statusCode answer = 500 ∨ Validation.statusCode answer = 503 ∨
      Validation.statusCode answer = 507)) ∧
  (Routes.asyncHandler (throw (BodySyntaxError "Unexpected token } in JSON at position 12"))
     initialWorld).2 =
    inr {| Validation.statusCode := 400;
           Validation.payload :=
             Validation.ApiError "Invalid JSON" "Request body contains invalid JSON"
               "INVALID_JSON" [] |}.
Proof.
  split.
  - destruct (proj1 (proj2 (proj2 (asyncHandler_always_answers
                              (throw (SystemError "EBUSY" "resource busy or locked"))
                              initialWorld)))
                initialWorld (SystemError "EBUSY" "resource busy or locked") eq_refl)
      as (_ & answer & Hres & Hstatus & _).
    exists answer. split; [exact Hres|exact Hstatus].
  - exact (proj2 (proj1 (proj2 (proj2 (asyncHandler_always_answers
                    (throw (BodySyntaxError "Unexpected token } in JSON at position 12"))
                    initialWorld)))
                    initialWorld
                    (BodySyntaxError "Unexpected token } in JSON at position 12") eq_refl)).
Defined.

(** ** The route that creates *)

Lemma getHealthStatus_run cfg env w :
  ∃ w2 health,
    HealthMonitor.getHealthStatus cfg env w = (w2, inr health) ∧
    same_resources w w2 ∧
    (HealthMonitor.status health = HealthMonitor.Unhealthy ↔ unhealthy cfg env w) ∧
    (¬ unhealthy cfg env w →
     w2 = logged LDebug "Health check completed" w ∧
     HealthMonitor.availablePorts health = PortManager.getAvailablePortCount cfg w).
Proof.
  unfold HealthMonitor.getHealthStatus, unhealthy.
  unfold HealthMonitor.determineOverallStatus, bind, get, logger, modify, ret.
  destruct (health_probe env) as [e|m d]; cbn [fst snd].
  { eexists _, _. split; [reflexivity|]. split; [by repeat split|].
    split; [done|]. by intros []. }
  destruct (90 <? m)%Z eqn:Hm; cbn [fst snd].
  { apply Z.ltb_lt in Hm. eexists _, _. split; [reflexivity|].
    split; [by repeat split|]. split; [split; [auto|done]|]. intros Hn. destruct Hn. auto. }
  apply Z.ltb_ge in Hm.
  destruct (95 <? d)%Z eqn:Hd; cbn [fst snd].
  { apply Z.ltb_lt in Hd. eexists _, _. split; [reflexivity|].
    split; [by repeat split|]. split; [split; [auto|done]|]. intros Hn. destruct Hn. auto. }
  apply Z.ltb_ge in Hd.
  destruct (HealthMonitor.utilizationAbove90 cfg w) eqn:Hu; cbn [fst snd].
  { eexists _, _. split; [reflexivity|].
    split; [by repeat split|]. split; [split; [auto|done]|]. intros Hn. destruct Hn. auto. }
  eexists _, _. split; [reflexivity|]. split; [by repeat split|]. split.
  - split; [done|]. intros [?|[?|?]]; [lia|lia|done].
  - intros _. by split.
Qed.

Lemma createHandler_run cfg env request w :
  let w1 := logged LInfo "Creating new presentation" w in
  (unhealthy cfg env w →
   ∃ w2, Routes.createHandler cfg env request w =
           (w2, inl (ServiceUnavailableError "Service is currently unhealthy")) ∧
         same_resources w w2) ∧
  (¬ unhealthy cfg env w →
   Routes.createHandler cfg env request w =
     let w2 := logged LDebug "Health check completed" w1 in
     if decide (PortManager.getAvailablePortCount cfg w = 0%Z)
     then (w2, inl (InsufficientResourcesError "No available ports for new presentations"))
     else match PresentationManager.createPresentation cfg env request w2 with
          | (w3, inl e) => (w3, inl e)
          | (w3, inr response) =>
              (logged LInfo "Presentation created successfully" w3,
               inr {| Validation.statusCode := 201;
                      Validation.payload := Validation.Created response |})
          end).
Proof.
  intros w1.
  destruct (getHealthStatus_run cfg env w1) as (w2 & health & Hrun & Hsame & Hiff & Hok).
  change (unhealthy cfg env w1) with (unhealthy cfg env w) in *.
  change (PortManager.getAvailablePortCount cfg w1)
    with (PortManager.getAvailablePortCount cfg w) in *.
  assert (Routes.createHandler cfg env request w =
          if decide (HealthMonitor.status health = HealthMonitor.Unhealthy)
          then (w2, inl (ServiceUnavailableError "Service is currently unhealthy"))
          else if decide (HealthMonitor.availablePorts health = 0%Z)
          then (w2, inl (InsufficientResourcesError
                           "No available ports for new presentations"))
          else match PresentationManager.createPresentation cfg env request w2 with
               | (w3, inl e) => (w3, inl e)
               | (w3, inr response) =>
                   (logged LInfo "Presentation created successfully" w3,
                    inr {| Validation.statusCode := 201;
                           Validation.payload := Validation.Created response |})
               end) as Heq.
  { unfold Routes.createHandler. unfold bind at 1. unfold logger at 1, modify at 1.
    cbn [fst snd]. unfold bind at 1.
    change (set_logs _ w) with w1. rewrite Hrun. by repeat case_decide. }
  split.
  - intros Hbad. exists w2. rewrite Heq, decide_True by by apply Hiff. split; [done|].
    destruct Hsame as (? & ? & ? & ?). by repeat split.
  - intros Hgood. rewrite Heq. destruct (Hok Hgood) as [-> ->].
    rewrite decide_False; [done|]. intros Hst. by apply Hgood, Hiff.
Qed.

Lemma post_presentations_run sanitize cfg env body w request :
  Validation.generatePPTSchema body = inr request →
  10 ≤ String.length (Js.trim (content request)) →
  Routes.post_presentations sanitize cfg env body w =
    Routes.asyncHandler
      (Routes.createHandler cfg env
         {| content := sanitize (content request); title := title request;
            theme := theme request; config := config request; ttl := ttl request;
            customCSS := customCSS request; frontmatter := frontmatter request |}) w.
Proof.
  intros Hschema Hlen.
  unfold Routes.post_presentations, Validation.validateBody. rewrite Hschema.
  unfold bind at 1. unfold ret at 1. cbn [fst snd].
  unfold Validation.validatePresentationRequest.
  rewrite decide_False by (intros Hempty; rewrite Hempty in Hlen; simpl in Hlen; lia).
  replace (String.length (Js.trim (content request)) <? 10) with false
    by (symmetry; apply Nat.ltb_ge; lia).
  done.
Qed.

Lemma no_free_port_unhealthy cfg env w :
  (PortManager.startPort cfg ≤ PortManager.endPort cfg)%Z →
  PortManager.getAvailablePortCount cfg w = 0%Z →
  unhealthy cfg env w.
Proof.
  intros Hrange Hnone. unfold unhealthy. destruct (health_probe env); [done|].
  right. right. unfold HealthMonitor.utilizationAbove90.
  unfold PortManager.getAvailablePortCount in Hnone.
  replace (0 <? PortManager.endPort cfg - PortManager.startPort cfg + 1)%Z with true
    by (symmetry; apply Z.ltb_lt; lia).
  apply Z.leb_le. lia.
Qed.

(** X19.  [POST /presentations] with a body that the schema accepts
    and whose trimmed content has ten characters or more always answers.
    When the health check finds the service unhealthy the answer is 503
    and nothing but the log changes; this is so whenever no port of a
    range that is not empty is free, since all ports allocated is more
    than 90 % of them: the answer 507 of the next check, for no available
    port, is then never given, and is left to a range that is empty.
    When the service is healthy and some port is available but the
    registry is full the answer is 500 with the text of an unexpected
    error, nothing but the log changing.  Otherwise the request, with its
    content sanitised, goes to [createPresentation], and what that
    returns is sent with status 201. *)
Theorem post_presentations_answers sanitize cfg env body w request :
  Validation.generatePPTSchema body = inr request →
  10 ≤ String.length (Js.trim (content request)) →
  let forwarded :=
    {| content := sanitize (content request); title := title request;
       theme := theme request; config := config request; ttl := ttl request;
       customCSS := customCSS request; frontmatter := frontmatter request |} in
  let r := Routes.post_presentations sanitize cfg env body w in
  (∃ answer, r.2 = inr answer) ∧
  (∃ w2 health,
     HealthMonitor.getHealthStatus cfg env w = (w2, inr health) ∧
     (HealthMonitor.status health = HealthMonitor.Unhealthy ↔ unhealthy cfg env w)) ∧
  (unhealthy cfg env w →
   same_resources w r.1 ∧
   r.2 = inr {| Validation.statusCode := 503;
                Validation.payload :=
                  Validation.ApiError "ServiceUnavailableError"
                    "Service is currently unhealthy" "SERVICE_UNAVAILABLE" [] |}) ∧
  ((PortManager.startPort cfg ≤ PortManager.endPort cfg)%Z →
   PortManager.getAvailablePortCount cfg w = 0%Z →
   unhealthy cfg env w) ∧
  (¬ unhealthy cfg env w →
   PortManager.getAvailablePortCount cfg w = 0%Z →
   same_resources w r.1 ∧
   r.2 = inr {| Validation.statusCode := 507;
                Validation.payload :=
                  Validation.ApiError "InsufficientResourcesError"
                    "No available ports for new presentations"
                    "INSUFFICIENT_RESOURCES" [] |}) ∧
  (¬ unhealthy cfg env w →
   PortManager.getAvailablePortCount cfg w ≠ 0%Z →
   (maxConcurrentPresentations cfg ≤ Z.of_nat (size (instances w)))%Z →
   same_resources w r.1 ∧
   r.2 = inr {| Validation.statusCode := 500;
                Validation.payload :=
                  Validation.ApiError "Internal Server Error"
                    "An unexpected error occurred" "INTERNAL_ERROR" [] |}) ∧
  (¬ unhealthy cfg env w →
   PortManager.getAvailablePortCount cfg w ≠ 0%Z →
   ∀ w' response,
     PresentationManager.createPresentation cfg env forwarded
       (logged LDebug "Health check completed"
          (logged LInfo "Creating new presentation" w)) = (w', inr response) →
     r = (logged LInfo "Presentation created successfully" w',
          inr {| Validation.statusCode := 201;
                 Validation.payload := Validation.Created response |})).
Proof.
  intros Hschema Hlen. cbv zeta.
  rewrite (post_presentations_run sanitize cfg env body w request Hschema Hlen).
  set (forwarded := {| content := sanitize (content request) |}).
  destruct (createHandler_run cfg env forwarded w) as [Hbad Hgood]. cbv zeta in Hgood.
  unfold Routes.asyncHandler, try_catch.
  split.
  { destruct (Routes.createHandler cfg env forwarded w) as [w2 [e|answer]]; [|by eexists].
    destruct (errorHandler_run throw e w2) as (answer & -> & _). by eexists. }
  split.
  { destruct (getHealthStatus_run cfg env w) as (w2 & health & Hrun & _ & Hiff & _).
    by exists w2, health. }
  split.
  { intros Hun. destruct (Hbad Hun) as (w2 & -> & Hsame).
    destruct Hsame as (? & ? & ? & ?). by repeat split. }
  split; [apply no_free_port_unhealthy|].
  split.
  { intros Hok Hnone. rewrite (Hgood Hok), decide_True by done. by repeat split. }
  split.
  { intros Hok Hsome Hfull. rewrite (Hgood Hok), decide_False by done.
    rewrite create_at_capacity by done. by repeat split. }
  intros Hok Hsome w' response Hrun.
  rewrite (Hgood Hok), decide_False by done. by rewrite Hrun.
Qed.

Lemma post_presentations_answers_witness :
  Validation.generatePPTSchema (Js.JObj [("content", Js.JStr "# Hello, world")]) =
    inr {| content := "# Hello, world"; title := None; theme := None; config := None;
           ttl := None; customCSS := None; frontmatter := None |} ∧
  (Routes.post_presentations Validation.sanitizeMarkdown one_slot_config later_host
     (Js.JObj [("content", Js.JStr "# Hello, world")]) one_ready).2 =
    inr {| Validation.statusCode := 500;
           Validation.payload :=
             Validation.ApiError "Internal Server Error"
               "An unexpected error occurred" "INTERNAL_ERROR" [] |} ∧
  PortManager.getAvailablePortCount three_ports_config three_held = 0%Z ∧
  (Routes.post_presentations Validation.sanitizeMarkdown three_ports_config later_host
     (Js.JObj [("content", Js.JStr "# Hello, world")]) three_held).2 =
    inr {| Validation.statusCode := 503;
           Validation.payload :=
             Validation.ApiError "ServiceUnavailableError"
               "Service is currently unhealthy" "SERVICE_UNAVAILABLE" [] |}.
Proof.
  split; [reflexivity|]. split; [|split; [reflexivity|]].
  - destruct (post_presentations_answers Validation.sanitizeMarkdown one_slot_config
                later_host (Js.JObj [("content", Js.JStr "# Hello, world")]) one_ready
                _ eq_refl) as (_ & _ & _ & _ & _ & Hfull & _).
    { vm_compute. lia. }
    apply Hfull.
    + intros [H|[H|H]]; [by vm_compute in H|by vm_compute in H|by vm_compute in H].
    + vm_compute. discriminate.
    + vm_compute. discriminate.
  - destruct (post_presentations_answers Validation.sanitizeMarkdown three_ports_config
                later_host (Js.JObj [("content", Js.JStr "# Hello, world")]) three_held
                _ eq_refl) as (_ & _ & Hbad & Hnone & _).
    { vm_compute. lia. }
    apply Hbad. apply Hnone; [by vm_compute|reflexivity].
Defined.

(** ** The routes that delete, show and list *)

Lemma validateParams_run ident w :
  Validation.validateParams ident w =
    if Validation.id_pattern ident
    then (w, inr (inr ident))
    else (logged LWarn "Parameter validation failed" w,
          inr (inl {| Validation.statusCode := 400;
                      Validation.payload :=
                        Validation.ApiError "Validation Error"
                          "Parameter validation failed" "VALIDATION_ERROR"
                          [{| Validation.field := "id";
                              Validation.rule :=
                                if decide (ident = EmptyString) then "string.empty"
                                else "string.pattern.base" |}] |})).
Proof.
  unfold Validation.validateParams, Validation.paramsSchema, Validation.joi_string.
  destruct (decide (ident = EmptyString)) as [->|Hne]; [done|].
  simpl. by destruct (Validation.id_pattern ident).
Qed.

Lemma delete_presentation_run env ident w :
  Routes.delete_presentation env ident w =
    if Validation.id_pattern ident
    then Routes.asyncAnswer (Routes.deleteHandler env ident) w
    else (logged LWarn "Parameter validation failed" w,
          inr (Routes.Refused
                 {| Validation.statusCode := 400;
                    Validation.payload :=
                      Validation.ApiError "Validation Error"
                        "Parameter validation failed" "VALIDATION_ERROR"
                        [{| Validation.field := "id";
                            Validation.rule :=
                              if decide (ident = EmptyString) then "string.empty"
                              else "string.pattern.base" |}] |})).
Proof.
  unfold Routes.delete_presentation. unfold bind at 1. rewrite validateParams_run.
  by destruct (Validation.id_pattern ident).
Qed.

Lemma get_presentation_run protocol host ident w :
  Routes.get_presentation protocol host ident w =
    if Validation.id_pattern ident
    then Routes.asyncAnswer (Routes.detailsHandler protocol host ident) w
    else (logged LWarn "Parameter validation failed" w,
          inr (Routes.Refused
                 {| Validation.statusCode := 400;
                    Validation.payload :=
                      Validation.ApiError "Validation Error"
                        "Parameter validation failed" "VALIDATION_ERROR"
                        [{| Validation.field := "id";
                            Validation.rule :=
                              if decide (ident = EmptyString) then "string.empty"
                              else "string.pattern.base" |}] |})).
Proof.
  unfold Routes.get_presentation. unfold bind at 1. rewrite validateParams_run.
  by destruct (Validation.id_pattern ident).
Qed.

(** X20.  [DELETE /presentations/:id] answers 400 to an id
    that has not the shape of an id and 404 to an id that is not
    registered, in both cases without touching anything but the log.  For
    a registered instance whose directory the host removes it answers 204
    and the instance, its port and its directory are gone; when the
    removal fails it answers with an error although the port has been
    released, and the instance stays registered. *)
Theorem delete_presentation_answers env ident w :
  let r := Routes.delete_presentation env ident w in
  (Validation.id_pattern ident = false →
   same_resources w r.1 ∧
   ∃ answer, r.2 = inr (Routes.Refused answer) ∧ Validation.statusCode answer = 400 ∧
             Validation.response_code answer = Some "VALIDATION_ERROR") ∧
  (Validation.id_pattern ident = true →
   PresentationManager.getPresentation ident w = None →
   same_resources w r.1 ∧
   r.2 = inr (Routes.Refused
                {| Validation.statusCode := 404;
                   Validation.payload :=
                     Validation.ApiError "NotFoundError"
                       ("Presentation with ID " +:+ ident +:+ " not found")
                       "NOT_FOUND" [] |})) ∧
  (Validation.id_pattern ident = true →
   ∀ i, PresentationManager.getPresentation ident w = Some i →
        match remove_fault env (projectPath i) with
        | None =>
            r.2 = inr Routes.NoContent ∧
            instances r.1 = delete ident (instances w) ∧
            allocatedPorts r.1 = allocatedPorts w ∖ {[port i]} ∧
            disk r.1 = delete (projectPath i) (disk w)
        | Some e =>
            (∃ answer, r.2 = inr (Routes.Refused answer)) ∧
            instances r.1 = instances w ∧
            allocatedPorts r.1 = allocatedPorts w ∖ {[port i]} ∧
            disk r.1 = disk w
        end).
Proof.
  cbv zeta. unfold PresentationManager.getPresentation.
  rewrite delete_presentation_run.
  split.
  { intros ->. cbn [fst snd]. split; [by repeat split|].
    eexists. split; [reflexivity|]. by split. }
  split.
  { intros -> Hnone. cbn [fst snd].
    unfold Routes.asyncAnswer, Routes.deleteHandler, try_catch, bind.
    rewrite delete_unknown by done. cbn [fst snd]. unfold throw.
    match goal with |- context [Routes.errorHandler false ?n ?e0 ?w0] =>
      destruct (errorHandler_run n e0 w0) as (answer & -> & ->) end.
    split; [by repeat split|done]. }
  intros -> i Hi. cbn [fst snd].
  unfold Routes.asyncAnswer, Routes.deleteHandler, try_catch, bind.
  destruct (delete_known env ident w i Hi) as (Hports & _ & _ & Hcase).
  destruct (PresentationManager.deletePresentation env ident w) as [w1 res].
  cbn [fst snd] in *.
  destruct (remove_fault env (projectPath i)) as [e|].
  - destruct Hcase as (-> & Hinst & Hdisk).
    match goal with |- context [Routes.errorHandler false ?n ?e0 ?w0] =>
      destruct (errorHandler_run n e0 w0) as (answer & -> & _) end. cbn [fst snd].
    split; [by eexists|]. done.
  - destruct Hcase as (-> & Hinst & Hdisk). cbn [fst snd].
    unfold logger, modify, ret. cbn [fst snd]. done.
Qed.

Lemma delete_presentation_answers_witness :
  Validation.id_pattern "slidev-V1StGXR8_Z5j" = true ∧
  PresentationManager.getPresentation "slidev-V1StGXR8_Z5j" one_ready = Some hello_instance ∧
  (Routes.delete_presentation later_host "slidev-V1StGXR8_Z5j" one_ready).2 =
    inr Routes.NoContent ∧
  (∃ answer,
     (Routes.delete_presentation busy_disk_host "slidev-V1StGXR8_Z5j" one_ready).2 =
       inr (Routes.Refused answer)).
Proof.
  split; [reflexivity|]. split; [reflexivity|]. split.
  - exact (proj1 (proj2 (proj2 (delete_presentation_answers later_host
                                  "slidev-V1StGXR8_Z5j" one_ready))
                    eq_refl hello_instance eq_refl)).
  - exact (proj1 (proj2 (proj2 (delete_presentation_answers busy_disk_host
                                  "slidev-V1StGXR8_Z5j" one_ready))
                    eq_refl hello_instance eq_refl)).
Defined.

(** X21.  The two [GET] routes on presentations only read: nothing
    but the log changes.  The list has one element per registered
    instance, [total] is their number and [active] the number of those
    that are ready, which is all of them in a world the service can
    reach.  The details of an id that has not the shape of an id are
    refused with 400, those of an id that is not registered with 404, and
    those of a registered instance carry its state and the URLs on its
    port. *)
Theorem get_routes_only_read cfg protocol host ident w :
  let l := Routes.get_presentations protocol host w in
  let r := Routes.get_presentation protocol host ident w in
  same_resources w l.1 ∧ same_resources w r.1 ∧
  (∃ presentations active,
     l.2 = inr (Routes.Listed presentations (size (instances w)) active) ∧
     Routes.sum_id <$> presentations = id <$> PresentationManager.getAllPresentations w ∧
     active ≤ size (instances w) ∧
     (reachable cfg w → active = size (instances w))) ∧
  (Validation.id_pattern ident = false →
   ∃ answer, r.2 = inr (Routes.Refused answer) ∧ Validation.statusCode answer = 400) ∧
  (Validation.id_pattern ident = true →
   PresentationManager.getPresentation ident w = None →
   r.2 = inr (Routes.Refused
                {| Validation.statusCode := 404;
                   Validation.payload :=
                     Validation.ApiError "NotFoundError"
                       ("Presentation with ID " +:+ ident +:+ " not found")
                       "NOT_FOUND" [] |})) ∧
  (Validation.id_pattern ident = true →
   ∀ i, PresentationManager.getPresentation ident w = Some i →
        ∃ details,
          r.2 = inr (Routes.Detailed details) ∧
          Routes.det_id details = id i ∧ Routes.det_status details = status i ∧
          Routes.det_createdAt details = createdAt i ∧
          Routes.det_expiresAt details = expiresAt i ∧
          Routes.det_presentation details =
            ((protocol +:+ "://" +:+ host) +:+ ":" +:+ pretty (port i)) +:+ "/1").
Proof.
  cbv zeta. rewrite get_presentation_run.
  assert (length (PresentationManager.getAllPresentations w) = size (instances w)) as Hlen.
  { unfold PresentationManager.getAllPresentations.
    by rewrite length_fmap, length_map_to_list. }
  split; [by repeat split|].
  split.
  { destruct (Validation.id_pattern ident); [|by repeat split].
    unfold Routes.asyncAnswer, Routes.detailsHandler, try_catch, bind, get, throw.
    cbn [fst snd]. destruct (PresentationManager.getPresentation ident w).
    - by repeat split.
    - match goal with |- context [Routes.errorHandler false ?n ?e0 ?w0] =>
      destruct (errorHandler_run n e0 w0) as (answer & -> & _) end. by repeat split. }
  split.
  { unfold Routes.get_presentations, Routes.asyncAnswer, Routes.listHandler, try_catch,
      bind, get, logger, modify, ret. cbn [fst snd]. rewrite Hlen.
    eexists _, _. split; [reflexivity|].
    split; [by rewrite <- list_fmap_compose|].
    split; [rewrite <- Hlen; apply length_filter|].
    intros Hreach. rewrite <- Hlen. apply ready_counts, Forall_forall.
    intros i [k Hi]%elem_of_getAllPresentations.
    by apply (reachable_all_ready cfg w Hreach k i). }
  split.
  { intros ->. eexists. by split. }
  split.
  { intros -> Hnone.
    unfold Routes.asyncAnswer, Routes.detailsHandler, try_catch, bind, get, throw.
    cbn [fst snd]. rewrite Hnone.
    by match goal with |- context [Routes.errorHandler false ?n ?e0 ?w0] =>
      destruct (errorHandler_run n e0 w0) as (answer & -> & ->) end. }
  intros -> i Hi.
  unfold Routes.asyncAnswer, Routes.detailsHandler, try_catch, bind, get, logger, modify, ret.
  cbn [fst snd]. rewrite Hi. cbn [fst snd]. eexists. split; [reflexivity|]. done.
Qed.

Lemma get_routes_only_read_witness :
  Validation.id_pattern "slidev-V1StGXR8_Z5j" = true ∧
  PresentationManager.getPresentation "slidev-V1StGXR8_Z5j" one_ready = Some hello_instance ∧
  PresentationManager.getPresentation "slidev-Uakgb_J5m9g-" one_ready = None ∧
  (Routes.get_presentation "http" "localhost:3001" "slidev-Uakgb_J5m9g-" one_ready).2 =
    inr (Routes.Refused
           {| Validation.statusCode := 404;
              Validation.payload :=
                Validation.ApiError "NotFoundError"
                  "Presentation with ID slidev-Uakgb_J5m9g- not found" "NOT_FOUND" [] |}) ∧
  (∃ details,
     (Routes.get_presentation "http" "localhost:3001" "slidev-V1StGXR8_Z5j" one_ready).2 =
       inr (Routes.Detailed details) ∧
     Routes.det_presentation details = "http://localhost:3001:3002/1").
Proof.
  split; [reflexivity|]. split; [reflexivity|]. split; [reflexivity|]. split.
  - exact (proj1 (proj2 (proj2 (proj2 (proj2
             (get_routes_only_read createDefaultConfig "http" "localhost:3001"
                "slidev-Uakgb_J5m9g-" one_ready))))) eq_refl eq_refl).
  - destruct (proj2 (proj2 (proj2 (proj2 (proj2
                (get_routes_only_read createDefaultConfig "http" "localhost:3001"
                   "slidev-V1StGXR8_Z5j" one_ready))))) eq_refl hello_instance eq_refl)
      as (details & Hres & _ & _ & _ & _ & Hurl).
    exists details. split; [exact Hres|]. rewrite Hurl. reflexivity.
Defined.

Lemma post_cleanup_run env w n :
  (PresentationManager.cleanupExpired env (logged LInfo "Manual cleanup triggered" w)).2 =
    inr n →
  Routes.post_cleanup env w =
    ((PresentationManager.cleanupExpired env (logged LInfo "Manual cleanup triggered" w)).1,
     inr (Routes.CleanupCompleted "Cleanup completed" n)).
Proof.
  unfold Routes.post_cleanup, Routes.asyncAnswer, Routes.cleanupHandler, try_catch, bind.
  unfold logger at 1, modify at 1. cbn [fst snd]. unfold logged, logger, modify.
  cbn [fst snd].
  destruct (PresentationManager.cleanupExpired env _) as [w2 res]. cbn [fst snd].
  by intros ->.
Qed.

(** X22.  [POST /cleanup] always answers 200 with the number
    that [cleanupExpired] returns, which is the number of instances that
    have left the registry; it is never answered by the error
    middleware. *)
Theorem post_cleanup_answers_count env w :
  let r := Routes.post_cleanup env w in
  ∃ cleanedCount,
    r.2 = inr (Routes.CleanupCompleted "Cleanup completed" cleanedCount) ∧
    Routes.answer_status (Routes.CleanupCompleted "Cleanup completed" cleanedCount) = 200 ∧
    size (instances r.1) + cleanedCount = size (instances w) ∧
    ((∀ path, remove_fault env path = None) →
     ∀ ident i, PresentationManager.getPresentation ident w = Some i →
                PresentationManager.getPresentation ident r.1 =
                  if decide (expiresAt i ≤ now env)%Z then None else Some i).
Proof.
  cbv zeta. set (w1 := logged LInfo "Manual cleanup triggered" w).
  destruct (cleanupExpired_count env w1) as (n & Hres & Hsize & _).
  pose proof (cleanupExpired_run env w1) as (_ & _ & Heach).
  rewrite (post_cleanup_run env w n Hres). fold w1. cbn [fst snd].
  exists n. split; [done|]. split; [done|]. split; [done|].
  intros Hfree ident i Hi. unfold PresentationManager.getPresentation in *.
  specialize (Heach ident i Hi). destruct (decide (expiresAt i ≤ now env)%Z).
  - destruct Heach as [-> _]. by rewrite decide_True.
  - by destruct Heach as [-> _].
Qed.

Lemma post_cleanup_answers_count_witness :
  (∀ path, remove_fault later_host path = None) ∧
  PresentationManager.getPresentation "slidev-V1StGXR8_Z5j" two_ready = Some hello_instance ∧
  PresentationManager.getPresentation "slidev-V1StGXR8_Z5j"
    (Routes.post_cleanup later_host two_ready).1 = None.
Proof.
  split; [reflexivity|]. split; [reflexivity|].
  destruct (post_cleanup_answers_count later_host two_ready) as (n & _ & _ & _ & Hall).
  exact (Hall (λ _, eq_refl) "slidev-V1StGXR8_Z5j" hello_instance eq_refl).
Defined.

(** ** What the scaffold writes *)

(** A step that returns, from [P] to [Q]. *)
Lemma run_bind {A B} (m : M A) (k : A → M B) (P Q : World → Prop) R :
  triple P m (λ w r, (∃ a, r = inr a) ∧ Q w) →
  (∀ a, triple Q (k a) R) →
  triple P (bind m k) R.
Proof.
  intros Hm Hk w Hw. unfold bind. specialize (Hm w Hw).
  destruct (m w) as [w1 [e|a]]; simpl in *.
  - by destruct Hm as [[? [=]] _].
  - destruct Hm as [_ HQ]. apply (Hk a w1 HQ).
Qed.

Lemma run_ret {A} (a : A) (P : World → Prop) :
  triple P (ret a) (λ w r, (∃ a, r = inr a) ∧ P w).
Proof. intros w Hw. split; [by eexists|done]. Qed.

Lemma run_logger l s (P : World → Prop) :
  (∀ w f, P w → P (set_logs f w)) →
  triple P (logger l s) (λ w r, (∃ a, r = inr a) ∧ P w).
Proof. intros HP w Hw. split; [by eexists|]. by apply HP. Qed.

Lemma run_put path name e dir :
  triple (λ w, disk w !! path = Some dir) (Fs.put path name e)
         (λ w r, (∃ a, r = inr a) ∧ disk w !! path = Some (<[name := e]> dir)).
Proof.
  intros w Hw. unfold Fs.put, bind, get. rewrite Hw. unfold modify. cbn [fst snd].
  split; [by eexists|]. cbn [disk set_disk]. by rewrite lookup_insert_eq.
Qed.

Lemma run_ensureSubdir path name dir :
  triple (λ w, disk w !! path = Some dir) (Fs.ensureSubdir path name)
         (λ w r, (∃ a, r = inr a) ∧ disk w !! path = Some (<[name := Folder]> dir)).
Proof.
  intros w Hw. unfold Fs.ensureSubdir, modify. cbn [fst snd].
  split; [by eexists|]. cbn [disk set_disk]. by rewrite lookup_insert_eq, Hw.
Qed.

Lemma run_ensureDir path found :
  triple (λ w, disk w !! path = found) (Fs.ensureDir path)
         (λ w r, (∃ a, r = inr a) ∧ disk w !! path = Some (default ∅ found)).
Proof.
  intros w Hw. unfold Fs.ensureDir, modify. cbn [fst snd].
  split; [by eexists|]. cbn [disk set_disk]. rewrite Hw.
  destruct found; simpl; [done|]. by rewrite lookup_insert_eq.
Qed.

Lemma scaffold_contents cfg env req w :
  fs_fault env = None →
  let path := join_path (tempDir cfg) (ProjectGenerator.generateProjectId env) in
  let r := ProjectGenerator.createProjectWithoutDeps cfg env req w in
  r.2 = inr (ProjectGenerator.generateProjectId env, path) ∧
  disk r.1 !! path =
    Some ((if template_valid env then <["node_modules" := Folder]> else λ dir, dir)
            (<["vite.config.js" := File ProjectGenerator.viteConfig]>
               ((match customCSS req with
                 | Some css =>
                     if decide (css = EmptyString) then λ dir, dir
                     else λ dir, <["styles/custom.css" := File css]>
                                   (<["styles" := Folder]> dir)
                 | None => λ dir, dir
                 end)
                  (<["public" := Folder]>
                     (<["components" := Folder]>
                        (<["slides.md" := File (ProjectGenerator.slidesContent req)]>
                           (default ∅ (disk w !! path)))))))).
Proof.
  intros Hfs. cbv zeta.
  set (ident := ProjectGenerator.generateProjectId env).
  set (path := join_path (tempDir cfg) ident).
  match goal with |- _ ∧ _ = Some ?d => set (entries := d) end.
  assert (triple (λ w0, disk w0 !! path = disk w !! path)
            (ProjectGenerator.createProjectWithoutDeps cfg env req)
            (λ w' r, r = inr (ident, path) ∧ disk w' !! path = Some entries)) as Htriple.
  { unfold ProjectGenerator.createProjectWithoutDeps. fold ident. fold path.
    unfold Fs.guarded. rewrite Hfs.
    eapply triple_try_catch
      with (R := λ w' r, r = inr (ident, path) ∧ disk w' !! path = Some entries).
    2:{ auto. }
    2:{ by intros e w' [[=] _]. }
    eapply run_bind; [apply run_logger; by intros ? ? ?|intros _].
    eapply run_bind; [apply run_ret|intros _].
    eapply run_bind; [apply run_ensureDir|intros _].
    eapply run_bind; [apply run_put|intros _].
    eapply run_bind; [apply run_ensureSubdir|intros _].
    eapply run_bind; [apply run_ensureSubdir|intros _].
    eapply run_bind
      with (Q := λ w0, disk w0 !! path =
                       Some ((match customCSS req with
                              | Some css =>
                                  if decide (css = EmptyString) then λ dir, dir
                                  else λ dir, <["styles/custom.css" := File css]>
                                                (<["styles" := Folder]> dir)
                              | None => λ dir, dir
                              end)
                               (<["public" := Folder]>
                                  (<["components" := Folder]>
                                     (<["slides.md" :=
                                          File (ProjectGenerator.slidesContent req)]>
                                        (default ∅ (disk w !! path))))))).
    { destruct (customCSS req) as [css|].
      - destruct (decide (css = EmptyString)).
        + apply run_ret.
        + unfold ProjectGenerator.createCustomCSS.
          eapply run_bind; [apply run_ensureSubdir|intros _]. apply run_put.
      - apply run_ret. }
    intros _.
    eapply run_bind; [apply run_put|intros _].
    eapply run_bind with (Q := λ w0, disk w0 !! path = Some entries).
    { unfold entries. destruct (template_valid env).
      - eapply run_bind; [apply run_logger; by intros ? ? ?|intros _].
        eapply run_bind; [apply run_put|intros _].
        apply run_logger. by intros ? ? ?.
      - apply run_ret. }
    intros _.
    eapply run_bind; [apply run_logger; by intros ? ? ?|intros _].
    by intros w0 Hw0. }
  apply (Htriple w eq_refl).
Qed.

(** X23.  [createProjectWithoutDeps] touches nothing but the log
    and the directory [tempDir/id] of the project.  When no step fails it
    returns the id and that directory, which then holds [slides.md],
    the folders [components] and [public], [vite.config.js], the style
    sheet [styles/custom.css] when the request has a [customCSS] that is
    not empty, and [node_modules] when the template is valid, besides
    what the directory held before.  When a step fails and the host
    removes the directory, nothing of the project is left. *)
Theorem createProjectWithoutDeps_writes_project cfg env req w :
  let path := join_path (tempDir cfg) (ProjectGenerator.generateProjectId env) in
  let r := ProjectGenerator.createProjectWithoutDeps cfg env req w in
  instances r.1 = instances w ∧ allocatedPorts r.1 = allocatedPorts w ∧
  procs r.1 = procs w ∧
  (∀ other, other ≠ path → disk r.1 !! other = disk w !! other) ∧
  (fs_fault env = None →
   r.2 = inr (ProjectGenerator.generateProjectId env, path) ∧
   disk r.1 !! path =
     Some ((if template_valid env then <["node_modules" := Folder]> else λ dir, dir)
             (<["vite.config.js" := File ProjectGenerator.viteConfig]>
                ((match customCSS req with
                  | Some css =>
                      if decide (css = EmptyString) then λ dir, dir
                      else λ dir, <["styles/custom.css" := File css]>
                                    (<["styles" := Folder]> dir)
                  | None => λ dir, dir
                  end)
                   (<["public" := Folder]>
                      (<["components" := Folder]>
                         (<["slides.md" := File (ProjectGenerator.slidesContent req)]>
                            (default ∅ (disk w !! path))))))))) ∧
  (∀ e, r.2 = inl e → remove_fault env path = None → disk r.1 !! path = None).
Proof.
  cbv zeta.
  split; [apply scaffold_keeps_instances|].
  split; [apply scaffold_keeps_ports|].
  split; [apply scaffold_keeps_procs|].
  split.
  { intros other Hne. pose proof (scaffold_other cfg env req w) as Hother.
    unfold other_dirs in Hother.
    apply (f_equal (λ d, d !! other)) in Hother.
    by rewrite !lookup_delete_ne in Hother. }
  split; [apply scaffold_contents|].
  intros e. apply scaffold_failure_cleans.
Qed.

Lemma createProjectWithoutDeps_writes_project_witness :
  fs_fault calm_host = None ∧
  disk (ProjectGenerator.createProjectWithoutDeps createDefaultConfig calm_host
          hello_request initialWorld).1 !! "/tmp/slidev-api/slidev-V1StGXR8_Z5j" =
    Some (<["node_modules" := Folder]>
            (<["vite.config.js" := File ProjectGenerator.viteConfig]>
               (<["public" := Folder]>
                  (<["components" := Folder]>
                     (<["slides.md" := File (ProjectGenerator.slidesContent hello_request)]>
                        ∅))))).
Proof.
  split; [reflexivity|].
  exact (proj2 (proj1 (proj2 (proj2 (proj2 (proj2
           (createProjectWithoutDeps_writes_project createDefaultConfig calm_host
              hello_request initialWorld))))) eq_refl)).
Defined.

(** ** The keys of the frontmatter *)

Lemma obj_get_is_Some k (o : Js.object) : is_Some (Js.obj_get k o) ↔ k ∈ o.*1.
Proof.
  induction o as [|[k' v] o IH]; simpl.
  - split; [by intros [? ?]|by intros ?%elem_of_nil].
  - destruct (decide (k' = k)) as [->|Hne].
    + split; [intros _; apply elem_of_cons; by left|by eexists].
    + rewrite IH. split; [intros ?; apply elem_of_cons; by right|].
      by intros [?|?]%elem_of_cons.
Qed.

Lemma obj_replace_keys k v (o : Js.object) : (Js.obj_replace k v o).*1 = o.*1.
Proof.
  induction o as [|[k' v'] o IH]; [done|]. cbn [Js.obj_replace].
  destruct (decide (k' = k)) as [->|]; [done|]. by rewrite !fmap_cons, IH.
Qed.

Lemma obj_insert_index_keys n k v (o : Js.object) :
  (Js.obj_insert_index n k v o).*1 ≡ₚ k :: o.*1.
Proof.
  induction o as [|[k' v'] o IH]; [done|]. cbn [Js.obj_insert_index].
  destruct (Js.array_index k') as [n'|]; [|done].
  destruct (n <? n')%N; [done|]. rewrite !fmap_cons, IH. apply Permutation_swap.
Qed.

Lemma obj_set_keys k v (o : Js.object) :
  (Js.obj_set k v o).*1 ≡ₚ (if decide (k ∈ o.*1) then o.*1 else k :: o.*1).
Proof.
  unfold Js.obj_set, Js.obj_has.
  pose proof (obj_get_is_Some k o) as Hin.
  destruct (Js.obj_get k o) as [x|]; cbv beta iota.
  - rewrite decide_True by (apply Hin; by eexists). by rewrite obj_replace_keys.
  - rewrite decide_False by (intros [? [=]]%Hin).
    destruct (Js.array_index k); [apply obj_insert_index_keys|].
    rewrite fmap_app. simpl. by rewrite Permutation_app_comm.
Qed.

Lemma obj_set_NoDup k v (o : Js.object) : NoDup o.*1 → NoDup (Js.obj_set k v o).*1.
Proof.
  intros Hnd. rewrite obj_set_keys. case_decide; [done|]. by constructor.
Qed.

Lemma spread_NoDup target source : NoDup target.*1 → NoDup (Js.spread target source).*1.
Proof.
  destruct source as [src|]; [|done]. simpl. revert target.
  induction src as [|[k v] src IH]; intros target Hnd; simpl; [done|].
  by apply IH, obj_set_NoDup.
Qed.

Lemma spread_keys k target source :
  k ∈ (Js.spread target source).*1 ↔
  k ∈ target.*1 ∨ ∃ src, source = Some src ∧ k ∈ src.*1.
Proof.
  destruct source as [src|]; simpl.
  2:{ split; [by left|]. by intros [?|(? & [=] & _)]. }
  revert target. induction src as [|[k' v] src IH]; intros target; simpl.
  { split; [by left|]. intros [?|(? & [= <-] & ?%elem_of_nil)]; done. }
  rewrite IH, obj_set_keys. split.
  - intros [Hin|(? & [= <-] & Hin)].
    + case_decide; [by left|]. apply elem_of_cons in Hin as [->|Hin]; [|by left].
      right. eexists. split; [done|]. simpl. apply elem_of_cons. by left.
    + right. eexists. split; [done|]. simpl. apply elem_of_cons. by right.
  - intros [Hin|(? & [= <-] & Hin)].
    + left. case_decide; [done|]. apply elem_of_cons. by right.
    + simpl in Hin. apply elem_of_cons in Hin as [->|Hin].
      * left. case_decide; [done|]. apply elem_of_cons. by left.
      * right. by eexists.
Qed.

(** X24.  In the frontmatter that either [createSlidesFile]
    writes every key comes once, whatever [request.frontmatter] and
    [request.config] hold: the keys are those of the five defaults
    together with those of the two objects of the request, and a key that
    the request sets again is not written twice. *)
Theorem frontmatter_has_each_key_once request :
  NoDup (ProjectGenerator.frontmatter_of request).*1 ∧
  (∀ k, k ∈ (ProjectGenerator.frontmatter_of request).*1 ↔
        k ∈ ["theme"; "title"; "class"; "transition"; "mdc"] ∨
        (∃ o, frontmatter request = Some o ∧ k ∈ o.*1) ∨
        (∃ o, config request = Some o ∧ k ∈ o.*1)) ∧
  DockerManager.frontmatter_of request = ProjectGenerator.frontmatter_of request ∧
  length (map ProjectGenerator.yaml_line (ProjectGenerator.frontmatter_of request)) =
    length (ProjectGenerator.frontmatter_of request).*1.
Proof.
  assert ((ProjectGenerator.defaults request).*1 =
          ["theme"; "title"; "class"; "transition"; "mdc"]) as Hdefaults by reflexivity.
  unfold ProjectGenerator.frontmatter_of. split.
  { apply spread_NoDup, spread_NoDup. rewrite Hdefaults.
    apply (bool_decide_unpack _). reflexivity. }
  split.
  { intros k. rewrite !spread_keys, Hdefaults. tauto. }
  split; [done|]. by rewrite length_map, length_fmap.
Qed.

(** ** The lifetime of an instance *)

(** What a sweep does to one instance. *)
Lemma sweep_one env w ident i :
  instances w !! ident = Some i →
  let r := PresentationManager.cleanupExpired env w in
  ((now env < expiresAt i)%Z → instances r.1 !! ident = Some i) ∧
  ((expiresAt i ≤ now env)%Z → remove_fault env (projectPath i) = None →
   instances r.1 !! ident = None ∧ (port i ∉ allocatedPorts r.1) ∧
   disk r.1 !! projectPath i = None).
Proof.
  intros Hi. cbv zeta.
  destruct (cleanupExpired_run env w) as (_ & _ & Heach). specialize (Heach ident i Hi).
  split.
  - intros Hlive. rewrite decide_False in Heach by lia. by destruct Heach.
  - intros Hdead Hrm. rewrite decide_True in Heach by done.
    destruct Heach as (Hgone & Hport & Hdir). rewrite decide_True in Hgone by done. auto.
Qed.

(** X25.  A presentation lives until the time [expiresAt] of the
    response to its creation: a sweep that reads the clock before that
    time keeps the instance, with its port and its directory; a sweep
    that reads that time or a later one removes it, releases its port and
    removes its directory, when the host removes the directory. *)
Theorem created_instance_lives_until_expiresAt cfg env req w response env' :
  (PresentationManager.createPresentation cfg env req w).2 = inr response →
  let created := (PresentationManager.createPresentation cfg env req w).1 in
  let r := PresentationManager.cleanupExpired env' created in
  (∃ i, PresentationManager.getPresentation (res_id response) created = Some i ∧
        expiresAt i = res_expiresAt response ∧
        ((now env' < res_expiresAt response)%Z →
         PresentationManager.getPresentation (res_id response) r.1 = Some i) ∧
        ((res_expiresAt response ≤ now env')%Z →
         remove_fault env' (projectPath i) = None →
         PresentationManager.getPresentation (res_id response) r.1 = None ∧
         PortManager.isPortAllocated (port i) r.1 = false ∧
         Fs.pathExists (projectPath i) r.1 = false)).
Proof.
  intros Hok. cbv zeta.
  destruct (create_success cfg env req w response Hok)
    as (p & _ & _ & _ & _ & _ & _ & _ & Hinst & _ & _ & _ & _ & ->).
  cbn [res_id res_expiresAt]. unfold PresentationManager.getPresentation.
  match type of Hinst with _ = <[_ := ?x]> _ => set (i := x) in * end.
  exists i.
  assert (instances (PresentationManager.createPresentation cfg env req w).1
            !! ProjectGenerator.generateProjectId env = Some i) as Hi
    by (by rewrite Hinst, lookup_insert_eq).
  split; [done|]. split; [done|].
  destruct (sweep_one env' _ _ i Hi) as [Hlive Hdead]. split; [done|].
  intros Hexp Hrm. destruct (Hdead Hexp Hrm) as (Hgone & Hport & Hdir).
  split; [done|].
  unfold PortManager.isPortAllocated, Fs.pathExists.
  split; [by apply bool_decide_eq_false_2|].
  apply bool_decide_eq_false_2. rewrite Hdir. by intros [? ?].
Qed.

Lemma created_instance_lives_until_expiresAt_witness :
  PresentationManager.getPresentation "slidev-V1StGXR8_Z5j"
    (PresentationManager.cleanupExpired later_host one_ready).1 = None ∧
  PresentationManager.getPresentation "slidev-V1StGXR8_Z5j"
    (PresentationManager.cleanupExpired calm_host one_ready).1 = Some hello_instance.
Proof.
  assert ((PresentationManager.createPresentation createDefaultConfig calm_host
             hello_request initialWorld).2 =
          inr {| res_id := "slidev-V1StGXR8_Z5j";
                 res_url := "http://localhost:3002";
                 res_status := StReady;
                 res_expiresAt := 1700003600000;
                 res_createdAt := 1700000002500;
                 res_presentation := "http://localhost:3002/";
                 res_presenter := "http://localhost:3002/presenter/";
                 res_overview := "http://localhost:3002/overview/";
                 res_print := "http://localhost:3002/print" |}) as Hok by reflexivity.
  split.
  - destruct (created_instance_lives_until_expiresAt createDefaultConfig calm_host
                hello_request initialWorld _ later_host Hok)
      as (i & Hi & _ & _ & Hdead).
    apply Hdead; [by vm_compute|].
    injection Hi as <-. reflexivity.
  - destruct (created_instance_lives_until_expiresAt createDefaultConfig calm_host
                hello_request initialWorld _ calm_host Hok)
      as (i & Hi & _ & Hlive & _).
    injection Hi as <-. apply Hlive. by vm_compute.
Defined.

Lemma post_extend_run env ident props t w i :
  instances w !! ident = Some i →
  Validation.id_pattern ident = true →
  Js.obj_get "ttl" props = Some (Js.JNum t) →
  (60000 ≤ t)%Z → (t ≤ 86400000)%Z →
  instances (Routes.post_extend env ident (Js.JObj props) w).1 =
    <[ident := with_expiresAt (now env + t) i]> (instances w) ∧
  allocatedPorts (Routes.post_extend env ident (Js.JObj props) w).1 = allocatedPorts w ∧
  disk (Routes.post_extend env ident (Js.JObj props) w).1 = disk w.
Proof.
  intros Hi Hpat Hget Hlo Hhi.
  unfold Routes.post_extend, Validation.validateParams, Validation.validateBody.
  rewrite (paramsSchema_accepts ident Hpat), (extendSchema_number props t Hget).
  rewrite decide_True by done.
  unfold Routes.asyncHandler, Routes.extendHandler, PresentationManager.getPresentation,
    try_catch, bind, get, ret, modify, logger.
  simpl. rewrite Hi. simpl. done.
Qed.

(** X26.  After [POST /presentations/:id/extend] with a
    lifetime of the permitted range, the instance lives until the time of
    the request plus that lifetime, whatever its expiry was before, be it
    already past: a sweep that reads the clock before that time keeps the
    instance, and a sweep at that time or later removes it when the host
    removes its directory. *)
Theorem extended_instance_lives_until_new_expiry env ident props t w i env' :
  instances w !! ident = Some i →
  Validation.id_pattern ident = true →
  Js.obj_get "ttl" props = Some (Js.JNum t) →
  (60000 ≤ t)%Z → (t ≤ 86400000)%Z →
  let extended := (Routes.post_extend env ident (Js.JObj props) w).1 in
  let r := PresentationManager.cleanupExpired env' extended in
  ((now env' < now env + t)%Z →
   PresentationManager.getPresentation ident r.1 =
     Some (with_expiresAt (now env + t) i)) ∧
  ((now env + t ≤ now env')%Z →
   remove_fault env' (projectPath i) = None →
   PresentationManager.getPresentation ident r.1 = None ∧
   PortManager.isPortAllocated (port i) r.1 = false ∧
   Fs.pathExists (projectPath i) r.1 = false).
Proof.
  intros Hi Hpat Hget Hlo Hhi. cbv zeta.
  destruct (post_extend_run env ident props t w i Hi Hpat Hget Hlo Hhi) as (Hinst & _ & _).
  assert (instances (Routes.post_extend env ident (Js.JObj props) w).1 !! ident =
          Some (with_expiresAt (now env + t) i)) as Hi'
    by (by rewrite Hinst, lookup_insert_eq).
  destruct (sweep_one env' _ _ _ Hi') as [Hlive Hdead].
  unfold PresentationManager.getPresentation. split; [done|].
  intros Hexp Hrm. destruct (Hdead Hexp Hrm) as (Hgone & Hport & Hdir).
  split; [done|].
  unfold PortManager.isPortAllocated, Fs.pathExists.
  split; [by apply bool_decide_eq_false_2|].
  apply bool_decide_eq_false_2. simpl in Hdir. rewrite Hdir. by intros [? ?].
Qed.

Lemma extended_instance_lives_until_new_expiry_witness :
  instances one_ready !! "slidev-V1StGXR8_Z5j" = Some hello_instance ∧
  (expiresAt hello_instance ≤ now later_host)%Z ∧
  PresentationManager.getPresentation "slidev-V1StGXR8_Z5j"
    (PresentationManager.cleanupExpired later_host
       (Routes.post_extend later_host "slidev-V1StGXR8_Z5j" two_hours_body one_ready).1).1 =
    Some (with_expiresAt 1700014400000 hello_instance).
Proof.
  split; [reflexivity|]. split; [by vm_compute|].
  apply (proj1 (extended_instance_lives_until_new_expiry later_host "slidev-V1StGXR8_Z5j"
                  [("ttl", Js.JNum 7200000)] 7200000 one_ready hello_instance later_host
                  eq_refl eq_refl eq_refl ltac:(by vm_compute) ltac:(by vm_compute))).
  by vm_compute.
Defined.

(** ** The installation of the dependencies *)

Lemma install_loop_step exec maxRetries attempt remaining w :
  ProjectGenerator.install_loop exec maxRetries attempt (S remaining) w =
  let w1 := (logger LInfo ("Installing dependencies (attempt " +:+ pretty attempt +:+ "/"
                             +:+ pretty maxRetries +:+ ")") w).1 in
  let r := exec attempt (ProjectGenerator.install_command attempt) w1 in
  match r.2 with
  | inr _ => ((logger LInfo "Dependencies installed successfully" r.1).1, inr tt)
  | inl error =>
      let w2 := (logger LError ("Dependency installation failed (attempt "
                                  +:+ pretty attempt +:+ "/" +:+ pretty maxRetries
                                  +:+ ")") r.1).1 in
      if decide (attempt = maxRetries)
      then (w2, inl (PlainError ("Failed to install dependencies after "
                                   +:+ pretty maxRetries +:+ " attempts: "
                                   +:+ ProjectGenerator.message_of error)))
      else ProjectGenerator.install_loop exec maxRetries (S attempt) remaining w2
  end.
Proof.
  cbn [ProjectGenerator.install_loop]. unfold try_catch, bind, logger, modify, throw.
  cbn [fst snd].
  destruct (exec attempt _ _) as [w' [e|[]]]; cbn [fst snd]; [|done].
  by destruct (decide (attempt = maxRetries)).
Qed.

Lemma install_loop_error exec maxRetries attempt remaining w e :
  (ProjectGenerator.install_loop exec maxRetries attempt remaining w).2 = inl e →
  ∃ message, e = PlainError ("Failed to install dependencies after "
                               +:+ pretty maxRetries +:+ " attempts: " +:+ message).
Proof.
  revert attempt w. induction remaining as [|remaining IH]; intros attempt w; [done|].
  rewrite install_loop_step. cbv zeta.
  destruct (exec attempt _ _) as [w' [e'|[]]]; cbn [fst snd]; [|done].
  destruct (decide (attempt = maxRetries)); [|by apply IH].
  cbn [snd]. intros [= <-]. by eexists.
Qed.

Lemma install_loop_fails exec maxRetries attempt remaining w :
  attempt + remaining = S maxRetries → 0 < remaining →
  (∀ k w', attempt ≤ k ≤ maxRetries →
           (exec k (ProjectGenerator.install_command k) w').2 ≠ inr tt) →
  ∃ e, (ProjectGenerator.install_loop exec maxRetries attempt remaining w).2 = inl e.
Proof.
  revert attempt w. induction remaining as [|remaining IH]; intros attempt w Hsum Hpos Hall;
    [lia|].
  rewrite install_loop_step. cbv zeta.
  pose proof (Hall attempt
                (logger LInfo ("Installing dependencies (attempt " +:+ pretty attempt
                                 +:+ "/" +:+ pretty maxRetries +:+ ")") w).1
                ltac:(lia)) as Hfail.
  destruct (exec attempt _ _) as [w' [e'|[]]]; cbn [fst snd] in *; [|done].
  destruct (decide (attempt = maxRetries)); [by eexists|].
  apply IH; [lia|lia|]. intros k w'' Hk. apply Hall. lia.
Qed.

Lemma install_loop_succeeds exec maxRetries attempt remaining w k :
  attempt + remaining = S maxRetries → attempt ≤ k ≤ maxRetries →
  (∀ w', (exec k (ProjectGenerator.install_command k) w').2 = inr tt) →
  (ProjectGenerator.install_loop exec maxRetries attempt remaining w).2 = inr tt.
Proof.
  revert attempt w. induction remaining as [|remaining IH]; intros attempt w Hsum Hk Hgood;
    [lia|].
  rewrite install_loop_step. cbv zeta.
  destruct (exec attempt _ _) as [w' [e'|[]]] eqn:Hrun; cbn [fst snd]; [|done].
  destruct (decide (attempt = k)) as [->|Hne].
  { specialize (Hgood (logger LInfo ("Installing dependencies (attempt " +:+ pretty k
                                        +:+ "/" +:+ pretty maxRetries +:+ ")") w).1).
    by rewrite Hrun in Hgood. }
  rewrite decide_False by lia. apply IH; [lia|lia|done].
Qed.

(** X27.  [installDependenciesWithRetry] returns when some attempt
    up to [maxRetries] cannot fail, and it throws when [maxRetries] is
    positive and every attempt fails.  What it throws is never the error
    of the installation itself but a new error that names the number of
    attempts and carries the message of the failed installation; with
    [maxRetries] zero it returns at once without running anything. *)
Theorem installDependenciesWithRetry_outcomes exec projectPath maxRetries w :
  let r := ProjectGenerator.installDependenciesWithRetry exec projectPath maxRetries w in
  (maxRetries = 0 → r = (w, inr tt)) ∧
  (∀ e, r.2 = inl e →
        ∃ message, e = PlainError ("Failed to install dependencies after "
                                     +:+ pretty maxRetries +:+ " attempts: " +:+ message)) ∧
  (0 < maxRetries →
   (∀ k w', 1 ≤ k ≤ maxRetries →
            (exec k (ProjectGenerator.install_command k) w').2 ≠ inr tt) →
   ∃ e, r.2 = inl e) ∧
  (∀ k, 1 ≤ k ≤ maxRetries →
        (∀ w', (exec k (ProjectGenerator.install_command k) w').2 = inr tt) →
        r.2 = inr tt).
Proof.
  cbv zeta. unfold ProjectGenerator.installDependenciesWithRetry.
  split; [by intros ->|]. split; [intros e; apply install_loop_error|].
  split.
  - intros Hpos Hall. apply install_loop_fails; [lia|lia|done].
  - intros k Hk Hgood. by apply (install_loop_succeeds _ _ _ _ _ k); [lia|lia|].
Qed.

Lemma installDependenciesWithRetry_outcomes_witness :
  let exec := λ (attempt : nat) (command : string),
                if decide (command = "npm install --no-audit --no-fund --force")
                then Fs.ensureSubdir "/tmp/slidev-api/template" "node_modules"
                else throw (SystemError "ETIMEDOUT" "network timeout") in
  (ProjectGenerator.installDependenciesWithRetry exec "/tmp/slidev-api/template" 3
     initialWorld).2 = inr tt ∧
  ∃ e, (ProjectGenerator.installDependenciesWithRetry exec "/tmp/slidev-api/template" 1
          initialWorld).2 = inl e ∧
       e = PlainError "Failed to install dependencies after 1 attempts: network timeout".
Proof.
  intros exec. split.
  - apply (proj2 (proj2 (proj2 (installDependenciesWithRetry_outcomes exec
             "/tmp/slidev-api/template" 3 initialWorld))) 2); [lia|].
    intros w'. reflexivity.
  - destruct (proj1 (proj2 (proj2 (installDependenciesWithRetry_outcomes exec
                "/tmp/slidev-api/template" 1 initialWorld))))
      as [e He]; [lia| |].
    + intros k w' Hk. assert (k = 1) as -> by lia. discriminate.
    + exists e. split; [exact He|]. vm_compute in He. by injection He as <-.
Defined.

(** ** The container manager *)

Lemma wait_loop_run host cid n s :
  ∃ b cmds,
    DockerManager.wait_loop host cid n s =
      ({| DockerManager.world := DockerManager.world s;
          DockerManager.containers := DockerManager.containers s;
          DockerManager.commands := DockerManager.commands s ++ cmds |}, inr b) ∧
    (b = false → cmds = replicate n (DockerManager.inspectCmd cid)) ∧
    ((∀ h, ∃ e, DockerManager.docker host h (DockerManager.inspectCmd cid) = inl e) →
     b = false) ∧
    (0 < n →
     (∀ h, ∃ out, DockerManager.docker host h (DockerManager.inspectCmd cid) = inr out) →
     b = true).
Proof.
  revert s. induction n as [|n IH]; intros s.
  { exists false, []. destruct s. cbn. rewrite app_nil_r. repeat split; try done; lia. }
  cbn [DockerManager.wait_loop].
  unfold DockerManager.dbind at 1, DockerManager.checkContainerHealth, DockerManager.dtry,
    DockerManager.dbind at 1, DockerManager.execAsync, DockerManager.dret.
  destruct (DockerManager.docker host (DockerManager.commands s) _) as [e|out] eqn:Hd.
  - destruct (IH {|
        DockerManager.world := DockerManager.world s;
        DockerManager.containers := DockerManager.containers s;
        DockerManager.commands := DockerManager.commands s ++ [DockerManager.inspectCmd cid] |})
      as (b & cmds & Heq & Hfalse & Hall & Hsome).
    exists b, (DockerManager.inspectCmd cid :: cmds).
    cbn [DockerManager.world DockerManager.containers DockerManager.commands] in *.
    rewrite Heq, <- app_assoc. split; [done|]. split.
    + intros Hb. by rewrite (Hfalse Hb).
    + split; [done|]. intros _ Hok. destruct (Hok (DockerManager.commands s)) as [out Hout].
      congruence.
  - exists true, [DockerManager.inspectCmd cid]. split; [done|]. split; [done|].
    split; [|done].
    intros Hbad. destruct (Hbad (DockerManager.commands s)) as [e He]. congruence.
Qed.

Lemma guarded_cases {A} env step (m : M A) w :
  Fs.guarded env step m w = m w ∨
  (∃ e, fs_fault env ≠ None ∧ Fs.guarded env step m w = (w, inl e)).
Proof.
  unfold Fs.guarded. destruct (fs_fault env) as [[s e]|]; [|by left].
  destruct (decide (s = step)); [|by left]. right. by exists e.
Qed.

Lemma dbind_lift_run {A B} (m : M A) (k : A → DockerManager.D B) s :
  DockerManager.dbind (DockerManager.lift m) k s =
  match m (DockerManager.world s) with
  | (w', inl e) =>
      ({| DockerManager.world := w';
          DockerManager.containers := DockerManager.containers s;
          DockerManager.commands := DockerManager.commands s |}, inl e)
  | (w', inr a) =>
      k a {| DockerManager.world := w';
             DockerManager.containers := DockerManager.containers s;
             DockerManager.commands := DockerManager.commands s |}
  end.
Proof.
  unfold DockerManager.dbind, DockerManager.lift.
  by destruct (m (DockerManager.world s)) as [w' [e|a]].
Qed.

Tactic Notation "dsimpl" :=
  cbn [fst snd DockerManager.world DockerManager.containers DockerManager.commands].
Tactic Notation "dsimpl" "in" hyp(H) :=
  cbn [fst snd DockerManager.world DockerManager.containers DockerManager.commands] in H.
Tactic Notation "dsimpl" "in" "*" :=
  cbn [fst snd DockerManager.world DockerManager.containers DockerManager.commands] in *.

Lemma docker_cleanup_run {B} env p path e s' :
  let h := DockerManager.dbind
             (DockerManager.lift (logger LError "Failed to create Docker presentation"))
             (λ _, DockerManager.dbind (DockerManager.lift (PortManager.releasePort p))
                (λ _, DockerManager.dbind
                   (DockerManager.dtry (DockerManager.lift (Fs.remove env path))
                      (λ _, DockerManager.lift
                              (logger LError "Failed to cleanup project path")))
                   (λ _, @DockerManager.dthrow B e))) s' in
  h.2 = inl e ∧
  DockerManager.containers h.1 = DockerManager.containers s' ∧
  DockerManager.commands h.1 = DockerManager.commands s' ∧
  allocatedPorts (DockerManager.world h.1) =
    allocatedPorts (DockerManager.world s') ∖ {[p]} ∧
  (remove_fault env path = None → disk (DockerManager.world h.1) !! path = None).
Proof.
  cbv zeta.
  unfold DockerManager.dbind, DockerManager.dtry, DockerManager.lift, DockerManager.dthrow.
  unfold logger at 1, modify. cbn [fst snd DockerManager.world DockerManager.containers
                                      DockerManager.commands].
  match goal with |- context [PortManager.releasePort p ?w] =>
    destruct (releasePort_run p w) as (w2 & Hrel & Hports & _ & _ & _) end.
  rewrite Hrel. cbn [fst snd DockerManager.world DockerManager.containers
                       DockerManager.commands].
  unfold Fs.remove. destruct (remove_fault env path) as [e'|];
    unfold throw, logger, modify;
    cbn [fst snd DockerManager.world DockerManager.containers DockerManager.commands].
  - repeat split; try done.
  - repeat split; try done. intros _. cbn [disk set_disk]. apply lookup_delete_eq.
Qed.

Lemma docker_start_run cfg env host req p s2 :
  let ident := "slidev-" +:+ nanoid env in
  let path := join_path (tempDir cfg) ident in
  let cmd := DockerManager.dockerCmd ident path p in
  let container := λ containerId st,
    {| DockerManager.id := ident; DockerManager.containerId := containerId;
       DockerManager.port := p; DockerManager.projectPath := path;
       DockerManager.createdAt := now env;
       DockerManager.expiresAt :=
         (now_later env + match ttl req with
                          | Some t => if decide (t = 0%Z) then defaultTTL cfg else t
                          | None => defaultTTL cfg
                          end)%Z;
       DockerManager.status := st; DockerManager.request := req |} in
  let rr :=
    DockerManager.dbind (DockerManager.startContainer host ident path p)
      (λ containerId, DockerManager.dbind
         (DockerManager.set_containers
            (<[ident := container containerId DockerManager.CStarting]>))
      (λ _, DockerManager.dbind (DockerManager.waitForContainer host ident containerId)
      (λ _, DockerManager.dbind
         (DockerManager.lift (logger LInfo "Docker presentation created successfully"))
      (λ _, DockerManager.dret
              (DockerManager.with_status DockerManager.CRunning
                 (container containerId DockerManager.CStarting)))))) s2 in
  (allocatedPorts (DockerManager.world rr.1) = allocatedPorts (DockerManager.world s2) ∧
   disk (DockerManager.world rr.1) = disk (DockerManager.world s2)) ∧
  ((∃ e, DockerManager.docker host (DockerManager.commands s2) cmd = inl e ∧
         rr.2 = inl (PlainError ("Failed to start container: "
                                   +:+ DockerManager.error_string e)) ∧
         DockerManager.containers rr.1 = DockerManager.containers s2 ∧
         DockerManager.commands rr.1 = DockerManager.commands s2 ++ [cmd])
   ∨ (∃ out, DockerManager.docker host (DockerManager.commands s2) cmd = inr out ∧
             rr.2 = inl (PlainError "Container failed to start within 60000ms") ∧
             DockerManager.containers rr.1 =
               <[ident := container (Js.trim out) DockerManager.CError]>
                 (DockerManager.containers s2) ∧
             DockerManager.commands rr.1 =
               DockerManager.commands s2 ++
               cmd :: replicate (DockerManager.wait_ticks host)
                        (DockerManager.inspectCmd (Js.trim out)) ∧
             ¬ (0 < DockerManager.wait_ticks host ∧
                ∀ h, ∃ o, DockerManager.docker host h
                            (DockerManager.inspectCmd (Js.trim out)) = inr o))
   ∨ (∃ out cmds,
        DockerManager.docker host (DockerManager.commands s2) cmd = inr out ∧
        rr.2 = inr (container (Js.trim out) DockerManager.CRunning) ∧
        DockerManager.containers rr.1 =
          <[ident := container (Js.trim out) DockerManager.CRunning]>
            (DockerManager.containers s2) ∧
        DockerManager.commands rr.1 = DockerManager.commands s2 ++ cmd :: cmds ∧
        ¬ (∀ h, ∃ e, DockerManager.docker host h
                       (DockerManager.inspectCmd (Js.trim out)) = inl e))).
Proof.
  intros ident path cmd container. destruct s2 as [w cs cmds].
  match goal with |- let rr := ?t in _ =>
    intros rr; assert (rr = t) as Hrr; [reflexivity|]; clearbody rr end.
  unfold DockerManager.dbind at 1, DockerManager.startContainer, DockerManager.dtry,
    DockerManager.dbind at 1, DockerManager.execAsync in Hrr.
  dsimpl in Hrr. fold cmd in Hrr.
  destruct (DockerManager.docker host cmds cmd) as [e|out] eqn:Hrun.
  { rewrite dbind_lift_run in Hrr. unfold logger, modify, DockerManager.dthrow in Hrr.
    dsimpl in Hrr. rewrite Hrr. dsimpl. split; [done|]. left. by exists e. }
  rewrite dbind_lift_run in Hrr. unfold logger at 1, modify, DockerManager.dret at 1 in Hrr.
  dsimpl in Hrr.
  unfold DockerManager.dbind at 1, DockerManager.set_containers at 1 in Hrr. dsimpl in Hrr.
  unfold DockerManager.dbind at 1, DockerManager.waitForContainer,
    DockerManager.dbind at 1 in Hrr.
  match type of Hrr with context [DockerManager.wait_loop host ?c ?n ?s] =>
    destruct (wait_loop_run host c n s) as (b & cmds' & Heq & Hfalse & Hbad & Hgood) end.
  rewrite Heq in Hrr. dsimpl in Hrr. destruct b.
  - unfold DockerManager.dbind at 1, DockerManager.set_containers at 1 in Hrr.
    dsimpl in Hrr. unfold DockerManager.lift at 1, logger at 1, modify in Hrr.
    dsimpl in Hrr. rewrite dbind_lift_run in Hrr.
    unfold logger, modify, DockerManager.dret in Hrr. dsimpl in Hrr.
    rewrite Hrr. dsimpl. split; [done|]. right. right.
    exists out, cmds'. split; [done|]. split; [done|].
    split; [by rewrite alter_insert_eq|]. split; [by rewrite <- app_assoc|].
    intros Hall. by specialize (Hbad Hall).
  - unfold DockerManager.dbind at 1, DockerManager.set_containers at 1,
      DockerManager.dthrow in Hrr.
    dsimpl in Hrr. rewrite Hrr. dsimpl. split; [done|]. right. left.
    exists out. split; [done|]. split; [done|].
    split; [by rewrite alter_insert_eq|].
    split; [by rewrite <- app_assoc, (Hfalse eq_refl)|].
    intros [Hpos Hall]. by specialize (Hgood Hpos Hall).
Qed.

Lemma put_run path name e dir w :
  disk w !! path = Some dir →
  Fs.put path name e w = (set_disk (<[path := <[name := e]> dir]>) w, inr tt).
Proof. intros Hdir. unfold Fs.put, bind, get, modify. by rewrite Hdir. Qed.

Lemma docker_body_run cfg env host req p s1 :
  let ident := "slidev-" +:+ nanoid env in
  let path := join_path (tempDir cfg) ident in
  let cmd := DockerManager.dockerCmd ident path p in
  let container := λ containerId st,
    {| DockerManager.id := ident; DockerManager.containerId := containerId;
       DockerManager.port := p; DockerManager.projectPath := path;
       DockerManager.createdAt := now env;
       DockerManager.expiresAt :=
         (now_later env + match ttl req with
                          | Some t => if decide (t = 0%Z) then defaultTTL cfg else t
                          | None => defaultTTL cfg
                          end)%Z;
       DockerManager.status := st; DockerManager.request := req |} in
  let rb :=
    DockerManager.dbind (DockerManager.lift (logger LInfo "Creating Docker presentation"))
      (λ _, DockerManager.dbind
         (DockerManager.lift (Fs.guarded env EnsureProjectDir (Fs.ensureDir path)))
      (λ _, DockerManager.dbind
         (DockerManager.lift
            (Fs.guarded env WriteSlides (DockerManager.createSlidesFile path req)))
      (λ _, DockerManager.dbind
         (match customCSS req with
          | Some css =>
              if decide (css = EmptyString) then DockerManager.dret tt
              else DockerManager.lift
                     (Fs.guarded env WriteCustomCSS
                        (DockerManager.createCustomCSS path css))
          | None => DockerManager.dret tt
          end)
      (λ _, DockerManager.dbind (DockerManager.startContainer host ident path p)
      (λ containerId, DockerManager.dbind
         (DockerManager.set_containers
            (<[ident := container containerId DockerManager.CStarting]>))
      (λ _, DockerManager.dbind (DockerManager.waitForContainer host ident containerId)
      (λ _, DockerManager.dbind
         (DockerManager.lift (logger LInfo "Docker presentation created successfully"))
      (λ _, DockerManager.dret
              (DockerManager.with_status DockerManager.CRunning
                 (container containerId DockerManager.CStarting)))))))))) s1 in
  allocatedPorts (DockerManager.world rb.1) = allocatedPorts (DockerManager.world s1) ∧
  ((∃ e, fs_fault env ≠ None ∧ rb.2 = inl e ∧
         DockerManager.containers rb.1 = DockerManager.containers s1 ∧
         DockerManager.commands rb.1 = DockerManager.commands s1)
   ∨ (∃ e, DockerManager.docker host (DockerManager.commands s1) cmd = inl e ∧
           rb.2 = inl (PlainError ("Failed to start container: "
                                     +:+ DockerManager.error_string e)) ∧
           DockerManager.containers rb.1 = DockerManager.containers s1 ∧
           DockerManager.commands rb.1 = DockerManager.commands s1 ++ [cmd])
   ∨ (∃ out, DockerManager.docker host (DockerManager.commands s1) cmd = inr out ∧
             rb.2 = inl (PlainError "Container failed to start within 60000ms") ∧
             DockerManager.containers rb.1 =
               <[ident := container (Js.trim out) DockerManager.CError]>
                 (DockerManager.containers s1) ∧
             DockerManager.commands rb.1 =
               DockerManager.commands s1 ++
               cmd :: replicate (DockerManager.wait_ticks host)
                        (DockerManager.inspectCmd (Js.trim out)) ∧
             ¬ (0 < DockerManager.wait_ticks host ∧
                ∀ h, ∃ o, DockerManager.docker host h
                            (DockerManager.inspectCmd (Js.trim out)) = inr o))
   ∨ (∃ out cmds,
        DockerManager.docker host (DockerManager.commands s1) cmd = inr out ∧
        rb.2 = inr (container (Js.trim out) DockerManager.CRunning) ∧
        DockerManager.containers rb.1 =
          <[ident := container (Js.trim out) DockerManager.CRunning]>
            (DockerManager.containers s1) ∧
        DockerManager.commands rb.1 = DockerManager.commands s1 ++ cmd :: cmds ∧
        has_file path "slides.md" (DockerManager.slidesContent req)
          (DockerManager.world rb.1) ∧
        ¬ (∀ h, ∃ e, DockerManager.docker host h
                       (DockerManager.inspectCmd (Js.trim out)) = inl e))).
Proof.
  intros ident path cmd container. destruct s1 as [w cs cmds].
  match goal with |- let rb := ?t in _ =>
    intros rb; assert (rb = t) as Hrb; [reflexivity|]; clearbody rb end.
  rewrite dbind_lift_run in Hrb. unfold logger at 1, modify in Hrb. dsimpl in Hrb.
  rewrite dbind_lift_run in Hrb. dsimpl in Hrb.
  match type of Hrb with context [Fs.guarded env EnsureProjectDir ?m ?w0] =>
    destruct (guarded_cases env EnsureProjectDir m w0) as [Hg|(e & Hf & Hg)];
    rewrite Hg in Hrb; clear Hg end.
  2:{ rewrite Hrb. dsimpl. split; [done|]. left. by exists e. }
  unfold Fs.ensureDir at 1, modify in Hrb. dsimpl in Hrb.
  rewrite dbind_lift_run in Hrb. dsimpl in Hrb.
  match type of Hrb with context [Fs.guarded env WriteSlides ?m ?w0] =>
    destruct (guarded_cases env WriteSlides m w0) as [Hg|(e & Hf & Hg)];
    rewrite Hg in Hrb; clear Hg end.
  2:{ rewrite Hrb. dsimpl. split; [done|]. left. by exists e. }
  match type of Hrb with context [DockerManager.createSlidesFile path req ?w0] =>
    set (w1 := w0) in Hrb end.
  assert (allocatedPorts w1 = allocatedPorts w) as Hports by done.
  assert (∃ dir, disk w1 !! path = Some dir) as [dir Hdir].
  { subst w1. cbn [disk set_disk set_logs].
    destruct (disk w !! path) as [d|] eqn:Hd; [by eexists|].
    rewrite lookup_insert_eq. by eexists. }
  clearbody w1. unfold DockerManager.createSlidesFile in Hrb.
  rewrite (put_run _ _ _ dir w1 Hdir) in Hrb.
  assert (∃ w2, allocatedPorts w2 = allocatedPorts w ∧
                has_file path "slides.md" (DockerManager.slidesContent req) w2 ∧
                ((∃ e, fs_fault env ≠ None ∧
                       rb = ({| DockerManager.world := w2;
                                DockerManager.containers := cs;
                                DockerManager.commands := cmds |}, inl e)) ∨
                 rb = DockerManager.dbind (DockerManager.startContainer host ident path p)
                        (λ containerId, DockerManager.dbind
                           (DockerManager.set_containers
                              (<[ident := container containerId DockerManager.CStarting]>))
                        (λ _, DockerManager.dbind
                           (DockerManager.waitForContainer host ident containerId)
                        (λ _, DockerManager.dbind
                           (DockerManager.lift
                              (logger LInfo "Docker presentation created successfully"))
                        (λ _, DockerManager.dret
                                (DockerManager.with_status DockerManager.CRunning
                                   (container containerId DockerManager.CStarting))))))
                        {| DockerManager.world := w2;
                           DockerManager.containers := cs;
                           DockerManager.commands := cmds |}))
    as (w2 & Hports2 & Hfile & Hcases).
  { assert (has_file path "slides.md" (DockerManager.slidesContent req)
              (set_disk (<[path := <["slides.md" := File (DockerManager.slidesContent req)]> dir]>) w1))
      as Hslides.
    { eexists. cbn [disk set_disk]. rewrite lookup_insert_eq. split; [done|].
      by rewrite lookup_insert_eq. }
    destruct (customCSS req) as [css|].
    2:{ eexists. split; [|split; [exact Hslides|right; exact Hrb]]. done. }
    destruct (decide (css = EmptyString)).
    { eexists. split; [|split; [exact Hslides|right; exact Hrb]]. done. }
    rewrite dbind_lift_run in Hrb. dsimpl in Hrb.
    match type of Hrb with context [Fs.guarded env WriteCustomCSS ?m ?w0] =>
      destruct (guarded_cases env WriteCustomCSS m w0) as [Hg|(e & Hf & Hg)];
      rewrite Hg in Hrb; clear Hg end.
    2:{ eexists. split; [|split; [exact Hslides|left; exists e; split; [done|exact Hrb]]].
        done. }
    unfold DockerManager.createCustomCSS, bind, Fs.ensureSubdir, modify in Hrb.
    cbn [fst snd] in Hrb.
    match type of Hrb with context [Fs.put path "styles/custom.css" _ ?w0] =>
      rewrite (put_run path "styles/custom.css" (File css)
                 (<["styles" := Folder]>
                    (<["slides.md" := File (DockerManager.slidesContent req)]> dir)) w0)
        in Hrb end.
    2:{ cbn [disk set_disk]. rewrite lookup_insert_eq, lookup_insert_eq. done. }
    eexists. split; [|split; [|right; exact Hrb]]; [done|].
    eexists. cbn [disk set_disk]. rewrite lookup_insert_eq. split; [done|].
    rewrite lookup_insert_ne by done. rewrite lookup_insert_ne by done.
    by rewrite lookup_insert_eq. }
  destruct Hcases as [(e & Hf & ->)|Hrest].
  { dsimpl. split; [done|]. left. by exists e. }
  pose proof (docker_start_run cfg env host req p
                {| DockerManager.world := w2; DockerManager.containers := cs;
                   DockerManager.commands := cmds |}) as Hstart.
  cbv zeta in Hstart. fold ident path cmd container in Hstart.
  rewrite <- Hrest in Hstart. dsimpl in Hstart.
  destruct Hstart as [[Hp Hd] Hcases]. dsimpl. split; [congruence|].
  destruct Hcases as [Hc|[Hc|(out & cmds' & Hc1 & Hc2 & Hc3 & Hc4 & Hc5)]];
    [right; left; exact Hc|right; right; left; exact Hc|].
  right. right. right. exists out, cmds'. repeat (split; [done|]).
  split; [|done]. destruct Hfile as (d & Hd1 & Hd2). exists d. by rewrite Hd.
Qed.

Lemma docker_create_cases cfg env host req s :
  let ident := "slidev-" +:+ nanoid env in
  let path := join_path (tempDir cfg) ident in
  let r := DockerManager.createPresentation cfg env host req s in
  (∃ w1 e, PortManager.allocatePort cfg (getPort env) (DockerManager.world s) =
             (w1, inl e) ∧
           r = ({| DockerManager.world := w1;
                   DockerManager.containers := DockerManager.containers s;
                   DockerManager.commands := DockerManager.commands s |}, inl e))
  ∨ ∃ p, getPort env = inr p ∧ (p ∉ allocatedPorts (DockerManager.world s)) ∧
         let cmd := DockerManager.dockerCmd ident path p in
         let container := λ containerId st,
           {| DockerManager.id := ident; DockerManager.containerId := containerId;
              DockerManager.port := p; DockerManager.projectPath := path;
              DockerManager.createdAt := now env;
              DockerManager.expiresAt :=
                (now_later env + match ttl req with
                                 | Some t => if decide (t = 0%Z) then defaultTTL cfg else t
                                 | None => defaultTTL cfg
                                 end)%Z;
              DockerManager.status := st; DockerManager.request := req |} in
         ((allocatedPorts (DockerManager.world r.1) = allocatedPorts (DockerManager.world s) ∧
           (remove_fault env path = None → disk (DockerManager.world r.1) !! path = None) ∧
           ((∃ e, fs_fault env ≠ None ∧ r.2 = inl e ∧
                  DockerManager.containers r.1 = DockerManager.containers s ∧
                  DockerManager.commands r.1 = DockerManager.commands s)
            ∨ (∃ e, DockerManager.docker host (DockerManager.commands s) cmd = inl e ∧
                    r.2 = inl (PlainError ("Failed to start container: "
                                             +:+ DockerManager.error_string e)) ∧
                    DockerManager.containers r.1 = DockerManager.containers s ∧
                    DockerManager.commands r.1 = DockerManager.commands s ++ [cmd])
            ∨ (∃ out, DockerManager.docker host (DockerManager.commands s) cmd = inr out ∧
                      r.2 = inl (PlainError "Container failed to start within 60000ms") ∧
                      DockerManager.containers r.1 =
                        <[ident := container (Js.trim out) DockerManager.CError]>
                          (DockerManager.containers s) ∧
                      DockerManager.commands r.1 =
                        DockerManager.commands s ++
                        cmd :: replicate (DockerManager.wait_ticks host)
                                 (DockerManager.inspectCmd (Js.trim out)) ∧
                      ¬ (0 < DockerManager.wait_ticks host ∧
                         ∀ h, ∃ o, DockerManager.docker host h
                                     (DockerManager.inspectCmd (Js.trim out)) = inr o))))
          ∨ (∃ out cmds,
               DockerManager.docker host (DockerManager.commands s) cmd = inr out ∧
               r.2 = inr (container (Js.trim out) DockerManager.CRunning) ∧
               DockerManager.containers r.1 =
                 <[ident := container (Js.trim out) DockerManager.CRunning]>
                   (DockerManager.containers s) ∧
               DockerManager.commands r.1 = DockerManager.commands s ++ cmd :: cmds ∧
               allocatedPorts (DockerManager.world r.1) =
                 allocatedPorts (DockerManager.world s) ∪ {[p]} ∧
               has_file path "slides.md" (DockerManager.slidesContent req)
                 (DockerManager.world r.1) ∧
               ¬ (∀ h, ∃ e, DockerManager.docker host h
                              (DockerManager.inspectCmd (Js.trim out)) = inl e))).
Proof.
  intros ident path.
  match goal with |- let r := ?t in _ =>
    intros r; assert (r = t) as Hr; [reflexivity|]; clearbody r end.
  unfold DockerManager.createPresentation in Hr. rewrite dbind_lift_run in Hr.
  fold ident path in Hr.
  destruct (PortManager.allocatePort cfg (getPort env) (DockerManager.world s))
    as [w1 [e|p]] eqn:Hport.
  { left. by exists w1, e. }
  right. exists p. apply allocatePort_returns in Hport as (Hprobe & _ & _ & Hfree & ->).
  split; [done|]. split; [done|]. intros cmd container.
  unfold DockerManager.dtry at 1 in Hr.
  match type of Hr with context [DockerManager.dbind ?m ?k ?s1] =>
    pose proof (docker_body_run cfg env host req p s1) as Hbody end.
  cbv zeta in Hbody. fold ident path in Hbody. dsimpl in Hbody.
  match type of Hr with _ = (let (_, _) := ?t in _) => set (rb := t) in * end.
  subst container. cbv beta. fold cmd in Hbody.
  destruct Hbody as [Hports Hcases]. cbn [allocatedPorts set_logs set_allocatedPorts] in Hports.
  destruct rb as [s' [e|c]]; dsimpl in *.
  - pose proof (docker_cleanup_run (B := DockerManager.DockerContainer) env p path e s')
      as Hh.
    cbv zeta in Hh. rewrite <- Hr in Hh.
    destruct Hh as (Hres & Hcs & Hcmds & Hrel & Hrm).
    left. split; [rewrite Hrel, Hports; set_solver|]. split; [done|].
    rewrite Hres, Hcs, Hcmds.
    destruct Hcases as [Hc|[Hc|[Hc|(out & cmds & _ & [=] & _)]]]; auto.
  - right. rewrite Hr. dsimpl.
    destruct Hcases as [(e & _ & [=] & _)|[(e & _ & [=] & _)|[(out & _ & [=] & _)|Hc]]].
    destruct Hc as (out & cmds & H1 & H2 & H3 & H4 & H5 & H6).
    exists out, cmds. by rewrite Hports.
Qed.

Lemma docker_delete_cases env host ident s c :
  DockerManager.containers s !! ident = Some c →
  let stopCmd := "docker stop " +:+ DockerManager.containerId c in
  let rmCmd := "docker rm -f " +:+ DockerManager.containerId c in
  let r := DockerManager.deletePresentation env host ident s in
  (∀ e1 e2, DockerManager.docker host (DockerManager.commands s) stopCmd = inl e1 →
            DockerManager.docker host (DockerManager.commands s ++ [stopCmd]) rmCmd = inl e2 →
            r.2 = inl e2 ∧
            DockerManager.containers r.1 = DockerManager.containers s ∧
            DockerManager.commands r.1 = DockerManager.commands s ++ [stopCmd; rmCmd] ∧
            allocatedPorts (DockerManager.world r.1) = allocatedPorts (DockerManager.world s) ∧
            disk (DockerManager.world r.1) = disk (DockerManager.world s)) ∧
  (((∃ out, DockerManager.docker host (DockerManager.commands s) stopCmd = inr out) ∨
    (∃ out, DockerManager.docker host (DockerManager.commands s ++ [stopCmd]) rmCmd = inr out)) →
   allocatedPorts (DockerManager.world r.1) =
     allocatedPorts (DockerManager.world s) ∖ {[DockerManager.port c]} ∧
   match remove_fault env (DockerManager.projectPath c) with
   | Some e =>
       r.2 = inl e ∧ DockerManager.containers r.1 = DockerManager.containers s ∧
       disk (DockerManager.world r.1) = disk (DockerManager.world s)
   | None =>
       r.2 = inr true ∧
       DockerManager.containers r.1 = delete ident (DockerManager.containers s) ∧
       disk (DockerManager.world r.1) =
         delete (DockerManager.projectPath c) (disk (DockerManager.world s))
   end).
Proof.
  intros Hc stopCmd rmCmd. destruct s as [w cs cmds]. dsimpl in Hc.
  match goal with |- let r := ?t in _ =>
    intros r; assert (r = t) as Hr; [reflexivity|]; clearbody r end.
  unfold DockerManager.deletePresentation, DockerManager.dbind at 1, DockerManager.dget in Hr.
  dsimpl in Hr. rewrite Hc in Hr.
  unfold DockerManager.dtry at 1 in Hr. rewrite dbind_lift_run in Hr.
  unfold logger at 1, modify in Hr. dsimpl in Hr.
  unfold DockerManager.dbind at 1, DockerManager.dtry at 1, DockerManager.dbind at 1,
    DockerManager.execAsync at 1 in Hr.
  dsimpl in Hr. fold stopCmd rmCmd in Hr.
  assert (∀ cmds' w',
    allocatedPorts w' = allocatedPorts w → disk w' = disk w →
    let r' :=
      (let (s', s0) :=
         DockerManager.dbind (DockerManager.lift (PortManager.releasePort (DockerManager.port c)))
           (λ _, DockerManager.dbind
              (DockerManager.lift (Fs.remove env (DockerManager.projectPath c)))
           (λ _, DockerManager.dbind (DockerManager.set_containers (delete ident))
           (λ _, DockerManager.dbind
              (DockerManager.lift (logger LInfo "Docker presentation deleted successfully"))
           (λ _, DockerManager.dret true))))
           {| DockerManager.world := w'; DockerManager.containers := cs;
              DockerManager.commands := cmds' |} in
       match s0 with
       | inl e =>
           DockerManager.dbind
             (DockerManager.lift (logger LError "Failed to delete Docker presentation"))
             (λ _, DockerManager.dthrow e) s'
       | inr a => (s', inr a)
       end) in
    allocatedPorts (DockerManager.world r'.1) = allocatedPorts w ∖ {[DockerManager.port c]} ∧
    match remove_fault env (DockerManager.projectPath c) with
    | Some e => r'.2 = inl e ∧ DockerManager.containers r'.1 = cs ∧
                disk (DockerManager.world r'.1) = disk w
    | None => r'.2 = inr true ∧ DockerManager.containers r'.1 = delete ident cs ∧
              disk (DockerManager.world r'.1) = delete (DockerManager.projectPath c) (disk w)
    end) as Htail.
  { intros cmds' w' Hp Hd.
    match goal with |- let r' := ?t in _ =>
      intros r'; assert (r' = t) as Hr'; [reflexivity|]; clearbody r' end.
    rewrite dbind_lift_run in Hr'. dsimpl in Hr'.
    destruct (releasePort_run (DockerManager.port c) w') as (w2 & Hrel & Hp2 & _ & Hd2 & _).
    rewrite Hrel in Hr'. rewrite dbind_lift_run in Hr'. dsimpl in Hr'.
    unfold Fs.remove in Hr'.
    destruct (remove_fault env (DockerManager.projectPath c)) as [e|].
    - unfold throw in Hr'. rewrite dbind_lift_run in Hr'.
      unfold logger, modify, DockerManager.dthrow in Hr'. dsimpl in Hr'.
      rewrite Hr'. dsimpl. cbn [allocatedPorts disk set_logs]. rewrite Hp2, Hp.
      repeat split; congruence.
    - unfold modify at 1 in Hr'.
      unfold DockerManager.dbind at 1, DockerManager.set_containers in Hr'.
      dsimpl in Hr'. rewrite dbind_lift_run in Hr'.
      unfold logger, modify, DockerManager.dret in Hr'. dsimpl in Hr'.
      rewrite Hr'. dsimpl. cbn [allocatedPorts disk set_logs set_disk]. rewrite Hp2, Hp.
      repeat split; congruence. }
  assert (∀ out, DockerManager.docker host cmds stopCmd = inr out →
            allocatedPorts (DockerManager.world r.1) =
              allocatedPorts w ∖ {[DockerManager.port c]} ∧
            match remove_fault env (DockerManager.projectPath c) with
            | Some e => r.2 = inl e ∧ DockerManager.containers r.1 = cs ∧
                        disk (DockerManager.world r.1) = disk w
            | None => r.2 = inr true ∧ DockerManager.containers r.1 = delete ident cs ∧
                      disk (DockerManager.world r.1) =
                        delete (DockerManager.projectPath c) (disk w)
            end) as Hstop.
  { intros out H1. rewrite H1 in Hr. unfold DockerManager.dret at 1 in Hr.
    match type of Hr with context [DockerManager.Build_State ?w' cs ?cmds'] =>
      specialize (Htail cmds' w' eq_refl eq_refl) end.
    cbv zeta in Htail. by rewrite <- Hr in Htail. }
  dsimpl. split.
  - intros e1 e2 H1 H2. rewrite H1 in Hr. rewrite dbind_lift_run in Hr.
    unfold logger at 1, modify in Hr. dsimpl in Hr.
    unfold DockerManager.dbind at 1, DockerManager.execAsync in Hr. dsimpl in Hr.
    rewrite H2 in Hr. rewrite dbind_lift_run in Hr.
    unfold logger, modify, DockerManager.dthrow in Hr. dsimpl in Hr.
    rewrite Hr. dsimpl. by rewrite <- app_assoc.
  - intros [[out H1]|[out H2]]; [by apply (Hstop out)|].
    destruct (DockerManager.docker host cmds stopCmd) as [e1|out1] eqn:H1;
      [|by apply (Hstop out1)].
    clear Hstop. rewrite dbind_lift_run in Hr.
    unfold logger at 1, modify in Hr. dsimpl in Hr.
    unfold DockerManager.dbind at 1, DockerManager.execAsync in Hr. dsimpl in Hr.
    rewrite H2 in Hr. unfold DockerManager.dret at 1 in Hr.
    match type of Hr with context [DockerManager.Build_State ?w' cs ?cmds'] =>
      specialize (Htail cmds' w' eq_refl eq_refl) end.
    cbv zeta in Htail. by rewrite <- Hr in Htail.
Qed.

(** X28.  [DockerManager.createPresentation] registers the
    container it returns, with status [running], its port allocated and
    [slides.md] written.  When it throws, the set of allocated ports is
    as before the call, and the registry is as before the call except in
    one case: a container that was started and did not become healthy
    during the wait stays in the registry with status [error], and the
    only commands given to Docker are the one that started it and the
    health checks, none that stops it.  This case occurs when every check
    fails: the port is then released and the directory, when the host
    removes it, is gone, while the entry remains. *)
Theorem docker_createPresentation_outcomes cfg env host req s :
  let ident := "slidev-" +:+ nanoid env in
  let path := join_path (tempDir cfg) ident in
  let r := DockerManager.createPresentation cfg env host req s in
  (∀ c, r.2 = inr c →
        DockerManager.getPresentation ident r.1 = Some c ∧
        DockerManager.id c = ident ∧ DockerManager.projectPath c = path ∧
        DockerManager.status c = DockerManager.CRunning ∧
        DockerManager.port c ∈ allocatedPorts (DockerManager.world r.1) ∧
        (DockerManager.port c ∉ allocatedPorts (DockerManager.world s)) ∧
        has_file path "slides.md" (DockerManager.slidesContent req)
          (DockerManager.world r.1)) ∧
  (∀ e, r.2 = inl e →
        allocatedPorts (DockerManager.world r.1) = allocatedPorts (DockerManager.world s) ∧
        (DockerManager.containers r.1 = DockerManager.containers s ∨
         ∃ c, DockerManager.containers r.1 = <[ident := c]> (DockerManager.containers s) ∧
              DockerManager.status c = DockerManager.CError ∧
              e = PlainError "Container failed to start within 60000ms" ∧
              DockerManager.commands r.1 =
                DockerManager.commands s ++
                DockerManager.dockerCmd ident path (DockerManager.port c)
                :: replicate (DockerManager.wait_ticks host)
                     (DockerManager.inspectCmd (DockerManager.containerId c)))) ∧
  (∀ p out,
     getPort env = inr p →
     (PortManager.startPort cfg ≤ p)%Z → (p ≤ PortManager.endPort cfg)%Z →
     p ∉ allocatedPorts (DockerManager.world s) →
     fs_fault env = None →
     remove_fault env path = None →
     DockerManager.docker host (DockerManager.commands s)
       (DockerManager.dockerCmd ident path p) = inr out →
     (∀ h, ∃ e, DockerManager.docker host h
                  (DockerManager.inspectCmd (Js.trim out)) = inl e) →
     r.2 = inl (PlainError "Container failed to start within 60000ms") ∧
     (∃ c, DockerManager.getPresentation ident r.1 = Some c ∧
           DockerManager.status c = DockerManager.CError ∧
           DockerManager.port c = p ∧ DockerManager.containerId c = Js.trim out) ∧
     PortManager.isPortAllocated p (DockerManager.world r.1) = false ∧
     Fs.pathExists path (DockerManager.world r.1) = false).
Proof.
  intros ident path r.
  pose proof (docker_create_cases cfg env host req s) as Hcases.
  cbv zeta in Hcases. fold ident path r in Hcases. clearbody r.
  unfold DockerManager.getPresentation. split; [|split].
  - intros c Hc.
    destruct Hcases as [(w1 & e & _ & Hr)|(p & Hp & Hfree & Hcases)];
      [rewrite Hr in Hc; discriminate|].
    destruct Hcases as [(_ & _ & [(e & _ & He & _)|[(e & _ & He & _)|(out & _ & He & _)]])
                       |(out & cmds & _ & Hres & Hcs & _ & Hports & Hfile & _)];
      try congruence.
    rewrite Hres in Hc. injection Hc as <-. cbn.
    rewrite Hcs, lookup_insert_eq, Hports. repeat split; try done. set_solver.
  - intros e He.
    destruct Hcases as [(w1 & e' & Hport & Hr)|(p & Hp & Hfree & Hcases)].
    { rewrite Hr. cbn. apply allocatePort_throws in Hport as (_ & _ & Hports & _).
      split; [done|]. by left. }
    destruct Hcases as [(Hports & _ & Hcases)|(out & cmds & _ & Hres & _)];
      [|congruence].
    split; [done|].
    destruct Hcases as [(e' & _ & _ & Hcs & _)|[(e' & _ & _ & Hcs & _)
                                                |(out & _ & Hres & Hcs & Hcmds & _)]];
      [by left|by left|].
    right. eexists. split; [exact Hcs|]. split; [done|]. cbn. split; [congruence|done].
  - intros p out Hp H1 H2 Hfree Hfs Hrm Hrun Hbad.
    destruct Hcases as [(w1 & e' & Hport & Hr)|(p' & Hp' & _ & Hcases)].
    { rewrite Hp, (allocatePort_free cfg _ p H1 H2 Hfree) in Hport. discriminate. }
    assert (p' = p) as -> by congruence.
    destruct Hcases as [(Hports & Hgone & Hcases)|(out' & cmds & Hrun' & _ & _ & _ & _ & _ & Hnot)].
    2:{ assert (out' = out) as -> by congruence. by destruct Hnot. }
    destruct Hcases as [(e' & Hf & _)|[(e' & Hrun' & _)
                                       |(out' & Hrun' & Hres & Hcs & _)]];
      [done|congruence|].
    assert (out' = out) as -> by congruence.
    split; [done|]. split.
    { eexists. rewrite Hcs, lookup_insert_eq. by split. }
    unfold PortManager.isPortAllocated, Fs.pathExists. split.
    + apply bool_decide_eq_false_2. by rewrite Hports.
    + apply bool_decide_eq_false_2. rewrite (Hgone Hrm). by intros [? ?].
Qed.

Lemma docker_createPresentation_outcomes_witness :
  DockerManager.getPresentation "slidev-V1StGXR8_Z5j"
    (DockerManager.createPresentation createDefaultConfig calm_host ready_docker
       hello_request DockerManager.initialState).1 =
    Some {| DockerManager.id := "slidev-V1StGXR8_Z5j";
            DockerManager.containerId := "4f2a9c0b1d3e";
            DockerManager.port := 3002;
            DockerManager.projectPath := "/tmp/slidev-api/slidev-V1StGXR8_Z5j";
            DockerManager.createdAt := 1700000000000;
            DockerManager.expiresAt := 1700003602500;
            DockerManager.status := DockerManager.CRunning;
            DockerManager.request := hello_request |} ∧
  (∃ c, DockerManager.getPresentation "slidev-V1StGXR8_Z5j" one_stuck = Some c ∧
        DockerManager.status c = DockerManager.CError ∧
        DockerManager.port c = 3002%Z ∧ DockerManager.containerId c = "4f2a9c0b1d3e") ∧
  PortManager.isPortAllocated 3002 (DockerManager.world one_stuck) = false ∧
  Fs.pathExists "/tmp/slidev-api/slidev-V1StGXR8_Z5j" (DockerManager.world one_stuck) = false.
Proof.
  split.
  - apply (proj1 (docker_createPresentation_outcomes createDefaultConfig calm_host
                    ready_docker hello_request DockerManager.initialState)).
    reflexivity.
  - apply (proj2 (proj2 (docker_createPresentation_outcomes createDefaultConfig calm_host
                           stuck_docker hello_request DockerManager.initialState))
             3002%Z ("4f2a9c0b1d3e" +:+ Js.newline)).
    + reflexivity.
    + by vm_compute.
    + by vm_compute.
    + cbn. set_solver.
    + reflexivity.
    + reflexivity.
    + reflexivity.
    + intros h. eexists. reflexivity.
Defined.

(** X29.  [DockerManager.deletePresentation] answers
    [false] for an unknown id and changes nothing.  For a registered
    container, when neither [docker stop] nor [docker rm -f] succeeds it
    throws and the container keeps its entry, its port and its directory.
    When one of the two succeeds the port is released; it then returns
    [true] with the entry and the directory removed and the other
    entries untouched, unless the directory cannot be removed: then it
    throws and the container stays in the registry without its port. *)
Theorem docker_deletePresentation_outcomes env host ident s :
  let r := DockerManager.deletePresentation env host ident s in
  (DockerManager.getPresentation ident s = None → r = (s, inr false)) ∧
  (∀ c, DockerManager.getPresentation ident s = Some c →
     let stopCmd := "docker stop " +:+ DockerManager.containerId c in
     let rmCmd := "docker rm -f " +:+ DockerManager.containerId c in
     (∀ e1 e2,
        DockerManager.docker host (DockerManager.commands s) stopCmd = inl e1 →
        DockerManager.docker host (DockerManager.commands s ++ [stopCmd]) rmCmd = inl e2 →
        r.2 = inl e2 ∧
        DockerManager.getPresentation ident r.1 = Some c ∧
        allocatedPorts (DockerManager.world r.1) = allocatedPorts (DockerManager.world s) ∧
        disk (DockerManager.world r.1) = disk (DockerManager.world s)) ∧
     (((∃ out, DockerManager.docker host (DockerManager.commands s) stopCmd = inr out) ∨
       (∃ out, DockerManager.docker host (DockerManager.commands s ++ [stopCmd]) rmCmd
                 = inr out)) →
      PortManager.isPortAllocated (DockerManager.port c) (DockerManager.world r.1) = false ∧
      (∀ e, remove_fault env (DockerManager.projectPath c) = Some e →
            r.2 = inl e ∧ DockerManager.getPresentation ident r.1 = Some c) ∧
      (remove_fault env (DockerManager.projectPath c) = None →
       r.2 = inr true ∧
       DockerManager.getPresentation ident r.1 = None ∧
       Fs.pathExists (DockerManager.projectPath c) (DockerManager.world r.1) = false ∧
       ∀ j, j ≠ ident →
            DockerManager.getPresentation j r.1 = DockerManager.getPresentation j s))).
Proof.
  intros r. split.
  - unfold DockerManager.getPresentation. intros Hnone. subst r.
    unfold DockerManager.deletePresentation, DockerManager.dbind, DockerManager.dget.
    by rewrite Hnone.
  - intros c Hc stopCmd rmCmd. unfold DockerManager.getPresentation in *.
    destruct (docker_delete_cases env host ident s c Hc) as [Hboth Hone].
    fold stopCmd rmCmd r in Hboth, Hone. clearbody r. split.
    + intros e1 e2 H1 H2. destruct (Hboth e1 e2 H1 H2) as (Hres & Hcs & _ & Hports & Hdisk).
      by rewrite Hcs.
    + intros Hhalt. destruct (Hone Hhalt) as [Hports Hrm].
      unfold PortManager.isPortAllocated, Fs.pathExists. split.
      { apply bool_decide_eq_false_2. rewrite Hports. set_solver. }
      split.
      * intros e He. rewrite He in Hrm. destruct Hrm as (Hres & Hcs & _).
        by rewrite Hcs.
      * intros He. rewrite He in Hrm. destruct Hrm as (Hres & Hcs & Hdisk).
        split; [done|]. rewrite Hcs. split; [apply lookup_delete_eq|]. split.
        { apply bool_decide_eq_false_2. rewrite Hdisk, lookup_delete_eq. by intros [? ?]. }
        intros j Hj. by rewrite lookup_delete_ne.
Qed.

Lemma docker_deletePresentation_outcomes_witness :
  let c := {| DockerManager.id := "slidev-V1StGXR8_Z5j";
              DockerManager.containerId := "4f2a9c0b1d3e";
              DockerManager.port := 3002;
              DockerManager.projectPath := "/tmp/slidev-api/slidev-V1StGXR8_Z5j";
              DockerManager.createdAt := 1700000000000;
              DockerManager.expiresAt := 1700003602500;
              DockerManager.status := DockerManager.CError;
              DockerManager.request := hello_request |} in
  DockerManager.getPresentation "slidev-V1StGXR8_Z5j" one_stuck = Some c ∧
  DockerManager.getPresentation "slidev-V1StGXR8_Z5j"
    (DockerManager.deletePresentation calm_host stuck_docker "slidev-V1StGXR8_Z5j"
       one_stuck).1 = Some c ∧
  (DockerManager.deletePresentation calm_host ready_docker "slidev-V1StGXR8_Z5j"
     one_stuck).2 = inr true ∧
  DockerManager.getPresentation "slidev-V1StGXR8_Z5j"
    (DockerManager.deletePresentation calm_host ready_docker "slidev-V1StGXR8_Z5j"
       one_stuck).1 = None.
Proof.
  intros c.
  assert (DockerManager.getPresentation "slidev-V1StGXR8_Z5j" one_stuck = Some c) as Hc
    by (vm_compute; reflexivity).
  split; [exact Hc|]. split.
  - destruct (proj2 (docker_deletePresentation_outcomes calm_host stuck_docker
                       "slidev-V1StGXR8_Z5j" one_stuck) c Hc) as [Hboth _].
    destruct (Hboth _ _ eq_refl eq_refl) as (_ & Hkept & _). exact Hkept.
  - destruct (proj2 (docker_deletePresentation_outcomes calm_host ready_docker
                       "slidev-V1StGXR8_Z5j" one_stuck) c Hc) as [_ Hone].
    destruct Hone as (_ & _ & Hok).
    { left. eexists. reflexivity. }
    destruct (Hok eq_refl) as (Hres & Hgone & _). split; [exact Hres|exact Hgone].
Defined.

(** ** Calls that overlap *)

(** *** A call that is never kept waiting *)

Lemma finish_continue {A B} (t : Task A) (k : Error + A → Async B) :
  Tasks.finish (Tasks.continue t k) =
  match Tasks.finish t with (w, r) => Tasks.finish (k r w) end.
Proof. induction t as [w r|w resume IH]; simpl; [done|]. apply IH. Qed.

Lemma run_sync {A} (m : M A) w : Tasks.run (Tasks.sync m) w = m w.
Proof. unfold Tasks.run, Tasks.sync. by destruct (m w). Qed.

Lemma run_tret {A} (a : A) w : Tasks.run (Tasks.tret a) w = ret a w.
Proof. done. Qed.

Lemma run_tbind {A B} (a : Async A) (k : A → Async B) w :
  Tasks.run (Tasks.tbind a k) w = bind (Tasks.run a) (λ x, Tasks.run (k x)) w.
Proof.
  unfold Tasks.run, Tasks.tbind, bind. rewrite finish_continue.
  by destruct (Tasks.finish (a w)) as [w' [e|x]].
Qed.

Lemma run_ttry {A} (a : Async A) (h : Error → Async A) w :
  Tasks.run (Tasks.ttry a h) w = try_catch (Tasks.run a) (λ e, Tasks.run (h e)) w.
Proof.
  unfold Tasks.run, Tasks.ttry, try_catch. rewrite finish_continue.
  by destruct (Tasks.finish (a w)) as [w' [e|x]].
Qed.

Lemma run_pause_then {A} (a : Async A) w :
  Tasks.run (Tasks.tbind Tasks.pause (λ _, a)) w = Tasks.run a w.
Proof. by rewrite run_tbind. Qed.

Lemma run_await {A} (m : M A) w : Tasks.run (Tasks.await m) w = m w.
Proof. unfold Tasks.await. by rewrite run_pause_then, run_sync. Qed.

Lemma bind_ext {A B} (m m' : M A) (k k' : A → M B) w :
  m w = m' w → (∀ x w', k x w' = k' x w') → bind m k w = bind m' k' w.
Proof. intros Hm Hk. unfold bind. rewrite Hm. by destruct (m' w) as [w' [e|x]]. Qed.

Lemma try_ext {A} (m m' : M A) (h h' : Error → M A) w :
  m w = m' w → (∀ e w', h e w' = h' e w') → try_catch m h w = try_catch m' h' w.
Proof. intros Hm Hh. unfold try_catch. rewrite Hm. by destruct (m' w) as [w' [e|x]]. Qed.

Create HintDb tasks.

(** One step of the comparison of a method with its segments. *)
Ltac run_step :=
  cbv beta zeta;
  lazymatch goal with
  | |- Tasks.run (Tasks.tbind Tasks.pause _) _ = _ => rewrite run_pause_then
  | |- Tasks.run (Tasks.tbind _ _) _ = _ =>
      rewrite run_tbind; apply bind_ext; [|intros ? ?]
  | |- Tasks.run (Tasks.ttry _ _) _ = _ =>
      rewrite run_ttry; apply try_ext; [|intros ? ?]
  | |- Tasks.run (Tasks.sync _) _ = _ => rewrite run_sync; reflexivity
  | |- Tasks.run (Tasks.await _) _ = _ => rewrite run_await; reflexivity
  | |- Tasks.run (Tasks.tret _) _ = _ => reflexivity
  | |- Tasks.run (match ?x with _ => _ end) _ = _ => destruct x
  | |- _ => solve [auto with tasks]
  end.

Ltac run_steps := repeat run_step.

Lemma run_allocatePort cfg probe w :
  Tasks.run (Tasks.allocatePort cfg probe) w = PortManager.allocatePort cfg probe w.
Proof. apply run_await. Qed.

Lemma run_cleanupProject env projectPath w :
  Tasks.run (Tasks.cleanupProject env projectPath) w =
  ProjectGenerator.cleanupProject env projectPath w.
Proof. apply run_await. Qed.

Lemma run_waitForServerReady env port w :
  Tasks.run (Tasks.waitForServerReady env port) w =
  PresentationManager.waitForServerReady env port w.
Proof. apply run_await. Qed.

#[local] Hint Resolve run_allocatePort run_cleanupProject run_waitForServerReady : tasks.

Lemma run_createProjectWithoutDeps cfg env request w :
  Tasks.run (Tasks.createProjectWithoutDeps cfg env request) w =
  ProjectGenerator.createProjectWithoutDeps cfg env request w.
Proof.
  unfold Tasks.createProjectWithoutDeps, ProjectGenerator.createProjectWithoutDeps.
  run_steps.
Qed.

Lemma run_startSlidevProcess env projectPath port theme w :
  Tasks.run (Tasks.startSlidevProcess env projectPath port theme) w =
  PresentationManager.startSlidevProcess env projectPath port theme w.
Proof.
  unfold Tasks.startSlidevProcess, PresentationManager.startSlidevProcess.
  run_steps.
Qed.

#[local] Hint Resolve run_createProjectWithoutDeps run_startSlidevProcess : tasks.

Lemma run_attempt {A} (a : Async A) (m : M A) w :
  (∀ w', Tasks.run a w' = m w') →
  Tasks.run (Tasks.attempt a) w = PresentationManager.attempt m w.
Proof.
  intros Ha. unfold Tasks.attempt, PresentationManager.attempt. run_steps.
Qed.

Lemma run_rollback_start {A} env slidevProcess port projectPath error w :
  Tasks.run (@Tasks.rollback_start A env slidevProcess port projectPath error) w =
  PresentationManager.rollback_start env slidevProcess port projectPath error w.
Proof.
  unfold Tasks.rollback_start, PresentationManager.rollback_start. run_steps.
Qed.

#[local] Hint Resolve run_rollback_start : tasks.

Lemma run_startServer env projectPath port theme w :
  Tasks.run (Tasks.startServer env projectPath port theme) w =
  PresentationManager.startServer env projectPath port theme w.
Proof.
  unfold Tasks.startServer, PresentationManager.startServer.
  run_step; [apply run_attempt; intros; apply run_startSlidevProcess|].
  run_step; [run_steps|].
  run_step; [apply run_attempt; intros; apply run_waitForServerReady|].
  run_steps.
Qed.

#[local] Hint Resolve run_startServer : tasks.

Lemma run_createPresentation cfg env request w :
  Tasks.run (Tasks.createPresentation cfg env request) w =
  PresentationManager.createPresentation cfg env request w.
Proof.
  unfold Tasks.createPresentation, PresentationManager.createPresentation. run_steps.
Qed.

Lemma run_stopServer pid w :
  Tasks.run (Tasks.stopServer pid) w = PresentationManager.stopServer pid w.
Proof. unfold Tasks.stopServer, PresentationManager.stopServer. run_steps. Qed.

#[local] Hint Resolve run_stopServer : tasks.

Lemma run_deletePresentation env ident w :
  Tasks.run (Tasks.deletePresentation env ident) w =
  PresentationManager.deletePresentation env ident w.
Proof.
  unfold Tasks.deletePresentation, PresentationManager.deletePresentation. run_steps.
Qed.

#[local] Hint Resolve run_deletePresentation : tasks.

Lemma run_sweep env ids cleanedCount w :
  Tasks.run (Tasks.sweep env ids cleanedCount) w =
  PresentationManager.sweep env ids cleanedCount w.
Proof.
  revert cleanedCount w. induction ids as [|ident rest IH]; intros cleanedCount w;
    [done|].
  cbn [Tasks.sweep PresentationManager.sweep]. run_steps.
Qed.

#[local] Hint Resolve run_sweep : tasks.

Lemma run_cleanupExpired env w :
  Tasks.run (Tasks.cleanupExpired env) w = PresentationManager.cleanupExpired env w.
Proof. unfold Tasks.cleanupExpired, PresentationManager.cleanupExpired. run_steps. Qed.

Lemma run_shutdown_loop env ids w :
  Tasks.run (Tasks.shutdown_loop env ids) w = PresentationManager.shutdown_loop env ids w.
Proof.
  revert w. induction ids as [|ident rest IH]; intros w; [done|].
  cbn [Tasks.shutdown_loop PresentationManager.shutdown_loop]. run_steps.
Qed.

#[local] Hint Resolve run_shutdown_loop : tasks.

Lemma run_shutdown env w :
  Tasks.run (Tasks.shutdown env) w = PresentationManager.shutdown env w.
Proof. unfold Tasks.shutdown, PresentationManager.shutdown. run_steps. Qed.

(** *** Schedules *)

Lemma finish_forget {A} (t : Task A) :
  (Tasks.finish (Tasks.forget t)).1 = (Tasks.finish t).1.
Proof. unfold Tasks.forget. rewrite finish_continue. by destruct (Tasks.finish t). Qed.

(** A call that is never kept waiting is the call of [perform]. *)
Lemma start_perform cfg op w :
  (Tasks.finish (Tasks.start cfg op w)).1 = perform cfg op w.
Proof.
  destruct op; cbn [Tasks.start perform]; rewrite finish_forget;
    match goal with
    | |- (Tasks.finish (?a w)).1 = _ => change (Tasks.finish (a w)) with (Tasks.run a w)
    end.
  - by rewrite run_createPresentation.
  - by rewrite run_deletePresentation.
  - by rewrite run_cleanupExpired.
  - by rewrite run_shutdown.
  - by rewrite run_sync.
  - by rewrite run_sync.
Qed.

(** The youngest of the suspended calls, resumed until it has ended. *)
Lemma resume_until_finished cfg (t : Task unit) (pending : Pending) :
  ∃ n, fold_left (move cfg) (repeat (Resume (length pending)) n) (settle t pending []) =
       ((Tasks.finish t).1, pending).
Proof.
  unfold Pending in *. induction t as [w r|w resume IH].
  - exists 0. simpl. by rewrite app_nil_r.
  - destruct (IH w) as [n Hn]. exists (S n).
    cbn [repeat fold_left settle move fst snd Tasks.finish]. unfold Pending.
    rewrite lookup_app_r, Nat.sub_diag by lia. cbn [lookup list_lookup].
    rewrite take_app_length, drop_ge by (rewrite length_app; simpl; lia).
    exact Hn.
Qed.

(** The executions in which the calls follow one another are among the
    schedules. *)
Lemma reachable_schedule cfg w :
  reachable cfg w → ∃ moves, schedule cfg moves = (w, []).
Proof.
  induction 1 as [|w op _ [moves Hmoves]].
  - by exists [].
  - destruct (resume_until_finished cfg (Tasks.start cfg op w) []) as [n Hn].
    exists (moves ++ Call op :: repeat (Resume 0) n).
    unfold schedule in *. rewrite fold_left_app, Hmoves.
    cbn [fold_left move fst snd]. cbn [length] in Hn. rewrite Hn.
    by rewrite start_perform.
Qed.

(** ** The ceiling and the ports, with and without overlap *)

(** X7.  When the calls follow one another, each one completed
    before the next begins, then in every world the service reaches, by
    any sequence of creations, deletions, sweeps, shutdowns and requests
    to the two routes, the registry holds at most
    [maxConcurrentPresentations] instances (none when that number is not
    positive).  These executions are among the schedules of the event
    loop.  When calls overlap the ceiling does not hold: with room for one
    presentation, a creation that begins while another is suspended at its
    first [await] finds the registry empty as well, and both instances are
    registered. *)
Theorem registry_never_exceeds_capacity cfg :
  (∀ w, reachable cfg w →
     (Z.of_nat (size (instances w)) ≤ Z.max 0 (maxConcurrentPresentations cfg))%Z) ∧
  (∀ w, reachable cfg w → ∃ moves, schedule cfg moves = (w, [])) ∧
  (let moves := [Call (CreatePresentation calm_host hello_request);
                 Call (CreatePresentation later_host hello_request)] ++
                repeat (Resume 0) 22 in
   let begun := schedule one_slot_config (take 2 moves) in
   let ended := schedule one_slot_config moves in
   maxConcurrentPresentations one_slot_config = 1%Z ∧
   length begun.2 = 2 ∧ instances begun.1 = ∅ ∧
   ended.2 = [] ∧ size (instances ended.1) = 2 ∧
   (∃ i, instances ended.1 !! "slidev-V1StGXR8_Z5j" = Some i) ∧
   (∃ i, instances ended.1 !! "slidev-Uakgb_J5m9g-" = Some i)).
Proof.
  split; [apply sequential_within_capacity|]. split; [apply reachable_schedule|].
  cbv zeta. split; [reflexivity|]. split; [by vm_compute|]. split; [by vm_compute|].
  split; [by vm_compute|]. split; [by vm_compute|].
  split; eexists; vm_compute; reflexivity.
Qed.

Lemma registry_never_exceeds_capacity_witness :
  reachable createDefaultConfig two_ready ∧
  (Z.of_nat (size (instances two_ready)) ≤ 10)%Z.
Proof.
  assert (reachable createDefaultConfig two_ready) as Hreach.
  { apply (reachable_step createDefaultConfig one_ready
             (CreatePresentation later_host hello_request)).
    apply (reachable_step createDefaultConfig initialWorld
             (CreatePresentation calm_host hello_request)).
    apply reachable_start. }
  split; [exact Hreach|].
  exact (proj1 (registry_never_exceeds_capacity createDefaultConfig) two_ready Hreach).
Defined.

(** X13.  When the calls follow one another, each one completed
    before the next begins, and the host never fails to remove a
    directory, the port of every registered instance is allocated and lies
    in the configured range, and no two instances share a port, a
    directory or a process.  When calls overlap this does not hold, on
    hosts that remove every directory: a deletion is suspended for its
    second of grace; the sweep begins, finds the same instance, releases
    its port and is suspended at the removal of the directory; a creation
    under way is given that port; the deletion is resumed and releases the
    port again.  The new instance is registered with a port that is not
    allocated. *)
Theorem instances_own_ports cfg :
  (∀ w, reachable_when removes_directories cfg w →
     (∀ ident i,
        PresentationManager.getPresentation ident w = Some i →
        PortManager.isPortAllocated (port i) w = true ∧
        (PortManager.startPort cfg ≤ port i)%Z ∧ (port i ≤ PortManager.endPort cfg)%Z) ∧
     separate w) ∧
  (let moves := [Call (CreatePresentation calm_host hello_request)] ++
                repeat (Resume 0) 11 ++
                [Call (CreatePresentation reuse_host hello_request)] ++
                repeat (Resume 0) 8 ++
                [Call (DeletePresentation later_host "slidev-V1StGXR8_Z5j");
                 Call (CleanupExpired later_host);
                 Resume 0; Resume 1; Resume 1; Resume 1; Resume 0; Resume 0] in
   let ended := schedule createDefaultConfig moves in
   Forall removes_directories (hosts_of moves) ∧
   (schedule createDefaultConfig (take 12 moves)).1 = one_ready ∧
   ended.2 = [] ∧
   ∃ i, PresentationManager.getPresentation "slidev-Uakgb_J5m9g-" ended.1 = Some i ∧
        port i = 3002%Z ∧
        PortManager.isPortAllocated (port i) ended.1 = false).
Proof.
  split; [intros w; apply sequential_own_ports|].
  cbv zeta. split.
  { cbn. repeat constructor. }
  split; [by vm_compute|]. split; [by vm_compute|].
  eexists. split; [vm_compute; reflexivity|]. split; [reflexivity|]. by vm_compute.
Qed.

Lemma instances_own_ports_witness :
  reachable_when removes_directories createDefaultConfig two_ready ∧
  PortManager.isPortAllocated (port later_instance) two_ready = true ∧
  separate two_ready.
Proof.
  assert (reachable_when removes_directories createDefaultConfig two_ready) as Hreach.
  { apply (reachable_when_step _ createDefaultConfig one_ready
             (CreatePresentation later_host hello_request)); [|by intros ?].
    apply (reachable_when_step _ createDefaultConfig initialWorld
             (CreatePresentation calm_host hello_request)); [|by intros ?].
    apply reachable_when_start. }
  destruct (proj1 (instances_own_ports createDefaultConfig) two_ready Hreach)
    as [Hheld Hsep].
  split; [exact Hreach|]. split; [|exact Hsep].
  exact (proj1 (Hheld "slidev-Uakgb_J5m9g-" later_instance eq_refl)).
Defined.

(** ** The sweep and the instances it leaves *)

(** C4 (as amended).  One run of [cleanupExpired] never throws and treats
    each instance on its own: an instance whose [expiresAt] is not after
    the time read at the start of the sweep has its port released and,
    when the host removes its directory, leaves the map with its
    directory; when the removal fails it stays in the map, whatever
    happens to the others.  An instance that has not expired keeps its map
    entry, and, instances working in the directory of their id with a
    process of their own (as they do in every world that calls following
    one another reach), its directory and its process.  A port is
    allocated after the sweep exactly when it was allocated before and no
    expired instance records it: the port of an instance that has not
    expired is released when an expired instance records the same port.
    No directory and no process but those of expired instances is
    touched.  When no removal fails the sweep removes exactly the expired
    instances, and a second run at the same time returns 0 and changes
    nothing but the log. *)
Theorem cleanupExpired_sweeps_expired cfg env w :
  let r := PresentationManager.cleanupExpired env w in
  let expired := λ i, ∃ ident, instances w !! ident = Some i ∧ (expiresAt i ≤ now env)%Z in
  (∃ n, r.2 = inr n) ∧
  (∀ ident, instances w !! ident = None → instances r.1 !! ident = None) ∧
  (∀ ident i, instances w !! ident = Some i →
     if decide (expiresAt i ≤ now env)%Z
     then instances r.1 !! ident =
            (if decide (remove_fault env (projectPath i) = None) then None else Some i) ∧
          (port i ∉ allocatedPorts r.1) ∧
          (remove_fault env (projectPath i) = None → disk r.1 !! projectPath i = None)
     else instances r.1 !! ident = Some i ∧
          (well_keyed cfg w → own_processes w →
           disk r.1 !! projectPath i = disk w !! projectPath i ∧
           procs r.1 !! server i = procs w !! server i)) ∧
  (∀ p, p ∈ allocatedPorts r.1 ↔
        p ∈ allocatedPorts w ∧ ∀ i, expired i → port i ≠ p) ∧
  (∀ path, (∀ i, expired i → projectPath i ≠ path) →
           disk r.1 !! path = disk w !! path) ∧
  (∀ pid, (∀ i, expired i → server i ≠ pid) → procs r.1 !! pid = procs w !! pid) ∧
  ((∀ path, remove_fault env path = None) →
     removes_exactly_expired env w ∧
     ∀ env', now env' = now env →
       (PresentationManager.cleanupExpired env' r.1).2 = inr 0 ∧
       same_resources r.1 (PresentationManager.cleanupExpired env' r.1).1).
Proof.
  destruct (cleanupExpired_run env w) as ((n & Hn & _) & Hnone & Heach).
  destruct (cleanupExpired_resources env w) as (Hports & Hdisk & Hprocs).
  cbv zeta in *. split; [eauto|]. split; [done|]. split; [|split; [|split; [|split]]].
  - intros ident i Hlook. specialize (Heach ident i Hlook).
    destruct (decide (expiresAt i ≤ now env)%Z) as [Hold|Hfresh]; [done|].
    destruct Heach as [Hkept _]. split; [done|]. intros Hkeyed Hown. split.
    + apply Hdisk. intros ident' i' Hlook' Hexp' Hpath.
      assert (ident' ≠ ident) as Hne by (intros ->; simplify_eq; lia).
      destruct (Hkeyed ident i Hlook) as (_ & Hp & _).
      destruct (Hkeyed ident' i' Hlook') as (_ & Hp' & _).
      rewrite Hp, Hp' in Hpath. by apply join_path_inj in Hpath.
    + apply Hprocs. intros ident' i' Hlook' Hexp'.
      assert (ident' ≠ ident) as Hne by (intros ->; simplify_eq; lia).
      by apply (Hown ident' ident i' i).
  - intros p. rewrite Hports. split; intros [Hin Hne]; (split; [done|]).
    + intros i (ident & Hlook & Hexp). by apply (Hne ident i).
    + intros ident i Hlook Hexp. apply Hne. by exists ident.
  - intros path Hne. apply Hdisk. intros ident i Hlook Hexp. apply Hne. by exists ident.
  - intros pid Hne. apply Hprocs. intros ident i Hlook Hexp. apply Hne. by exists ident.
  - intros Hall. split.
    + intros ident. destruct (instances w !! ident) as [i|] eqn:Hlook.
      * specialize (Heach ident i Hlook). destruct (decide (expiresAt i ≤ now env)%Z).
        -- destruct Heach as [-> _]. by rewrite decide_True.
        -- by destruct Heach as [-> _].
      * by apply Hnone.
    + intros env' Hnow.
      set (w1 := (PresentationManager.cleanupExpired env w).1).
      rewrite (cleanupExpired_eq env' w1), Hnow.
      unfold w1. rewrite (cleanupExpired_leaves_none env w Hall). by repeat split.
Qed.

Lemma cleanupExpired_sweeps_expired_witness :
  (∀ path, remove_fault later_host path = None) ∧
  well_keyed createDefaultConfig two_ready ∧ own_processes two_ready ∧
  instances two_ready !! "slidev-V1StGXR8_Z5j" = Some hello_instance ∧
  instances two_ready !! "slidev-Uakgb_J5m9g-" = Some later_instance ∧
  (let r := PresentationManager.cleanupExpired later_host two_ready in
   instances r.1 !! "slidev-V1StGXR8_Z5j" = None ∧
   instances r.1 !! "slidev-Uakgb_J5m9g-" = Some later_instance ∧
   disk r.1 !! projectPath later_instance = disk two_ready !! projectPath later_instance ∧
   procs r.1 !! server later_instance = procs two_ready !! server later_instance ∧
   (port hello_instance ∉ allocatedPorts r.1) ∧
   removes_exactly_expired later_host two_ready ∧
   (PresentationManager.cleanupExpired later_host r.1).2 = inr 0).
Proof.
  assert (reachable createDefaultConfig two_ready) as Hreach.
  { apply (reachable_step createDefaultConfig one_ready
             (CreatePresentation later_host hello_request)).
    apply (reachable_step createDefaultConfig initialWorld
             (CreatePresentation calm_host hello_request)).
    apply reachable_start. }
  destruct (reachable_keyed _ _ Hreach) as [Hkeyed Hown].
  split; [reflexivity|]. split; [exact Hkeyed|]. split; [exact Hown|].
  split; [reflexivity|]. split; [reflexivity|].
  destruct (cleanupExpired_sweeps_expired createDefaultConfig later_host two_ready)
    as (_ & _ & Heach & _ & _ & _ & Hclean).
  destruct (Hclean (λ _, eq_refl)) as [Hexact Hagain].
  pose proof (Heach "slidev-V1StGXR8_Z5j" hello_instance eq_refl) as (Hgone & Hport & _).
  destruct (Heach "slidev-Uakgb_J5m9g-" later_instance eq_refl) as [Hkept Hrest].
  destruct (Hrest Hkeyed Hown) as [Hdir Hproc].
  cbv zeta. split; [exact Hgone|]. split; [exact Hkept|]. split; [exact Hdir|].
  split; [exact Hproc|]. split; [exact Hport|]. split; [exact Hexact|].
  exact (proj1 (Hagain later_host eq_refl)).
Defined.

(** The port of an instance that has not expired can be released by the
    sweep, in a world the service reaches: the directory of an expired
    instance cannot be removed, so the instance stays in the map while its
    port, 3002, is released; a creation then gets that port; the next
    sweep deletes the expired instance again, and releases the port that
    the new instance now holds. *)
Lemma cleanupExpired_releases_reused_port :
  let w := (PresentationManager.createPresentation createDefaultConfig reuse_host
              hello_request
              (PresentationManager.cleanupExpired busy_disk_host one_ready).1).1 in
  let r := PresentationManager.cleanupExpired later_host w in
  reachable createDefaultConfig w ∧
  (∃ i, instances w !! "slidev-Uakgb_J5m9g-" = Some i ∧
        port i = 3002%Z ∧ (now later_host < expiresAt i)%Z ∧
        (port i ∈ allocatedPorts w) ∧
        instances w !! "slidev-V1StGXR8_Z5j" = Some hello_instance ∧
        port hello_instance = port i ∧
        instances r.1 !! "slidev-Uakgb_J5m9g-" = Some i ∧
        (port i ∉ allocatedPorts r.1)) ∧
  ¬ separate w.
Proof.
  cbv zeta. split.
  { apply (reachable_step createDefaultConfig _
             (CreatePresentation reuse_host hello_request)).
    apply (reachable_step createDefaultConfig one_ready (CleanupExpired busy_disk_host)).
    apply (reachable_step createDefaultConfig initialWorld
             (CreatePresentation calm_host hello_request)).
    apply reachable_start. }
  split.
  { eexists. split; [vm_compute; reflexivity|]. split; [reflexivity|].
    split; [by vm_compute|]. split.
    { apply (bool_decide_unpack _). vm_compute. exact I. }
    split; [vm_compute; reflexivity|]. split; [reflexivity|].
    split; [vm_compute; reflexivity|].
    apply (bool_decide_unpack _). vm_compute. exact I. }
  apply (bool_decide_unpack _). vm_compute. exact I.
Qed.

(** ** Registration *)

(** C9.  In every world the service can reach, whatever [getPresentation]
    or [getAllPresentations] returns is in the state [ready]; a creation
    that throws leaves the map as it was, and a creation that returns has
    added one instance, in the state [ready], under the id it answers.
    The map changes only when the process has printed its readiness line
    and one of the sixty requests of the readiness wait was answered: the
    instance is then registered [ready], with its process running.  When
    the process does not get ready, or no request is answered, the
    creation throws and [getPresentation] and [getAllPresentations] answer
    as before it. *)
Theorem registry_holds_only_ready cfg :
  (∀ w, reachable cfg w →
     (∀ ident instance,
        PresentationManager.getPresentation ident w = Some instance →
        status instance = StReady) ∧
     Forall (λ instance, status instance = StReady)
            (PresentationManager.getAllPresentations w)) ∧
  (∀ env req w,
     let r := PresentationManager.createPresentation cfg env req w in
     match r.2 with
     | inl _ => instances r.1 = instances w
     | inr response =>
         ∃ instance, instances r.1 = <[res_id response := instance]> (instances w) ∧
                     status instance = StReady
     end) ∧
  (∀ env req w,
     let r := PresentationManager.createPresentation cfg env req w in
     instances r.1 ≠ instances w →
     spawn_outcome env = SpawnReady ∧
     PresentationManager.probe (fetch_ok env) 0 60 = true ∧
     ∃ response instance,
       r.2 = inr response ∧
       instances r.1 = <[res_id response := instance]> (instances w) ∧
       status instance = StReady ∧
       procs r.1 !! server instance = Some running) ∧
  (∀ env req w,
     let r := PresentationManager.createPresentation cfg env req w in
     spawn_outcome env ≠ SpawnReady ∨
     PresentationManager.probe (fetch_ok env) 0 60 = false →
     (∃ e, r.2 = inl e) ∧
     (∀ ident, PresentationManager.getPresentation ident r.1 =
               PresentationManager.getPresentation ident w) ∧
     PresentationManager.getAllPresentations r.1 =
       PresentationManager.getAllPresentations w).
Proof.
  split; [|split; [|split]].
  - intros w Hw. apply reachable_all_ready in Hw. split.
    + intros ident instance Hlook. by apply (map_Forall_lookup_1 _ _ _ _ Hw Hlook).
    + apply Forall_forall. intros instance Hin.
      unfold PresentationManager.getAllPresentations in Hin.
      apply list_elem_of_fmap in Hin as ([ident i] & -> & Hin).
      apply elem_of_map_to_list in Hin. by apply (map_Forall_lookup_1 _ _ _ _ Hw Hin).
  - intros env req w. pose proof (create_registry cfg env req w) as Hreg. cbv zeta in *.
    destruct ((PresentationManager.createPresentation cfg env req w).2) as [e|response];
      [done|].
    destruct Hreg as (instance & Hinst & Hst & _ & _ & Hid). exists instance.
    by rewrite Hid.
  - intros env req w. cbv zeta. intros Hchanged.
    pose proof (create_registry cfg env req w) as Hreg. cbv zeta in Hreg.
    destruct ((PresentationManager.createPresentation cfg env req w).2)
      as [e|response] eqn:Hres; [done|]. clear Hreg.
    destruct (create_success cfg env req w response Hres)
      as (p & _ & _ & _ & _ & _ & Hspawn & Hprobe & Hinst & _ & Hprocs & _ & _ & ->).
    split; [done|]. split; [done|].
    eexists _, _. split; [reflexivity|]. split; [exact Hinst|]. split; [reflexivity|].
    rewrite Hprocs. cbn [server]. by rewrite lookup_app_r, Nat.sub_diag.
  - intros env req w. cbv zeta. intros Hfails.
    pose proof (create_registry cfg env req w) as Hreg. cbv zeta in Hreg.
    destruct ((PresentationManager.createPresentation cfg env req w).2)
      as [e|response] eqn:Hres.
    + split; [by eexists|].
      unfold PresentationManager.getPresentation, PresentationManager.getAllPresentations.
      by rewrite Hreg.
    + destruct (create_success cfg env req w response Hres)
        as (p & _ & _ & _ & _ & _ & Hspawn & Hprobe & _).
      destruct Hfails as [Hno|Hno]; congruence.
Qed.

Lemma registry_holds_only_ready_witness :
  reachable createDefaultConfig one_ready ∧
  PresentationManager.getPresentation "slidev-V1StGXR8_Z5j" one_ready = Some hello_instance ∧
  status hello_instance = StReady ∧
  instances one_ready ≠ instances initialWorld ∧
  spawn_outcome calm_host = SpawnReady ∧
  PresentationManager.probe (fetch_ok calm_host) 0 60 = true.
Proof.
  assert (reachable createDefaultConfig one_ready) as Hreach.
  { apply (reachable_step createDefaultConfig initialWorld
             (CreatePresentation calm_host hello_request)).
    apply reachable_start. }
  assert (instances one_ready ≠ instances initialWorld) as Hchanged.
  { intros Heq. apply (f_equal (λ m, m !! "slidev-V1StGXR8_Z5j")) in Heq.
    vm_compute in Heq. discriminate Heq. }
  split; [exact Hreach|]. split; [reflexivity|].
  split.
  { exact (proj1 (proj1 (registry_holds_only_ready createDefaultConfig) one_ready Hreach)
             "slidev-V1StGXR8_Z5j" hello_instance eq_refl). }
  split; [exact Hchanged|].
  destruct (proj1 (proj2 (proj2 (registry_holds_only_ready createDefaultConfig)))
              calm_host hello_request initialWorld Hchanged) as (Hspawn & Hprobe & _).
  split; [exact Hspawn|exact Hprobe].
Defined.
